(* ===== verification/_CoqProject ===== *)
-Q . S2P
Prelude.v
GoStd.v
Bitmap.v
IdAlloc.v
GoNet.v
Ipam.v
Model.v
VppAgent.v
State.v
RenderTxn.v
Utils.v
SysParms.v
IpamPool.v
PodNodeMap.v
Interfaces.v
EntityTxn.v
NetworkNode.v
Overlay.v
ServiceIf.v
HostNames.v
OverlayRender.v
ServiceL2.v
ServiceL3.v
NetworkService.v
Types.v
Controller.v
Frontend.v
MessageLoop.v
Mirror.v
Stored.v
Loaded.v
System.v
Restart.v
GoHeap.v
DeepCopy.v
K8sObjects.v
Workqueue.v
K8sCrd.v
K8sLive.v
Clients.v
Wiring.v
