(* ===== verification/Prelude.v ===== *)
(** * A model of the SFC controller

    The controller turns a configuration of nodes, overlays, address pools and network
    services into entries for the vpp agents of the nodes (interfaces, bridge domains,
    cross connects, routes, ARP entries, Linux interfaces), which it writes to etcd.  The
    configuration arrives through a file, REST requests, Kubernetes custom resources and
    etcd itself.  This library translates the Go code under src/plugins into executable
    definitions and proves what they promise.

    ** Parts and files

    Foundations:
    - [Prelude]: the monad of state and panics, errors as values, heaps of shared objects,
      iteration over maps, the proof calculus.
    - [GoStd], [GoNet]: what is used of Go's strings, fmt, strconv, sort and net.

    Allocators, src/plugins/controller/idapi:
    - [Bitmap] (bitmap/bitmap.go), [IdAlloc] (mac_addr.go, memif.go, vrf.go, vxlan.go; class
      [Counter] is what the 32-bit counters promise), [Ipam] (ipam/ipam.go).

    Data and state:
    - [Model]: src/plugins/controller/model, the messages and constants.
    - [VppAgent]: vppagent/vpp_agent.go, keys.go and database.go: the entries, their keys,
      when two are equal.
    - [State]: [World], all variables of the controller (plugin_impl_controller.go, the
      caches of the managers, the transaction) with etcd and the heaps; class [Env], the
      environment; database/database.go and the other half of vppagent/database.go.
    - [RenderTxn]: rendertxn.go, the transaction that collects rendered entries and
      writes what changed.
    - [Utils]: utils.go.

    Managers and renderers, a file of src/plugins/controller each where nothing else is said:
    - [SysParms] (sysparms.go), [IpamPool] (ipampool.go), [PodNodeMap]
      (networkpodnodemap.go), [Interfaces] (interfaces.go), [NetworkNode] (networknode.go),
      [Overlay] (networknodeoverlay.go).
    - [EntityTxn]: no code, but what holds while a node or service renders into its level
      of the transaction.
    - [ServiceIf] and [HostNames] (networkservice_if.go, and the bridges of
      networkservice.go), [OverlayRender] (networknodeoverlay_vxlanmesh.go and
      networknodeoverlay_vxlanhubandspoke.go), [ServiceL2] (networkservice_l2pp.go,
      networkservice_l2mp.go), [ServiceL3] (networkservice_l3pp.go, networkservice_l3mp.go),
      [NetworkService] (networkservice.go).
    - [Types]: no code, but a type system for the configuration, which the [validate]
      functions of the managers are shown to decide.

    The plugin:
    - [Controller]: plugin_impl_controller.go, model_mgrs.go, sfc_config_yaml.go: start-up,
      the rendering of everything in one transaction, one message of the loop.
    - [Frontend]: the REST handlers, watchers and route tables of the managers, [AfterInit], the
      YAML dump.
    - [MessageLoop]: no code of its own, the loop over any sequence of messages.
    - [Mirror]: no code, but what it means that etcd holds the configuration of the caches and that
      rendered entries are elsewhere; [Stored]: messages and renderings keep it so; [Loaded]: what a
      start-up makes of such an etcd.
    - [System]: the loop, the requests, the watchers, the ticker and the start-up as goroutines that
      wait for each other on the message channel.
    - [Restart]: no code of its own, processes one after the other, each started on what the one before
      left in etcd.

    Messages as objects:
    - [GoHeap]: structs, slices and maps at locations, the statements of a deep copy, and when an
      object is a deep copy of another.
    - [DeepCopy]: model/zz_generated.deepcopy.go.
    - [K8sObjects]: the deep copies of the custom resources
      (k8scrd/pkg/apis/sfccontroller/v1alpha1/zz_generated.deepcopy.go), and what status updates and syncs write to
      the objects of the informer's store.

    Kubernetes, src/plugins/k8scrd:
    - [Workqueue]: the queue of client-go as the controller uses it.
    - [K8sCrd], [K8sLive]: crd_controller.go, the conversions of the four resources, model_mgrs.go,
      the informer's events and the workers as a step relation.
    - [Clients]: pkg/client/clientset and pkg/client/listers, the requests of the typed clients and the
      listers on the store.
    - [Wiring]: pkg/client/informers, the wiring of [NewController] and [Run], the start of the plugin
      (plugin_impl_k8scrd.go, pkg/signals), the options of both plugins, and sfc_controller.go, in which
      the plugin of Kubernetes is commented out.

    ** How the code is translated

    A method is a function of the Go state into [outcome]: a result and a new state, or
    [Panic], the end of the process (nil dereference, index out of range, assignment to a nil
    map, [log.Fatal]).  An error is its text.  Integers are [Z] with their wrap-around
    written out; IP addresses and identifiers keep their width.  Maps are finite maps; the
    order in which [range] visits one is [shuffle] of class [Env], at a time that every
    iteration advances, so that a theorem holds for every order.  [Env] also says which reads and writes
    of etcd fail.  Objects that several structures point to and that change in place (interface
    states, bridge domains) are locations of heaps in [World]; the other cached objects have
    one owner and are named by their key in its cache.  The channel of the message loop has no
    buffer: its length is always 0, and a sender waits until its message is received.  A
    request is one step, as if the caches were locked, which the code does not do.

    Proofs are in a weakest-precondition style: [wlp] speaks of the runs that return,
    [wpp] excludes the panics too, [keeps I m] says that [m] keeps the invariant [I], [reads m] that it
    changes nothing but the time.  What a piece of code keeps is shown once, for any invariant
    that allows what it does ([State.framed], [IpamPool.ipam_free], [Interfaces.interface_free],
    [Interfaces.stores_status]; class [ServiceIf.ServiceInvariant] for the renderers of services, with the
    instances [ServiceIf.service_rendering], the level of the transaction, and [Mirror.held], the
    configuration in etcd); the invariants of a rendering and of the loop are [Controller.between] and
    [MessageLoop.looped].

    ** What is shown

    - The system: after any interleaving of requests, watchers, ticker and start-up with the
      loop, and after any sequence of messages, an enabled renderer has rendered the state
      ([interleavings_render], [enabled_means_rendered]); a rendering leaves in etcd what the
      statuses of nodes and services say ([render_transaction_reconciles]); nodes and services
      are rendered as a whole or not at all ([renderConfig_all_or_nothing],
      [renderConfig_service]); a transaction writes exactly the difference and nothing when nothing
      changed, and what a failed write leaves behind is stated ([RenderTxnConfigEnd_reconciles],
      [RenderTxnConfigEnd_idempotent], [RenderTxnConfigEnd_error]).
    - Requests: an accepted object is the one that is found again ([post_is_got]); a deletion is
      idempotent ([deletion_echo]), but the watcher's late echo of it deletes what was created in
      between ([late_echo_deletes]).
    - At every moment of any number of processes that follow each other etcd holds the configuration of
      the caches, and a restart brings it back ([config_survives_restart]); the new process knows the
      entries that were rendered, and rendering leaves none behind ([restart_leaves_no_orphans]), but when the
      old process ended between an update and its rendering, the entries are forgotten
      ([update_then_restart_forgets]); MAC addresses and memif identifiers in use are not given out again, vrfs are
      ([restart_skips_used_ids]).
    - Validation decides the typing judgements ([service_validate_decides],
      [node_validate_decides]).
    - Kubernetes: no version of a resource is lost, a key has one worker, and the controller
      comes to rest ([no_version_lost], [one_worker_per_key], [controller_comes_to_rest]); each kind has one
      informer, whose store its lister reads and whose events its workers handle, which is what the step relation
      takes for granted ([NewController_wires]); the clients address the resources that the controller has
      defined ([clients_address_resources]).
    - Deep copies are deep but for four fields of interfaces, which came later
      ([DeepCopy_copies], [Interface_DeepCopy_shares]); status updates leave the informer's store alone
      ([status_update_spares_store]), but the sync of a node writes the parents of its interfaces into it
      ([sync_writes_store]), and only because of that is the node not sent again ([sync_converges]).
    - Allocators: the bitmap is a set, identifiers and addresses are distinct, in range and available
      while there are free ones, and addresses can be read back.
    - Entries: keys determine entries, equality decides what it should, the order of
      collection does not matter.
    - Managers: how parameters, pools and placements are updated and deleted, how interface states are
      prepared, and the cases in which this goes wrong (the theorems of kind error).

    ** Bounds and fuel

    The scans of [Ipam.AllocateIPAddress] run on wrapping counters and take fuel, one round more
    than there are allocated identifiers; [Ipam.scan_enough_fuel] shows that it is never used up
    but by a pool that has no end.  The search of the bitmap goes through its words, which are
    finitely many.  The rounds of [Wiring.ParseDuration] have the length of the text as fuel
    ([Wiring.duration_parts_fuel]).  No other definition has fuel.  The message loop and the Kubernetes controller
    do not end; they are a fold over messages and step relations, and
    [controller_comes_to_rest] bounds the steps the controller makes without new events.

    ** Not modelled

    - Logging, metrics, command line flags, the status check, the text of JSON and YAML, the
      registration of routes with the HTTP server: input and output of libraries.  Requests are
      modelled from the parsed body to the object of the answer, the YAML file and the dump as
      what was read and what is written.
    - Generated code that does no work of the controller: the methods of controller.pb.go, the deep copies of
      lists of resources, the fake clients for tests, the registration of types with the scheme.
    - The managers keep messages as values: that the interfaces of a node are shared between
      the informer's store and the cache of the manager is stated in [K8sObjects] only, for what the
      validation writes.
    - vendor/: etcd, protobuf, and client-go but for its queue, its request builder and its listers.  etcd
      is a map whose operations may fail; the API server's answers are parameters.
    - Races between requests and the message loop on one cache, which the code leaves unlocked, and a
      process that ends in the middle of a message, but for the end between an update and its rendering. *)

From stdpp Require Export base gmap strings list pretty sorting.
From Stdlib Require Export ZArith Lia Ascii.

Open Scope Z_scope.

(** * The effect monad

    Go code that mutates the object behind a pointer receiver, or the global
    [ctlrPlugin], is a function of the state.  [Panic] is a Go run-time panic
    (nil dereference, index out of range, assignment to a nil map,
    [log.Fatal]): the process is gone and there is no state after it. *)
Inductive outcome (S A : Type) : Type :=
| Done (a : A) (s : S)
| Panic.

Arguments Done {S A} a s.
Arguments Panic {S A}.

Definition M (S A : Type) : Type := S -> outcome S A.

Definition mret {S A} (a : A) : M S A := fun s => Done a s.

Definition mbnd {S A B} (m : M S A) (k : A -> M S B) : M S B :=
  fun s => match m s with Done a s' => k a s' | Panic => Panic end.

Definition panic {S A} : M S A := fun _ => Panic.

Definition get {S A} (f : S -> A) : M S A := fun s => Done (f s) s.

Definition modify {S} (f : S -> S) : M S unit := fun s => Done tt (f s).

(** Dereference of a pointer that may be nil, or an index that may be out of range. *)
Definition deref {S A} (o : option A) : M S A :=
  match o with Some a => mret a | None => panic end.

(** [for _, x := range l { body }] over a slice, without early return. *)
Fixpoint forM {S A} (l : list A) (body : A -> M S unit) : M S unit :=
  match l with
  | [] => mret tt
  | x :: l => mbnd (body x) (fun _ => forM l body)
  end.

(** Runs a computation on a part of the state (a method called on an object
    that lives inside a larger one). *)
Definition zoom {S T A} (prj : S -> T) (upd : T -> S -> S) (m : M T A) : M S A :=
  fun s => match m (prj s) with Done a t => Done a (upd t s) | Panic => Panic end.

(** * Errors as values

    A Go [error] result is its text; a function returning [(T, error)] is a
    computation returning [result T], one returning [error] is [result unit]. *)
Definition error : Type := string.

Definition result (A : Type) : Type := (error + A)%type.

Definition Err {A} (e : error) : result A := inl e.

Definition Ok {A} (a : A) : result A := inr a.

Definition mfail {S A} (e : error) : M S (result A) := mret (Err e).

Definition mok {S A} (a : A) : M S (result A) := mret (Ok a).

(** [x, err := m; if err != nil { return err }; k x] *)
Definition rbnd {S A B} (m : M S (result A)) (k : A -> M S (result B)) : M S (result B) :=
  mbnd m (fun r => match r with inl e => mfail e | inr a => k a end).

(** A range loop whose body may return an error out of the function. *)
Fixpoint forR {S A} (l : list A) (body : A -> M S (result unit)) : M S (result unit) :=
  match l with
  | [] => mok tt
  | x :: l => rbnd (body x) (fun _ => forR l body)
  end.

(** A range loop that threads a local variable. *)
Fixpoint foldM {S A B} (l : list A) (b : B) (body : B -> A -> M S B) : M S B :=
  match l with
  | [] => mret b
  | x :: l => mbnd (body b x) (fun b => foldM l b body)
  end.

(** The same, with a body that may return an error out of the function. *)
Fixpoint foldR {S A B} (l : list A) (b : B) (body : B -> A -> M S (result B)) : M S (result B) :=
  match l with
  | [] => mok b
  | x :: l => rbnd (body b x) (fun b => foldR l b body)
  end.

Declare Scope go_scope.
Delimit Scope go_scope with go.

Notation "'let!' x := m 'in' k" := (mbnd m (fun x => k))
  (at level 10, x binder, k at level 200) : go_scope.
Notation "'let?' x := m 'in' k" := (rbnd m (fun x => k))
  (at level 10, x binder, k at level 200) : go_scope.
Notation "m ;;; k" := (mbnd m (fun _ => k))
  (at level 100, right associativity) : go_scope.
Notation "m ;;? k" := (rbnd m (fun _ => k))
  (at level 100, right associativity) : go_scope.

Open Scope go_scope.

(** * Shared objects

    A Go pointer to an object that several structures share is a [loc]; the
    objects live in a [heap].  A fresh object takes the next location. *)
Definition loc : Type := Z.

Record heap (A : Type) : Type := mkHeap { cells : gmap loc A; next_loc : loc }.

Arguments mkHeap {A} cells next_loc.
Arguments cells {A} h.
Arguments next_loc {A} h.

Definition empty_heap {A} : heap A := mkHeap ∅ 0.

Definition heap_new {A} (a : A) : M (heap A) loc :=
  fun h => Done (next_loc h) (mkHeap (<[next_loc h := a]> (cells h)) (next_loc h + 1)).

Definition heap_read {A} (l : loc) : M (heap A) A :=
  fun h => match cells h !! l with Some a => Done a h | None => Panic end.

Definition heap_write {A} (l : loc) (a : A) : M (heap A) unit :=
  fun h => match cells h !! l with
           | Some _ => Done tt (mkHeap (<[l := a]> (cells h)) (next_loc h))
           | None => Panic
           end.

(** * Partial-correctness triples

    [triple P m Q]: from a state in [P], if the code does not panic, it ends in
    [Q].  [keeps I m]: the code preserves the invariant [I].  [safe P m Q] is
    the total version: the code neither panics nor leaves [Q]. *)
Definition triple {S A} (P : S -> Prop) (m : M S A) (Q : A -> S -> Prop) : Prop :=
  forall s, P s -> match m s with Done a s' => Q a s' | Panic => True end.

Definition keeps {S A} (I : S -> Prop) (m : M S A) : Prop :=
  triple I m (fun _ s => I s).

Definition safe {S A} (P : S -> Prop) (m : M S A) (Q : A -> S -> Prop) : Prop :=
  forall s, P s -> match m s with Done a s' => Q a s' | Panic => False end.

(** * Machine integers *)
Definition u32_mod : Z := 2 ^ 32.

Definition u64_mod : Z := 2 ^ 64.

Definition u32 (z : Z) : Z := z mod u32_mod.

Definition u64 (z : Z) : Z := z mod u64_mod.

Definition is_u32 (z : Z) : Prop := 0 <= z < u32_mod.

(** * Strings *)
Definition slash : string := "/".

(** The bytes of a string, and the string of a list of bytes. *)
Definition bytes_of (s : string) : list Ascii.ascii := String.list_ascii_of_string s.

Definition of_bytes (l : list Ascii.ascii) : string := String.string_of_list_ascii l.

Definition slen (s : string) : nat := String.length s.

(** [%d] of an unsigned or signed integer. *)
Definition dec (z : Z) : string := pretty z.

(** * Automation *)
Create HintDb keeps.

Create HintDb reads.

Create HintDb go.

Create Rewrite HintDb gorw.

Lemma triple_ret {S A} (P : S -> Prop) (a : A) Q :
  (forall s, P s -> Q a s) -> triple P (mret a) Q.
Proof. intros H s Hs. by apply H. Qed.

Lemma triple_bind {S A B} (P : S -> Prop) (m : M S A) R (k : A -> M S B) Q :
  triple P m R -> (forall a, triple (R a) (k a) Q) -> triple P (mbnd m k) Q.
Proof.
  intros Hm Hk s Hs. unfold mbnd. specialize (Hm s Hs).
  destruct (m s) as [a s'|]; [|done]. by apply Hk.
Qed.

Lemma triple_conseq {S A} (P P' : S -> Prop) (m : M S A) Q Q' :
  triple P' m Q' -> (forall s, P s -> P' s) -> (forall a s, Q' a s -> Q a s) ->
  triple P m Q.
Proof.
  intros Hm HP HQ s Hs. specialize (Hm s (HP s Hs)).
  destruct (m s); [by apply HQ|done].
Qed.

Section keeps.
Context {S : Type} (I : S -> Prop).

Lemma keeps_ret {A} (a : A) : keeps I (mret a).
Proof. by intros s Hs. Qed.

Lemma keeps_bind {A B} (m : M S A) (k : A -> M S B) :
  keeps I m -> (forall a, keeps I (k a)) -> keeps I (mbnd m k).
Proof. intros Hm Hk. eapply triple_bind; [exact Hm|]. intros a. apply Hk. Qed.

Lemma keeps_panic {A} : keeps I (@panic S A).
Proof. by intros s Hs. Qed.

Lemma keeps_get {A} (f : S -> A) : keeps I (get f).
Proof. by intros s Hs. Qed.

Lemma keeps_modify f : (forall s, I s -> I (f s)) -> keeps I (modify f).
Proof. intros H s Hs. by apply H. Qed.

Lemma keeps_deref {A} (o : option A) : keeps I (deref o).
Proof. destruct o; [apply keeps_ret|apply keeps_panic]. Qed.

Lemma keeps_mok {A} (a : A) : keeps I (mok a).
Proof. apply keeps_ret. Qed.

Lemma keeps_mfail {A} e : keeps I (@mfail S A e).
Proof. apply keeps_ret. Qed.

Lemma keeps_rbnd {A B} (m : M S (result A)) (k : A -> M S (result B)) :
  keeps I m -> (forall a, keeps I (k a)) -> keeps I (rbnd m k).
Proof.
  intros Hm Hk. apply keeps_bind; [done|]. intros [e|a]; [apply keeps_mfail|apply Hk].
Qed.

Lemma keeps_forM {A} (l : list A) body :
  (forall x, x ∈ l -> keeps I (body x)) -> keeps I (forM l body).
Proof.
  induction l as [|x l IH]; intros Hb; cbn; [apply keeps_ret|].
  apply keeps_bind; [apply Hb; left|]. intros _. apply IH. intros y Hy. apply Hb. by right.
Qed.

Lemma keeps_forR {A} (l : list A) body :
  (forall x, x ∈ l -> keeps I (body x)) -> keeps I (forR l body).
Proof.
  induction l as [|x l IH]; intros Hb; cbn; [apply keeps_mok|].
  apply keeps_rbnd; [apply Hb; left|]. intros _. apply IH. intros y Hy. apply Hb. by right.
Qed.

Lemma keeps_foldM {A B} (l : list A) (b : B) body :
  (forall b x, x ∈ l -> keeps I (body b x)) -> keeps I (foldM l b body).
Proof.
  revert b. induction l as [|x l IH]; intros b Hb; cbn; [apply keeps_ret|].
  apply keeps_bind; [apply Hb; left|]. intros b'. apply IH. intros b'' y Hy. apply Hb. by right.
Qed.

Lemma keeps_foldR {A B} (l : list A) (b : B) body :
  (forall b x, x ∈ l -> keeps I (body b x)) -> keeps I (foldR l b body).
Proof.
  revert b. induction l as [|x l IH]; intros b Hb; cbn; [apply keeps_mok|].
  apply keeps_rbnd; [apply Hb; left|]. intros b'. apply IH. intros b'' y Hy. apply Hb. by right.
Qed.

Lemma keeps_zoom {T A} (prj : S -> T) upd (m : M T A) (J : T -> Prop) :
  keeps J m -> (forall s, I s -> J (prj s)) -> (forall t s, I s -> J t -> I (upd t s)) ->
  keeps I (zoom prj upd m).
Proof.
  intros Hm Hp Hu s Hs. unfold zoom. specialize (Hm _ (Hp s Hs)).
  destruct (m (prj s)); [by apply Hu|done].
Qed.
End keeps.

#[export] Hint Resolve keeps_ret keeps_bind keeps_panic keeps_get keeps_deref
  keeps_mok keeps_mfail keeps_rbnd keeps_forM keeps_forR keeps_foldM keeps_foldR : keeps.

(** Walks a computation, leaving the primitive steps to the [keeps] hints. *)
Ltac keeps_step :=
  lazymatch goal with
  | |- forall _, _ => intros ?
  | |- keeps _ (mret _) => apply keeps_ret
  | |- keeps _ (mok _) => apply keeps_mok
  | |- keeps _ (mfail _) => apply keeps_mfail
  | |- keeps _ panic => apply keeps_panic
  | |- keeps _ (get _) => apply keeps_get
  | |- keeps _ (deref _) => apply keeps_deref
  | |- keeps _ (mbnd _ _) => apply keeps_bind
  | |- keeps _ (rbnd _ _) => apply keeps_rbnd
  | |- keeps _ (forM _ _) => apply keeps_forM
  | |- keeps _ (forR _ _) => apply keeps_forR
  | |- keeps _ (foldM _ _ _) => apply keeps_foldM
  | |- keeps _ (foldR _ _ _) => apply keeps_foldR
  | |- keeps _ (match ?x with _ => _ end) => destruct x eqn:?
  | |- keeps _ (let _ := _ in _) => cbv zeta
  end.

Ltac keeps_auto := repeat (keeps_step || solve [eauto with keeps]).

(** * Computations that only read

    [reads prj m]: [m] leaves the state as it is, and what it returns, or that it does
    not return, is determined by the part [prj] of the state. *)
Definition reads {S R A} (prj : S -> R) (m : M S A) : Prop :=
  forall s1 s2, prj s1 = prj s2 ->
    match m s1, m s2 with
    | Done a t1, Done b t2 => a = b /\ t1 = s1 /\ t2 = s2
    | Panic, Panic => True
    | _, _ => False
    end.

Section reads.
Context {S R : Type} (prj : S -> R).

Lemma reads_ret {A} (a : A) : reads prj (mret a).
Proof. by intros s1 s2 _. Qed.

Lemma reads_panic {A} : reads prj (@panic S A).
Proof. by intros s1 s2 _. Qed.

Lemma reads_bind {A B} (m : M S A) (k : A -> M S B) :
  reads prj m -> (forall a, reads prj (k a)) -> reads prj (mbnd m k).
Proof.
  intros Hm Hk s1 s2 E. unfold mbnd. specialize (Hm s1 s2 E).
  destruct (m s1) as [a t1|], (m s2) as [b t2|]; try done. destruct Hm as (-> & -> & ->). by apply Hk.
Qed.

Lemma reads_get {A} (f : S -> A) : (forall s1 s2, prj s1 = prj s2 -> f s1 = f s2) -> reads prj (get f).
Proof. intros Hf s1 s2 E. cbn. by rewrite (Hf s1 s2). Qed.

Lemma reads_deref {A} (o : option A) : reads prj (deref o).
Proof. destruct o; [apply reads_ret|apply reads_panic]. Qed.

Lemma reads_mok {A} (a : A) : reads prj (mok a).
Proof. apply reads_ret. Qed.

Lemma reads_mfail {A} e : reads prj (@mfail S A e).
Proof. apply reads_ret. Qed.

Lemma reads_rbnd {A B} (m : M S (result A)) (k : A -> M S (result B)) :
  reads prj m -> (forall a, reads prj (k a)) -> reads prj (rbnd m k).
Proof. intros Hm Hk. apply reads_bind; [done|]. intros [e|a]; [apply reads_mfail|apply Hk]. Qed.

Lemma reads_forR {A} (l : list A) body : (forall x, reads prj (body x)) -> reads prj (forR l body).
Proof.
  intros Hb. induction l as [|x l IH]; cbn; [apply reads_mok|]. apply reads_rbnd; [apply Hb|]. intros _. apply IH.
Qed.

(** Where it has been run, it gives the same in every state with the same part. *)
Lemma reads_done {A} (m : M S A) a s1 s2 t :
  reads prj m -> m s1 = Done a t -> prj s1 = prj s2 -> m s2 = Done a s2.
Proof.
  intros Hm H1 E. specialize (Hm s1 s2 E). rewrite H1 in Hm. destruct (m s2); [|done].
  by destruct Hm as (-> & _ & ->).
Qed.
End reads.

#[export] Hint Resolve reads_ret reads_panic reads_deref reads_mok reads_mfail : reads.

(** Walks a computation that only reads. *)
Ltac reads_step :=
  lazymatch goal with
  | |- forall _, _ => intros
  | |- reads _ (mbnd _ _) => apply reads_bind
  | |- reads _ (rbnd _ _) => apply reads_rbnd
  | |- reads _ (forR _ _) => apply reads_forR
  | |- reads _ (match ?x with _ => _ end) => destruct x
  | |- reads _ (let '(_, _) := ?x in _) => destruct x
  end.

Ltac reads_auto := repeat (reads_step || solve [auto with reads]).

(** [lia] with division and remainder by constants. *)
Ltac dlia := Z.to_euclidean_division_equations; lia.

(** * Integers *)
Lemma u32_is_u32 z : is_u32 (u32 z).
Proof. unfold is_u32, u32, u32_mod. apply Z.mod_pos_bound. lia. Qed.

Lemma u32_id z : is_u32 z -> u32 z = z.
Proof. unfold is_u32, u32. intros. by apply Z.mod_small. Qed.

#[export] Hint Resolve u32_is_u32 : go.

(** * Strings *)
Lemma sapp_cons c s t : String.String c s +:+ t = String.String c (s +:+ t).
Proof. reflexivity. Qed.

Lemma sapp_nil t : "" +:+ t = t.
Proof. reflexivity. Qed.

#[export] Hint Rewrite sapp_cons sapp_nil : gorw.

Ltac ssimpl := autorewrite with gorw in *; simpl in *.

Lemma sapp_length s t : slen (s +:+ t) = (slen s + slen t)%nat.
Proof. unfold slen. induction s as [|c s IH]; ssimpl; [done|]. by rewrite IH. Qed.

Lemma sapp_assoc s t u : (s +:+ t) +:+ u = s +:+ (t +:+ u).
Proof. induction s as [|c s IH]; ssimpl; [done|]. by rewrite IH. Qed.

Lemma sapp_nil_r s : s +:+ "" = s.
Proof. induction s as [|c s IH]; ssimpl; [done|]. by rewrite IH. Qed.

Lemma prefix_app s t : String.prefix s (s +:+ t) = true.
Proof.
  induction s as [|c s IH]; [by destruct t|]. ssimpl. by destruct (ascii_dec c c).
Qed.

Lemma sapp_inj_l s t u : s +:+ t = s +:+ u -> t = u.
Proof. induction s as [|c s IH]; ssimpl; [done|]. intros [= H]. auto. Qed.

Lemma bytes_of_app s t : bytes_of (s +:+ t) = bytes_of s ++ bytes_of t.
Proof. unfold bytes_of. induction s as [|c s IH]; ssimpl; [done|]. by rewrite IH. Qed.

Lemma bytes_of_inj s t : bytes_of s = bytes_of t -> s = t.
Proof.
  intros H. rewrite <- (String.string_of_list_ascii_of_string s).
  rewrite <- (String.string_of_list_ascii_of_string t). unfold bytes_of in H. by rewrite H.
Qed.

Lemma of_bytes_of s : of_bytes (bytes_of s) = s.
Proof. apply String.string_of_list_ascii_of_string. Qed.

Lemma bytes_of_of l : bytes_of (of_bytes l) = l.
Proof. apply String.list_ascii_of_string_of_list_ascii. Qed.

Lemma length_bytes_of s : length (bytes_of s) = slen s.
Proof. unfold slen, bytes_of. induction s as [|c s IH]; ssimpl; [done|]. by rewrite IH. Qed.

Lemma dec_inj a b : dec a = dec b -> a = b.
Proof. apply (inj pretty). Qed.

(** * Weakest preconditions

    [wpp pan m Q s]: from [s] the code ends in [Q], or panics and [pan] holds:
    [wp] for code that must not panic, [wlp] where a panic is allowed. *)
Definition wpp {S A} (pan : Prop) (m : M S A) (Q : A -> S -> Prop) (s : S) : Prop :=
  match m s with Done a s' => Q a s' | Panic => pan end.

Abbreviation wp := (wpp False).

Abbreviation wlp := (wpp True).

Section wp.
Context {S : Type} (pan : Prop).

Lemma wp_ret {A} (a : A) Q (s : S) : Q a s -> wpp pan (mret a) Q s.
Proof. done. Qed.

Lemma wp_bnd {A B} (m : M S A) (k : A -> M S B) Q s :
  wpp pan m (fun a s' => wpp pan (k a) Q s') s -> wpp pan (mbnd m k) Q s.
Proof. unfold wpp, mbnd. by destruct (m s). Qed.

Lemma wp_get {A} (f : S -> A) Q s : Q (f s) s -> wpp pan (get f) Q s.
Proof. done. Qed.

Lemma wp_modify (f : S -> S) Q s : Q tt (f s) -> wpp pan (modify f) Q s.
Proof. done. Qed.

Lemma wp_deref {A} (o : option A) a Q (s : S) : o = Some a -> Q a s -> wpp pan (deref o) Q s.
Proof. by intros ->. Qed.

Lemma wp_mok {A} (a : A) Q (s : S) : Q (Ok a) s -> wpp pan (mok a) Q s.
Proof. done. Qed.

Lemma wp_mfail {A} e Q (s : S) : Q (@Err A e) s -> wpp pan (mfail e) Q s.
Proof. done. Qed.

Lemma wp_rbnd {A B} (m : M S (result A)) (k : A -> M S (result B)) Q s :
  wpp pan m (fun r s' => match r with inl e => Q (Err e) s' | inr a => wpp pan (k a) Q s' end) s ->
  wpp pan (rbnd m k) Q s.
Proof. intros H. apply wp_bnd. unfold wpp in *. destruct (m s) as [[e|a] s'|]; done. Qed.

Lemma wp_conseq {A} (m : M S A) (Q Q' : A -> S -> Prop) s :
  wpp pan m Q s -> (forall a s', Q a s' -> Q' a s') -> wpp pan m Q' s.
Proof. unfold wpp. destruct (m s); auto. Qed.

Lemma wp_run {A} (m : M S A) a s' Q s : m s = Done a s' -> Q a s' -> wpp pan m Q s.
Proof. unfold wpp. by intros ->. Qed.

(** What the code keeps may be added to its postcondition. *)
Lemma wp_keeps {A} (I : S -> Prop) (m : M S A) (Q Q' : A -> S -> Prop) s :
  keeps I m -> I s -> wpp pan m Q s -> (forall a s', Q a s' -> I s' -> Q' a s') -> wpp pan m Q' s.
Proof. intros Hk HI. specialize (Hk s HI). unfold wpp. destruct (m s); auto. Qed.

(** Nothing is known of the computation. *)
Lemma wlp_any {A} (m : M S A) (Q : A -> S -> Prop) s : (forall a s', Q a s') -> wlp m Q s.
Proof. intros H. unfold wpp. by destruct (m s). Qed.

Lemma wlp_keeps {A} (I : S -> Prop) (m : M S A) (Q : A -> S -> Prop) s :
  keeps I m -> I s -> (forall a s', I s' -> Q a s') -> wlp m Q s.
Proof. intros Hk HI HQ. specialize (Hk s HI). unfold wpp. destruct (m s); auto. Qed.

Lemma keeps_wlp {A} (I : S -> Prop) (m : M S A) : (forall s, I s -> wlp m (fun _ => I) s) -> keeps I m.
Proof. done. Qed.

(** Loops, with an invariant over the elements done so far. *)
Lemma wp_forM {A} (l : list A) (body : A -> M S unit) (J : list A -> S -> Prop) (Q : unit -> S -> Prop) s :
  J [] s ->
  (forall d x r s, l = d ++ x :: r -> J d s -> wpp pan (body x) (fun _ s' => J (d ++ [x]) s') s) ->
  (forall s, J l s -> Q tt s) ->
  wpp pan (forM l body) Q s.
Proof.
  intros H0 Hb HQ.
  assert (forall r d s, l = d ++ r -> J d s -> wpp pan (forM r body) Q s) as Hgen.
  2: by apply (Hgen l [] s).
  induction r as [|x r IH]; intros d s' E Hd; cbn.
  { apply wp_ret, HQ. by rewrite E, app_nil_r. }
  apply wp_bnd. eapply wp_conseq; [by apply (Hb d x r)|]. intros [] s'' Hs.
  apply (IH (d ++ [x])); [|done]. by rewrite E, <- app_assoc.
Qed.

Lemma wp_forR {A} (l : list A) (body : A -> M S (result unit)) (J : list A -> S -> Prop)
  (Q : result unit -> S -> Prop) s :
  J [] s ->
  (forall d x r s, l = d ++ x :: r -> J d s ->
     wpp pan (body x) (fun r s' => match r with inl e => Q (Err e) s' | inr _ => J (d ++ [x]) s' end) s) ->
  (forall s, J l s -> Q (Ok tt) s) ->
  wpp pan (forR l body) Q s.
Proof.
  intros H0 Hb HQ.
  assert (forall r d s, l = d ++ r -> J d s -> wpp pan (forR r body) Q s) as Hgen.
  2: by apply (Hgen l [] s).
  induction r as [|x r IH]; intros d s' E Hd; cbn.
  { apply wp_mok, HQ. by rewrite E, app_nil_r. }
  apply wp_rbnd. eapply wp_conseq; [by apply (Hb d x r)|]. intros [e|u] s'' Hs; [done|].
  apply (IH (d ++ [x])); [|done]. by rewrite E, <- app_assoc.
Qed.

(** Loops with a local variable. *)
Lemma wp_foldM {A B} (l : list A) (b : B) (body : B -> A -> M S B) (J Q : B -> S -> Prop) s :
  J b s -> (forall b x s, x ∈ l -> J b s -> wpp pan (body b x) J s) -> (forall b s, J b s -> Q b s) ->
  wpp pan (foldM l b body) Q s.
Proof.
  intros H0 Hb HQ. revert b s H0. induction l as [|x l IH]; intros b s H0; cbn; [by apply wp_ret, HQ|].
  apply wp_bnd. eapply wp_conseq; [apply Hb; [left|done]|]. intros b' s' H'. apply IH; [|done].
  intros b'' y s'' Hy. apply Hb. by right.
Qed.

(** The same, with the elements already done. *)
Lemma wp_foldM_done {A B} (l : list A) (b : B) (body : B -> A -> M S B) (J : list A -> B -> S -> Prop) (Q : B -> S -> Prop) s :
  J [] b s ->
  (forall d x r b s, l = d ++ x :: r -> J d b s -> wpp pan (body b x) (J (d ++ [x])) s) ->
  (forall b s, J l b s -> Q b s) ->
  wpp pan (foldM l b body) Q s.
Proof.
  intros H0 Hb HQ. enough (forall r d b s, l = d ++ r -> J d b s -> wpp pan (foldM r b body) Q s) as H by by apply (H l []).
  induction r as [|x r IH]; intros d b' s' Hl HJ; cbn.
  - apply wp_ret, HQ. rewrite Hl, app_nil_r. done.
  - apply wp_bnd. eapply wp_conseq; [by eapply Hb|]. intros b2 s2 H2. apply (IH (d ++ [x])); [|done].
    by rewrite Hl, <- app_assoc.
Qed.
End wp.

Lemma mbnd_run {S A B} (m : M S A) (k : A -> M S B) a (s s' : S) : m s = Done a s' -> mbnd m k s = k a s'.
Proof. unfold mbnd. by intros ->. Qed.

(** An element of a list that is written out. *)
Ltac member := repeat first [apply list_elem_of_here | apply list_elem_of_further].

(** One statement whose run is known. *)
Ltac runs H := rewrite (mbnd_run _ _ _ _ _ H); cbv beta iota.

(** Runs the steps whose outcome is known. *)
Ltac wp_step :=
  lazymatch goal with
  | |- wpp _ (mbnd _ _) _ _ => apply wp_bnd
  | |- wpp _ (rbnd _ _) _ _ => apply wp_rbnd
  | |- wpp _ (mret _) _ _ => apply wp_ret
  | |- wpp _ (mok _) _ _ => apply wp_mok
  | |- wpp _ (mfail _) _ _ => apply wp_mfail
  | |- wpp _ (get _) _ _ => apply wp_get
  | |- wpp _ (modify _) _ _ => apply wp_modify
  | |- wpp _ (deref (Some _)) _ _ => eapply wp_deref; [reflexivity|]
  end.

Ltac wp_auto := repeat (wp_step; cbv beta).
