(* ===== verification/GoStd.v ===== *)
(** * What the controller uses of the Go standard library

    [strings.Index] and [strings.Split] with a one-byte separator, the byte
    order on strings, [fmt]'s [%d], [%02X] and [%c] verbs, [strconv.Atoi]
    (64-bit [int]), and [sort.Search]'s binary search. *)

From S2P Require Import Prelude.

(** ** package strings *)

(** [strings.Index(s, sep)] for a one-byte [sep]: the position, or -1 as [None]. *)
Fixpoint byte_index (sep : ascii) (s : string) : option nat :=
  match s with
  | String.EmptyString => None
  | String.String c s =>
      if Ascii.eqb c sep then Some 0%nat else S <$> byte_index sep s
  end.

Definition slash_byte : ascii := "/"%char.

(** [s[0:n]] and [s[n:]] *)
Definition stake (n : nat) (s : string) : string := of_bytes (take n (bytes_of s)).

Definition sdrop (n : nat) (s : string) : string := of_bytes (drop n (bytes_of s)).

(** [strings.Split(s, sep)] for a one-byte [sep]. *)
Fixpoint split_bytes (sep : ascii) (l cur : list ascii) : list string :=
  match l with
  | [] => [of_bytes cur]
  | c :: l => if Ascii.eqb c sep then of_bytes cur :: split_bytes sep l []
              else split_bytes sep l (cur ++ [c])
  end.

Definition Split (s : string) (sep : ascii) : list string := split_bytes sep (bytes_of s) [].

(** [strings.Replace(s, old, new, 1)] for a non-empty [old]. *)
Fixpoint Replace1 (s old new : string) : string :=
  match s with
  | String.EmptyString => ""
  | String.String c s' =>
      if String.prefix old s then new +:+ sdrop (slen old) s
      else String.String c (Replace1 s' old new)
  end.

(** [strings.Contains(s, sep)] for a one-byte [sep]. *)
Definition ContainsByte (s : string) (sep : ascii) : bool :=
  match byte_index sep s with Some _ => true | None => false end.

(** [a < b] on strings is the order of the bytes. *)
Definition str_ltb (a b : string) : bool := String.ltb a b.

(** No occurrence of a byte. *)
Definition lacks (sep : ascii) (s : string) : Prop := byte_index sep s = None.

(** ** package fmt *)

Definition hex_digit (z : Z) : ascii :=
  ascii_of_nat (Z.to_nat (if z <? 10 then 48 + z else 55 + z)).

(** [%02X] of a value below 256. *)
Definition hex02 (z : Z) : string :=
  String.String (hex_digit (z / 16)) (String.String (hex_digit (z mod 16)) "").

(** [%c] of a byte: the UTF-8 encoding of the code point, so two bytes from 0x80 on. *)
Definition fmt_c (c : ascii) : string :=
  let n := nat_of_ascii c in
  if (n <? 128)%nat then String.String c ""
  else String.String (ascii_of_nat (192 + n / 64)) (String.String (ascii_of_nat (128 + n mod 64)) "").

(** [%v] of a slice of strings. *)
Definition fmt_strs (l : list string) : string := "[" +:+ String.concat " " l +:+ "]".

(** ** package strconv *)

Definition digit_val (c : ascii) : option Z :=
  let n := Z.of_nat (nat_of_ascii c) in
  if (48 <=? n) && (n <=? 57) then Some (n - 48) else None.

Fixpoint digits_val (acc : Z) (s : string) : option Z :=
  match s with
  | String.EmptyString => Some acc
  | String.String c s =>
      match digit_val c with Some d => digits_val (acc * 10 + d) s | None => None end
  end.

Definition unsigned_val (s : string) : option Z :=
  match s with String.EmptyString => None | _ => digits_val 0 s end.

(** [strconv.Atoi]: an optional sign, at least one digit, a value that fits in
    a 64-bit [int]; [None] is the error. *)
Definition Atoi (s : string) : option Z :=
  let v := match s with
           | String.String c s' =>
               if Ascii.eqb c "-"%char then Z.opp <$> unsigned_val s'
               else if Ascii.eqb c "+"%char then unsigned_val s'
               else unsigned_val s
           | String.EmptyString => None
           end in
  match v with
  | Some z => if (- 2 ^ 63 <=? z) && (z <? 2 ^ 63) then Some z else None
  | None => None
  end.

(** ** package sort *)

(** [sort.Search(n, f)]: the loop [for i < j { h := (i+j)/2; if !f(h) { i = h+1 }
    else { j = h } }]; each round shrinks [j - i], so [n] rounds are enough. *)
Fixpoint search_loop (fuel : nat) (f : nat -> bool) (i j : nat) : nat :=
  match fuel with
  | O => i
  | S fuel =>
      if (i <? j)%nat then
        let h := ((i + j) / 2)%nat in
        if f h then search_loop fuel f i h else search_loop fuel f (h + 1) j
      else i
  end.

Definition Search (n : nat) (f : nat -> bool) : nat := search_loop n f 0 n.

(** ** Facts about strings *)

Lemma byte_index_app_lacks sep s t :
  lacks sep s -> byte_index sep (s +:+ String.String sep t) = Some (slen s).
Proof.
  unfold lacks. induction s as [|c s IH]; ssimpl.
  - by rewrite Ascii.eqb_refl.
  - destruct (Ascii.eqb c sep); [done|]. intros H.
    destruct (byte_index sep s); [done|]. by rewrite IH.
Qed.

Lemma byte_index_Some sep s n :
  byte_index sep s = Some n -> exists a b, s = a +:+ String.String sep b /\ lacks sep a /\ slen a = n.
Proof.
  revert n. induction s as [|c s IH]; intros n; ssimpl; [done|].
  destruct (Ascii.eqb_spec c sep) as [->|Hne].
  - intros [= <-]. exists "", s. done.
  - destruct (byte_index sep s) as [m|] eqn:E; [|done]. intros [= <-].
    destruct (IH m eq_refl) as (a & b & -> & Ha & Hl).
    exists (String.String c a), b. rewrite sapp_cons. repeat split.
    + unfold lacks in *. simpl. destruct (Ascii.eqb_spec c sep); [done|]. by rewrite Ha.
    + unfold slen in *. simpl. by f_equal.
Qed.

Lemma stake_app s t : stake (slen s) (s +:+ t) = s.
Proof.
  unfold stake. rewrite bytes_of_app, take_app_length' by (symmetry; apply length_bytes_of).
  apply of_bytes_of.
Qed.

Lemma sdrop_app s t : sdrop (slen s) (s +:+ t) = t.
Proof.
  unfold sdrop. rewrite bytes_of_app, drop_app_length' by (symmetry; apply length_bytes_of).
  apply of_bytes_of.
Qed.

Lemma sdrop_S_app s c t : sdrop (slen s + 1) (s +:+ String.String c t) = t.
Proof.
  replace (s +:+ String.String c t) with ((s +:+ String.String c "") +:+ t)
    by by rewrite sapp_assoc.
  replace (slen s + 1)%nat with (slen (s +:+ String.String c "")) by by rewrite sapp_length.
  apply sdrop_app.
Qed.

(** The split of two names at the first separator is unique. *)
Lemma sep_split_inj sep a b a' b' :
  lacks sep a -> lacks sep a' ->
  a +:+ String.String sep b = a' +:+ String.String sep b' -> a = a' /\ b = b'.
Proof.
  intros Ha Ha' E.
  pose proof (byte_index_app_lacks sep a b Ha) as H1.
  pose proof (byte_index_app_lacks sep a' b' Ha') as H2.
  rewrite E, H2 in H1. injection H1 as Hl.
  assert (a = a') as ->.
  { rewrite <- (stake_app a (String.String sep b)), E, <- Hl. apply stake_app. }
  split; [done|]. apply sapp_inj_l in E. by injection E.
Qed.

Lemma split_bytes_cons sep l cur :
  exists x xs, split_bytes sep l cur = x :: xs.
Proof.
  revert cur. induction l as [|c l IH]; intros cur; simpl; [eauto|].
  destruct (Ascii.eqb c sep); eauto.
Qed.

Lemma split_bytes_lacks sep s l cur :
  lacks sep s ->
  split_bytes sep (bytes_of s ++ l) cur = split_bytes sep l (cur ++ bytes_of s).
Proof.
  unfold lacks, bytes_of. revert cur. induction s as [|c s IH]; intros cur; simpl.
  - by rewrite app_nil_r.
  - destruct (Ascii.eqb c sep); [done|]. intros H.
    rewrite IH by (by destruct (byte_index sep s)). by rewrite <- app_assoc.
Qed.

Lemma Split_lacks_app sep s t :
  lacks sep s -> Split (s +:+ String.String sep t) sep = s :: Split t sep.
Proof.
  intros H. unfold Split. rewrite bytes_of_app, split_bytes_lacks by done. simpl.
  rewrite Ascii.eqb_refl. simpl. by rewrite of_bytes_of.
Qed.

Lemma Split_lacks sep s : lacks sep s -> Split s sep = [s].
Proof.
  intros H. unfold Split. rewrite <- (app_nil_r (bytes_of s)), split_bytes_lacks by done.
  simpl. by rewrite of_bytes_of.
Qed.

(** ** Facts about sort.Search *)

Lemma search_loop_spec fuel f i j :
  (j - i <= fuel)%nat -> (i <= j)%nat ->
  (forall k, (k < i)%nat -> f k = false) ->
  (forall a b, (a <= b)%nat -> f a = true -> f b = true) ->
  let r := search_loop fuel f i j in
  (i <= r <= j)%nat /\ (forall k, (k < r)%nat -> f k = false) /\ ((r < j)%nat -> f r = true).
Proof.
  revert i j. induction fuel as [|fuel IH]; intros i j Hfuel Hij Hlow Hmono; cbn [search_loop] in *; cbv zeta in *.
  - assert (i = j) as -> by lia. (repeat split; auto; lia).
  - destruct (Nat.ltb_spec i j) as [Hlt|Hge].
    2:{ assert (i = j) as -> by lia. (repeat split; auto; lia). }
    assert (i <= (i + j) / 2 < j)%nat as [Hh1 Hh2].
    { pose proof (Nat.div_mod_eq (i + j) 2).
      pose proof (Nat.mod_upper_bound (i + j) 2 ltac:(lia)). lia. }
    set (h := ((i + j) / 2)%nat) in *. destruct (f h) eqn:Fh.
    + destruct (IH i h) as (H1 & H2 & H3); [lia|lia|done|done|].
      repeat split; [lia|lia|done|]. intros Hr.
      destruct (decide (search_loop fuel f i h < h)%nat) as [|Hn]; [auto|].
      assert (search_loop fuel f i h = h) as -> by lia. done.
    + destruct (IH (h + 1)%nat j) as (H1 & H2 & H3); [lia|lia| |done|].
      { intros k Hk. destruct (f k) eqn:Fk; [|done].
        rewrite (Hmono k h) in Fh; [done|lia|done]. }
      repeat split; [lia|lia|done|done].
Qed.

(** On a monotone predicate, binary search finds the first index that
    satisfies it, or [n]. *)
Lemma Search_spec n f :
  (forall a b, (a <= b)%nat -> f a = true -> f b = true) ->
  (Search n f <= n)%nat /\ (forall k, (k < Search n f)%nat -> f k = false) /\
  ((Search n f < n)%nat -> f (Search n f) = true).
Proof.
  intros Hmono. destruct (search_loop_spec n f 0 n) as (H1 & H2 & H3);
    [lia|lia|lia|done|]. split; [apply H1|done].
Qed.
