(* ===== verification/Bitmap.v ===== *)
(** * plugins/controller/idapi/bitmap: a bitmap of busy and free identifiers

    The bits are numbered from 1 to [numBits] and stored most significant bit
    first in 64-bit words.  The abstract object is the finite set of busy bits,
    [busy]; the operations are shown to be the set operations, and
    [FindFirstClear] to be the least free bit. *)

From S2P Require Import Prelude GoStd.

Module Bitmap.

Definition allBitsSet : Z := 0xFFFFFFFFFFFFFFFF.

Record Bitmap : Type := mkBitmap { u64Array : list Z; numBits : Z }.

(** [1 << (63 - i%64)] for a bit already moved to base 0 *)
Definition bit_mask (i : Z) : Z := Z.shiftl 1 (63 - i mod 64).

Definition IsSet (i : Z) : M Bitmap bool :=
  let! n := get numBits in
  if (i <? 1) || (n <? i) then mret false
  else
    let i := i - 1 in
    let! arr := get u64Array in
    let! w := deref (arr !! Z.to_nat (i / 64)) in
    mret (negb (Z.land w (bit_mask i) =? 0)).

Definition BM_Set (i : Z) : M Bitmap (result unit) :=
  let! n := get numBits in
  if (i <? 1) || (n <? i) then mfail ("Bitmap: bit out of range: '" +:+ dec i +:+ "'")
  else
    let i := i - 1 in
    let! arr := get u64Array in
    let! w := deref (arr !! Z.to_nat (i / 64)) in
    modify (fun bm => mkBitmap (<[Z.to_nat (i / 64) := Z.lor w (bit_mask i)]> arr) (numBits bm)) ;;;
    mok tt.

Definition Clear (i : Z) : M Bitmap unit :=
  let! n := get numBits in
  if (i <? 1) || (n <? i) then mret tt
  else
    let i := i - 1 in
    let! arr := get u64Array in
    let! w := deref (arr !! Z.to_nat (i / 64)) in
    modify (fun bm => mkBitmap (<[Z.to_nat (i / 64) := Z.ldiff w (bit_mask i)]> arr) (numBits bm)).

(** The loop over the 64 bits of word [i]; [None] when it runs to its end. *)
Fixpoint ffc_word (i : Z) (js : list Z) : M Bitmap (option Z) :=
  match js with
  | [] => mret None
  | j :: js =>
      let bit := u32 (i * 64 + j + 1) in
      let! b := IsSet bit in
      if b then ffc_word i js
      else let! n := get numBits in mret (Some (if n <? bit then 0 else bit))
  end.

(** The loop over the words. *)
Fixpoint ffc_words (i : Z) (arr : list Z) : M Bitmap Z :=
  match arr with
  | [] => mret 0
  | v :: arr =>
      if v =? allBitsSet then ffc_words (i + 1) arr
      else
        let! r := ffc_word i (seqZ 0 64) in
        match r with Some bit => mret bit | None => ffc_words (i + 1) arr end
  end.

Definition FindFirstClear : M Bitmap Z :=
  let! arr := get u64Array in ffc_words 0 arr.

Definition NewBitmap (n : Z) : Bitmap :=
  mkBitmap (replicate (Z.to_nat (u32 (n - 1) / 64 + 1)) 0) n.

(** The state of the loop of [String]: the text so far, whether the previous bit
    was set, the bit that started the run, and whether a comma is due. *)
Record run_state : Type :=
  mkRun { rs_str : string; rs_onARun : bool; rs_onARunBit : Z; rs_needComma : bool }.

Definition string_step (n i : Z) (set : bool) (r : run_state) : run_state :=
  if set then
    if rs_onARun r then r
    else mkRun ((rs_str r +:+ (if rs_needComma r then "," else "")) +:+ dec i) true i false
  else
    if rs_onARun r then
      mkRun (rs_str r +:+ (if rs_onARunBit r =? i - 1 then "" else "-" +:+ dec (i - 1)))
        false (n + 1) true
    else mkRun (rs_str r) false (n + 1) (rs_needComma r).

Fixpoint string_loop (n : Z) (ids : list Z) (r : run_state) : M Bitmap run_state :=
  match ids with
  | [] => mret r
  | i :: ids => let! b := IsSet i in string_loop n ids (string_step n i b r)
  end.

(** [String]; the loop variable is a [uint32], so the text is produced for
    [numBits] below 2^32 - 1. *)
Definition BM_String : M Bitmap string :=
  let! n := get numBits in
  let! r := string_loop n (seqZ 1 n)
              (mkRun ("numBits: " +:+ dec n +:+ ", bits:" +:+ "[") false (n + 1) false) in
  mret ((rs_str r +:+
         (if rs_onARun r then
            if rs_onARunBit r =? n then "" else "-" +:+ dec n
          else "")) +:+ "] ").

(** ** The abstract object *)

(** Bit [i] of the stored words. *)
Definition bit (bm : Bitmap) (i : Z) : bool :=
  (1 <=? i) && (i <=? numBits bm) &&
  match u64Array bm !! Z.to_nat ((i - 1) / 64) with
  | Some w => Z.testbit w (63 - (i - 1) mod 64)
  | None => false
  end.

(** The set of busy bits. *)
Definition busy (bm : Bitmap) : gset Z := list_to_set (filter (fun i => bit bm i) (seqZ 1 (numBits bm))).

(** One word per 64 bits, each word a [uint64]. *)
Definition wf (bm : Bitmap) : Prop :=
  is_u32 (numBits bm) /\
  Z.of_nat (length (u64Array bm)) = u32 (numBits bm - 1) / 64 + 1 /\
  Forall (fun w => 0 <= w < u64_mod) (u64Array bm).

(** The least number of [1..n] outside [X], 0 if there is none. *)
Definition least_free (n : Z) (X : gset Z) (r : Z) : Prop :=
  (r = 0 /\ (forall i, 1 <= i <= n -> i ∈ X)) \/
  (1 <= r <= n /\ ~ (r ∈ X) /\ (forall i, 1 <= i < r -> i ∈ X)).

(** Maximal runs of consecutive members of the list [ids], as the text prints them. *)
Fixpoint runs_of (f : Z -> bool) (ids : list Z) (open : option Z) (last : Z) : list (Z * Z) :=
  match ids with
  | [] => match open with Some a => [(a, last)] | None => [] end
  | i :: ids =>
      if f i then runs_of f ids (Some (default i open)) i
      else match open with
           | Some a => (a, i - 1) :: runs_of f ids None i
           | None => runs_of f ids None i
           end
  end.

Definition print_run (r : Z * Z) : string :=
  dec (fst r) +:+ (if fst r =? snd r then "" else "-" +:+ dec (snd r)).

Definition print_runs (l : list (Z * Z)) : string := String.concat "," (map print_run l).

(** ** Bits of words *)

Lemma land_mask_testbit w i :
  0 <= i -> negb (Z.land w (bit_mask i) =? 0) = Z.testbit w (63 - i mod 64).
Proof.
  intros Hi. unfold bit_mask. pose proof (Z.mod_pos_bound i 64 ltac:(lia)) as Hm.
  set (k := 63 - i mod 64) in *. destruct (Z.testbit w k) eqn:E.
  - apply negb_true_iff, Z.eqb_neq. intros H0.
    assert (Z.testbit (Z.land w (Z.shiftl 1 k)) k = false) as H1 by by rewrite H0, Z.bits_0.
    rewrite Z.land_spec, E, Z.shiftl_spec, Z.sub_diag in H1 by lia. done.
  - apply negb_false_iff, Z.eqb_eq. apply Z.bits_inj'. intros j Hj.
    rewrite Z.land_spec, Z.bits_0, Z.shiftl_spec by done.
    destruct (decide (j = k)) as [->|Hne]; [by rewrite E|].
    destruct (Z.testbit 1 (j - k)) eqn:E1; [|apply andb_false_r].
    destruct (decide (j - k < 0)); [by rewrite Z.testbit_neg_r in E1 by lia|].
    change 1 with (2 ^ 0) in E1. rewrite Z.pow2_bits_false in E1 by lia. done.
Qed.

Lemma testbit_mask i k :
  0 <= i -> 0 <= k <= 63 -> Z.testbit (bit_mask i) k = bool_decide (k = 63 - i mod 64).
Proof.
  intros Hi Hk. unfold bit_mask. pose proof (Z.mod_pos_bound i 64 ltac:(lia)) as Hm.
  rewrite Z.shiftl_spec by lia. case_bool_decide as E.
  - rewrite E, Z.sub_diag. done.
  - destruct (decide (k - (63 - i mod 64) < 0)); [by rewrite Z.testbit_neg_r by lia|].
    change 1 with (2 ^ 0). rewrite Z.pow2_bits_false by lia. done.
Qed.

Lemma bit_mask_u64 i : 0 <= bit_mask i < u64_mod.
Proof.
  unfold bit_mask, u64_mod. pose proof (Z.mod_pos_bound i 64 ltac:(lia)) as Hm.
  rewrite Z.shiftl_mul_pow2, Z.mul_1_l by lia. split; [lia|].
  apply Z.pow_lt_mono_r; lia.
Qed.

Lemma lor_u64 a b : 0 <= a < u64_mod -> 0 <= b < u64_mod -> 0 <= Z.lor a b < u64_mod.
Proof.
  unfold u64_mod. intros [Ha1 Ha2] [Hb1 Hb2]. split; [by apply Z.lor_nonneg|].
  destruct (decide (Z.lor a b = 0)) as [->|Hne]; [lia|].
  apply Z.log2_lt_pow2; [pose proof (proj2 (Z.lor_nonneg a b) (conj Ha1 Hb1)); lia|].
  rewrite Z.log2_lor by done. apply Z.max_lub_lt.
  - destruct (decide (a = 0)) as [->|]; [done|]. apply Z.log2_lt_pow2; lia.
  - destruct (decide (b = 0)) as [->|]; [done|]. apply Z.log2_lt_pow2; lia.
Qed.

Lemma ldiff_u64 a b : 0 <= a < u64_mod -> 0 <= b -> 0 <= Z.ldiff a b < u64_mod.
Proof.
  intros [Ha1 Ha2] Hb. assert (Z.ldiff (Z.ldiff a b) a = 0) as E.
  { apply Z.bits_inj'. intros k Hk. rewrite !Z.ldiff_spec, Z.bits_0.
    by destruct (Z.testbit a k), (Z.testbit b k). }
  apply Z.ldiff_le in E; lia.
Qed.

Lemma allBitsSet_testbit k : 0 <= k <= 63 -> Z.testbit allBitsSet k = true.
Proof.
  intros Hk. change allBitsSet with (Z.ones 64). apply Z.ones_spec_low. lia.
Qed.

(** ** The operations on a well-formed bitmap *)

(** Position of bit [i] in the array of words. *)
Lemma word_index_lt bm i :
  wf bm -> 1 <= i <= numBits bm ->
  (Z.to_nat ((i - 1) / 64) < length (u64Array bm))%nat.
Proof.
  intros (Hn & Hlen & _) Hi. unfold is_u32 in Hn.
  rewrite u32_id in Hlen by (unfold is_u32; lia).
  pose proof (Z.div_le_mono (i - 1) (numBits bm - 1) 64 ltac:(lia) ltac:(lia)).
  pose proof (Z.div_pos (i - 1) 64 ltac:(lia) ltac:(lia)). lia.
Qed.

Lemma word_at bm i :
  wf bm -> 1 <= i <= numBits bm ->
  exists w, u64Array bm !! Z.to_nat ((i - 1) / 64) = Some w /\ 0 <= w < u64_mod /\
            bit bm i = Z.testbit w (63 - (i - 1) mod 64).
Proof.
  intros Hwf Hi. pose proof (word_index_lt bm i Hwf Hi) as Hlt.
  apply lookup_lt_is_Some_2 in Hlt as [w Hw]. exists w. split; [done|]. split.
  - destruct Hwf as (_ & _ & Hf). by eapply Forall_lookup_1 in Hf.
  - unfold bit. rewrite Hw.
    by destruct (Z.leb_spec 1 i), (Z.leb_spec i (numBits bm)); [|lia..].
Qed.

Lemma bit_out bm i : ~ (1 <= i <= numBits bm) -> bit bm i = false.
Proof.
  intros H. unfold bit. destruct (Z.leb_spec 1 i), (Z.leb_spec i (numBits bm)); simpl; auto. lia.
Qed.

Ltac range_cases i bm :=
  destruct (Z.ltb_spec i 1); simpl; [|destruct (Z.ltb_spec (numBits bm) i); simpl].

Lemma IsSet_eq bm i : wf bm -> IsSet i bm = Done (bit bm i) bm.
Proof.
  intros Hwf. unfold IsSet, mbnd, get. cbv beta iota. range_cases i bm.
  - by rewrite bit_out by lia.
  - by rewrite bit_out by lia.
  - destruct (word_at bm i Hwf ltac:(lia)) as (w & Hw & _ & ->).
    unfold deref. rewrite Hw. unfold mret. by rewrite land_mask_testbit by lia.
Qed.

(** Writing word [(i-1)/64] with a bitwise operation that only touches bit [i]. *)
Lemma bit_write bm i w' b :
  wf bm -> 1 <= i <= numBits bm -> 0 <= w' < u64_mod ->
  (forall w k, u64Array bm !! Z.to_nat ((i - 1) / 64) = Some w -> 0 <= k <= 63 ->
     Z.testbit w' k = if bool_decide (k = 63 - (i - 1) mod 64) then b else Z.testbit w k) ->
  let bm' := mkBitmap (<[Z.to_nat ((i - 1) / 64) := w']> (u64Array bm)) (numBits bm) in
  wf bm' /\ forall j, bit bm' j = if bool_decide (j = i) then b else bit bm j.
Proof.
  intros Hwf Hi Hw' Hbits bm'. split.
  - destruct Hwf as (Hn & Hlen & Hf). split; [done|split].
    + unfold bm'; cbn [u64Array numBits]. by rewrite length_insert.
    + by apply Forall_insert.
  - intros j. destruct (decide (1 <= j <= numBits bm)) as [Hj|Hj].
    2:{ rewrite !bit_out by done. case_bool_decide; [lia|done]. }
    pose proof (word_index_lt bm i Hwf Hi) as Hlt.
    destruct (word_at bm j Hwf Hj) as (wj & Hwj & _ & Hbj).
    rewrite Hbj. unfold bit, bm'. cbn [u64Array numBits]. destruct (Z.leb_spec 1 j); [|lia].
    destruct (Z.leb_spec j (numBits bm)); [|lia]. simpl.
    pose proof (Z.mod_pos_bound (j - 1) 64 ltac:(lia)) as Hmj.
    destruct (decide ((j - 1) / 64 = (i - 1) / 64)) as [E|E].
    + rewrite E, list_lookup_insert_eq by done. rewrite E in Hwj.
      rewrite (Hbits wj) by (done || lia).
      pose proof (Z.div_mod (j - 1) 64 ltac:(lia)).
      pose proof (Z.div_mod (i - 1) 64 ltac:(lia)).
      repeat case_bool_decide; subst; try done; lia.
    + rewrite list_lookup_insert_ne, Hwj; [case_bool_decide; [by subst|done]|].
      pose proof (Z.div_pos (j - 1) 64 ltac:(lia) ltac:(lia)).
      pose proof (Z.div_pos (i - 1) 64 ltac:(lia) ltac:(lia)). lia.
Qed.

Lemma busy_spec bm i : i ∈ busy bm <-> bit bm i = true.
Proof.
  unfold busy. rewrite elem_of_list_to_set, list_elem_of_filter, elem_of_seqZ. split.
  - intros [H _]. by apply Is_true_true in H.
  - intros H. split; [by apply Is_true_true|].
    destruct (decide (1 <= i <= numBits bm)); [lia|]. by rewrite bit_out in H.
Qed.

Lemma busy_write bm bm' i b :
  (forall j, bit bm' j = if bool_decide (j = i) then b else bit bm j) ->
  busy bm' = if b then {[i]} ∪ busy bm else busy bm ∖ {[i]}.
Proof.
  intros H. apply set_eq. intros j. destruct b; rewrite ?elem_of_union, ?elem_of_difference,
    elem_of_singleton, !busy_spec, H; case_bool_decide; subst; split; intros; tauto || naive_solver.
Qed.

(** The part of [BM_Set] and [Clear] after the range check. *)
Lemma BM_Set_eq bm i :
  wf bm -> 1 <= i <= numBits bm ->
  exists bm', BM_Set i bm = Done (Ok tt) bm' /\ wf bm' /\ numBits bm' = numBits bm /\
              busy bm' = {[i]} ∪ busy bm.
Proof.
  intros Hwf Hi. destruct (word_at bm i Hwf Hi) as (w & Hw & Hwu & _).
  destruct (bit_write bm i (Z.lor w (bit_mask (i - 1))) true) as [Hwf' Hb]; [done|done| | |].
  { apply lor_u64; [done|apply bit_mask_u64]. }
  { intros w0 k Hw0 Hk. rewrite Hw in Hw0. injection Hw0 as <-.
    rewrite Z.lor_spec, testbit_mask by lia. case_bool_decide; [apply orb_true_r|apply orb_false_r]. }
  eexists. split; [|split; [exact Hwf'|split; [done|exact (busy_write _ _ _ _ Hb)]]].
  unfold BM_Set, mbnd, get. cbv beta iota. range_cases i bm; [lia..|].
  unfold deref. by rewrite Hw.
Qed.

Lemma BM_Set_out bm i :
  ~ (1 <= i <= numBits bm) ->
  BM_Set i bm = Done (Err ("Bitmap: bit out of range: '" +:+ dec i +:+ "'")) bm.
Proof.
  intros H. unfold BM_Set, mbnd, get. cbv beta iota. range_cases i bm; [done..|lia].
Qed.

Lemma ffc_word_spec bm i j :
  wf bm -> 0 <= i -> i * 64 < numBits bm -> 0 <= j <= 64 ->
  (forall k, 1 <= k <= i * 64 + j -> bit bm k = true) ->
  exists r, ffc_word i (seqZ j (64 - j)) bm = Done r bm /\
    match r with
    | Some b => least_free (numBits bm) (busy bm) b
    | None => forall k, 1 <= k <= i * 64 + 64 -> bit bm k = true
    end.
Proof.
  intros Hwf Hi Hin [Hj1 Hj2] Hbelow. remember (Z.to_nat (64 - j)) as m eqn:Em.
  revert j Em Hj1 Hj2 Hbelow. induction m as [|m IH]; intros j Em Hj1 Hj2 Hbelow.
  - assert (j = 64) as -> by lia. exists None. split; [done|]. done.
  - rewrite seqZ_cons by lia. cbn [ffc_word]. unfold mbnd at 1. rewrite IsSet_eq by done.
    destruct Hwf as (Hn & Hrest) eqn:Hwf'. clear Hwf'. unfold is_u32 in Hn.
    destruct (decide (i * 64 + j + 1 = u32_mod)) as [Ew|Hnw].
    + (* the last number wraps to 0 *)
      rewrite Ew. replace (u32 u32_mod) with 0 by done. rewrite bit_out by lia.
      exists (Some 0). split.
      { unfold mbnd, get, mret. by destruct (Z.ltb_spec (numBits bm) 0). }
      left. split; [done|]. intros k Hk. apply busy_spec, Hbelow. lia.
    + rewrite u32_id by (unfold is_u32, u32_mod in *; lia).
      destruct (bit bm (i * 64 + j + 1)) eqn:Eb.
      * replace (Z.succ j) with (j + 1) by lia. replace (Z.pred (64 - j)) with (64 - (j + 1)) by lia.
        apply IH; [lia..|]. intros k Hk.
        destruct (decide (k = i * 64 + j + 1)) as [->|]; [done|]. apply Hbelow. lia.
      * eexists. split; [reflexivity|]. destruct (Z.ltb_spec (numBits bm) (i * 64 + j + 1)).
        -- left. split; [done|]. intros k Hk. apply busy_spec, Hbelow. lia.
        -- right. split; [lia|]. split; [rewrite busy_spec; congruence|].
           intros k Hk. apply busy_spec, Hbelow. lia.
Qed.

Lemma ffc_words_spec bm pre arr :
  wf bm -> u64Array bm = pre ++ arr ->
  (forall k, 1 <= k <= numBits bm -> k <= Z.of_nat (length pre) * 64 -> bit bm k = true) ->
  exists r, ffc_words (Z.of_nat (length pre)) arr bm = Done r bm /\
            least_free (numBits bm) (busy bm) r.
Proof.
  intros Hwf. revert pre. induction arr as [|v arr IH]; intros pre Harr Hbelow.
  - exists 0. split; [done|]. left. split; [done|]. intros i Hi. apply busy_spec, Hbelow; [done|].
    pose proof (word_index_lt bm i Hwf Hi) as Hlt. rewrite Harr, app_nil_r in Hlt.
    pose proof (Z.div_mod (i - 1) 64 ltac:(lia)).
    pose proof (Z.mod_pos_bound (i - 1) 64 ltac:(lia)). lia.
  - assert (Hnext : forall k, k <= Z.of_nat (length (pre ++ [v])) * 64 <->
                              k <= Z.of_nat (length pre) * 64 + 64).
    { intros k. rewrite length_app. cbn. lia. }
    assert (Hlen : Z.of_nat (length pre) + 1 = Z.of_nat (length (pre ++ [v]))).
    { rewrite length_app. cbn. lia. }
    cbn [ffc_words]. destruct (Z.eqb_spec v allBitsSet) as [->|Hv].
    + rewrite Hlen. apply IH; [by rewrite <- app_assoc|]. intros k Hk Hkl.
      destruct (decide (k <= Z.of_nat (length pre) * 64)); [auto|].
      destruct (word_at bm k Hwf Hk) as (w & Hw & _ & ->).
      pose proof (Z.div_mod (k - 1) 64 ltac:(lia)).
      pose proof (Z.mod_pos_bound (k - 1) 64 ltac:(lia)). apply Hnext in Hkl.
      assert ((k - 1) / 64 = Z.of_nat (length pre)) as E by lia.
      rewrite E, Nat2Z.id, Harr, list_lookup_middle in Hw by done. injection Hw as <-.
      apply allBitsSet_testbit. lia.
    + destruct (decide (Z.of_nat (length pre) * 64 < numBits bm)) as [Hin|Hin].
      * destruct (ffc_word_spec bm (Z.of_nat (length pre)) 0) as (r & Hr & Hspec);
          [done|lia|done|lia|intros; apply Hbelow; lia|].
        unfold mbnd at 1. replace (64 - 0) with 64 in Hr by done. rewrite Hr.
        destruct r as [b|]; [by exists b|]. rewrite Hlen.
        apply IH; [by rewrite <- app_assoc|]. intros k Hk Hkl. apply Hspec.
        apply Hnext in Hkl. lia.
      * (* only for [NewBitmap 0]: no bit is in range *)
        assert (numBits bm = 0) as H0.
        { destruct Hwf as (Hn & Hl & _). rewrite Harr, length_app in Hl. cbn in Hl.
          unfold is_u32 in Hn. destruct (decide (numBits bm = 0)); [done|].
          rewrite u32_id in Hl by (unfold is_u32; lia).
          pose proof (Z.div_mod (numBits bm - 1) 64 ltac:(lia)).
          pose proof (Z.mod_pos_bound (numBits bm - 1) 64 ltac:(lia)). lia. }
        exists 0. split; [|left; split; [done|lia]].
        rewrite seqZ_cons by lia. cbn [ffc_word]. unfold mbnd. rewrite IsSet_eq by done.
        rewrite bit_out by (rewrite H0; lia). unfold get, mret. rewrite H0.
        destruct (Z.ltb_spec 0 (u32 (Z.of_nat (length pre) * 64 + 0 + 1))); [done|].
        pose proof (u32_is_u32 (Z.of_nat (length pre) * 64 + 0 + 1)) as [? _].
        f_equal. lia.
Qed.

Lemma FindFirstClear_eq bm :
  wf bm -> exists r, FindFirstClear bm = Done r bm /\ least_free (numBits bm) (busy bm) r.
Proof.
  intros Hwf. destruct (ffc_words_spec bm [] (u64Array bm)) as (r & Hr & Hs); [done|done|cbn; lia|].
  exists r. done.
Qed.

Lemma NewBitmap_wf n : is_u32 n -> wf (NewBitmap n) /\ numBits (NewBitmap n) = n /\ busy (NewBitmap n) = ∅.
Proof.
  intros Hn. split; [|split; [done|]].
  - split; [done|]. split; cbn.
    + rewrite length_replicate. pose proof (u32_is_u32 (n - 1)) as [? _].
      pose proof (Z.div_pos (u32 (n - 1)) 64 ltac:(lia) ltac:(lia)). lia.
    + apply Forall_replicate. unfold u64_mod. lia.
  - apply set_eq. intros i. rewrite busy_spec. split; [|set_solver].
    unfold bit. cbn. intros H. apply andb_true_iff in H as [_ H].
    destruct (replicate _ _ !! _) eqn:E; [|done]. apply lookup_replicate in E as [-> _].
    by rewrite Z.bits_0 in H.
Qed.

Lemma Clear_eq bm i :
  wf bm ->
  exists bm', Clear i bm = Done tt bm' /\ wf bm' /\ numBits bm' = numBits bm /\
              busy bm' = busy bm ∖ {[i]}.
Proof.
  intros Hwf. destruct (decide (1 <= i <= numBits bm)) as [Hi|Hi].
  - destruct (word_at bm i Hwf Hi) as (w & Hw & Hwu & _).
    destruct (bit_write bm i (Z.ldiff w (bit_mask (i - 1))) false) as [Hwf' Hb]; [done|done| | |].
    { apply ldiff_u64; [done|apply bit_mask_u64]. }
    { intros w0 k Hw0 Hk. rewrite Hw in Hw0. injection Hw0 as <-.
      rewrite Z.ldiff_spec, testbit_mask by lia.
      case_bool_decide; [apply andb_false_r|apply andb_true_r]. }
    eexists. split; [|split; [exact Hwf'|split; [done|exact (busy_write _ _ _ _ Hb)]]].
    unfold Clear, mbnd, get. cbv beta iota. range_cases i bm; [lia..|].
    unfold deref. by rewrite Hw.
  - exists bm. split; [|split; [done|split; [done|]]].
    + unfold Clear, mbnd, get. cbv beta iota. range_cases i bm; [done..|lia].
    + symmetry. apply difference_disjoint_L. apply disjoint_singleton_r.
      rewrite busy_spec, bit_out by done. done.
Qed.

(** ** The text of a bitmap *)

Lemma concat_snoc sep l x :
  String.concat sep (l ++ [x]) =
  if decide (l = []) then x else String.concat sep l +:+ sep +:+ x.
Proof.
  induction l as [|y l IH]; [done|]. destruct l as [|z l]; [done|].
  change (String.concat sep ((y :: z :: l) ++ [x]))
    with (y +:+ sep +:+ String.concat sep ((z :: l) ++ [x])).
  rewrite IH. rewrite !decide_False by done.
  change (String.concat sep (y :: z :: l)) with (y +:+ sep +:+ String.concat sep (z :: l)).
  by rewrite !sapp_assoc.
Qed.

Definition lead (closed : list (Z * Z)) : string :=
  if decide (closed = []) then "" else print_runs closed +:+ ",".

Lemma print_runs_snoc closed r : print_runs (closed ++ [r]) = lead closed +:+ print_run r.
Proof.
  unfold print_runs, lead. rewrite map_app. cbn [map]. rewrite concat_snoc.
  destruct closed; [done|]. rewrite !decide_False by done. by rewrite !sapp_assoc.
Qed.

(** The loop state that corresponds to the closed runs and the open one. *)
Definition run_rel (pre : string) (closed : list (Z * Z)) (open : option Z) (r : run_state) : Prop :=
  match open with
  | Some a => rs_onARun r = true /\ rs_onARunBit r = a /\
              rs_str r = pre +:+ lead closed +:+ dec a
  | None => rs_onARun r = false /\ rs_needComma r = bool_decide (closed <> []) /\
            rs_str r = pre +:+ print_runs closed
  end.

Definition close_text (n : Z) (r : run_state) : string :=
  if rs_onARun r then if rs_onARunBit r =? n then "" else "-" +:+ dec n else "".

Lemma string_step_rel pre closed open r n i (b : bool) :
  run_rel pre closed open r ->
  run_rel pre
    (if b then closed else match open with Some a => closed ++ [(a, i - 1)] | None => closed end)
    (if b then Some (default i open) else None) (string_step n i b r).
Proof.
  destruct r as [str on onb comma]. unfold run_rel, string_step. cbn.
  destruct b, open as [a|]; cbn; intros (-> & Hb & ->); subst; cbn.
  - done.
  - split; [done|split; [done|]]. unfold lead. destruct closed as [|c closed].
    + by rewrite bool_decide_eq_false_2, decide_True, !sapp_assoc by tauto.
    + by rewrite bool_decide_eq_true_2, decide_False, !sapp_assoc by done.
  - split; [done|split; [symmetry; apply bool_decide_eq_true_2; by destruct closed|]].
    rewrite print_runs_snoc. unfold print_run. cbn. by rewrite !sapp_assoc.
  - done.
Qed.

Lemma string_loop_runs bm pre closed open r n i m :
  wf bm -> 0 <= m -> run_rel pre closed open r ->
  exists r', string_loop n (seqZ i m) r bm = Done r' bm /\
    rs_str r' +:+ close_text (i + m - 1) r' =
    pre +:+ print_runs (closed ++ runs_of (bit bm) (seqZ i m) open (i - 1)).
Proof.
  intros Hwf Hm. remember (Z.to_nat m) as k eqn:Ek.
  revert i m Hm Ek closed open r. induction k as [|k IH]; intros i m Hm Ek closed open r Hr.
  - assert (m = 0) as -> by lia. exists r. split; [done|].
    rewrite seqZ_nil by lia. cbn [runs_of]. replace (i + 0 - 1) with (i - 1) by lia. unfold close_text, run_rel in *. destruct open as [a|].
    + destruct Hr as (-> & -> & ->). rewrite print_runs_snoc. unfold print_run. cbn.
      by rewrite !sapp_assoc.
    + destruct Hr as (-> & _ & ->). by rewrite sapp_nil_r, app_nil_r.
  - rewrite seqZ_cons by lia. cbn [string_loop runs_of]. unfold mbnd. rewrite IsSet_eq by done.
    pose proof (string_step_rel pre closed open r n i (bit bm i) Hr) as Hr'.
    apply (IH (Z.succ i) (Z.pred m)) in Hr' as (r' & -> & Ht); [|lia..].
    exists r'. split; [done|].
    replace (Z.succ i + Z.pred m - 1) with (i + m - 1) in Ht by lia.
    replace (Z.succ i - 1) with i in Ht by lia. rewrite Ht.
    destruct (bit bm i); [done|]. destruct open; [by rewrite <- app_assoc|done].
Qed.

Lemma runs_of_cover f i m open last x :
  0 <= m -> last = i - 1 -> (forall a, open = Some a -> a <= last) ->
  (exists r : Z * Z, r ∈ runs_of f (seqZ i m) open last /\ fst r <= x <= snd r) <->
  (i <= x < i + m /\ f x = true) \/ (exists a, open = Some a /\ a <= x <= last).
Proof.
  intros Hm. remember (Z.to_nat m) as k eqn:Ek.
  revert i m Hm Ek open last. induction k as [|k IH]; intros i m Hm Ek open last Hl Ho.
  - assert (m = 0) as -> by lia. rewrite seqZ_nil by lia. cbn [runs_of]. destruct open as [a|].
    + split.
      * intros (r & ->%list_elem_of_singleton & Hx). right. by exists a.
      * intros [[H1 _]|(b & [= <-] & Hx)]; [lia|]. exists (a, last). split; [by left|done].
    + split; [intros (r & H & _); by apply not_elem_of_nil in H|].
      intros [[H1 _]|(b & Hb & _)]; [lia|done].
  - rewrite seqZ_cons by lia. cbn [runs_of]. destruct (f i) eqn:Fi.
    + rewrite IH; [|lia|lia|lia|intros a [= <-]; destruct open; cbn; [specialize (Ho _ eq_refl)|]; lia].
      split.
      * intros [[H1 H2]|(a & [= <-] & H)]; [left; split; [lia|done]|].
        destruct open as [a|]; cbn in *; [|left; assert (x = i) as -> by lia; split; [lia|done]].
        destruct (decide (x = i)) as [->|]; [left; split; [lia|done]|]. right. exists a. split; [done|lia].
      * intros [[H1 H2]|(a & -> & H)].
        -- destruct (decide (x = i)) as [->|]; [|left; split; [lia|done]]. right.
           eexists. split; [reflexivity|]. destruct open as [a|]; cbn; [|lia].
           specialize (Ho a eq_refl). lia.
        -- right. exists a. split; [done|]. lia.
    + destruct open as [a|].
      * split.
        -- intros (r & Hr & Hx). apply elem_of_cons in Hr as [->|Hr].
           ++ cbn in Hx. right. exists a. split; [done|lia].
           ++ destruct (proj1 (IH (Z.succ i) (Z.pred m) ltac:(lia) ltac:(lia) None i ltac:(lia) ltac:(done)))
                as [[H1 H2]|(b & Hb & _)]; [by exists r| |done]. left. split; [lia|done].
        -- intros [[H1 H2]|(b & [= <-] & H)].
           ++ destruct (decide (x = i)) as [->|]; [congruence|].
              destruct (proj2 (IH (Z.succ i) (Z.pred m) ltac:(lia) ltac:(lia) None i ltac:(lia) ltac:(done)))
                as (r & Hr & Hx); [left; split; [lia|done]|]. exists r. split; [by right|done].
           ++ exists (a, i - 1). split; [by left|]. cbn. lia.
      * rewrite IH by (lia || done). split.
        -- intros [[H1 H2]|(b & Hb & _)]; [|done]. left. split; [lia|done].
        -- intros [[H1 H2]|(b & Hb & _)]; [|done]. left. split; [|done].
           destruct (decide (x = i)) as [->|]; [congruence|lia].
Qed.

(** ** Properties *)



(** [FindFirstClear] terminates without a panic and returns the least free
    bit of [1..numBits], and 0 exactly when every bit is busy; the bitmap is
    unchanged.  It holds for every width, also when [numBits] is not a multiple
    of 64 and when the last bit number wraps around in [uint32]. *)
Theorem FindFirstClear_least bm :
  wf bm ->
  exists r, FindFirstClear bm = Done r bm /\ least_free (numBits bm) (busy bm) r.
Proof. apply FindFirstClear_eq. Qed.

Lemma FindFirstClear_least_witness :
  FindFirstClear (mkBitmap [allBitsSet; Z.shiftl 7 61] 70) = Done 68 (mkBitmap [allBitsSet; Z.shiftl 7 61] 70) /\
  exists r, FindFirstClear (mkBitmap [allBitsSet; Z.shiftl 7 61] 70)
            = Done r (mkBitmap [allBitsSet; Z.shiftl 7 61] 70) /\
    least_free 70 (busy (mkBitmap [allBitsSet; Z.shiftl 7 61] 70)) r.
Proof.
  split; [vm_compute; reflexivity|]. apply (FindFirstClear_least (mkBitmap [allBitsSet; Z.shiftl 7 61] 70)).
  split; [unfold is_u32, u32_mod; cbn; lia|]. split; [vm_compute; reflexivity|].
  repeat constructor; vm_compute; congruence.
Defined.

(** The text of a bitmap lists the maximal runs of busy bits, [a] for one bit
    and [a-b] for more, separated by commas, and a number is inside one of the
    listed runs exactly when its bit is busy. *)
Theorem BM_String_runs bm :
  wf bm ->
  let runs := runs_of (bit bm) (seqZ 1 (numBits bm)) None 0 in
  BM_String bm = Done ("numBits: " +:+ dec (numBits bm) +:+ ", bits:[" +:+ print_runs runs +:+ "] ") bm /\
  (forall x, (exists r : Z * Z, r ∈ runs /\ fst r <= x <= snd r) <-> x ∈ busy bm).
Proof.
  intros Hwf runs. assert (0 <= numBits bm) by apply Hwf. split.
  - unfold BM_String, mbnd, get.
    destruct (string_loop_runs bm ("numBits: " +:+ dec (numBits bm) +:+ ", bits:" +:+ "[") [] None
      (mkRun ("numBits: " +:+ dec (numBits bm) +:+ ", bits:" +:+ "[") false (numBits bm + 1) false)
      (numBits bm) 1 (numBits bm)) as (r & -> & Ht); [done|lia| |].
    { split; [done|split; [done|]]. symmetry. apply sapp_nil_r. }
    replace (1 + numBits bm - 1) with (numBits bm) in Ht by lia.
    unfold mret. f_equal. fold (close_text (numBits bm) r). rewrite Ht.
    by rewrite !sapp_assoc.
  - intros x. unfold runs. rewrite runs_of_cover by (lia || done). rewrite busy_spec. split.
    + intros [[_ H1]|(a & Ha & _)]; done.
    + intros Hb. left. split; [|done].
      destruct (decide (1 <= x <= numBits bm)); [lia|]. by rewrite bit_out in Hb.
Qed.

Lemma BM_String_runs_witness :
  BM_String (mkBitmap [Z.shiftl 23 58] 8) = Done "numBits: 8, bits:[2,4-6] " (mkBitmap [Z.shiftl 23 58] 8) /\
  BM_String (mkBitmap [Z.shiftl 23 58] 8) =
  Done ("numBits: " +:+ dec 8 +:+ ", bits:[" +:+
    print_runs (runs_of (bit (mkBitmap [Z.shiftl 23 58] 8)) (seqZ 1 8) None 0) +:+ "] ") (mkBitmap [Z.shiftl 23 58] 8).
Proof.
  split; [vm_compute; reflexivity|]. apply (BM_String_runs (mkBitmap [Z.shiftl 23 58] 8)).
  split; [unfold is_u32, u32_mod; cbn; lia|]. split; [vm_compute; reflexivity|].
  repeat constructor; vm_compute; congruence.
Defined.

End Bitmap.
