(* ===== verification/IdAlloc.v ===== *)
(** * plugins/controller/idapi: the identifier allocators

    [MacAddr], [Memif] and [Vrf] are counters of width 32; [Vni] allocates from
    a range with a bitmap.  The counters promise distinct identifiers until
    they wrap around (class [Counter]); the vni allocator promises a free vni
    of its range. *)

From S2P Require Import Prelude GoStd Bitmap.

Module MacAddr.

Record MacAddrAllocatorType : Type := mkMacAddrAllocator { MacAddrID : Z }.

(** [macOctets[i]] *)
Definition macOctet (macInstanceID : Z) (k : Z) : Z :=
  Z.land 0xFF (Z.shiftr macInstanceID (8 * k)).

Definition macOctets (id32 : Z) : list Z :=
  [0x02; macOctet id32 4; macOctet id32 3; macOctet id32 2; macOctet id32 1; macOctet id32 0].

(** Five octets followed by a colon, then the last one. *)
Definition formatMacAddress (id32 : Z) : string :=
  String.concat ":" (map hex02 (macOctets id32)).

Definition Allocate : M MacAddrAllocatorType (string * Z) :=
  modify (fun m => mkMacAddrAllocator (u32 (MacAddrID m + 1))) ;;;
  let! id := get MacAddrID in
  mret (formatMacAddress id, id).

Definition NewMacAddrAllocator : MacAddrAllocatorType := mkMacAddrAllocator 0.

End MacAddr.

Module Memif.

Record MemifAllocatorType : Type := mkMemifAllocator { MemifID : Z }.

Definition Allocate : M MemifAllocatorType Z :=
  modify (fun m => mkMemifAllocator (u32 (MemifID m + 1))) ;;;
  get MemifID.

Definition NewMemifAllocator : MemifAllocatorType := mkMemifAllocator 0.

End Memif.

Module Vrf.

Record VrfAllocatorType : Type := mkVrfAllocator { VrfID : Z }.

Definition Allocate : M VrfAllocatorType Z :=
  let! id := get VrfID in
  modify (fun v => mkVrfAllocator (u32 (VrfID v + 1))) ;;;
  mret id.

Definition SetVrfAllocatorInitialValue (initialValue : Z) : M VrfAllocatorType unit :=
  modify (fun _ => mkVrfAllocator initialValue).

Definition NewVrfAllocator : VrfAllocatorType := mkVrfAllocator 10.

End Vrf.

Module Vni.

Record VxlanVniAllocatorType : Type := mkVxlanVniAllocator {
  StartVni : Z;
  EndVni : Z;
  numBits : Z;
  BM : Bitmap.Bitmap
}.

Definition set_BM (bm : Bitmap.Bitmap) (v : VxlanVniAllocatorType) : VxlanVniAllocatorType :=
  mkVxlanVniAllocator (StartVni v) (EndVni v) (numBits v) bm.

(** A call on the embedded bitmap. *)
Definition on_BM {A} (m : M Bitmap.Bitmap A) : M VxlanVniAllocatorType A := zoom BM set_BM m.

Definition SetVni (vni : Z) : M VxlanVniAllocatorType (result unit) :=
  let! v := get id in
  if (vni <? StartVni v) || (EndVni v <? vni) then
    mfail ("SetVni: vni '" +:+ dec vni +:+ "' out of range '" +:+ dec (StartVni v) +:+ "-"
           +:+ dec (EndVni v))
  else
    let? _ := on_BM (Bitmap.BM_Set (u32 (vni - StartVni v + 1))) in
    mok tt.

Definition AllocateVni : M VxlanVniAllocatorType (result Z) :=
  let! freeBit := on_BM Bitmap.FindFirstClear in
  if freeBit =? 0 then mfail "AllocateVni: all vni's allocated"
  else
    on_BM (Bitmap.BM_Set freeBit) ;;;
    let! v := get id in
    mok (u32 (freeBit + StartVni v - 1)).

Definition NewVxlanVniAllocator (startVni endVni : Z) : VxlanVniAllocatorType :=
  let n := u32 (endVni - startVni + 1) in
  mkVxlanVniAllocator startVni endVni n (Bitmap.NewBitmap n).

(** The vnis handed out so far. *)
Definition allocated (v : VxlanVniAllocatorType) : gset Z :=
  set_map (fun b => b + StartVni v - 1) (Bitmap.busy (BM v)).

(** The range is a range of [uint32] and the bitmap has one bit per vni. *)
Definition wf (v : VxlanVniAllocatorType) : Prop :=
  is_u32 (StartVni v) /\ is_u32 (EndVni v) /\ StartVni v <= EndVni v /\
  EndVni v - StartVni v + 1 < u32_mod /\
  Bitmap.wf (BM v) /\ Bitmap.numBits (BM v) = EndVni v - StartVni v + 1.

(** The first vni of the range that is not in [X]. *)
Definition least_vni (start stop : Z) (X : gset Z) (n : Z) : Prop :=
  start <= n <= stop /\ ~ (n ∈ X) /\ (forall m, start <= m < n -> m ∈ X).

End Vni.

(** ** What a counter promises *)

(** A component that hands out 32-bit identifiers from a counter: the identifier
    is the counter plus a fixed offset, and the counter moves by one. *)
Class Counter {S A : Type} (alloc : M S A) (ident : A -> Z) := {
  count : S -> Z;
  offset : Z;
  alloc_step : forall s, is_u32 (count s) ->
    exists a s', alloc s = Done a s' /\ count s' = u32 (count s + 1) /\
                 ident a = u32 (count s + offset)
}.

(** The results of [n] allocations in a row. *)
Fixpoint allocate_n {S A} (alloc : M S A) (n : nat) (s : S) : list A :=
  match n with
  | O => []
  | Datatypes.S n => match alloc s with Done a s' => a :: allocate_n alloc n s' | Panic => [] end
  end.

#[export] Instance mac_counter : Counter MacAddr.Allocate snd.
Proof.
  refine {| count := MacAddr.MacAddrID; offset := 1 |}.
  intros s _. by repeat eexists.
Defined.

#[export] Instance memif_counter : Counter Memif.Allocate id.
Proof.
  refine {| count := Memif.MemifID; offset := 1 |}.
  intros s _. by repeat eexists.
Defined.

#[export] Instance vrf_counter : Counter Vrf.Allocate id.
Proof.
  refine {| count := Vrf.VrfID; offset := 0 |}.
  intros s Hs. repeat eexists. rewrite Z.add_0_r, u32_id by done. done.
Defined.

Section counter.
Context {S A : Type} (alloc : M S A) (ident : A -> Z) `{!Counter alloc ident}.

Lemma allocate_n_ident n s k a :
  is_u32 (count s) -> allocate_n alloc n s !! k = Some a ->
  ident a = u32 (count s + offset + Z.of_nat k).
Proof.
  revert s k. induction n as [|n IH]; intros s k Hs; cbn [allocate_n]; [done|].
  destruct (alloc_step s Hs) as (a' & s' & -> & Hc & Hi). destruct k as [|k]; cbn.
  - intros [= <-]. rewrite Hi. f_equal. lia.
  - intros Hk. apply IH in Hk; [|rewrite Hc; apply u32_is_u32]. rewrite Hk, Hc. unfold u32.
    rewrite <- Zplus_assoc, Zplus_mod_idemp_l. f_equal. lia.
Qed.

Lemma allocate_n_length n s : is_u32 (count s) -> length (allocate_n alloc n s) = n.
Proof.
  revert s. induction n as [|n IH]; intros s Hs; cbn [allocate_n]; [done|].
  destruct (alloc_step s Hs) as (a' & s' & -> & Hc & _). cbn. rewrite IH; [done|].
  rewrite Hc. apply u32_is_u32.
Qed.

(** Proved once against the interface, for the three counters. *)
Lemma allocate_n_NoDup n s :
  is_u32 (count s) -> Z.of_nat n <= u32_mod -> NoDup (ident <$> allocate_n alloc n s).
Proof.
  intros Hs Hn. apply NoDup_alt. intros i j x Hi Hj.
  apply list_lookup_fmap_Some in Hi as (a & -> & Ha).
  apply list_lookup_fmap_Some in Hj as (b & E & Hb).
  pose proof (lookup_lt_Some _ _ _ Ha) as Hi'. pose proof (lookup_lt_Some _ _ _ Hb) as Hj'.
  rewrite allocate_n_length in Hi', Hj' by done.
  rewrite (allocate_n_ident _ _ _ _ Hs Ha), (allocate_n_ident _ _ _ _ Hs Hb) in E.
  unfold u32, u32_mod in *.
  pose proof (Z.div_mod (count s + offset + Z.of_nat i) (2 ^ 32) ltac:(lia)).
  pose proof (Z.div_mod (count s + offset + Z.of_nat j) (2 ^ 32) ltac:(lia)). nia.
Qed.
End counter.

(** ** MAC addresses *)

Lemma hex_digit_inj a b :
  0 <= a < 16 -> 0 <= b < 16 -> hex_digit a = hex_digit b -> a = b.
Proof.
  unfold hex_digit. intros Ha Hb E. apply (f_equal nat_of_ascii) in E.
  rewrite !nat_ascii_embedding in E; destruct (Z.ltb_spec a 10), (Z.ltb_spec b 10); lia.
Qed.

Lemma macOctet_eq id k : 0 <= k -> MacAddr.macOctet id k = (id / 2 ^ (8 * k)) mod 256.
Proof.
  intros Hk. unfold MacAddr.macOctet. change 0xFF with (Z.ones 8).
  rewrite Z.land_comm, Z.land_ones, Z.shiftr_div_pow2 by lia. done.
Qed.

Lemma hex02_inj a b t u :
  0 <= a < 256 -> 0 <= b < 256 -> hex02 a +:+ t = hex02 b +:+ u -> a = b /\ t = u.
Proof.
  intros Ha Hb. unfold hex02. autorewrite with gorw. intros [= H1 H2 H3].
  pose proof (Z.div_mod a 16 ltac:(lia)). pose proof (Z.div_mod b 16 ltac:(lia)).
  pose proof (Z.mod_pos_bound a 16 ltac:(lia)). pose proof (Z.mod_pos_bound b 16 ltac:(lia)).
  apply hex_digit_inj in H1; [|lia..]. apply hex_digit_inj in H2; [|lia..].
  split; [lia|done].
Qed.

Lemma concat_hex_inj l1 l2 :
  length l1 = length l2 -> Forall (fun z => 0 <= z < 256) l1 -> Forall (fun z => 0 <= z < 256) l2 ->
  String.concat ":" (map hex02 l1) = String.concat ":" (map hex02 l2) -> l1 = l2.
Proof.
  revert l2. induction l1 as [|a l1 IH]; intros [|b l2] Hl H1 H2 E; try done.
  apply Forall_cons in H1 as [Ha H1]. apply Forall_cons in H2 as [Hb H2].
  destruct l1 as [|a' l1], l2 as [|b' l2]; try done.
  - change (hex02 a = hex02 b) in E. rewrite <- (sapp_nil_r (hex02 a)), <- (sapp_nil_r (hex02 b)) in E.
    by apply hex02_inj in E as [-> _].
  - change (hex02 a +:+ ":" +:+ String.concat ":" (map hex02 (a' :: l1))
            = hex02 b +:+ ":" +:+ String.concat ":" (map hex02 (b' :: l2))) in E.
    apply hex02_inj in E as [-> E]; [|done..]. apply sapp_inj_l in E.
    f_equal. apply IH; [cbn in *; lia|done..].
Qed.

Lemma macOctets_range id : Forall (fun z => 0 <= z < 256) (MacAddr.macOctets id).
Proof.
  unfold MacAddr.macOctets. rewrite !macOctet_eq by lia.
  repeat (apply Forall_cons; split; [first [apply Z.mod_pos_bound; lia|lia]|]). by apply Forall_nil.
Qed.

Lemma formatMacAddress_inj a b :
  is_u32 a -> is_u32 b -> MacAddr.formatMacAddress a = MacAddr.formatMacAddress b -> a = b.
Proof.
  unfold is_u32, u32_mod. intros Ha Hb E.
  apply concat_hex_inj in E; [|done|apply macOctets_range..].
  unfold MacAddr.macOctets in E. rewrite !macOctet_eq in E by lia.
  injection E as _ E3 E2 E1 E0.
  change (2 ^ (8 * 3)) with (256 * 256 * 256) in E3. change (2 ^ (8 * 2)) with (256 * 256) in E2.
  change (2 ^ (8 * 1)) with 256 in E1. change (2 ^ (8 * 0)) with 1 in E0.
  rewrite <- !Z.div_div in E3 by lia. rewrite <- !Z.div_div in E2 by lia. rewrite !Z.div_1_r in E0.
  change (2 ^ 32) with 4294967296 in *. dlia.
Qed.

(** ** Vni ranges *)

Lemma allocated_spec v n :
  n ∈ Vni.allocated v <-> (n - Vni.StartVni v + 1) ∈ Bitmap.busy (Vni.BM v).
Proof.
  unfold Vni.allocated. rewrite elem_of_map. split.
  - intros (b & -> & Hb). by replace (b + Vni.StartVni v - 1 - Vni.StartVni v + 1) with b by lia.
  - intros H. eexists. split; [|exact H]. lia.
Qed.

Lemma allocated_set_BM v bm b :
  Bitmap.busy bm = {[b]} ∪ Bitmap.busy (Vni.BM v) ->
  Vni.allocated (Vni.set_BM bm v) = {[b + Vni.StartVni v - 1]} ∪ Vni.allocated v.
Proof.
  intros H. apply set_eq. intros n. rewrite elem_of_union, elem_of_singleton, !allocated_spec.
  cbn. rewrite H, elem_of_union, elem_of_singleton. split; (intros [?|?]; [left; lia|by right]).
Qed.

Lemma vni_bit_range v b :
  Vni.wf v -> 1 <= b <= Bitmap.numBits (Vni.BM v) ->
  u32 (b + Vni.StartVni v - 1) = b + Vni.StartVni v - 1 /\
  Vni.StartVni v <= b + Vni.StartVni v - 1 <= Vni.EndVni v.
Proof.
  intros (Hs & He & Hle & Hw & Hbm & Hn) Hb. unfold is_u32 in *. split; [|lia].
  apply u32_id. unfold is_u32. lia.
Qed.

Lemma vni_set_wf v bm :
  Vni.wf v -> Bitmap.wf bm -> Bitmap.numBits bm = Bitmap.numBits (Vni.BM v) ->
  Vni.wf (Vni.set_BM bm v).
Proof. intros (? & ? & ? & ? & ? & ?) Hbm Hn. unfold Vni.wf. cbn. rewrite Hn. tauto. Qed.

Lemma AllocateVni_eq v :
  Vni.wf v ->
  (exists n v', Vni.AllocateVni v = Done (Ok n) v' /\ Vni.wf v' /\
     Vni.StartVni v' = Vni.StartVni v /\ Vni.EndVni v' = Vni.EndVni v /\
     Vni.least_vni (Vni.StartVni v) (Vni.EndVni v) (Vni.allocated v) n /\
     Vni.allocated v' = {[n]} ∪ Vni.allocated v) \/
  (Vni.AllocateVni v = Done (Err "AllocateVni: all vni's allocated") v /\
   forall n, Vni.StartVni v <= n <= Vni.EndVni v -> n ∈ Vni.allocated v).
Proof.
  intros Hwf. pose proof Hwf as (Hs & He & Hle & Hw & Hbm & Hn).
  destruct (Bitmap.FindFirstClear_eq (Vni.BM v) Hbm) as (r & Hr & Hspec).
  assert (Hff : Vni.on_BM Bitmap.FindFirstClear v = Done r v).
  { unfold Vni.on_BM, zoom. rewrite Hr. by destruct v. }
  unfold Vni.AllocateVni, mbnd. rewrite Hff. destruct Hspec as [[-> Hall]|(Hrange & Hfree & Hbelow)].
  - right. split; [done|]. intros n Hn'. apply allocated_spec, Hall. lia.
  - left. destruct (Z.eqb_spec r 0); [lia|].
    destruct (Bitmap.BM_Set_eq (Vni.BM v) r Hbm Hrange) as (bm' & Hset & Hwf' & Hnb & Hbusy).
    unfold Vni.on_BM, zoom. rewrite Hset. cbn.
    destruct (vni_bit_range v r Hwf Hrange) as [-> Hin].
    exists (r + Vni.StartVni v - 1), (Vni.set_BM bm' v). split; [done|].
    split; [by apply vni_set_wf|]. split; [done|split; [done|split]].
    + split; [done|]. split.
      * rewrite allocated_spec. by replace (r + Vni.StartVni v - 1 - Vni.StartVni v + 1) with r by lia.
      * intros m Hm. apply allocated_spec, Hbelow. lia.
    + by apply allocated_set_BM.
Qed.

Lemma NewVxlanVniAllocator_wf a b :
  is_u32 a -> is_u32 b -> 1 <= a <= b ->
  Vni.wf (Vni.NewVxlanVniAllocator a b) /\ Vni.allocated (Vni.NewVxlanVniAllocator a b) = ∅.
Proof.
  unfold is_u32. intros Ha Hb Hab.
  assert (Hn : u32 (b - a + 1) = b - a + 1) by (apply u32_id; unfold is_u32; lia).
  destruct (Bitmap.NewBitmap_wf (u32 (b - a + 1)) (u32_is_u32 _)) as (H1 & H2 & H3).
  split.
  - unfold Vni.wf. cbn. rewrite Hn in *. unfold is_u32. repeat split; try lia; try apply H1.
  - apply set_eq. intros n. rewrite allocated_spec. cbn. rewrite H3. set_solver.
Qed.

(** ** Properties *)

(** C25: The MAC addresses handed out by up to 2^32 allocations in a row, from any
    state of the counter, are pairwise different as strings; the ids are
    too. *)
Theorem mac_addresses_distinct m n :
  is_u32 (MacAddr.MacAddrID m) -> Z.of_nat n <= u32_mod ->
  NoDup (fst <$> allocate_n MacAddr.Allocate n m) /\
  NoDup (snd <$> allocate_n MacAddr.Allocate n m).
Proof.
  intros Hm Hn. pose proof (allocate_n_NoDup MacAddr.Allocate snd n m Hm Hn) as Hd. split; [|done].
  assert (Hf : forall a, a ∈ allocate_n MacAddr.Allocate n m ->
                         fst a = MacAddr.formatMacAddress (snd a) /\ is_u32 (snd a)).
  { clear Hd Hm Hn. revert m. induction n as [|n IH]; intros m a; cbn; [by rewrite elem_of_nil|].
    rewrite elem_of_cons. intros [->|Ha]; [|by apply IH in Ha]. split; [done|apply u32_is_u32]. }
  induction (allocate_n MacAddr.Allocate n m) as [|a l IH]; [constructor|].
  rewrite fmap_cons in *. apply NoDup_cons in Hd as [Hnotin Hd]. apply NoDup_cons. split.
  - intros (b & Eb & Hb)%list_elem_of_fmap. apply Hnotin, list_elem_of_fmap. exists b. split; [|done].
    destruct (Hf a ltac:(by left)) as [Fa Ua], (Hf b ltac:(by right)) as [Fb Ub].
    apply formatMacAddress_inj; congruence.
  - apply IH; [done|]. intros c Hc. apply Hf. by right.
Qed.

Lemma mac_addresses_distinct_witness :
  (fst <$> allocate_n MacAddr.Allocate 3 MacAddr.NewMacAddrAllocator)
    = ["02:00:00:00:00:01"; "02:00:00:00:00:02"; "02:00:00:00:00:03"] /\
  NoDup (fst <$> allocate_n MacAddr.Allocate 3 MacAddr.NewMacAddrAllocator).
Proof.
  split; [vm_compute; reflexivity|].
  apply (mac_addresses_distinct MacAddr.NewMacAddrAllocator 3);
    unfold is_u32, u32_mod; cbn; lia.
Defined.

(** Memif ids and vrf ids do not repeat within 2^32 allocations, and a fresh
    controller never hands out memif id 0 (the value that means "not allocated")
    before the counter wraps, nor a vrf id below 10. *)
Theorem memif_vrf_ids_distinct m v n :
  is_u32 (Memif.MemifID m) -> is_u32 (Vrf.VrfID v) -> Z.of_nat n < u32_mod - 10 ->
  NoDup (allocate_n Memif.Allocate n m) /\ NoDup (allocate_n Vrf.Allocate n v) /\
  (forall i, i ∈ allocate_n Memif.Allocate n Memif.NewMemifAllocator -> 1 <= i) /\
  (forall i, i ∈ allocate_n Vrf.Allocate n Vrf.NewVrfAllocator -> 10 <= i).
Proof.
  intros Hm Hv Hn. repeat split.
  - pose proof (allocate_n_NoDup Memif.Allocate id n m Hm ltac:(lia)) as H. by rewrite list_fmap_id in H.
  - pose proof (allocate_n_NoDup Vrf.Allocate id n v Hv ltac:(lia)) as H. by rewrite list_fmap_id in H.
  - intros i [k Hk]%list_elem_of_lookup. pose proof (lookup_lt_Some _ _ _ Hk) as Hlt.
    assert (H0 : is_u32 (count (alloc := Memif.Allocate) Memif.NewMemifAllocator)) by (unfold is_u32, u32_mod; cbn; lia).
    rewrite (allocate_n_length Memif.Allocate id n _ H0) in Hlt.
    apply (allocate_n_ident Memif.Allocate id n _ k i H0) in Hk. cbn in Hk. rewrite Hk.
    rewrite u32_id; [lia|]. unfold is_u32, u32_mod in *. lia.
  - intros i [k Hk]%list_elem_of_lookup. pose proof (lookup_lt_Some _ _ _ Hk) as Hlt.
    assert (H0 : is_u32 (count (alloc := Vrf.Allocate) Vrf.NewVrfAllocator)) by (unfold is_u32, u32_mod; cbn; lia).
    rewrite (allocate_n_length Vrf.Allocate id n _ H0) in Hlt.
    apply (allocate_n_ident Vrf.Allocate id n _ k i H0) in Hk. cbn in Hk. rewrite Hk.
    rewrite u32_id; [lia|]. unfold is_u32, u32_mod in *. lia.
Qed.

Lemma memif_vrf_ids_distinct_witness :
  allocate_n Vrf.Allocate 3 Vrf.NewVrfAllocator = [10; 11; 12] /\
  NoDup (allocate_n Memif.Allocate 3 Memif.NewMemifAllocator).
Proof.
  split; [vm_compute; reflexivity|].
  apply (memif_vrf_ids_distinct Memif.NewMemifAllocator Vrf.NewVrfAllocator 3);
    unfold is_u32, u32_mod; cbn; lia.
Defined.

(** [AllocateVni] on a well-formed allocator either hands out the first vni
    of [StartVni..EndVni] that is not allocated, marks it and keeps the
    allocator well formed, or reports that all vnis are allocated, exactly when
    the whole range is. *)
Theorem AllocateVni_least v :
  Vni.wf v ->
  (exists n v', Vni.AllocateVni v = Done (Ok n) v' /\ Vni.wf v' /\
     Vni.StartVni v' = Vni.StartVni v /\ Vni.EndVni v' = Vni.EndVni v /\
     Vni.least_vni (Vni.StartVni v) (Vni.EndVni v) (Vni.allocated v) n /\
     Vni.allocated v' = {[n]} ∪ Vni.allocated v) \/
  (Vni.AllocateVni v = Done (Err "AllocateVni: all vni's allocated") v /\
   forall n, Vni.StartVni v <= n <= Vni.EndVni v -> n ∈ Vni.allocated v).
Proof. apply AllocateVni_eq. Qed.

Lemma AllocateVni_least_witness :
  Vni.wf (Vni.NewVxlanVniAllocator 5000 5005) /\
  exists n v', Vni.AllocateVni (Vni.NewVxlanVniAllocator 5000 5005) = Done (Ok n) v' /\
    Vni.allocated v' = {[n]} ∪ Vni.allocated (Vni.NewVxlanVniAllocator 5000 5005).
Proof.
  destruct (NewVxlanVniAllocator_wf 5000 5005) as [Hwf He];
    [unfold is_u32, u32_mod; lia..|lia|].
  split; [exact Hwf|].
  destruct (AllocateVni_least (Vni.NewVxlanVniAllocator 5000 5005) Hwf)
    as [(n & v' & H1 & _ & _ & _ & _ & H2)|[_ H]].
  - exists n, v'. split; assumption.
  - exfalso. specialize (H 5000 ltac:(cbn; lia)). rewrite He in H. set_solver.
Defined.

(** [SetVni] marks a vni of the range and only that one, and is the error of
    the code, with the allocator unchanged, for a vni outside the range. *)
Theorem SetVni_range v vni :
  Vni.wf v -> is_u32 vni ->
  exists v', Vni.SetVni vni v =
    Done (if bool_decide (Vni.StartVni v <= vni <= Vni.EndVni v) then Ok tt
          else Err ("SetVni: vni '" +:+ dec vni +:+ "' out of range '" +:+ dec (Vni.StartVni v)
                    +:+ "-" +:+ dec (Vni.EndVni v))) v' /\
    Vni.wf v' /\
    Vni.allocated v' = if bool_decide (Vni.StartVni v <= vni <= Vni.EndVni v)
                       then {[vni]} ∪ Vni.allocated v else Vni.allocated v.
Proof.
  intros Hwf Hu. pose proof Hwf as (Hs & He & Hle & Hw & Hbm & Hn). unfold is_u32 in *.
  unfold Vni.SetVni, mbnd, get. case_bool_decide as Hin.
  - destruct (Z.ltb_spec vni (Vni.StartVni (id v))); [cbn in *; lia|].
    destruct (Z.ltb_spec (Vni.EndVni (id v)) vni); [cbn in *; lia|]. cbn [orb id].
    rewrite u32_id by (unfold is_u32; lia).
    destruct (Bitmap.BM_Set_eq (Vni.BM v) (vni - Vni.StartVni v + 1) Hbm ltac:(lia))
      as (bm' & Hset & Hwf' & Hnb & Hbusy).
    exists (Vni.set_BM bm' v). unfold rbnd, mbnd, Vni.on_BM, zoom. rewrite Hset. split; [done|].
    split; [by apply vni_set_wf|]. rewrite (allocated_set_BM _ _ _ Hbusy). f_equal. f_equal. lia.
  - exists v. split; [|done]. cbn [id].
    destruct (Z.ltb_spec vni (Vni.StartVni v)), (Z.ltb_spec (Vni.EndVni v) vni); try done. lia.
Qed.

Lemma SetVni_range_witness :
  is_u32 5003 /\
  exists v', Vni.SetVni 5003 (Vni.NewVxlanVniAllocator 5000 5005) = Done (Ok tt) v'.
Proof.
  split; [unfold is_u32, u32_mod; lia|].
  destruct (SetVni_range (Vni.NewVxlanVniAllocator 5000 5005) 5003) as (v' & H & _).
  - apply NewVxlanVniAllocator_wf; unfold is_u32, u32_mod; lia.
  - unfold is_u32, u32_mod; lia.
  - exists v'. exact H.
Defined.
