(* ===== verification/GoNet.v ===== *)
(** * What the controller uses of Go's package net

    [ParseIP], [ParseCIDR], [CIDRMask], [IPNet.Contains], [IPNet.String] and
    [IP.String] of the Go release the project builds with (1.11: leading zeros in
    an octet are accepted), on byte lists: an [IP] has 4 or 16 bytes, an IPv4
    address parses to the 16-byte form. *)

From S2P Require Import Prelude GoStd.

Module Net.

Definition IP : Type := list Z.

Record IPNet : Type := mkIPNet { net_IP : IP; net_Mask : list Z }.

(** Values that would overflow the parser's digits. *)
Definition big : Z := 0xFFFFFF.

(** [dtoi]: decimal digits; the value and the unread rest. *)
Fixpoint dtoi_loop (n : Z) (any : bool) (s : string) : option (Z * string) :=
  match s with
  | String.String c s' =>
      match digit_val c with
      | Some d => if big <=? n * 10 + d then None else dtoi_loop (n * 10 + d) true s'
      | None => if any then Some (n, s) else None
      end
  | String.EmptyString => if any then Some (n, s) else None
  end.

Definition dtoi (s : string) : option (Z * string) := dtoi_loop 0 false s.

Definition xdigit_val (c : ascii) : option Z :=
  let n := Z.of_nat (nat_of_ascii c) in
  if (48 <=? n) && (n <=? 57) then Some (n - 48)
  else if (97 <=? n) && (n <=? 102) then Some (n - 87)
  else if (65 <=? n) && (n <=? 70) then Some (n - 55)
  else None.

(** [xtoi]: hexadecimal digits. *)
Fixpoint xtoi_loop (n : Z) (any : bool) (s : string) : option (Z * string) :=
  match s with
  | String.String c s' =>
      match xdigit_val c with
      | Some d => if big <=? n * 16 + d then None else xtoi_loop (n * 16 + d) true s'
      | None => if any then Some (n, s) else None
      end
  | String.EmptyString => if any then Some (n, s) else None
  end.

Definition xtoi (s : string) : option (Z * string) := xtoi_loop 0 false s.

Definition v4InV6Prefix : list Z := [0; 0; 0; 0; 0; 0; 0; 0; 0; 0; 255; 255].

Definition IPv4 (a b c d : Z) : IP := v4InV6Prefix ++ [a; b; c; d].

(** One octet, after its dot. *)
Definition octet (first : bool) (s : string) : option (Z * string) :=
  let s' := if first then Some s
            else match s with
                 | String.String c s' => if Ascii.eqb c "."%char then Some s' else None
                 | String.EmptyString => None
                 end in
  match s' with
  | None => None
  | Some s' => match dtoi s' with
               | Some (n, r) => if 255 <? n then None else Some (n, r)
               | None => None
               end
  end.

Definition parseIPv4 (s : string) : option IP :=
  match octet true s with
  | Some (a, s) =>
    match octet false s with
    | Some (b, s) =>
      match octet false s with
      | Some (c, s) =>
        match octet false s with
        | Some (d, String.EmptyString) => Some (IPv4 a b c d)
        | _ => None
        end
      | None => None
      end
    | None => None
    end
  | None => None
  end.

Definition is_colon (c : ascii) : bool := Ascii.eqb c ":"%char.

(** The loop of [parseIPv6]: the bytes so far, the position of the ellipsis, the
    unread text.  Every round adds two bytes, so 8 rounds are enough. *)
Fixpoint v6_loop (fuel : nat) (acc : list Z) (ell : option nat) (s : string)
  : option (list Z * option nat * string) :=
  match fuel with
  | O => Some (acc, ell, s)
  | S fuel =>
    match xtoi s with
    | None => None
    | Some (n, rest) =>
      if 0xFFFF <? n then None
      else
        let acc' := acc ++ [n / 256; n mod 256] in
        match rest with
        | String.EmptyString => Some (acc', ell, "")
        | String.String c s1 =>
          if Ascii.eqb c "."%char then
            if bool_decide (ell = None) && negb (length acc =? 12)%nat then None
            else if (16 <? length acc + 4)%nat then None
            else match parseIPv4 s with
                 | Some ip4 => Some (acc ++ drop 12 ip4, ell, "")
                 | None => None
                 end
          else if negb (is_colon c) then None
          else match s1 with
               | String.EmptyString => None
               | String.String c1 s2 =>
                 if is_colon c1 then
                   match ell, s2 with
                   | Some _, _ => None
                   | None, String.EmptyString => Some (acc', Some (length acc'), "")
                   | None, _ => v6_loop fuel acc' (Some (length acc')) s2
                   end
                 else v6_loop fuel acc' ell s1
               end
        end
    end
  end.

Definition finish_v6 (r : list Z * option nat * string) : option IP :=
  match r with
  | (acc, ell, String.EmptyString) =>
      if (length acc <? 16)%nat then
        match ell with
        | Some e => Some (take e acc ++ replicate (16 - length acc) 0 ++ drop e acc)
        | None => None
        end
      else match ell with Some _ => None | None => Some acc end
  | _ => None
  end.

Definition parseIPv6 (s : string) : option IP :=
  match s with
  | String.String c0 (String.String c1 s') =>
      if is_colon c0 && is_colon c1 then
        match s' with
        | String.EmptyString => Some (replicate 16 0)
        | _ => r ← v6_loop 8 [] (Some 0%nat) s'; finish_v6 r
        end
      else r ← v6_loop 8 [] None s; finish_v6 r
  | _ => r ← v6_loop 8 [] None s; finish_v6 r
  end.

(** [ParseIP]: the first dot or colon decides the family. *)
Fixpoint family (s : string) : option bool :=
  match s with
  | String.EmptyString => None
  | String.String c s =>
      if Ascii.eqb c "."%char then Some true else if is_colon c then Some false else family s
  end.

Definition ParseIP (s : string) : option IP :=
  match family s with
  | Some true => parseIPv4 s
  | Some false => parseIPv6 s
  | None => None
  end.

(** Byte [k] of a mask of [ones] leading one bits. *)
Definition mask_byte (ones k : Z) : Z :=
  let n := Z.min 8 (Z.max 0 (ones - 8 * k)) in 256 - 2 ^ (8 - n).

Definition CIDRMask (ones bits : Z) : list Z := mask_byte ones <$> seqZ 0 (bits / 8).

Definition To4 (ip : IP) : option IP :=
  if (length ip =? 4)%nat then Some ip
  else if (length ip =? 16)%nat && bool_decide (take 12 ip = v4InV6Prefix) then Some (drop 12 ip)
  else None.

Definition and_bytes (a b : list Z) : list Z := zip_with Z.land a b.

(** [ip.Mask(m)]; [None] is the nil IP. *)
Definition IP_Mask (ip : IP) (m : list Z) : option IP :=
  let m := if (length m =? 16)%nat && (length ip =? 4)%nat
              && bool_decide (take 12 m = replicate 12 255) then drop 12 m else m in
  let ip := if (length m =? 4)%nat && (length ip =? 16)%nat
               && bool_decide (take 12 ip = v4InV6Prefix) then drop 12 ip else ip in
  if (length ip =? length m)%nat then Some (and_bytes ip m) else None.

Definition ParseCIDR (s : string) : result (IP * IPNet) :=
  let bad := Err ("invalid CIDR address: " +:+ s) in
  match byte_index slash_byte s with
  | None => bad
  | Some i =>
      let addr := stake i s in
      let mask := sdrop (i + 1) s in
      let '(iplen, ip) := match parseIPv4 addr with
                          | Some ip => (4, Some ip)
                          | None => (16, parseIPv6 addr)
                          end in
      match ip, dtoi mask with
      | Some ip, Some (n, String.EmptyString) =>
          if 8 * iplen <? n then bad
          else let m := CIDRMask n (8 * iplen) in
               Ok (ip, mkIPNet (default [] (IP_Mask ip m)) m)
      | _, _ => bad
      end
  end.

(** [simpleMaskLength]: the number of leading ones, -1 if a one follows a zero. *)
Fixpoint ones_of (fuel : nat) (v : Z) : Z :=
  match fuel with
  | O => 0
  | S fuel => if Z.testbit v 7 then 1 + ones_of fuel (Z.land (v * 2) 255) else 0
  end.

Fixpoint simpleMaskLength (m : list Z) : Z :=
  match m with
  | [] => 0
  | 255 :: m => let r := simpleMaskLength m in if r =? -1 then -1 else 8 + r
  | v :: m =>
      let n := ones_of 8 v in
      if (v =? 256 - 2 ^ (8 - n)) && forallb (Z.eqb 0) m then n else -1
  end.

(** [m.Size()], first result *)
Definition Mask_Size (m : list Z) : Z :=
  let r := simpleMaskLength m in if r =? -1 then 0 else r.

Definition networkNumberAndMask (n : IPNet) : option (IP * list Z) :=
  let ip := match To4 (net_IP n) with
            | Some ip => Some ip
            | None => if (length (net_IP n) =? 16)%nat then Some (net_IP n) else None
            end in
  match ip with
  | None => None
  | Some ip =>
      let m := net_Mask n in
      if (length m =? 4)%nat then if (length ip =? 4)%nat then Some (ip, m) else None
      else if (length m =? 16)%nat then Some (ip, if (length ip =? 4)%nat then drop 12 m else m)
      else None
  end.

Definition Contains (n : IPNet) (ip : IP) : bool :=
  match networkNumberAndMask n with
  | None => false
  | Some (nn, m) =>
      let ip := default ip (To4 ip) in
      (length ip =? length nn)%nat && bool_decide (and_bytes nn m = and_bytes ip m)
  end.

Definition hex_lower (z : Z) : ascii :=
  ascii_of_nat (Z.to_nat (if z <? 10 then 48 + z else 87 + z)).

(** [appendHex] of a 16-bit group: no leading zeros. *)
Definition hex_group (z : Z) : string :=
  let d k := String.String (hex_lower ((z / 16 ^ k) mod 16)) "" in
  if z <? 16 then d 0
  else if z <? 256 then d 1 +:+ d 0
  else if z <? 4096 then d 2 +:+ d 1 +:+ d 0
  else d 3 +:+ d 2 +:+ d 1 +:+ d 0.

Fixpoint groups (l : list Z) : list Z :=
  match l with a :: b :: l => (256 * a + b) :: groups l | _ => [] end.

Fixpoint zero_run (l : list Z) : nat :=
  match l with 0 :: l => S (zero_run l) | _ => O end.

(** The first longest run of zero groups, as (start, length); runs shorter than
    two groups are ignored by the caller. *)
Fixpoint longest_zero (fuel : nat) (i : nat) (l : list Z) (best : nat * nat) : nat * nat :=
  match fuel, l with
  | S fuel, _ :: l' =>
      let r := zero_run l in
      let best := if (snd best <? r)%nat then (i, r) else best in
      longest_zero fuel (i + 1) l' best
  | _, _ => best
  end.

Definition dotted (a b c d : Z) : string :=
  dec a +:+ "." +:+ dec b +:+ "." +:+ dec c +:+ "." +:+ dec d.

Definition IP_String (ip : IP) : string :=
  match ip with
  | [] => "<nil>"
  | _ =>
    match To4 ip with
    | Some [a; b; c; d] => dotted a b c d
    | _ =>
      let g := groups ip in
      let '(e, r) := longest_zero 8 0 g (O, O) in
      if (r <? 2)%nat then String.concat ":" (map hex_group g)
      else String.concat ":" (map hex_group (take e g)) +:+ "::" +:+
           String.concat ":" (map hex_group (drop (e + r) g))
    end
  end.

Definition IPNet_String (n : IPNet) : string :=
  match networkNumberAndMask n with
  | None => "<nil>"
  | Some (nn, m) => IP_String nn +:+ "/" +:+ dec (simpleMaskLength m)
  end.

(** The 32-bit number of four bytes. *)
Definition bytes_u32 (a b c d : Z) : Z :=
  Z.lor (Z.lor (Z.lor (Z.shiftl a 24) (Z.shiftl b 16)) (Z.shiftl c 8)) d.

(** The four octets of a 32-bit number. *)
Definition octet_of (z k : Z) : Z := Z.land (Z.shiftr z (8 * k)) 0xFF.

(** ** Facts *)

Lemma digit_val_char r : 0 <= r < 10 -> digit_val (pretty_N_char (Z.to_N r)) = Some r.
Proof.
  intros H. assert (r = 0 \/ r = 1 \/ r = 2 \/ r = 3 \/ r = 4 \/ r = 5 \/ r = 6 \/ r = 7 \/ r = 8 \/ r = 9)
    as Hc by lia.
  repeat (destruct Hc as [->|Hc]; [reflexivity|]). by subst.
Qed.

Lemma dtoi_pretty_go n s b :
  (0 < n)%N -> Z.of_N n < big ->
  dtoi_loop 0 b (pretty_N_go n s) = dtoi_loop (Z.of_N n) true s.
Proof.
  revert s. induction (N.lt_wf_0 n) as [n _ IH]. intros s Hn Hb.
  rewrite pretty_N_go_step by done.
  assert (Hr : pretty_N_char (n mod 10) = pretty_N_char (Z.to_N (Z.of_N n mod 10))).
  { f_equal. rewrite <- (N2Z.id (n mod 10)), N2Z.inj_mod. done. }
  pose proof (Z.mod_pos_bound (Z.of_N n) 10 ltac:(lia)) as Hm.
  pose proof (Z.div_mod (Z.of_N n) 10 ltac:(lia)) as Hd.
  assert (Hq : Z.of_N (n / 10) = Z.of_N n / 10) by by rewrite N2Z.inj_div.
  rewrite Hr. destruct (decide (n / 10 = 0)%N) as [E|E].
  - rewrite E. rewrite pretty_N_go_0. cbn [dtoi_loop]. rewrite digit_val_char by lia.
    rewrite E in Hq. change (Z.of_N 0) with 0 in Hq.
    destruct (Z.leb_spec big (0 * 10 + Z.of_N n mod 10)); [lia|]. f_equal. lia.
  - rewrite IH; [|apply N.div_lt; lia|lia|lia].
    cbn [dtoi_loop]. rewrite digit_val_char by lia. rewrite Hq.
    replace (Z.of_N n / 10 * 10 + Z.of_N n mod 10) with (Z.of_N n) by lia.
    by destruct (Z.leb_spec big (Z.of_N n)); [lia|].
Qed.

(** The rest of the text does not start with a digit. *)
Definition ends_number (s : string) : Prop :=
  match s with String.String c _ => digit_val c = None | String.EmptyString => True end.

Lemma pretty_go_app n a s : pretty_N_go n a +:+ s = pretty_N_go n (a +:+ s).
Proof.
  revert a. induction (N.lt_wf_0 n) as [n _ IH]. intros a.
  destruct (decide (n = 0)%N) as [->|Hn]; [by rewrite !pretty_N_go_0|].
  rewrite !(pretty_N_go_step n) by lia. rewrite IH by (apply N.div_lt; lia). done.
Qed.

Lemma dec_pos z : 0 < z -> dec z = pretty_N_go (Z.to_N z) "".
Proof.
  intros Hz. destruct z as [|p|p]; [lia| |lia]. unfold dec. cbn [Z.to_N].
  change (pretty (Z.pos p)) with (pretty (N.pos p)). unfold pretty, pretty_N.
  by rewrite decide_False by done.
Qed.

Lemma dtoi_dec z s :
  0 <= z < big -> ends_number s -> dtoi (dec z +:+ s) = Some (z, s).
Proof.
  intros Hz Hs. assert (Hend : forall n, dtoi_loop n true s = Some (n, s)).
  { intros n. destruct s; [done|]. cbn in *. by rewrite Hs. }
  unfold dtoi. destruct (decide (z = 0)) as [->|Hne].
  - change (dec 0) with "0". rewrite sapp_cons, sapp_nil. exact (Hend 0).
  - rewrite dec_pos by lia. rewrite pretty_go_app, sapp_nil.
    rewrite dtoi_pretty_go by lia. rewrite Hend. rewrite Z2N.id by lia. done.
Qed.

Lemma byte_index_pretty_go sep n s :
  digit_val sep = None -> lacks sep s -> lacks sep (pretty_N_go n s).
Proof.
  intros Hsep. revert s. induction (N.lt_wf_0 n) as [n _ IH]. intros s Hs.
  destruct (decide (n = 0)%N) as [->|Hn]; [by rewrite pretty_N_go_0|].
  rewrite pretty_N_go_step by lia. apply IH; [apply N.div_lt; lia|].
  unfold lacks in *. simpl. destruct (Ascii.eqb_spec (pretty_N_char (n mod 10)) sep) as [E|].
  - pose proof (N.mod_lt n 10 ltac:(lia)) as Hm. set (r := (n mod 10)%N) in *.
    pose proof (digit_val_char (Z.of_N r) ltac:(lia)) as Hd.
    rewrite N2Z.id, E, Hsep in Hd. done.
  - by rewrite Hs.
Qed.

(** A number's decimal text holds no other byte than digits. *)
Lemma dec_lacks sep z : 0 <= z -> digit_val sep = None -> lacks sep (dec z).
Proof.
  intros Hz Hsep. destruct (decide (z = 0)) as [->|].
  - change (dec 0) with "0". unfold lacks. cbn [byte_index].
    destruct (Ascii.eqb_spec "0"%char sep) as [<-|]; [discriminate Hsep|done].
  - rewrite dec_pos by lia. by apply byte_index_pretty_go.
Qed.

Lemma lacks_app sep s t : lacks sep s -> lacks sep t -> lacks sep (s +:+ t).
Proof.
  unfold lacks. intros Hs Ht. induction s as [|c s IH]; ssimpl; [done|].
  destruct (Ascii.eqb c sep); [done|]. destruct (byte_index sep s); [done|]. by rewrite IH.
Qed.

Definition is_octet (z : Z) : Prop := 0 <= z <= 255.

Lemma octet_of_is_octet z k : is_octet (octet_of z k).
Proof.
  unfold octet_of, is_octet.
  change (Z.land (z ≫ (8 * k)) 0xFF) with (Z.land (z ≫ (8 * k)) (Z.ones 8)).
  rewrite Z.land_ones by lia. change (2 ^ 8) with 256.
  pose proof (Z.mod_pos_bound (z ≫ (8 * k)) 256 ltac:(lia)) as Hb. lia.
Qed.

Lemma octet_first z s : is_octet z -> ends_number s -> octet true (dec z +:+ s) = Some (z, s).
Proof.
  unfold is_octet. intros Hz Hs. unfold octet. rewrite dtoi_dec; [|unfold big; lia|done].
  by destruct (Z.ltb_spec 255 z); [lia|].
Qed.

Lemma octet_next z s :
  is_octet z -> ends_number s -> octet false ("." +:+ dec z +:+ s) = Some (z, s).
Proof.
  unfold is_octet. intros Hz Hs. unfold octet. rewrite sapp_cons, sapp_nil.
  change (Ascii.eqb "." ".") with true. cbv iota.
  rewrite dtoi_dec; [|unfold big; lia|done]. by destruct (Z.ltb_spec 255 z); [lia|].
Qed.

Lemma parseIPv4_dotted a b c d :
  is_octet a -> is_octet b -> is_octet c -> is_octet d ->
  parseIPv4 (dotted a b c d) = Some (IPv4 a b c d).
Proof.
  intros Ha Hb Hc Hd. unfold parseIPv4, dotted. rewrite octet_first; [|done|done].
  rewrite octet_next; [|done|done]. rewrite octet_next; [|done|done].
  rewrite <- (sapp_nil_r (dec d)). by rewrite octet_next.
Qed.

Lemma dotted_lacks sep a b c d :
  is_octet a -> is_octet b -> is_octet c -> is_octet d ->
  digit_val sep = None -> sep <> "."%char -> lacks sep (dotted a b c d).
Proof.
  unfold is_octet. intros Ha Hb Hc Hd Hs Hdot. unfold dotted.
  assert (lacks sep ".").
  { unfold lacks. cbn [byte_index]. by destruct (Ascii.eqb_spec "."%char sep) as [<-|]. }
  repeat (apply lacks_app; [done || (apply dec_lacks; [lia|done])|]).
  apply dec_lacks; [lia|done].
Qed.

(** The addresses the controller writes, [a.b.c.d/n], parse back. *)
Lemma ParseCIDR_dotted a b c d n :
  is_octet a -> is_octet b -> is_octet c -> is_octet d -> 0 <= n <= 32 ->
  ParseCIDR (dotted a b c d +:+ "/" +:+ dec n) =
  Ok (IPv4 a b c d, mkIPNet (and_bytes [a; b; c; d] (CIDRMask n 32)) (CIDRMask n 32)).
Proof.
  intros Ha Hb Hc Hd Hn. unfold ParseCIDR. rewrite (sapp_cons _ "" (dec n)), sapp_nil.
  rewrite byte_index_app_lacks by (by apply dotted_lacks).
  cbv zeta. change "/"%char with slash_byte. rewrite stake_app, sdrop_S_app.
  rewrite parseIPv4_dotted by done.
  rewrite <- (sapp_nil_r (dec n)), dtoi_dec; [|unfold big; lia|done].
  change (8 * 4) with 32. destruct (Z.ltb_spec 32 n); [lia|]. done.
Qed.

(** The dotted text determines the address. *)
Lemma dotted_inj a b c d a' b' c' d' n n' :
  is_octet a -> is_octet b -> is_octet c -> is_octet d ->
  is_octet a' -> is_octet b' -> is_octet c' -> is_octet d' ->
  0 <= n <= 32 -> 0 <= n' <= 32 ->
  dotted a b c d +:+ "/" +:+ dec n = dotted a' b' c' d' +:+ "/" +:+ dec n' ->
  (a, b, c, d) = (a', b', c', d') /\ n = n'.
Proof.
  intros ???????? Hn Hn' E. change ("/" +:+ dec n) with (String.String slash_byte (dec n)) in E.
  change ("/" +:+ dec n') with (String.String slash_byte (dec n')) in E.
  apply sep_split_inj in E as [Ed En]; [|by apply dotted_lacks..].
  apply dec_inj in En. split; [|done].
  pose proof (parseIPv4_dotted a b c d) as P. rewrite Ed, parseIPv4_dotted in P by done.
  specialize (P ltac:(done) ltac:(done) ltac:(done) ltac:(done)). unfold IPv4 in P.
  by injection P as -> -> -> ->.
Qed.

Lemma octet_testbit z k i :
  0 <= k -> Z.testbit (octet_of z k) i = (0 <=? i) && (i <? 8) && Z.testbit z (i + 8 * k).
Proof.
  intros Hk. unfold octet_of. destruct (Z.leb_spec 0 i) as [Hi|Hi].
  - rewrite Z.land_spec, Z.shiftr_spec by lia. change 0xFF with (Z.ones 8).
    rewrite Z.testbit_ones_nonneg by lia. by rewrite andb_comm.
  - by rewrite Z.testbit_neg_r.
Qed.

(** The four octets rebuild the number. *)
Lemma bytes_u32_octets z :
  is_u32 z -> bytes_u32 (octet_of z 3) (octet_of z 2) (octet_of z 1) (octet_of z 0) = z.
Proof.
  unfold is_u32, u32_mod. intros Hz. unfold bytes_u32.
  apply Z.bits_inj_iff'. intros i Hi.
  rewrite !Z.lor_spec, !Z.shiftl_spec, !octet_testbit by lia.
  assert (32 <= i -> Z.testbit z i = false) as Hhigh.
  { intros H32. rewrite Z.testbit_eqb by lia. rewrite Z.div_small; [done|].
    split; [lia|]. apply Z.lt_le_trans with (2 ^ 32); [lia|apply Z.pow_le_mono_r; lia]. }
  replace (i - 24 + 8 * 3) with i by lia. replace (i - 16 + 8 * 2) with i by lia.
  replace (i - 8 + 8 * 1) with i by lia. replace (i + 8 * 0) with i by lia.
  repeat match goal with
  | |- context [?a <=? ?b] => destruct (Z.leb_spec a b)
  | |- context [?a <? ?b] => destruct (Z.ltb_spec a b)
  end; try lia; cbn [andb orb]; rewrite ?orb_false_r; try done; symmetry; apply Hhigh; lia.
Qed.

Lemma octets_inj z z' :
  is_u32 z -> is_u32 z' -> (forall k, 0 <= k <= 3 -> octet_of z k = octet_of z' k) -> z = z'.
Proof.
  intros Hz Hz' H. rewrite <- (bytes_u32_octets z), <- (bytes_u32_octets z') by done.
  by rewrite !H by lia.
Qed.

End Net.
