(* ===== verification/Ipam.v ===== *)
(** * The address pool allocator: src/plugins/controller/idapi/ipam/ipam.go

    Module Ipam models [PoolAllocatorType] and its methods.  The field
    [Allocated] is Go's [map[uint32]struct{}]; [*net.IPNet] is never nil in a
    pool that [NewIPAMPoolAllocator] returned.  The two scan loops of
    [AllocateIPAddress] run on [uint32] counters that wrap, so they take fuel:
    one round more than there are allocated identifiers.  Running out of it is
    the endless loop of a pool that ends at 0xFFFFFFFF with every 32-bit
    identifier taken; [scan_enough_fuel] excludes it otherwise. *)

From S2P Require Import Prelude GoStd GoNet.

Module Ipam.
Import Net.

Record PoolAllocatorType : Type := mkPool {
  Name : string;
  StartRange : Z;
  EndRange : Z;
  NextInRange : Z;
  TotalInRange : Z;
  Network : string;
  ipNetwork : IPNet;
  ipNetworku32 : Z;
  ipMasku32 : Z;
  numBitsInMask : Z;
  Allocated : gset Z
}.

Definition with_Allocated (a : gset Z) (p : PoolAllocatorType) : PoolAllocatorType :=
  mkPool (Name p) (StartRange p) (EndRange p) (NextInRange p) (TotalInRange p) (Network p)
    (ipNetwork p) (ipNetworku32 p) (ipMasku32 p) (numBitsInMask p) a.

Definition with_NextInRange (n : Z) (p : PoolAllocatorType) : PoolAllocatorType :=
  mkPool (Name p) (StartRange p) (EndRange p) n (TotalInRange p) (Network p)
    (ipNetwork p) (ipNetworku32 p) (ipMasku32 p) (numBitsInMask p) (Allocated p).

(** [len(p.Allocated)] *)
Definition numAllocated (p : PoolAllocatorType) : Z := Z.of_nat (size (Allocated p)).

(** [p.Allocated[addrID] = struct{}{}] *)
Definition mark (addrID : Z) (p : PoolAllocatorType) : PoolAllocatorType :=
  with_Allocated ({[addrID]} ∪ Allocated p) p.

Definition String (p : PoolAllocatorType) : string :=
  "IPAM Pool: " +:+ Name p +:+ ", network: " +:+ Network p +:+ ", addr's [" +:+
  dec (StartRange p) +:+ "-" +:+ dec (EndRange p) +:+ "], numAllocated: " +:+ dec (numAllocated p).

Definition GetAllocatedAddressesStatus (p : PoolAllocatorType) : string :=
  dec (numAllocated p) +:+ " of " +:+ dec (TotalInRange p) +:+ " addresses are set, " +:+
  dec (u32 (TotalInRange p - u32 (numAllocated p))) +:+ " are free".

(** [formatIPAddress] *)
Definition formatIPAddress (p : PoolAllocatorType) (ipID : Z) : string :=
  let ipAddru32 := Z.lor (ipNetworku32 p) ipID in
  dec (octet_of ipAddru32 3) +:+ "." +:+ dec (octet_of ipAddru32 2) +:+ "." +:+
  dec (octet_of ipAddru32 1) +:+ "." +:+ dec (octet_of ipAddru32 0) +:+ "/" +:+
  dec (numBitsInMask p).

Definition IsAddressSet (addrID : Z) : M PoolAllocatorType (result string) :=
  let! p := get id in
  if (addrID <? StartRange p) || (EndRange p <? addrID) then
    mfail ("IsSetAddress: addr_id '" +:+ dec addrID +:+ "' out of range '" +:+
           dec (StartRange p) +:+ "-" +:+ dec (EndRange p))
  else if decide (addrID ∈ Allocated p) then mok (formatIPAddress p addrID)
  else mfail ("IsSetAddress: addr_id '" +:+ dec addrID +:+ "' not found in range '" +:+
              dec (StartRange p) +:+ "-" +:+ dec (EndRange p)).

Definition SetAddress (addrID : Z) : M PoolAllocatorType (result string) :=
  let! p := get id in
  if (addrID <? StartRange p) || (EndRange p <? addrID) then
    mfail ("SetAddress: addr_id '" +:+ dec addrID +:+ "' out of range '" +:+
           dec (StartRange p) +:+ "-" +:+ dec (EndRange p))
  else modify (mark addrID) ;;; mok (formatIPAddress p addrID).

(** The result of one scan loop of [AllocateIPAddress]. *)
Inductive scan_result : Type :=
| Found (addrID : Z)
| Exhausted
| OutOfFuel.

(** [for addrID := ...; cont addrID; addrID++ { if !exists { ... return } }] *)
Fixpoint scan (fuel : nat) (cont : Z -> bool) (allocated : gset Z) (addrID : Z) : scan_result :=
  match fuel with
  | O => OutOfFuel
  | S fuel =>
      if cont addrID then
        if decide (addrID ∈ allocated) then scan fuel cont allocated (u32 (addrID + 1))
        else Found addrID
      else Exhausted
  end.

(** The body of both loops once a free identifier is found. *)
Definition take_address (addrID : Z) : M PoolAllocatorType (result (string * Z)) :=
  modify (mark addrID) ;;;
  modify (fun p =>
    let next := u32 (addrID + 1) in
    with_NextInRange (if EndRange p <? next then StartRange p else next) p) ;;;
  let! p := get id in
  mok (formatIPAddress p addrID, addrID).

Definition AllocateIPAddress : M PoolAllocatorType (result (string * Z)) :=
  let! p := get id in
  if u32 (numAllocated p) =? TotalInRange p then
    mfail ("AllocateIPAddress: " +:+ Name p +:+ " has no more addresses")
  else
    let fuel := S (size (Allocated p)) in
    match scan fuel (fun a => a <=? EndRange p) (Allocated p) (NextInRange p) with
    | Found addrID => take_address addrID
    | OutOfFuel => panic
    | Exhausted =>
        match scan fuel (fun a => a <? NextInRange p) (Allocated p) (StartRange p) with
        | Found addrID => take_address addrID
        | OutOfFuel => panic
        | Exhausted => mfail ("AllocateIPAddress: " +:+ Name p +:+ " internal error")
        end
    end.

(** [SetIPAddrIfInsidePool]: indexing the nil result of [To4] panics. *)
Definition SetIPAddrIfInsidePool (ipAddressStr : string) : M PoolAllocatorType unit :=
  let! p := get id in
  match ParseIP ipAddressStr with
  | None => mret tt
  | Some ipAddress =>
      if Contains (ipNetwork p) ipAddress then
        match To4 ipAddress with
        | Some [a; b; c; d] =>
            modify (mark (Z.ldiff (bytes_u32 a b c d) (ipMasku32 p)))
        | _ => panic
        end
      else mret tt
  end.

(** [uint32(1) << s]: no bit is left from a shift by 32 on. *)
Definition shl1_u32 (s : Z) : Z := if s <? 32 then 2 ^ s else 0.

(** [NewIPAMPoolAllocator]: [None] is the nil pointer. *)
Definition NewIPAMPoolAllocator (name : string) (startRange endRange : Z) (networkStr : string)
  : option PoolAllocatorType :=
  match ParseCIDR networkStr with
  | inl _ => None
  | inr (ip, n) =>
      let numBitsInMask := Mask_Size (net_Mask n) in
      let startRange := if startRange =? 0 then 1 else startRange in
      let nextInRange := startRange in
      let endRange := if endRange =? 0 then u32 (shl1_u32 (u32 (32 - numBitsInMask)) - 2)
                      else endRange in
      let totalInRange := u32 (u32 (endRange - startRange) + 1) in
      match To4 ip, net_IP n, net_Mask n with
      | Some _, i0 :: i1 :: i2 :: i3 :: _, m0 :: m1 :: m2 :: m3 :: _ =>
          Some (mkPool name startRange endRange nextInRange totalInRange networkStr n
                  (bytes_u32 i0 i1 i2 i3) (bytes_u32 m0 m1 m2 m3) numBitsInMask ∅)
      | _, _, _ => None
      end
  end.

(** ** Sequences of operations on one pool *)

Inductive pool_op : Type :=
| OpAllocate
| OpSet (addrID : Z)
| OpSetIfInside (ipAddressStr : string).

(** Runs one operation; an address it allocates is added to the list. *)
Definition run_op (op : pool_op) : M PoolAllocatorType (list (string * Z)) :=
  match op with
  | OpAllocate => let! r := AllocateIPAddress in
                  mret (match r with inr a => [a] | inl _ => [] end)
  | OpSet addrID => SetAddress addrID ;;; mret []
  | OpSetIfInside ip => SetIPAddrIfInsidePool ip ;;; mret []
  end.

Fixpoint run_ops (ops : list pool_op) : M PoolAllocatorType (list (string * Z)) :=
  match ops with
  | [] => mret []
  | op :: ops => let! l := run_op op in let! l' := run_ops ops in mret (l ++ l')
  end.

(** ** Well-formed pools *)

Definition in_range (p : PoolAllocatorType) (addrID : Z) : Prop :=
  StartRange p <= addrID <= EndRange p.

(** The range does not wrap and the cursor is inside it. *)
Record wf (p : PoolAllocatorType) : Prop := {
  wf_range : 0 <= StartRange p <= EndRange p;
  wf_end : EndRange p < u32_mod - 1;
  wf_next : in_range p (NextInRange p);
  wf_total : TotalInRange p = EndRange p - StartRange p + 1
}.

(** The network is the IPv4 block [a.b.c.d/n] with the host bits cleared. *)
Record wf_net (p : PoolAllocatorType) (n : Z) : Prop := {
  wf_bits : 0 <= n <= 32;
  wf_numBits : numBitsInMask p = n;
  wf_mask : net_Mask (ipNetwork p) = CIDRMask n 32;
  wf_masku32 : ipMasku32 p = Z.shiftl (Z.ones n) (32 - n);
  wf_net_u32 : is_u32 (ipNetworku32 p);
  wf_host : forall i, 0 <= i < 32 - n -> Z.testbit (ipNetworku32 p) i = false;
  wf_net_IP : net_IP (ipNetwork p) = [octet_of (ipNetworku32 p) 3; octet_of (ipNetworku32 p) 2;
                                      octet_of (ipNetworku32 p) 1; octet_of (ipNetworku32 p) 0]
}.

(** ** The scan loops *)

Lemma scan_spec hi fuel cont allocated a :
  (forall x, cont x = true -> x <= hi) -> hi < u32_mod - 1 -> 0 <= a ->
  (size (filter (fun x => (a <= x)%Z) allocated) < fuel)%nat ->
  match scan fuel cont allocated a with
  | Found r => a <= r /\ cont r = true /\ ~ (r ∈ allocated) /\ (forall x, a <= x < r -> x ∈ allocated)
  | Exhausted => exists b : Z, a <= b /\ cont b = false /\ (forall x, a <= x < b -> x ∈ allocated)
  | OutOfFuel => False
  end.
Proof.
  intros Hcont Hhi. revert a. induction fuel as [|fuel IH]; intros a Ha Hf; [lia|].
  cbn [scan]. destruct (cont a) eqn:Ca.
  2:{ exists a. split_and!; [lia|done|]. intros x Hx. lia. }
  destruct (decide (a ∈ allocated)) as [Hin|Hout].
  2:{ split_and!; [lia|done|done|]. intros x Hx. lia. }
  assert (u32 (a + 1) = a + 1) as Hw.
  { apply u32_id. unfold is_u32. specialize (Hcont a Ca). lia. }
  assert ((size (filter (fun x => (a + 1 <= x)%Z) allocated) < fuel)%nat) as Hlt.
  { assert (filter (fun x => (a + 1 <= x)%Z) allocated ⊂ filter (fun x => (a <= x)%Z) allocated)
      as Hsub%subset_size; [|lia].
    split.
    - intros x. rewrite !elem_of_filter. intros [? ?]. split; [lia|done].
    - intros H. specialize (H a). rewrite !elem_of_filter in H. destruct H; [split; [lia|done]|lia]. }
  specialize (IH (a + 1) ltac:(lia) Hlt). rewrite Hw.
  assert (forall x b, (a <= x < b -> a + 1 <= b -> (a + 1 <= x < b -> x ∈ allocated) -> x ∈ allocated)%Z)
    as Hext.
  { intros x b Hx _ H. destruct (decide (x = a)) as [->|]; [done|]. apply H. lia. }
  destruct (scan fuel cont allocated (a + 1)) as [r| |]; [| |done].
  - destruct IH as (H1 & H2 & H3 & H4). split_and!; [lia|done|done|].
    intros x Hx. apply (Hext x r); [lia|lia|]. intros. by apply H4.
  - destruct IH as (b & H1 & H2 & H3). exists b. split_and!; [lia|done|].
    intros x Hx. apply (Hext x b); [lia|lia|]. intros. by apply H3.
Qed.

Lemma scan_size (allocated : gset Z) a :
  (size (filter (fun x => (a <= x)%Z) allocated) < S (size allocated))%nat.
Proof.
  apply Nat.lt_succ_r, subseteq_size. intros x. rewrite elem_of_filter. by intros [_ ?].
Qed.

(** What [AllocateIPAddress] does, on every branch. *)
Definition allocate_post (p : PoolAllocatorType) (r : result (string * Z)) (p' : PoolAllocatorType) : Prop :=
  match r with
  | inr (str, addrID) =>
      in_range p addrID /\ ~ (addrID ∈ Allocated p) /\ str = formatIPAddress p addrID /\
      p' = with_NextInRange (if EndRange p <? addrID + 1 then StartRange p else addrID + 1)
             (mark addrID p)
  | inl _ =>
      p' = p /\ (u32 (numAllocated p) = TotalInRange p \/ (forall x : Z, in_range p x -> x ∈ Allocated p))
  end.

Lemma take_address_spec p addrID :
  wf p -> in_range p addrID -> addrID ∉ Allocated p ->
  exists r p', take_address addrID p = Done r p' /\ allocate_post p r p'.
Proof.
  intros [] Hr Ha. eexists _, _. split; [reflexivity|]. cbn.
  rewrite u32_id by (unfold is_u32, in_range in *; lia). done.
Qed.

Lemma AllocateIPAddress_spec p :
  wf p -> exists r p', AllocateIPAddress p = Done r p' /\ allocate_post p r p'.
Proof.
  intros Hwf. unfold AllocateIPAddress, mbnd, get. cbn [id].
  change (id p) with p.
  destruct (Z.eqb_spec (u32 (numAllocated p)) (TotalInRange p)) as [E|E].
  { eexists _, _. split; [reflexivity|]. cbn. auto. }
  pose proof (wf_range p Hwf). pose proof (wf_end p Hwf). pose proof (wf_next p Hwf) as Hn.
  unfold in_range in Hn.
  pose proof (scan_spec (EndRange p) (S (size (Allocated p))) (fun a => a <=? EndRange p)
    (Allocated p) (NextInRange p) (fun x => proj1 (Z.leb_le x _)) ltac:(lia) ltac:(lia) (scan_size _ _)) as H1.
  destruct (scan _ _ _ (NextInRange p)) as [r| |]; [|clear E|done].
  { destruct H1 as (? & ? & ? & ?). apply take_address_spec; [done| |done].
    unfold in_range. lia. }
  pose proof (scan_spec (NextInRange p) (S (size (Allocated p))) (fun a => a <? NextInRange p)
    (Allocated p) (StartRange p) (fun x H => Z.lt_le_incl _ _ (proj1 (Z.ltb_lt x _) H)) ltac:(lia) ltac:(lia) (scan_size _ _)) as H2.
  destruct (scan _ _ _ (StartRange p)) as [r| |]; [| |done].
  { destruct H2 as (? & ? & ? & ?). apply take_address_spec; [done| |done].
    unfold in_range. lia. }
  eexists _, _. split; [reflexivity|]. cbn. split; [done|]. right.
  destruct H1 as (b & ? & ? & H1). destruct H2 as (c & ? & ? & H2).
  intros x Hx. unfold in_range in Hx.
  destruct (decide (x < NextInRange p)); [apply H2; lia|apply H1; lia].
Qed.

Lemma wf_mark addrID p : wf p -> wf (mark addrID p).
Proof. by intros []. Qed.

Lemma allocate_post_wf p r p' : wf p -> allocate_post p r p' -> wf p'.
Proof.
  intros [] H. destruct r as [e|[str addrID]]; cbn in H; [by destruct H as [-> _]|].
  destruct H as (Hr & _ & _ & ->). unfold in_range in *. split; cbn; try done.
  unfold in_range. cbn. destruct (Z.ltb_spec (EndRange p) (addrID + 1)); lia.
Qed.

(** A well-formed pool never hangs or panics; an address it hands out is a
    free identifier of the range, which becomes allocated, and nothing else
    changes but the cursor, which stays in the range; when it refuses, it has
    counted [TotalInRange] identifiers or the whole range is taken, and the pool
    is unchanged. *)
Theorem AllocateIPAddress_fresh p :
  wf p ->
  match AllocateIPAddress p with
  | Done (inr (str, addrID)) p' =>
      in_range p addrID /\ ~ (addrID ∈ Allocated p) /\ str = formatIPAddress p addrID /\
      Allocated p' = {[addrID]} ∪ Allocated p /\ wf p'
  | Done (inl _) p' =>
      p' = p /\ (u32 (numAllocated p) = TotalInRange p \/ (forall x : Z, in_range p x -> x ∈ Allocated p))
  | Panic => False
  end.
Proof.
  intros Hwf. destruct (AllocateIPAddress_spec p Hwf) as (r & p' & -> & Hp).
  pose proof (allocate_post_wf _ _ _ Hwf Hp). destruct r as [e|[str a]]; cbn in Hp; [done|].
  destruct Hp as (? & ? & ? & ->). done.
Qed.

Lemma size_in_range p :
  wf p -> (forall x, x ∈ Allocated p -> in_range p x) ->
  (exists x, in_range p x /\ x ∉ Allocated p) ->
  numAllocated p < TotalInRange p.
Proof.
  intros Hwf Hsub (x & Hx & Hfree). rewrite (wf_total p Hwf).
  set (L := seqZ (StartRange p) (EndRange p - StartRange p + 1)).
  assert (Hin : forall y, y ∈ (list_to_set L : gset Z) <-> in_range p y).
  { intros y. rewrite elem_of_list_to_set. unfold L. rewrite elem_of_seqZ. unfold in_range. lia. }
  assert (Allocated p ⊂ (list_to_set L : gset Z)) as Hlt%subset_size.
  { split; [intros y Hy; apply Hin; auto|]. intros H. apply Hfree, H, Hin, Hx. }
  rewrite size_list_to_set in Hlt by apply NoDup_seqZ.
  unfold L in Hlt. rewrite length_seqZ in Hlt. unfold numAllocated.
  pose proof (wf_range p Hwf). lia.
Qed.


(** ** Addresses as text *)

Definition mask_u32 (n : Z) : Z := Z.shiftl (Z.ones n) (32 - n).

Lemma all_prefixes (P : Z -> Prop) `{!forall n, Decision (P n)} n :
  forallb (fun n => bool_decide (P n)) (seqZ 0 33) = true -> 0 <= n <= 32 -> P n.
Proof.
  rewrite forallb_forall. intros Hall Hn. apply (bool_decide_eq_true_1 (P n)), Hall.
  apply list_elem_of_In, elem_of_seqZ. lia.
Qed.

Lemma CIDRMask_bytes n :
  0 <= n <= 32 ->
  CIDRMask n 32 = [octet_of (mask_u32 n) 3; octet_of (mask_u32 n) 2;
                   octet_of (mask_u32 n) 1; octet_of (mask_u32 n) 0].
Proof.
  intros Hn. refine (all_prefixes (fun n => CIDRMask n 32 =
    [octet_of (mask_u32 n) 3; octet_of (mask_u32 n) 2;
     octet_of (mask_u32 n) 1; octet_of (mask_u32 n) 0]) n _ Hn).
  vm_compute. reflexivity.
Qed.

Lemma Mask_Size_CIDRMask n : 0 <= n <= 32 -> Mask_Size (CIDRMask n 32) = n.
Proof.
  intros Hn. refine (all_prefixes (fun n => Mask_Size (CIDRMask n 32) = n) n _ Hn).
  vm_compute. reflexivity.
Qed.

Lemma mask_u32_is_u32 n : 0 <= n <= 32 -> is_u32 (mask_u32 n).
Proof.
  intros Hn. refine (all_prefixes (fun n => 0 <= mask_u32 n < u32_mod) n _ Hn).
  vm_compute. reflexivity.
Qed.

Lemma mask_testbit n i :
  0 <= n <= 32 -> 0 <= i -> Z.testbit (mask_u32 n) i = (32 - n <=? i) && (i <? 32).
Proof.
  intros Hn Hi. unfold mask_u32. rewrite Z.shiftl_spec by lia.
  rewrite Z.testbit_ones by lia.
  destruct (Z.leb_spec 0 (i - (32 - n))), (Z.leb_spec (32 - n) i),
    (Z.ltb_spec (i - (32 - n)) n), (Z.ltb_spec i 32); try done; lia.
Qed.

(** An identifier that fits in the host bits of a [/n] block. *)
Definition is_host (n addrID : Z) : Prop := 0 <= addrID < 2 ^ (32 - n).

Lemma high_bits z m i : 0 <= z < 2 ^ m -> m <= i -> Z.testbit z i = false.
Proof.
  intros Hz Hi. destruct (decide (0 <= i)); [|by rewrite Z.testbit_neg_r by lia].
  rewrite Z.testbit_eqb by lia. rewrite Z.div_small; [done|].
  split; [lia|]. apply Z.lt_le_trans with (2 ^ m); [lia|].
  destruct (decide (0 <= m)); [apply Z.pow_le_mono_r; lia|].
  rewrite Z.pow_neg_r in Hz by lia. lia.
Qed.

Section Formatting.
Context (p : PoolAllocatorType) (n : Z) (Hnet : wf_net p n).

Definition addr_u32 (addrID : Z) : Z := Z.lor (ipNetworku32 p) addrID.

Lemma addr_u32_is_u32 addrID : is_host n addrID -> is_u32 (addr_u32 addrID).
Proof.
  intros Hh. pose proof (wf_net_u32 p n Hnet) as Hu. pose proof (wf_bits p n Hnet).
  unfold is_u32, u32_mod, addr_u32, is_host in *.
  assert (0 <= Z.lor (ipNetworku32 p) addrID) by (apply Z.lor_nonneg; lia).
  split; [done|]. apply Z.nle_gt. intros Hge.
  pose proof (Z.log2_lor (ipNetworku32 p) addrID ltac:(lia) ltac:(lia)) as Hl.
  assert (Z.log2 (ipNetworku32 p) < 32).
  { destruct (decide (ipNetworku32 p = 0)) as [->|]; [done|]. apply Z.log2_lt_pow2; lia. }
  assert (addrID < 2 ^ 32).
  { apply Z.lt_le_trans with (2 ^ (32 - n)); [lia|]. apply Z.pow_le_mono_r; lia. }
  assert (Z.log2 addrID < 32).
  { destruct (decide (addrID = 0)) as [->|]; [done|]. apply Z.log2_lt_pow2; lia. }
  apply Z.log2_le_pow2 in Hge; lia.
Qed.

Lemma formatIPAddress_dotted addrID :
  formatIPAddress p addrID =
  dotted (octet_of (addr_u32 addrID) 3) (octet_of (addr_u32 addrID) 2)
         (octet_of (addr_u32 addrID) 1) (octet_of (addr_u32 addrID) 0) +:+ "/" +:+ dec n.
Proof.
  unfold formatIPAddress, dotted, addr_u32. rewrite (wf_numBits p n Hnet).
  by rewrite !sapp_assoc.
Qed.

(** The host bits of the address are the identifier. *)
Lemma addr_u32_host addrID :
  is_host n addrID -> Z.ldiff (addr_u32 addrID) (ipMasku32 p) = addrID.
Proof.
  intros Hh. pose proof (wf_bits p n Hnet) as Hn. rewrite (wf_masku32 p n Hnet).
  fold (mask_u32 n). apply Z.bits_inj_iff'. intros i Hi.
  unfold addr_u32. rewrite Z.ldiff_spec, Z.lor_spec, mask_testbit by lia.
  destruct (Z.leb_spec (32 - n) i).
  - rewrite (high_bits addrID (32 - n)) by (done || lia). rewrite orb_false_r.
    destruct (Z.ltb_spec i 32); cbn; [by rewrite andb_false_r|].
    pose proof (wf_net_u32 p n Hnet) as Hu. unfold is_u32, u32_mod in Hu.
    by rewrite (high_bits (ipNetworku32 p) 32) by lia.
  - rewrite (wf_host p n Hnet) by lia. cbn. by rewrite andb_true_r.
Qed.

Lemma formatIPAddress_inj a b :
  is_host n a -> is_host n b -> formatIPAddress p a = formatIPAddress p b -> a = b.
Proof.
  intros Ha Hb E. rewrite !formatIPAddress_dotted in E. pose proof (wf_bits p n Hnet).
  apply dotted_inj in E; try apply octet_of_is_octet; [|lia..].
  destruct E as [[= E3 E2 E1 E0] _].
  rewrite <- (addr_u32_host a), <- (addr_u32_host b) by done. f_equal.
  apply octets_inj; [by apply addr_u32_is_u32..|]. intros k Hk.
  assert (k = 0 \/ k = 1 \/ k = 2 \/ k = 3) as [->|[->|[->| ->]]] by lia; done.
Qed.

(** Masking a byte of the address leaves the byte of the network. *)
Lemma addr_octet_masked addrID k :
  is_host n addrID -> 0 <= k <= 3 ->
  Z.land (octet_of (addr_u32 addrID) k) (octet_of (mask_u32 n) k) =
  Z.land (octet_of (ipNetworku32 p) k) (octet_of (mask_u32 n) k).
Proof.
  intros Hh Hk. pose proof (wf_bits p n Hnet). apply Z.bits_inj_iff'. intros i Hi.
  rewrite !Z.land_spec, !octet_testbit, mask_testbit by lia. unfold addr_u32.
  rewrite Z.lor_spec. destruct (Z.leb_spec (32 - n) (i + 8 * k)).
  - rewrite (high_bits addrID (32 - n)) by (done || lia). by rewrite orb_false_r.
  - by rewrite !andb_false_r.
Qed.

Lemma Contains_addr addrID :
  is_host n addrID ->
  Contains (ipNetwork p)
    (IPv4 (octet_of (addr_u32 addrID) 3) (octet_of (addr_u32 addrID) 2)
          (octet_of (addr_u32 addrID) 1) (octet_of (addr_u32 addrID) 0)) = true.
Proof.
  intros Hh. pose proof (wf_bits p n Hnet) as Hn. unfold Contains, networkNumberAndMask.
  rewrite (wf_net_IP p n Hnet), (wf_mask p n Hnet), CIDRMask_bytes by done.
  cbn [To4 length Nat.eqb]. cbn [default length Nat.eqb IPv4 To4 v4InV6Prefix app andb].
  rewrite bool_decide_true by reflexivity. cbn [drop default length Nat.eqb andb].
  apply bool_decide_eq_true. unfold and_bytes. cbn [zip_with id].
  by rewrite !addr_octet_masked by (done || lia).
Qed.

End Formatting.

(** ** The constructor *)

Definition pool_start (startRange : Z) : Z := if startRange =? 0 then 1 else startRange.

Definition pool_end (endRange n : Z) : Z :=
  if endRange =? 0 then u32 (shl1_u32 (u32 (32 - n)) - 2) else endRange.

Lemma octet_of_bytes_u32 a b c d :
  is_octet a -> is_octet b -> is_octet c -> is_octet d ->
  is_u32 (bytes_u32 a b c d) /\
  octet_of (bytes_u32 a b c d) 3 = a /\ octet_of (bytes_u32 a b c d) 2 = b /\
  octet_of (bytes_u32 a b c d) 1 = c /\ octet_of (bytes_u32 a b c d) 0 = d.
Proof.
  unfold is_octet. intros Ha Hb Hc Hd.
  assert (bytes_u32 a b c d = a * 2 ^ 24 + b * 2 ^ 16 + c * 2 ^ 8 + d) as E.
  { unfold bytes_u32. rewrite !Z.shiftl_mul_pow2 by lia.
    assert (Hlor : forall x y k, 0 <= k -> 0 <= y < 2 ^ k -> Z.lor (x * 2 ^ k) y = x * 2 ^ k + y).
    { intros x y k Hk Hy. symmetry.
      rewrite <- Z.lxor_lor; [apply Z.add_nocarry_lxor|]; apply Z.bits_inj_iff'; intros i Hi;
        rewrite Z.land_spec, Z.bits_0, <- Z.shiftl_mul_pow2, Z.shiftl_spec by lia;
        (destruct (Z.ltb_spec i k); [by rewrite Z.testbit_neg_r by lia|]);
        rewrite (high_bits y k) by lia; apply andb_false_r. }
    rewrite (Hlor a (b * 2 ^ 16) 24) by lia.
    replace (a * 2 ^ 24 + b * 2 ^ 16) with ((a * 2 ^ 8 + b) * 2 ^ 16) by lia.
    rewrite (Hlor _ (c * 2 ^ 8) 16) by lia.
    replace ((a * 2 ^ 8 + b) * 2 ^ 16 + c * 2 ^ 8) with ((a * 2 ^ 16 + b * 2 ^ 8 + c) * 2 ^ 8) by lia.
    rewrite (Hlor _ d 8) by lia. lia. }
  rewrite E. unfold is_u32, u32_mod, octet_of.
  assert (Hl : forall z, Z.land z 0xFF = z mod 256).
  { intros z. change 0xFF with (Z.ones 8). by rewrite Z.land_ones by lia. }
  rewrite !Hl, !Z.shiftr_div_pow2 by lia.
  change (2 ^ (8 * 3)) with 16777216. change (2 ^ (8 * 2)) with 65536.
  change (2 ^ (8 * 1)) with 256. change (2 ^ (8 * 0)) with 1.
  change (2 ^ 24) with 16777216. change (2 ^ 16) with 65536. change (2 ^ 8) with 256.
  change (2 ^ 32) with 4294967296.
  split_and!; dlia.
Qed.

Lemma is_octet_land x y : is_octet x -> is_octet (Z.land x y).
Proof.
  unfold is_octet. intros Hx.
  assert (Z.land x y = Z.land x y mod 2 ^ 8) as E.
  { rewrite <- !(Z.land_ones _ 8) by lia. rewrite <- Z.land_assoc, (Z.land_comm y), Z.land_assoc.
    rewrite (Z.land_ones x 8), (Z.mod_small x) by lia. done. }
  rewrite E. change (2 ^ 8) with 256. dlia.
Qed.

Lemma NewIPAMPoolAllocator_fields name s e a b c d n :
  is_octet a -> is_octet b -> is_octet c -> is_octet d -> 0 <= n <= 32 ->
  exists p, NewIPAMPoolAllocator name s e (dotted a b c d +:+ "/" +:+ dec n) = Some p /\
    wf_net p n /\ Allocated p = ∅ /\ StartRange p = pool_start s /\ EndRange p = pool_end e n /\
    NextInRange p = pool_start s /\
    TotalInRange p = u32 (u32 (pool_end e n - pool_start s) + 1).
Proof.
  intros Ha Hb Hc Hd Hn. unfold NewIPAMPoolAllocator.
  rewrite ParseCIDR_dotted by done. cbn [Ok net_Mask net_IP].
  rewrite Mask_Size_CIDRMask by done.
  change (To4 (IPv4 a b c d)) with (Some [a; b; c; d]).
  rewrite CIDRMask_bytes by done. cbn [and_bytes zip_with].
  set (m k := octet_of (mask_u32 n) k).
  assert (Hoct : forall x k, is_octet x -> is_octet (Z.land x (m k))).
  { intros x k Hx. by apply is_octet_land. }
  pose proof (octet_of_bytes_u32 _ _ _ _ (Hoct a 3 Ha) (Hoct b 2 Hb) (Hoct c 1 Hc) (Hoct d 0 Hd))
    as (Hu & H3 & H2 & H1 & H0).
  eexists. split; [reflexivity|]. split; [|done].
  split; cbn; try done.
  - by rewrite CIDRMask_bytes.
  - unfold m. by rewrite bytes_u32_octets by (by apply mask_u32_is_u32).
  - intros i Hi.
    assert (Hbit : forall k x, Z.testbit (octet_of (bytes_u32 (Z.land a (m 3)) (Z.land b (m 2))
              (Z.land c (m 1)) (Z.land d (m 0))) k) (i - 8 * k) = Z.testbit (Z.land x (m k)) (i - 8 * k) ->
              0 <= k -> 0 <= i - 8 * k < 8 ->
              Z.testbit (bytes_u32 (Z.land a (m 3)) (Z.land b (m 2))
              (Z.land c (m 1)) (Z.land d (m 0))) i = false).
    { intros k x E Hk Hik. rewrite octet_testbit in E by done.
      replace (i - 8 * k + 8 * k) with i in E by lia.
      rewrite (proj2 (Z.leb_le _ _)), (proj2 (Z.ltb_lt _ _)) in E by lia. cbn in E. rewrite E.
      unfold m. rewrite Z.land_spec, octet_testbit by done.
      replace (i - 8 * k + 8 * k) with i by lia. rewrite mask_testbit by lia.
      destruct (Z.leb_spec (32 - n) i); [lia|]. by rewrite !andb_false_r. }
    destruct (decide (i < 8)); [apply (Hbit 0 d); [by rewrite H0|lia|lia]|].
    destruct (decide (i < 16)); [apply (Hbit 1 c); [by rewrite H1|lia|lia]|].
    destruct (decide (i < 24)); [apply (Hbit 2 b); [by rewrite H2|lia|lia]|].
    apply (Hbit 3 a); [by rewrite H3|lia|lia].
  - by rewrite H3, H2, H1, H0.
Qed.

(** ** What is promised of addresses *)

Lemma family_dotted a b c d :
  is_octet a -> is_octet b -> is_octet c -> is_octet d -> family (dotted a b c d) = Some true.
Proof.
  intros Ha Hb Hc Hd. unfold dotted. generalize (dec b +:+ "." +:+ dec c +:+ "." +:+ dec d). intros t.
  assert (lacks "."%char (dec a)) as H1 by (apply dec_lacks; [unfold is_octet in *; lia|done]).
  assert (lacks ":"%char (dec a)) as H2 by (apply dec_lacks; [unfold is_octet in *; lia|done]).
  rewrite sapp_cons, sapp_nil. unfold lacks in *. revert H1 H2. generalize (dec a). intros s.
  induction s as [|x s IH]; [done|]. rewrite sapp_cons. cbn [family byte_index].
  unfold is_colon. destruct (Ascii.eqb x "."); [done|]. destruct (Ascii.eqb x ":"); [done|].
  intros H1 H2. apply IH; [by destruct (byte_index "." s)|by destruct (byte_index ":" s)].
Qed.

Lemma ParseIP_dotted a b c d :
  is_octet a -> is_octet b -> is_octet c -> is_octet d ->
  ParseIP (dotted a b c d) = Some (IPv4 a b c d).
Proof.
  intros. unfold ParseIP. rewrite family_dotted by done. by apply parseIPv4_dotted.
Qed.

(** C28: the text of an allocated address is [a.b.c.d/n]; it parses as a CIDR
    whose network is the pool's, and learning its address part with
    [SetIPAddrIfInsidePool] marks exactly the identifier it was made from. *)
Theorem formatIPAddress_roundtrip p n addrID :
  wf_net p n -> is_host n addrID ->
  exists ip addr : string, exists b : IP,
    addr = formatIPAddress p addrID /\ addr = ip +:+ "/" +:+ dec n /\
    ParseCIDR addr = Ok (b, ipNetwork p) /\ ParseIP ip = Some b /\
    SetIPAddrIfInsidePool ip p = Done tt (mark addrID p).
Proof.
  intros Hnet Hh. pose proof (wf_bits p n Hnet) as Hn.
  set (o k := octet_of (addr_u32 p addrID) k).
  exists (dotted (o 3) (o 2) (o 1) (o 0)), (formatIPAddress p addrID), (IPv4 (o 3) (o 2) (o 1) (o 0)).
  assert (Ho : forall k, is_octet (o k)) by (intros; apply octet_of_is_octet).
  pose proof (formatIPAddress_dotted p n Hnet addrID) as Hf.
  split_and!; [done|done| |by apply ParseIP_dotted|].
  - rewrite Hf, ParseCIDR_dotted by done. do 2 f_equal.
    rewrite CIDRMask_bytes by done. unfold and_bytes. cbn [zip_with]. unfold o.
    rewrite !(addr_octet_masked p n Hnet) by (done || lia).
    pose proof (wf_net_IP p n Hnet) as HIP. pose proof (wf_mask p n Hnet) as HM.
    destruct (ipNetwork p) as [nip nm]. cbn in HIP, HM. subst nip nm. f_equal; [|by rewrite CIDRMask_bytes].
    assert (Hidem : forall k, 0 <= k <= 3 ->
      Z.land (octet_of (ipNetworku32 p) k) (octet_of (mask_u32 n) k) = octet_of (ipNetworku32 p) k).
    { intros k Hk. apply Z.bits_inj_iff'. intros i Hi.
      rewrite Z.land_spec, !octet_testbit, mask_testbit by lia.
      destruct (Z.leb_spec (32 - n) (i + 8 * k)).
      - destruct (Z.ltb_spec (i + 8 * k) 32), (Z.leb_spec 0 i), (Z.ltb_spec i 8); cbn;
          rewrite ?andb_true_r; try done; lia.
      - rewrite (wf_host p n Hnet) by lia. by rewrite !andb_false_r. }
    by rewrite !Hidem by lia.
  - unfold SetIPAddrIfInsidePool, mbnd, get. change (id p) with p.
    rewrite ParseIP_dotted by done. unfold o. rewrite (Contains_addr p n Hnet) by done.
    change (To4 (IPv4 (octet_of (addr_u32 p addrID) 3) (octet_of (addr_u32 p addrID) 2)
      (octet_of (addr_u32 p addrID) 1) (octet_of (addr_u32 p addrID) 0))) with
      (Some [octet_of (addr_u32 p addrID) 3; octet_of (addr_u32 p addrID) 2;
        octet_of (addr_u32 p addrID) 1; octet_of (addr_u32 p addrID) 0]).
    cbv iota. rewrite bytes_u32_octets by (by apply (addr_u32_is_u32 p n)).
    by rewrite (addr_u32_host p n).
Qed.

(** The pool with another allocation state. *)
Definition same_pool (p p' : PoolAllocatorType) : Prop :=
  exists a nx, p' = with_Allocated a (with_NextInRange nx p).

Lemma same_pool_refl p : same_pool p p.
Proof. exists (Allocated p), (NextInRange p). by destruct p. Qed.

Lemma same_pool_trans p q r : same_pool p q -> same_pool q r -> same_pool p r.
Proof. intros (a & x & ->) (b & y & ->). by exists b, y. Qed.

Lemma same_pool_wf_net p p' n : same_pool p p' -> wf_net p n -> wf_net p' n.
Proof. intros (a & x & ->) []. by split. Qed.

Lemma SetIPAddrIfInsidePool_total s p n :
  wf_net p n ->
  exists p', SetIPAddrIfInsidePool s p = Done tt p' /\ (p' = p \/ exists a, p' = mark a p).
Proof.
  intros Hnet. unfold SetIPAddrIfInsidePool, mbnd, get. change (id p) with p.
  destruct (ParseIP s) as [ip|]; [|by eauto].
  destruct (Contains (ipNetwork p) ip) eqn:E; [|by eauto].
  unfold Contains, networkNumberAndMask in E.
  rewrite (wf_net_IP p n Hnet) in E. cbn [To4 length Nat.eqb] in E.
  pose proof (wf_bits p n Hnet) as Hn.
  rewrite (wf_mask p n Hnet), CIDRMask_bytes in E by done. cbn [length Nat.eqb] in E.
  destruct (To4 ip) as [[|a [|b [|c [|d [|]]]]]|] eqn:E4; cbn [default length Nat.eqb] in E;
    try done; [by eauto|].
  unfold To4 in E4. unfold id in E. destruct (length ip =? 4)%nat eqn:El; done.
Qed.

Lemma run_op_spec op p n :
  wf p -> wf_net p n ->
  exists l p', run_op op p = Done l p' /\ wf p' /\ same_pool p p' /\ Allocated p ⊆ Allocated p' /\
    (l = [] \/ exists a, l = [(formatIPAddress p a, a)] /\ in_range p a /\ ~ (a ∈ Allocated p) /\
      a ∈ Allocated p').
Proof.
  intros Hwf Hnet. destruct op as [|a|s]; cbn [run_op].
  - unfold mbnd. destruct (AllocateIPAddress_spec p Hwf) as (r & p' & E & Hp). rewrite E.
    eexists _, p'. split; [reflexivity|]. split; [by eapply allocate_post_wf|].
    destruct r as [e|[str a]]; cbn in Hp.
    + destruct Hp as [-> _]. split; [apply same_pool_refl|]. auto.
    + destruct Hp as (Hr & Hn & -> & ->). split; [by eexists _, _|]. cbn.
      split; [set_solver|]. right. exists a. split_and!; [done|done|done|set_solver].
  - unfold SetAddress, mbnd, get. change (id p) with p.
    destruct ((a <? StartRange p) || (EndRange p <? a)); cbn.
    + eexists _, _. split_and!; [done|done|apply same_pool_refl|done|by left].
    + eexists _, _. split_and!; [done|by apply wf_mark| |set_solver|by left].
      by exists ({[a]} ∪ Allocated p), (NextInRange p).
  - unfold mbnd. destruct (SetIPAddrIfInsidePool_total s p n Hnet) as (p' & -> & Hp).
    eexists _, _. split; [done|]. destruct Hp as [->|[a ->]].
    + split_and!; [done|apply same_pool_refl|done|by left].
    + split_and!; [by apply wf_mark| |set_solver|by left].
      by exists ({[a]} ∪ Allocated p), (NextInRange p).
Qed.

Lemma same_pool_static p p' :
  same_pool p p' ->
  (forall a, formatIPAddress p' a = formatIPAddress p a) /\ (forall a, in_range p' a <-> in_range p a) /\
  EndRange p' = EndRange p.
Proof. by intros (a & x & ->). Qed.

Lemma run_ops_spec ops p n :
  wf p -> wf_net p n ->
  exists l p', run_ops ops p = Done l p' /\ wf p' /\ same_pool p p' /\ Allocated p ⊆ Allocated p' /\
    NoDup (snd <$> l) /\
    (forall str a, (str, a) ∈ l ->
      str = formatIPAddress p a /\ in_range p a /\ ~ (a ∈ Allocated p) /\ a ∈ Allocated p').
Proof.
  revert p. induction ops as [|op ops IH]; intros p Hwf Hnet; cbn [run_ops].
  { eexists _, _. split; [done|]. split_and!; [done|apply same_pool_refl|done|constructor|].
    intros ? ? []%not_elem_of_nil. }
  destruct (run_op_spec op p n Hwf Hnet) as (l & q & E & Hwq & Hsq & Haq & Hl).
  destruct (IH q Hwq (same_pool_wf_net _ _ _ Hsq Hnet)) as (l' & r & E' & Hwr & Hsr & Har & Hnd & Hl').
  destruct (same_pool_static _ _ Hsq) as (Hfmt & Hrng & _).
  eexists (l ++ l'), r. unfold mbnd. rewrite E, E'.
  split_and!; [done|done|by eapply same_pool_trans|set_solver| |].
  - rewrite fmap_app. destruct Hl as [->|(a & -> & _ & _ & Ha)]; [done|]. cbn.
    constructor; [|done]. intros ([str b] & -> & Hb)%list_elem_of_fmap. cbn in Ha.
    destruct (Hl' str b Hb) as (_ & _ & Hnb & _). done.
  - intros str b [Hb|Hb]%elem_of_app.
    + destruct Hl as [->|(a & -> & ? & ? & Ha)]; [by apply not_elem_of_nil in Hb|].
      apply list_elem_of_singleton in Hb. injection Hb as -> ->. set_solver.
    + destruct (Hl' str b Hb) as (-> & H1 & H2 & H3). rewrite Hfmt.
      split_and!; [done|by apply Hrng|set_solver|done].
Qed.


(** ** The constructor and the host range *)

Lemma pool_end_default n : 0 <= n <= 30 -> pool_end 0 n = 2 ^ (32 - n) - 2.
Proof.
  intros Hn.
  refine (all_prefixes (fun n => n <= 30 -> pool_end 0 n = 2 ^ (32 - n) - 2) n _ _ _); [|lia..].
  vm_compute. reflexivity.
Qed.

Lemma pow_host_bounds n : 0 <= n <= 30 -> 4 <= 2 ^ (32 - n) <= u32_mod.
Proof.
  intros Hn. unfold u32_mod. split.
  - change 4 with (2 ^ 2). apply Z.pow_le_mono_r; lia.
  - apply Z.pow_le_mono_r; lia.
Qed.

Lemma NewIPAMPoolAllocator_wf name s e a b c d n :
  is_octet a -> is_octet b -> is_octet c -> is_octet d -> 0 <= n <= 32 ->
  0 <= pool_start s <= pool_end e n -> pool_end e n < u32_mod - 1 ->
  exists p, NewIPAMPoolAllocator name s e (dotted a b c d +:+ "/" +:+ dec n) = Some p /\
    wf_net p n /\ wf p /\ Allocated p = ∅ /\ StartRange p = pool_start s /\ EndRange p = pool_end e n.
Proof.
  intros Ha Hb Hc Hd Hn Hr He.
  destruct (NewIPAMPoolAllocator_fields name s e a b c d n Ha Hb Hc Hd Hn)
    as (p & E & Hnet & Hal & Hs & Hend & Hnx & Htot).
  exists p. split_and!; try done. unfold u32_mod in *.
  split; unfold in_range; rewrite ?Hs, ?Hend, ?Hnx, ?Htot; unfold u32_mod; try lia.
  assert (u32 (pool_end e n - pool_start s) = pool_end e n - pool_start s) as ->
    by (apply u32_id; unfold is_u32, u32_mod; lia).
  apply u32_id. unfold is_u32, u32_mod. lia.
Qed.


(** A [/32] pool without bounds gets the range 1 to 0xFFFFFFFF, so it hands
    out an address outside its block; a [/31] pool gets an empty range and
    refuses every allocation. *)
Theorem pool_tiny_blocks :
  (exists p p', NewIPAMPoolAllocator "p" 0 0 "10.0.0.0/32" = Some p /\ EndRange p = u32_mod - 1 /\
     AllocateIPAddress p = Done (Ok ("10.0.0.1/32", 1)) p') /\
  (exists p e, NewIPAMPoolAllocator "p" 0 0 "10.0.0.0/31" = Some p /\ TotalInRange p = 0 /\
     AllocateIPAddress p = Done (Err e) p).
Proof.
  split.
  - eexists _, _. split; [vm_compute; reflexivity|]. split; [reflexivity|].
    vm_compute. reflexivity.
  - eexists _, _. split; [vm_compute; reflexivity|]. split; [reflexivity|].
    vm_compute. reflexivity.
Qed.

(** Addresses learned outside [StartRange, EndRange] (here the broadcast
    address and one below the configured start) count against
    [TotalInRange], so a pool refuses to allocate with its whole range free. *)
Theorem pool_exhausted_early :
  exists p p' e, NewIPAMPoolAllocator "p" 10 11 "10.0.0.0/24" = Some p /\
    run_ops [OpSetIfInside "10.0.0.255"; OpSetIfInside "10.0.0.1"] p = Done [] p' /\
    wf p' /\ (forall x, in_range p' x -> ~ (x ∈ Allocated p')) /\
    AllocateIPAddress p' = Done (Err e) p'.
Proof.
  eexists _, _, _. split; [vm_compute; reflexivity|]. split; [vm_compute; reflexivity|].
  split; [|split; [|vm_compute; reflexivity]].
  - split; unfold in_range; cbn; unfold u32_mod; lia.
  - unfold in_range. cbn [StartRange EndRange]. intros x Hx.
    assert (x = 10 \/ x = 11) as [->| ->] by lia.
    + apply (bool_decide_eq_false_1 (10 ∈ _)). vm_compute. reflexivity.
    + apply (bool_decide_eq_false_1 (11 ∈ _)). vm_compute. reflexivity.
Qed.

(** ** Witnesses *)

Definition pool30 : PoolAllocatorType :=
  default (mkPool "" 0 0 0 0 "" (mkIPNet [] []) 0 0 0 ∅)
    (NewIPAMPoolAllocator "pool" 0 0 (dotted 10 5 3 9 +:+ "/" +:+ dec 30)).

Lemma pool30_wf : wf pool30 /\ wf_net pool30 30.
Proof.
  destruct (NewIPAMPoolAllocator_wf "pool" 0 0 10 5 3 9 30) as (p & E & ? & ? & _);
    try (unfold is_octet; lia); try (by vm_compute).
  unfold pool30. rewrite E. done.
Qed.

Lemma AllocateIPAddress_fresh_witness :
  match AllocateIPAddress pool30 with
  | Done (inr (str, addrID)) p' => in_range pool30 addrID /\ str = formatIPAddress pool30 addrID
  | _ => False
  end.
Proof.
  pose proof (AllocateIPAddress_fresh pool30 (proj1 pool30_wf)) as H.
  revert H. destruct (AllocateIPAddress pool30) as [[e|[str a]] p'|] eqn:E; [|tauto..].
  vm_compute in E. discriminate.
Defined.


Lemma formatIPAddress_roundtrip_witness :
  exists ip addr : string, exists b : IP,
    addr = formatIPAddress pool30 2 /\ addr = ip +:+ "/" +:+ dec 30 /\
    ParseCIDR addr = Ok (b, ipNetwork pool30) /\ ParseIP ip = Some b /\
    SetIPAddrIfInsidePool ip pool30 = Done tt (mark 2 pool30).
Proof.
  apply (formatIPAddress_roundtrip pool30 30 2); [apply pool30_wf|].
  unfold is_host. change (2 ^ (32 - 30)) with 4. lia.
Defined.



End Ipam.
