(* ===== verification/Model.v ===== *)
(** * The controller's data model: src/plugins/controller/model

    The messages of [controller.proto] (Go structs of [controller.pb.go]), the
    constants of [controller.go] and the key prefixes of [keys.go].  A pointer
    that may be nil is an [option]; [uint32] fields are [Z]; a repeated message
    field is a list of non-nil messages; a Go map that may be nil is an [option]
    of a finite map.  A message that holds interface states is parameterised by
    what it holds: a reference in memory, the state itself in the datastore. *)

From S2P Require Import Prelude.

(** ** Constants: model/controller.go *)

Definition IfTypeLoopBack : string := "loopback".

Definition IfTypeEthernet : string := "ethernet".

Definition IfTypeVxlanTunnel : string := "vxlan_tunnel".

Definition IfTypeMemif : string := "memif".

Definition IfTypeVeth : string := "veth".

Definition IfTypeTap : string := "tap".

Definition IfAdminStatusEnabled : string := "enabled".

Definition IfAdminStatusDisabled : string := "disabled".

Definition IfMemifModeEhernet : string := "ethernet".

Definition IfMemifModeIP : string := "ip".

Definition IfMemifModePuntInject : string := "puntinject".

Definition ConnMethodDirect : string := "direct".

Definition ConnMethodVswitch : string := "vswitch".

Definition NetworkPodTypeExternal : string := "external".

Definition NetworkPodTypeVPPContainer : string := "vppcontainer".

Definition NetworkPodTypeNonVPPContainer : string := "nonvppcontainer".

Definition MemifDirectoryName : string := "/tmp".

Definition RxModeInterrupt : string := "interrupt".

Definition RxModePolling : string := "polling".

Definition RxModeAdaptive : string := "adaptive".

Definition ConnTypeL2PP : string := "l2pp".

Definition ConnTypeL2MP : string := "l2mp".

Definition ConnTypeL3PP : string := "l3pp".

Definition ConnTypeL3MP : string := "l3mp".

Definition OperStatusUp : string := "OperUp".

Definition OperStatusDown : string := "OperDown".

Definition NetworkNodeOverlayTypeMesh : string := "mesh".

Definition NetworkNodeOverlayTypeHubAndSpoke : string := "hub_and_spoke".

Definition NetworkNodeOverlayConnectionTypeVxlan : string := "vxlan".

Definition IPAMPoolScopeAny : string := "any".

Definition IPAMPoolScopeSystem : string := "system".

Definition IPAMPoolScopeNode : string := "node".

Definition IPAMPoolScopeNetworkService : string := "network_service".

Definition LinuxNamespacePID : string := "pid".

Definition LinuxNamespaceMICROSERVICE : string := "microservice".

Definition LinuxNamespaceNAMED : string := "named".

Definition LinuxNamespaceFILE : string := "file".

(** ** Key prefixes: model/keys.go *)

Definition SfcControllerPrefix : string := "/sfc-controller".

Definition SfcControllerConfigPrefix : string := SfcControllerPrefix +:+ "/v2/config/".

Definition SfcControllerStatusPrefix : string := SfcControllerPrefix +:+ "/v2/status/".

Definition SfcControllerContivKSRPrefix : string := "/vnf-agent/contiv-ksr".

(** ** Messages *)

(** [MetaDataType] *)
Record MetaDataType : Type := mkMeta {
  md_Name : string;
  md_Labels : gmap string string
}.

#[export] Instance MetaDataType_eq_dec : EqDecision MetaDataType.
Proof. solve_decision. Defined.

(** [BDParms] *)
Record BDParms : Type := mkBDParms {
  bdp_Name : string;
  bdp_Flood : bool;
  bdp_UnknownUnicastFlood : bool;
  bdp_Forward : bool;
  bdp_Learn : bool;
  bdp_ArpTermination : bool;
  bdp_MacAgeMinutes : Z
}.

#[export] Instance BDParms_eq_dec : EqDecision BDParms.
Proof. solve_decision. Defined.

(** [L2BD], the bridge domain of a configuration *)
Record L2BD : Type := mkL2BD {
  l2bd_Name : string;
  l2bd_BdParms : option BDParms;
  l2bd_L2BdTemplate : string
}.

#[export] Instance L2BD_eq_dec : EqDecision L2BD.
Proof. solve_decision. Defined.

(** [L3VRFRoute] *)
Record L3VRFRoute : Type := mkL3VRFRoute {
  rt_VrfId : Z;
  rt_Description : string;
  rt_DstIpAddr : string;
  rt_NextHopAddr : string;
  rt_OutgoingInterface : string;
  rt_Weight : Z;
  rt_Preference : Z
}.

#[export] Instance L3VRFRoute_eq_dec : EqDecision L3VRFRoute.
Proof. solve_decision. Defined.

(** [L3ArpEntry] *)
Record L3ArpEntry : Type := mkL3ArpEntry {
  arp_IpAddress : string;
  arp_PhysAddress : string;
  arp_OutgoingInterface : string
}.

#[export] Instance L3ArpEntry_eq_dec : EqDecision L3ArpEntry.
Proof. solve_decision. Defined.

(** [L2FIBEntry] *)
Record L2FIBEntry : Type := mkL2FIBEntry {
  fib_DestMacAddress : string;
  fib_BdName : string;
  fib_OutgoingIf : string;
  fib_Action : string;
  fib_Bvi : bool
}.

#[export] Instance L2FIBEntry_eq_dec : EqDecision L2FIBEntry.
Proof. solve_decision. Defined.

(** [Interface_MemIFParms]; the numbers are texts *)
Record MemIFParms : Type := mkMemIFParms {
  mi_Mode : string;
  mi_MemifDirectory : string;
  mi_Secret : string;
  mi_RingSize : string;
  mi_BufferSize : string;
  mi_RxQueues : string;
  mi_TxQueues : string
}.

#[export] Instance MemIFParms_eq_dec : EqDecision MemIFParms.
Proof. solve_decision. Defined.

(** [Interface_TapParms] *)
Record TapParms : Type := mkTapParms {
  tp_Namespace : string;
  tp_RxRingSize : string;
  tp_TxRingSize : string
}.

#[export] Instance TapParms_eq_dec : EqDecision TapParms.
Proof. solve_decision. Defined.

(** [Interface_Forwarding] *)
Record Forwarding : Type := mkForwarding {
  fwd_L3VrfRoute : list L3VRFRoute;
  fwd_L3Arp : list L3ArpEntry;
  fwd_L2Fib : list L2FIBEntry
}.

#[export] Instance Forwarding_eq_dec : EqDecision Forwarding.
Proof. solve_decision. Defined.

(** [Interface_LinuxNamespace] *)
Record LinuxNamespace : Type := mkLinuxNamespace {
  ln_Type : string;
  ln_Pid : Z;
  ln_Microservice : string;
  ln_Name : string;
  ln_Filepath : string
}.

#[export] Instance LinuxNamespace_eq_dec : EqDecision LinuxNamespace.
Proof. solve_decision. Defined.

(** [Interface_RxPlacementSettings] *)
Record RxPlacementSettings : Type := mkRxPlacementSettings {
  rx_Queue : Z;
  rx_Worker : Z;
  rx_IsMain : bool
}.

#[export] Instance RxPlacementSettings_eq_dec : EqDecision RxPlacementSettings.
Proof. solve_decision. Defined.

(** [Interface]: an interface of a node or a pod *)
Record Interface : Type := mkInterface {
  if_Name : string;
  if_BypassRenderer : bool;
  if_IfType : string;
  if_MacAddress : string;
  if_Mtu : Z;
  if_RxMode : string;
  if_IpAddresses : list string;
  if_IpamPoolNames : list string;
  if_AdminStatus : string;
  if_MemifParms : option MemIFParms;
  if_TapParms : option TapParms;
  if_Labels : list string;
  if_Parent : string;
  if_HostPortLabel : string;
  if_Fwd : option Forwarding;
  if_LinuxNamespace : option LinuxNamespace;
  if_RxPlacementSettings : option RxPlacementSettings
}.

#[export] Instance Interface_eq_dec : EqDecision Interface.
Proof. solve_decision. Defined.

Definition with_if_Parent (v : string) (x : Interface) : Interface :=
  mkInterface (if_Name x) (if_BypassRenderer x) (if_IfType x) (if_MacAddress x) (if_Mtu x) (if_RxMode x) (if_IpAddresses x) (if_IpamPoolNames x) (if_AdminStatus x) (if_MemifParms x) (if_TapParms x) (if_Labels x) v (if_HostPortLabel x) (if_Fwd x) (if_LinuxNamespace x) (if_RxPlacementSettings x).

(** [InterfaceStatus]: what the controller allocated for an interface *)
Record InterfaceStatus : Type := mkInterfaceStatus {
  is_Name : string;
  is_Status : string;
  is_Msg : list string;
  is_MacAddress : string;
  is_MacAddrID : Z;
  is_IpamPoolNums : option (gmap string Z);
  is_IpAddresses : list string;
  is_MemifID : Z;
  is_Node : string;
  is_HostPortLabel : string;
  is_Vni : Z;
  is_NnoName : string
}.

#[export] Instance InterfaceStatus_eq_dec : EqDecision InterfaceStatus.
Proof. solve_decision. Defined.

Definition with_is_MacAddress (v : string) (x : InterfaceStatus) : InterfaceStatus :=
  mkInterfaceStatus (is_Name x) (is_Status x) (is_Msg x) v (is_MacAddrID x) (is_IpamPoolNums x) (is_IpAddresses x) (is_MemifID x) (is_Node x) (is_HostPortLabel x) (is_Vni x) (is_NnoName x).

Definition with_is_MacAddrID (v : Z) (x : InterfaceStatus) : InterfaceStatus :=
  mkInterfaceStatus (is_Name x) (is_Status x) (is_Msg x) (is_MacAddress x) v (is_IpamPoolNums x) (is_IpAddresses x) (is_MemifID x) (is_Node x) (is_HostPortLabel x) (is_Vni x) (is_NnoName x).

Definition with_is_IpamPoolNums (v : option (gmap string Z)) (x : InterfaceStatus) : InterfaceStatus :=
  mkInterfaceStatus (is_Name x) (is_Status x) (is_Msg x) (is_MacAddress x) (is_MacAddrID x) v (is_IpAddresses x) (is_MemifID x) (is_Node x) (is_HostPortLabel x) (is_Vni x) (is_NnoName x).

Definition with_is_IpAddresses (v : list string) (x : InterfaceStatus) : InterfaceStatus :=
  mkInterfaceStatus (is_Name x) (is_Status x) (is_Msg x) (is_MacAddress x) (is_MacAddrID x) (is_IpamPoolNums x) v (is_MemifID x) (is_Node x) (is_HostPortLabel x) (is_Vni x) (is_NnoName x).

Definition with_is_MemifID (v : Z) (x : InterfaceStatus) : InterfaceStatus :=
  mkInterfaceStatus (is_Name x) (is_Status x) (is_Msg x) (is_MacAddress x) (is_MacAddrID x) (is_IpamPoolNums x) (is_IpAddresses x) v (is_Node x) (is_HostPortLabel x) (is_Vni x) (is_NnoName x).

Definition with_is_HostPortLabel (v : string) (x : InterfaceStatus) : InterfaceStatus :=
  mkInterfaceStatus (is_Name x) (is_Status x) (is_Msg x) (is_MacAddress x) (is_MacAddrID x) (is_IpamPoolNums x) (is_IpAddresses x) (is_MemifID x) (is_Node x) v (is_Vni x) (is_NnoName x).

(** [NetworkPodSpec] *)
Record NetworkPodSpec : Type := mkNetworkPodSpec {
  nps_PodType : string;
  nps_Interfaces : list Interface;
  nps_L2Bds : list L2BD
}.

#[export] Instance NetworkPodSpec_eq_dec : EqDecision NetworkPodSpec.
Proof. solve_decision. Defined.

Definition with_nps_Interfaces (v : list Interface) (x : NetworkPodSpec) : NetworkPodSpec :=
  mkNetworkPodSpec (nps_PodType x) v (nps_L2Bds x).

(** [NetworkPod] *)
Record NetworkPod : Type := mkNetworkPod {
  np_Metadata : option MetaDataType;
  np_Spec : option NetworkPodSpec
}.

#[export] Instance NetworkPod_eq_dec : EqDecision NetworkPod.
Proof. solve_decision. Defined.

Definition with_np_Spec (v : option NetworkPodSpec) (x : NetworkPod) : NetworkPod :=
  mkNetworkPod (np_Metadata x) v.

(** [Connection] of a network service *)
Record Connection : Type := mkConnection {
  cn_Name : string;
  cn_ConnType : string;
  cn_NetworkNodeOverlayName : string;
  cn_PodInterfaces : list string;
  cn_NodeInterfaces : list string;
  cn_NodeInterfaceLabels : list string;
  cn_UseNodeL2Bd : string;
  cn_L2Bd : option L2BD;
  cn_VrfId : Z;
  cn_ConnMethod : string
}.

#[export] Instance Connection_eq_dec : EqDecision Connection.
Proof. solve_decision. Defined.

Definition with_cn_VrfId (v : Z) (x : Connection) : Connection :=
  mkConnection (cn_Name x) (cn_ConnType x) (cn_NetworkNodeOverlayName x) (cn_PodInterfaces x) (cn_NodeInterfaces x) (cn_NodeInterfaceLabels x) (cn_UseNodeL2Bd x) (cn_L2Bd x) v (cn_ConnMethod x).

(** [RenderedVppAgentEntry]: the key and type of a rendered entry *)
Record RenderedVppAgentEntry : Type := mkRendered {
  re_VppAgentKey : string;
  re_VppAgentType : string
}.

#[export] Instance RenderedVppAgentEntry_eq_dec : EqDecision RenderedVppAgentEntry.
Proof. solve_decision. Defined.

(** [NetworkServiceSpec] *)
Record NetworkServiceSpec : Type := mkNetworkServiceSpec {
  nss_NetworkPods : list NetworkPod;
  nss_Connections : list Connection
}.

#[export] Instance NetworkServiceSpec_eq_dec : EqDecision NetworkServiceSpec.
Proof. solve_decision. Defined.

Definition with_nss_NetworkPods (v : list NetworkPod) (x : NetworkServiceSpec) : NetworkServiceSpec :=
  mkNetworkServiceSpec v (nss_Connections x).

Definition with_nss_Connections (v : list Connection) (x : NetworkServiceSpec) : NetworkServiceSpec :=
  mkNetworkServiceSpec (nss_NetworkPods x) v.

(** [NetworkServiceStatus] *)
Record NetworkServiceStatus (R : Type) : Type := mkNetworkServiceStatus {
  nst_OperStatus : string;
  nst_Msg : list string;
  nst_Rendered : option (gmap string RenderedVppAgentEntry);
  nst_Interfaces : option (gmap string R)
}.

Arguments mkNetworkServiceStatus {R}.
Arguments nst_OperStatus {R} _.
Arguments nst_Msg {R} _.
Arguments nst_Rendered {R} _.
Arguments nst_Interfaces {R} _.

Definition with_nst_OperStatus {R} (v : string) (x : NetworkServiceStatus R) : NetworkServiceStatus R :=
  mkNetworkServiceStatus v (nst_Msg x) (nst_Rendered x) (nst_Interfaces x).

Definition with_nst_Msg {R} (v : list string) (x : NetworkServiceStatus R) : NetworkServiceStatus R :=
  mkNetworkServiceStatus (nst_OperStatus x) v (nst_Rendered x) (nst_Interfaces x).

Definition with_nst_Rendered {R} (v : option (gmap string RenderedVppAgentEntry)) (x : NetworkServiceStatus R) : NetworkServiceStatus R :=
  mkNetworkServiceStatus (nst_OperStatus x) (nst_Msg x) v (nst_Interfaces x).

Definition with_nst_Interfaces {R} (v : option (gmap string R)) (x : NetworkServiceStatus R) : NetworkServiceStatus R :=
  mkNetworkServiceStatus (nst_OperStatus x) (nst_Msg x) (nst_Rendered x) v.

(** [NetworkService] *)
Record NetworkService (R : Type) : Type := mkNetworkService {
  ns_Metadata : option MetaDataType;
  ns_Spec : option NetworkServiceSpec;
  ns_Status : option (NetworkServiceStatus R)
}.

Arguments mkNetworkService {R}.
Arguments ns_Metadata {R} _.
Arguments ns_Spec {R} _.
Arguments ns_Status {R} _.

Definition with_ns_Spec {R} (v : option NetworkServiceSpec) (x : NetworkService R) : NetworkService R :=
  mkNetworkService (ns_Metadata x) v (ns_Status x).

Definition with_ns_Status {R} (v : option (NetworkServiceStatus R)) (x : NetworkService R) : NetworkService R :=
  mkNetworkService (ns_Metadata x) (ns_Spec x) v.

(** [NetworkNodeOverlaySpec_VxlanHubAndSpokeParms] *)
Record VxlanHubAndSpokeParms : Type := mkHubParms {
  hs_HubNodeName : string;
  hs_Vni : Z;
  hs_LoopbackIpamPoolName : string;
  hs_CreateLoopbackInterface : bool;
  hs_CreateLoopbackStaticRoutes : bool;
  hs_NetworkNodeInterfaceLabel : string
}.

#[export] Instance VxlanHubAndSpokeParms_eq_dec : EqDecision VxlanHubAndSpokeParms.
Proof. solve_decision. Defined.

(** [NetworkNodeOverlaySpec_VxlanMeshParms] *)
Record VxlanMeshParms : Type := mkMeshParms {
  vm_VniRangeStart : Z;
  vm_VniRangeEnd : Z;
  vm_LoopbackIpamPoolName : string;
  vm_CreateLoopbackInterface : bool;
  vm_CreateLoopbackStaticRoutes : bool;
  vm_NetworkNodeInterfaceLabel : string
}.

#[export] Instance VxlanMeshParms_eq_dec : EqDecision VxlanMeshParms.
Proof. solve_decision. Defined.

(** [NetworkNodeOverlaySpec] *)
Record NetworkNodeOverlaySpec : Type := mkOverlaySpec {
  nos_ServiceMeshType : string;
  nos_ConnectionType : string;
  nos_VxlanHubAndSpokeParms : option VxlanHubAndSpokeParms;
  nos_VxlanMeshParms : option VxlanMeshParms
}.

#[export] Instance NetworkNodeOverlaySpec_eq_dec : EqDecision NetworkNodeOverlaySpec.
Proof. solve_decision. Defined.

(** [NetworkNodeOverlayStatus] *)
Record NetworkNodeOverlayStatus : Type := mkOverlayStatus {
  not_Status : string;
  not_Msg : list string;
  not_Rendered : option (gmap string RenderedVppAgentEntry)
}.

#[export] Instance NetworkNodeOverlayStatus_eq_dec : EqDecision NetworkNodeOverlayStatus.
Proof. solve_decision. Defined.

(** [NetworkNodeOverlay] *)
Record NetworkNodeOverlay : Type := mkOverlay {
  nno_Metadata : option MetaDataType;
  nno_Spec : option NetworkNodeOverlaySpec;
  nno_Status : option NetworkNodeOverlayStatus
}.

#[export] Instance NetworkNodeOverlay_eq_dec : EqDecision NetworkNodeOverlay.
Proof. solve_decision. Defined.

Definition with_nno_Status (v : option NetworkNodeOverlayStatus) (x : NetworkNodeOverlay) : NetworkNodeOverlay :=
  mkOverlay (nno_Metadata x) (nno_Spec x) v.

(** [NetworkNodeSpec] *)
Record NetworkNodeSpec : Type := mkNetworkNodeSpec {
  nns_K8SNodeName : string;
  nns_NodeType : string;
  nns_Interfaces : list Interface;
  nns_L2Bds : list L2BD
}.

#[export] Instance NetworkNodeSpec_eq_dec : EqDecision NetworkNodeSpec.
Proof. solve_decision. Defined.

Definition with_nns_Interfaces (v : list Interface) (x : NetworkNodeSpec) : NetworkNodeSpec :=
  mkNetworkNodeSpec (nns_K8SNodeName x) (nns_NodeType x) v (nns_L2Bds x).

(** [NetworkNodeStatus] *)
Record NetworkNodeStatus (R : Type) : Type := mkNetworkNodeStatus {
  nnt_Status : string;
  nnt_Msg : list string;
  nnt_Rendered : option (gmap string RenderedVppAgentEntry);
  nnt_Interfaces : option (gmap string R)
}.

Arguments mkNetworkNodeStatus {R}.
Arguments nnt_Status {R} _.
Arguments nnt_Msg {R} _.
Arguments nnt_Rendered {R} _.
Arguments nnt_Interfaces {R} _.

Definition with_nnt_Status {R} (v : string) (x : NetworkNodeStatus R) : NetworkNodeStatus R :=
  mkNetworkNodeStatus v (nnt_Msg x) (nnt_Rendered x) (nnt_Interfaces x).

Definition with_nnt_Msg {R} (v : list string) (x : NetworkNodeStatus R) : NetworkNodeStatus R :=
  mkNetworkNodeStatus (nnt_Status x) v (nnt_Rendered x) (nnt_Interfaces x).

Definition with_nnt_Rendered {R} (v : option (gmap string RenderedVppAgentEntry)) (x : NetworkNodeStatus R) : NetworkNodeStatus R :=
  mkNetworkNodeStatus (nnt_Status x) (nnt_Msg x) v (nnt_Interfaces x).

Definition with_nnt_Interfaces {R} (v : option (gmap string R)) (x : NetworkNodeStatus R) : NetworkNodeStatus R :=
  mkNetworkNodeStatus (nnt_Status x) (nnt_Msg x) (nnt_Rendered x) v.

(** [NetworkNode] *)
Record NetworkNode (R : Type) : Type := mkNetworkNode {
  nn_Metadata : option MetaDataType;
  nn_Spec : option NetworkNodeSpec;
  nn_Status : option (NetworkNodeStatus R)
}.

Arguments mkNetworkNode {R}.
Arguments nn_Metadata {R} _.
Arguments nn_Spec {R} _.
Arguments nn_Status {R} _.

Definition with_nn_Spec {R} (v : option NetworkNodeSpec) (x : NetworkNode R) : NetworkNode R :=
  mkNetworkNode (nn_Metadata x) v (nn_Status x).

Definition with_nn_Status {R} (v : option (NetworkNodeStatus R)) (x : NetworkNode R) : NetworkNode R :=
  mkNetworkNode (nn_Metadata x) (nn_Spec x) v.

(** [IPAMPoolSpec] *)
Record IPAMPoolSpec : Type := mkIPAMPoolSpec {
  ips_Scope : string;
  ips_Network : string;
  ips_StartRange : Z;
  ips_EndRange : Z
}.

#[export] Instance IPAMPoolSpec_eq_dec : EqDecision IPAMPoolSpec.
Proof. solve_decision. Defined.

(** [IPAMPool]; the status is its [Addresses] map, which may be nil *)
Record IPAMPool : Type := mkIPAMPool {
  ip_Metadata : option MetaDataType;
  ip_Spec : option IPAMPoolSpec;
  ip_Status : option (option (gmap string string))
}.

#[export] Instance IPAMPool_eq_dec : EqDecision IPAMPool.
Proof. solve_decision. Defined.

Definition with_ip_Status (v : option (option (gmap string string))) (x : IPAMPool) : IPAMPool :=
  mkIPAMPool (ip_Metadata x) (ip_Spec x) v.

(** [SystemParameters] *)
Record SystemParameters : Type := mkSysParms {
  sp_Mtu : Z;
  sp_MemifDirectory : string;
  sp_DefaultStaticRouteWeight : Z;
  sp_DefaultStaticRoutePreference : Z;
  sp_L2BdTemplates : list BDParms;
  sp_RxMode : string;
  sp_MinVrfId : Z
}.

#[export] Instance SystemParameters_eq_dec : EqDecision SystemParameters.
Proof. solve_decision. Defined.

Definition with_sp_Mtu (v : Z) (x : SystemParameters) : SystemParameters :=
  mkSysParms v (sp_MemifDirectory x) (sp_DefaultStaticRouteWeight x) (sp_DefaultStaticRoutePreference x) (sp_L2BdTemplates x) (sp_RxMode x) (sp_MinVrfId x).

Definition with_sp_DefaultStaticRoutePreference (v : Z) (x : SystemParameters) : SystemParameters :=
  mkSysParms (sp_Mtu x) (sp_MemifDirectory x) (sp_DefaultStaticRouteWeight x) v (sp_L2BdTemplates x) (sp_RxMode x) (sp_MinVrfId x).

(** [NetworkPodToNodeMap] *)
Record NetworkPodToNodeMap : Type := mkPodToNode {
  pn_Pod : string;
  pn_Node : string
}.

#[export] Instance NetworkPodToNodeMap_eq_dec : EqDecision NetworkPodToNodeMap.
Proof. solve_decision. Defined.

(** The zero values Go gives to a declared struct. *)
Definition zero_PodToNode : NetworkPodToNodeMap := mkPodToNode "" "".

Definition zero_SysParms : SystemParameters := mkSysParms 0 "" 0 0 [] "" 0.
