(* ===== verification/VppAgent.v ===== *)
(** * vpp agent entries: src/plugins/controller/vppagent

    Module VppAgent models [vpp_agent.go] (the [Construct*] functions that build
    the entries of the vpp agents), [keys.go] (their etcd keys) and the pure part
    of [database.go] ([KVType] and [Equal]); the part that talks to etcd is in
    [State].  The vendored messages keep the fields the controller sets.
    A bridge domain is a shared object, since [AppendInterfacesToL2BD] grows it
    in place while several entries point to it: an entry holds its location, and
    the functions that create or change one run on the heap of bridge domains.
    [Equal] compares the texts the [String] methods give; the protobuf text
    format is injective, so this is equality of the messages. *)

From S2P Require Import Prelude GoStd GoNet Model.

Module VppAgent.

(** ** Vendored messages: vpp-agent's interfaces, l2, l3, linux interfaces *)

Inductive InterfaceType : Type :=
| SOFTWARE_LOOPBACK | ETHERNET_CSMACD | MEMORY_INTERFACE | TAP_INTERFACE
| AF_PACKET_INTERFACE | VXLAN_TUNNEL.

#[export] Instance InterfaceType_eq_dec : EqDecision InterfaceType.
Proof. solve_decision. Defined.

Inductive RxModeType : Type := RX_UNKNOWN | RX_POLLING | RX_INTERRUPT | RX_ADAPTIVE.

#[export] Instance RxModeType_eq_dec : EqDecision RxModeType.
Proof. solve_decision. Defined.

Inductive MemifMode : Type := MEMIF_ETHERNET | MEMIF_IP | MEMIF_PUNT_INJECT.

#[export] Instance MemifMode_eq_dec : EqDecision MemifMode.
Proof. solve_decision. Defined.

(** [Interfaces_Interface_Memif] *)
Record Memif : Type := mkMemif {
  m_Master : bool;
  m_Mode : MemifMode;
  m_Id : Z;
  m_SocketFilename : string;
  m_Secret : string;
  m_RingSize : Z;
  m_BufferSize : Z;
  m_RxQueues : Z;
  m_TxQueues : Z
}.

#[export] Instance Memif_eq_dec : EqDecision Memif.
Proof. solve_decision. Defined.

(** [Interfaces_Interface_Vxlan] *)
Record Vxlan : Type := mkVxlan {
  vx_SrcAddress : string;
  vx_DstAddress : string;
  vx_Vni : Z
}.

#[export] Instance Vxlan_eq_dec : EqDecision Vxlan.
Proof. solve_decision. Defined.

(** [Interfaces_Interface_Tap] *)
Record Tap : Type := mkTap {
  tap_Version : Z;
  tap_HostIfName : string;
  tap_Namespace : string;
  tap_RxRingSize : Z;
  tap_TxRingSize : Z
}.

#[export] Instance Tap_eq_dec : EqDecision Tap.
Proof. solve_decision. Defined.

(** [Interfaces_Interface]; [vi_Afpacket] is the host interface name *)
Record VppInterface : Type := mkVppInterface {
  vi_Name : string;
  vi_Type : InterfaceType;
  vi_Enabled : bool;
  vi_PhysAddress : string;
  vi_Mtu : Z;
  vi_Vrf : Z;
  vi_IpAddresses : list string;
  vi_RxModeSettings : option RxModeType;
  vi_Memif : option Memif;
  vi_Vxlan : option Vxlan;
  vi_Afpacket : option string;
  vi_Tap : option Tap
}.

#[export] Instance VppInterface_eq_dec : EqDecision VppInterface.
Proof. solve_decision. Defined.

Definition with_vi_Vrf (v : Z) (x : VppInterface) : VppInterface :=
  mkVppInterface (vi_Name x) (vi_Type x) (vi_Enabled x) (vi_PhysAddress x) (vi_Mtu x) v (vi_IpAddresses x) (vi_RxModeSettings x) (vi_Memif x) (vi_Vxlan x) (vi_Afpacket x) (vi_Tap x).

(** [BridgeDomains_BridgeDomain_Interfaces] *)
Record BridgedInterface : Type := mkBridged {
  bi_Name : string;
  bi_BVI : bool;
  bi_SplitHorizonGroup : Z
}.

#[export] Instance BridgedInterface_eq_dec : EqDecision BridgedInterface.
Proof. solve_decision. Defined.

(** [BridgeDomains_BridgeDomain] *)
Record BridgeDomain : Type := mkBridgeDomain {
  bd_Name : string;
  bd_Flood : bool;
  bd_UnknownUnicastFlood : bool;
  bd_Forward : bool;
  bd_Learn : bool;
  bd_ArpTermination : bool;
  bd_MacAge : Z;
  bd_Interfaces : list BridgedInterface
}.

#[export] Instance BridgeDomain_eq_dec : EqDecision BridgeDomain.
Proof. solve_decision. Defined.

Definition with_bd_Interfaces (v : list BridgedInterface) (x : BridgeDomain) : BridgeDomain :=
  mkBridgeDomain (bd_Name x) (bd_Flood x) (bd_UnknownUnicastFlood x) (bd_Forward x) (bd_Learn x) (bd_ArpTermination x) (bd_MacAge x) v.

(** [XConnectPairs_XConnectPair] *)
Record XConnectPair : Type := mkXConnect {
  xc_ReceiveInterface : string;
  xc_TransmitInterface : string
}.

#[export] Instance XConnectPair_eq_dec : EqDecision XConnectPair.
Proof. solve_decision. Defined.

(** [StaticRoutes_Route] *)
Record StaticRoute : Type := mkStaticRoute {
  sr_VrfId : Z;
  sr_Description : string;
  sr_DstIpAddr : string;
  sr_NextHopAddr : string;
  sr_OutgoingInterface : string;
  sr_Weight : Z;
  sr_Preference : Z
}.

#[export] Instance StaticRoute_eq_dec : EqDecision StaticRoute.
Proof. solve_decision. Defined.

Definition with_sr_Description (v : string) (x : StaticRoute) : StaticRoute :=
  mkStaticRoute (sr_VrfId x) v (sr_DstIpAddr x) (sr_NextHopAddr x) (sr_OutgoingInterface x) (sr_Weight x) (sr_Preference x).

(** [ArpTable_ArpEntry] *)
Record ArpEntry : Type := mkArpEntry {
  ae_Interface : string;
  ae_IpAddress : string;
  ae_PhysAddress : string;
  ae_Static : bool
}.

#[export] Instance ArpEntry_eq_dec : EqDecision ArpEntry.
Proof. solve_decision. Defined.

Inductive LinuxInterfaceType : Type := LINUX_VETH | LINUX_AUTO_TAP.

#[export] Instance LinuxInterfaceType_eq_dec : EqDecision LinuxInterfaceType.
Proof. solve_decision. Defined.

(** The zero value of the namespace type is [PID_REF_NS]. *)
Inductive NamespaceType : Type := PID_REF_NS | MICROSERVICE_REF_NS | NAMED_NS | FILE_REF_NS.

#[export] Instance NamespaceType_eq_dec : EqDecision NamespaceType.
Proof. solve_decision. Defined.

(** [LinuxInterfaces_Interface_Namespace] *)
Record Namespace : Type := mkNamespace {
  nsp_Type : NamespaceType;
  nsp_Pid : Z;
  nsp_Microservice : string;
  nsp_Name : string;
  nsp_Filepath : string
}.

#[export] Instance Namespace_eq_dec : EqDecision Namespace.
Proof. solve_decision. Defined.

(** [LinuxInterfaces_Interface]; [li_Veth] is the peer's name *)
Record LinuxInterface : Type := mkLinuxInterface {
  li_Name : string;
  li_Type : LinuxInterfaceType;
  li_Enabled : bool;
  li_IpAddresses : list string;
  li_PhysAddress : string;
  li_Mtu : Z;
  li_HostIfName : string;
  li_Namespace : option Namespace;
  li_Veth : option string
}.

#[export] Instance LinuxInterface_eq_dec : EqDecision LinuxInterface.
Proof. solve_decision. Defined.

(** ** KVType: vppagent/database.go *)

Definition VppEntryTypeInterface : string := "interface".

Definition VppEntryTypeLinuxInterface : string := "linuxif".

Definition VppEntryTypeL2BD : string := "l2bd".

Definition VppEntryTypeL3Route : string := "l3vrf".

Definition VppEntryTypeL2XC : string := "l2xc".

Definition VppEntryTypeArp : string := "arp".

(** [KVType]: an entry of a vpp agent, its key and its type *)
Record KVType : Type := mkKV {
  VppKey : string;
  VppEntryType : string;
  kv_IFace : option VppInterface;
  kv_L2BD : option loc;
  kv_L3Route : option StaticRoute;
  kv_XConn : option XConnectPair;
  kv_LinuxIFace : option LinuxInterface;
  kv_ArpEntry : option ArpEntry
}.

#[export] Instance KVType_eq_dec : EqDecision KVType.
Proof. solve_decision. Defined.

Definition with_kv_IFace (v : option VppInterface) (x : KVType) : KVType :=
  mkKV (VppKey x) (VppEntryType x) v (kv_L2BD x) (kv_L3Route x) (kv_XConn x) (kv_LinuxIFace x) (kv_ArpEntry x).

Definition with_kv_L2BD (v : option loc) (x : KVType) : KVType :=
  mkKV (VppKey x) (VppEntryType x) (kv_IFace x) v (kv_L3Route x) (kv_XConn x) (kv_LinuxIFace x) (kv_ArpEntry x).

Definition with_kv_L3Route (v : option StaticRoute) (x : KVType) : KVType :=
  mkKV (VppKey x) (VppEntryType x) (kv_IFace x) (kv_L2BD x) v (kv_XConn x) (kv_LinuxIFace x) (kv_ArpEntry x).

Definition with_kv_XConn (v : option XConnectPair) (x : KVType) : KVType :=
  mkKV (VppKey x) (VppEntryType x) (kv_IFace x) (kv_L2BD x) (kv_L3Route x) v (kv_LinuxIFace x) (kv_ArpEntry x).

Definition with_kv_LinuxIFace (v : option LinuxInterface) (x : KVType) : KVType :=
  mkKV (VppKey x) (VppEntryType x) (kv_IFace x) (kv_L2BD x) (kv_L3Route x) (kv_XConn x) v (kv_ArpEntry x).

Definition with_kv_ArpEntry (v : option ArpEntry) (x : KVType) : KVType :=
  mkKV (VppKey x) (VppEntryType x) (kv_IFace x) (kv_L2BD x) (kv_L3Route x) (kv_XConn x) (kv_LinuxIFace x) v.

(** [NewKVEntry] *)
Definition NewKVEntry (vppKey vppEntryType : string) : KVType :=
  mkKV vppKey vppEntryType None None None None None None.

(** ** Keys: vppagent/keys.go over the vendored key functions *)

Definition agentPrefix : string := "/vnf-agent/".

(** [agentPrefix + vppLabel + "/" + relative key] *)
Definition agent_key (vppLabel rel : string) : string :=
  agentPrefix +:+ vppLabel +:+ "/" +:+ rel.

(** [GetVppEtcdlabel]: the third component of the key. *)
Definition GetVppEtcdlabel (key : string) : string :=
  let strs := Split key slash_byte in
  if (length strs <? 3)%nat then "" else default "" (strs !! 2%nat).

Definition interfaces_Prefix : string := "vpp/config/v1/interface/".

Definition interfaces_StatePrefix : string := "vpp/status/v1/interface/".

Definition linux_InterfacePrefix : string := "linux/config/v1/interface/".

Definition l2_BdPrefix : string := "vpp/config/v1/bd/".

Definition l2_XConnectPrefix : string := "vpp/config/v1/xconnect/".

Definition l3_VrfPrefix : string := "vpp/config/v1/vrf/".

Definition l3_RoutesPrefix : string := l3_VrfPrefix +:+ "{vrf}/fib/{net}/{mask}/{next-hop}".

Definition l3_ArpKey : string := "vpp/config/v1/arp/{if}/{ip}".

Definition InterfaceKey (vppLabel ifaceLabel : string) : string :=
  agent_key vppLabel (interfaces_Prefix +:+ ifaceLabel).

Definition InterfacePrefixKey (vppLabel : string) : string := agent_key vppLabel interfaces_Prefix.

Definition InterfaceStateKey (vppLabel ifaceLabel : string) : string :=
  agent_key vppLabel (interfaces_StatePrefix +:+ ifaceLabel).

Definition InterfaceStatePrefixKey (vppLabel : string) : string := agent_key vppLabel interfaces_Prefix.

Definition LinuxInterfaceKey (vppLabel ifaceLabel : string) : string :=
  agent_key vppLabel (linux_InterfacePrefix +:+ ifaceLabel).

Definition LinuxInterfacePrefixKey (vppLabel : string) : string :=
  agent_key vppLabel linux_InterfacePrefix.

Definition L2BridgeDomainKey (vppLabel bdName : string) : string :=
  agent_key vppLabel (l2_BdPrefix +:+ bdName).

Definition L2BridgeDomainKeyPrefix (vppLabel : string) : string := agent_key vppLabel l2_BdPrefix.

Definition L2XConnectKey (vppLabel rxIf : string) : string :=
  agent_key vppLabel (l2_XConnectPrefix +:+ rxIf).

Definition L3RouteKeyPrefix (vppLabel : string) : string := agent_key vppLabel l3_VrfPrefix.

(** The vendored [l3.RouteKey]; [None] is the panic on the nil network of a
    destination that does not parse. *)
Definition l3_RouteKey (vrf : Z) (dstAddr nextHopAddr : string) : option string :=
  match Net.ParseCIDR dstAddr with
  | inl _ => None
  | inr (_, dstNet) =>
      let key := l3_RoutesPrefix in
      let key := Replace1 key "{vrf}" (dec vrf) in
      let key := Replace1 key "{net}" (Net.IP_String (Net.net_IP dstNet)) in
      let key := Replace1 key "{mask}" (dec (Net.Mask_Size (Net.net_Mask dstNet))) in
      Some (Replace1 key "{next-hop}" nextHopAddr)
  end.

(** [L3RouteKey]: [destNet.String()] of a nil network panics. *)
Definition L3RouteKey (vppLabel : string) (vrf : Z) (destNet : option Net.IPNet) (nextHop : string)
  : option string :=
  destNet ← destNet; agent_key vppLabel <$> l3_RouteKey vrf (Net.IPNet_String destNet) nextHop.

(** The vendored [l3.ArpEntryKey] *)
Definition l3_ArpEntryKey (iface ipAddr : string) : string :=
  Replace1 (Replace1 l3_ArpKey "{if}" iface) "{ip}" ipAddr.

Definition ArpEntryKey (vppLabel iface ipAddress : string) : string :=
  agent_key vppLabel (l3_ArpEntryKey iface ipAddress).

(** ** Equal: vppagent/database.go *)

(** The bridge domain an entry points to. *)
Definition read_L2BD (kv : KVType) : M (heap BridgeDomain) (option BridgeDomain) :=
  match kv_L2BD kv with None => mret None | Some l => let! b := heap_read l in mret (Some b) end.

Definition Equal (kv kv2 : KVType) : M (heap BridgeDomain) bool :=
  if negb (String.eqb (VppEntryType kv) (VppEntryType kv2)) then mret false
  else if negb (String.eqb (VppKey kv) (VppKey kv2)) then mret false
  else if String.eqb (VppEntryType kv) VppEntryTypeInterface then
    mret (bool_decide (kv_IFace kv = kv_IFace kv2))
  else if String.eqb (VppEntryType kv) VppEntryTypeL2BD then
    let! b1 := read_L2BD kv in let! b2 := read_L2BD kv2 in mret (bool_decide (b1 = b2))
  else if String.eqb (VppEntryType kv) VppEntryTypeL2XC then
    mret (bool_decide (kv_XConn kv = kv_XConn kv2))
  else if String.eqb (VppEntryType kv) VppEntryTypeLinuxInterface then
    mret (bool_decide (kv_LinuxIFace kv = kv_LinuxIFace kv2))
  else if String.eqb (VppEntryType kv) VppEntryTypeL3Route then
    let! r1 := deref (kv_L3Route kv) in
    let! r2 := deref (kv_L3Route kv2) in
    mret (bool_decide (with_sr_Description "" r1 = with_sr_Description "" r2))
  else if String.eqb (VppEntryType kv) VppEntryTypeArp then
    mret (bool_decide (kv_ArpEntry kv = kv_ArpEntry kv2))
  else mret false.

(** ** Sorted lists: vppagent/vpp_agent.go *)

(** [append(data, x)] then [copy(data[index+1:], data[index:])] and
    [data[index] = el]: the element is inserted at [index]. *)
Definition insert_at {A} (index : nat) (el : A) (data : list A) : list A :=
  take index data ++ el :: drop index data.

(** [sort.Search(len(data), func(i) bool { return name data[i] > name el })] *)
Definition search_greater {A} (name : A -> string) (data : list A) (el : A) : nat :=
  Search (length data) (fun i => match data !! i with
                                 | Some d => str_ltb (name el) (name d)
                                 | None => true
                                 end).

Definition insertSortBridgedInterface (data : list BridgedInterface) (el : BridgedInterface)
  : list BridgedInterface :=
  insert_at (search_greater bi_Name data el) el data.

Definition insertSortIPAddress (data : list string) (el : string) : list string :=
  insert_at (search_greater id data el) el data.

(** [for _, iface := range ifaces { sorted = insertSortBridgedInterface(sorted, iface) }] *)
Definition addBridgedInterfaces (sorted ifaces : list BridgedInterface) : list BridgedInterface :=
  foldl insertSortBridgedInterface sorted ifaces.

Definition sortedIPAddresses (ipAddresses : list string) : list string :=
  foldl insertSortIPAddress [] ipAddresses.

(** ** Small conversions *)

Definition rxModeControllerToInterface (mode : string) : option RxModeType :=
  if String.eqb mode RxModePolling then Some RX_POLLING
  else if String.eqb mode RxModeInterrupt then Some RX_INTERRUPT
  else if String.eqb mode RxModeAdaptive then Some RX_ADAPTIVE
  else None.

Definition adminStatusStringToBool (adminStatusString : string) : bool :=
  negb (String.eqb adminStatusString IfAdminStatusDisabled).

Definition memifMode (modeString : string) : MemifMode :=
  if String.eqb modeString IfMemifModeEhernet then MEMIF_ETHERNET
  else if String.eqb modeString IfMemifModeIP then MEMIF_IP
  else if String.eqb modeString IfMemifModePuntInject then MEMIF_PUNT_INJECT
  else MEMIF_ETHERNET.

Definition strToUInt32 (v : string) : Z :=
  match Atoi v with Some i => u32 i | None => 0 end.

Definition StripSlashAndSubnetIPAddress (ipAndSubnetStr : string) : string :=
  default "" (head (Split ipAndSubnetStr slash_byte)).

(** ** The constructors of entries *)

Definition kv_interface (vppAgent : string) (iface : VppInterface) : KVType :=
  mkKV (InterfaceKey vppAgent (vi_Name iface)) VppEntryTypeInterface (Some iface)
    None None None None None.

Definition kv_linux_interface (vppAgent : string) (iface : LinuxInterface) : KVType :=
  mkKV (LinuxInterfaceKey vppAgent (li_Name iface)) VppEntryTypeLinuxInterface None
    None None None (Some iface) None.

Definition kv_l2bd (vppAgent bdName : string) (l : loc) : KVType :=
  mkKV (L2BridgeDomainKey vppAgent bdName) VppEntryTypeL2BD None (Some l) None None None None.

Definition ConstructL2BD (vppAgent bdName : string) (ifaces : list BridgedInterface)
  (bdParms : BDParms) : M (heap BridgeDomain) KVType :=
  let l2bd := mkBridgeDomain bdName (bdp_Flood bdParms) (bdp_UnknownUnicastFlood bdParms)
                (bdp_Forward bdParms) (bdp_Learn bdParms) (bdp_ArpTermination bdParms)
                (bdp_MacAgeMinutes bdParms) (addBridgedInterfaces [] ifaces) in
  let! l := heap_new l2bd in mret (kv_l2bd vppAgent bdName l).

Definition AppendInterfacesToL2BD (vppAgent : string) (l2bd : loc) (ifaces : list BridgedInterface)
  : M (heap BridgeDomain) KVType :=
  let! b := heap_read l2bd in
  heap_write l2bd (with_bd_Interfaces (addBridgedInterfaces (bd_Interfaces b) ifaces) b) ;;;
  mret (kv_l2bd vppAgent (bd_Name b) l2bd).

Definition ConstructEthernetInterface (vppAgent ifname : string) (ipAddresses : list string)
  (macAddr : string) (mtu : Z) (adminStatus rxMode : string) : KVType :=
  kv_interface vppAgent
    (mkVppInterface ifname ETHERNET_CSMACD (adminStatusStringToBool adminStatus) macAddr mtu 0
       (sortedIPAddresses ipAddresses) (rxModeControllerToInterface rxMode) None None None None).

Definition ConstructLoopbackInterface (vppAgent ifname : string) (ipAddresses : list string)
  (macAddr : string) (mtu : Z) (adminStatus rxMode : string) : KVType :=
  kv_interface vppAgent
    (mkVppInterface ifname SOFTWARE_LOOPBACK (adminStatusStringToBool adminStatus) macAddr mtu 0
       (sortedIPAddresses ipAddresses) (rxModeControllerToInterface rxMode) None None None None).

(** A number that is given overrides the default 0. *)
Definition uint_parm (v : string) : Z := if String.eqb v "" then 0 else strToUInt32 v.

Definition ConstructMemInterface (vppAgent ifname : string) (ipAddresses : list string)
  (macAddr : string) (mtu : Z) (adminStatus rxMode : string) (memifID : Z) (isMaster : bool)
  (memifParms : option MemIFParms) (defaultMemifDirectory masterVppAgent : string) : KVType :=
  let dir := match memifParms with
             | Some p => if String.eqb (mi_MemifDirectory p) "" then defaultMemifDirectory
                         else mi_MemifDirectory p
             | None => defaultMemifDirectory
             end in
  let dir := if String.eqb dir "" then MemifDirectoryName else dir in
  let socket := dir +:+ "/memif_" +:+ masterVppAgent +:+ ".sock" in
  let memif :=
    match memifParms with
    | Some p =>
        mkMemif isMaster (if String.eqb (mi_Mode p) "" then MEMIF_ETHERNET else memifMode (mi_Mode p))
          memifID socket (mi_Secret p) (uint_parm (mi_RingSize p)) (uint_parm (mi_BufferSize p))
          (uint_parm (mi_RxQueues p)) (uint_parm (mi_TxQueues p))
    | None => mkMemif isMaster MEMIF_ETHERNET memifID socket "" 0 0 0 0
    end in
  kv_interface vppAgent
    (mkVppInterface ifname MEMORY_INTERFACE (adminStatusStringToBool adminStatus) macAddr mtu 0
       (sortedIPAddresses ipAddresses) (rxModeControllerToInterface rxMode) (Some memif)
       None None None).

Definition ConstructVxlanInterface (vppAgent ifname : string) (vni : Z)
  (ep1IPAddress ep2IPAddress : string) : KVType :=
  kv_interface vppAgent
    (mkVppInterface ifname VXLAN_TUNNEL true "" 0 0 [] None None
       (Some (mkVxlan (StripSlashAndSubnetIPAddress ep1IPAddress)
                (StripSlashAndSubnetIPAddress ep2IPAddress) vni)) None None).

Definition constructUniDirXConnect (vppAgent if1 if2 : string) : KVType :=
  mkKV (L2XConnectKey vppAgent if1) VppEntryTypeL2XC None None None
    (Some (mkXConnect if1 if2)) None None.

Definition ConstructXConnect (vppAgent if1 if2 : string) : list KVType :=
  [constructUniDirXConnect vppAgent if1 if2; constructUniDirXConnect vppAgent if2 if1].

Definition ConstructTapInterface (vppAgent ifname : string) (ipAddresses : list string)
  (macAddr : string) (mtu : Z) (adminStatus rxMode : string) (tapParms : option TapParms)
  (hostIfName : string) : KVType :=
  let tap := match tapParms with
             | Some p => mkTap 2 hostIfName (tp_Namespace p) (uint_parm (tp_RxRingSize p))
                           (uint_parm (tp_TxRingSize p))
             | None => mkTap 2 hostIfName "" 0 0
             end in
  kv_interface vppAgent
    (mkVppInterface ifname TAP_INTERFACE (adminStatusStringToBool adminStatus) macAddr mtu 0
       (sortedIPAddresses ipAddresses) (rxModeControllerToInterface rxMode) None None None (Some tap)).

(** A named namespace is put into the field [Microservice]. *)
Definition ConstructLinuxTapInterface (vppAgent ifname : string) (ipAddresses : list string)
  (macAddr : string) (mtu : Z) (adminStatus hostIfName hostNameSpace microsServiceLabel : string)
  : KVType :=
  let ns := if String.eqb hostNameSpace ""
            then mkNamespace MICROSERVICE_REF_NS 0 microsServiceLabel "" ""
            else mkNamespace NAMED_NS 0 hostNameSpace "" "" in
  kv_linux_interface vppAgent
    (mkLinuxInterface ifname LINUX_AUTO_TAP (adminStatusStringToBool adminStatus)
       (sortedIPAddresses ipAddresses) macAddr mtu hostIfName (Some ns) None).

Definition ConstructAFPacketInterface (vppAgent ifname : string) (ipAddresses : list string)
  (macAddr : string) (mtu : Z) (adminStatus rxMode hostIfName : string) : KVType :=
  kv_interface vppAgent
    (mkVppInterface ifname AF_PACKET_INTERFACE (adminStatusStringToBool adminStatus) macAddr mtu 0
       (sortedIPAddresses ipAddresses) (rxModeControllerToInterface rxMode) None None
       (Some hostIfName) None).

(** The namespace of a veth; an unknown type leaves the zero message. *)
Definition veth_namespace (linuxNamespace : option LinuxNamespace) (vnfName : string) : Namespace :=
  match linuxNamespace with
  | None => mkNamespace MICROSERVICE_REF_NS 0 vnfName "" ""
  | Some ln =>
      if String.eqb (ln_Type ln) LinuxNamespaceMICROSERVICE then
        mkNamespace MICROSERVICE_REF_NS 0 (ln_Microservice ln) "" ""
      else if String.eqb (ln_Type ln) LinuxNamespaceNAMED then
        mkNamespace NAMED_NS 0 "" (ln_Name ln) ""
      else if String.eqb (ln_Type ln) LinuxNamespacePID then
        mkNamespace PID_REF_NS (ln_Pid ln) "" "" ""
      else if String.eqb (ln_Type ln) LinuxNamespaceFILE then
        mkNamespace FILE_REF_NS 0 "" "" (ln_Filepath ln)
      else mkNamespace PID_REF_NS 0 "" "" ""
  end.

Definition ConstructVEthInterface (vppAgent ifname : string) (ipAddresses : list string)
  (macAddr : string) (mtu : Z) (adminStatus hostIfName peerIfName : string)
  (linuxNamespace : option LinuxNamespace) (vnfName : string) : KVType :=
  kv_linux_interface vppAgent
    (mkLinuxInterface ifname LINUX_VETH (adminStatusStringToBool adminStatus)
       (sortedIPAddresses ipAddresses) macAddr mtu hostIfName
       (Some (veth_namespace linuxNamespace vnfName)) (Some peerIfName)).

(** The vendored [addrs.IsIPv6]; [None] is its error. *)
Definition IsIPv6 (addr : string) : option bool :=
  match Net.ParseIP addr with
  | None => None
  | Some ip => Some (match Net.To4 ip with Some _ => false | None => true end)
  end.

(** The vendored [addrs.ParseIPWithPrefix], its first result: the address with
    its host bits and the mask, nil on an error. *)
Definition ParseIPWithPrefix (input : string) : option Net.IPNet :=
  if ContainsByte input slash_byte then
    match Net.ParseCIDR input with
    | inl _ => None
    | inr (ip, network) => Some (Net.mkIPNet ip (Net.net_Mask network))
    end
  else
    match Net.ParseIP input with
    | None => None
    | Some ip =>
        match IsIPv6 (Net.IP_String ip) with
        | None => None
        | Some true => Some (Net.mkIPNet ip (Net.CIDRMask 128 128))
        | Some false => Some (Net.mkIPNet ip (Net.CIDRMask 32 32))
        end
    end.

(** [ConstructStaticRoute]; [None] is the panic on a destination that does not parse. *)
Definition ConstructStaticRoute (vppAgent : string) (l3sr : L3VRFRoute) : option KVType :=
  let sr := mkStaticRoute (rt_VrfId l3sr) (rt_Description l3sr) (rt_DstIpAddr l3sr)
              (StripSlashAndSubnetIPAddress (rt_NextHopAddr l3sr)) (rt_OutgoingInterface l3sr)
              (rt_Weight l3sr) (rt_Preference l3sr) in
  key ← L3RouteKey vppAgent (sr_VrfId sr) (ParseIPWithPrefix (sr_DstIpAddr sr)) (sr_NextHopAddr sr);
  Some (mkKV key VppEntryTypeL3Route None None (Some sr) None None None).

(** The key is made of the interface and the MAC address. *)
Definition ConstructStaticArpEntry (vppAgent : string) (l3ae : L3ArpEntry) : KVType :=
  let ae := mkArpEntry (arp_OutgoingInterface l3ae) (arp_IpAddress l3ae) (arp_PhysAddress l3ae) true in
  mkKV (ArpEntryKey vppAgent (ae_Interface ae) (ae_PhysAddress ae)) VppEntryTypeArp
    None None None None None (Some ae).

(** ** Facts: sorted lists *)

Lemma str_ltb_le a b : str_ltb a b = false <-> String.le b a.
Proof.
  unfold str_ltb, String.ltb, String.le, String.leb.
  rewrite (String.compare_antisym b a). destruct (String.compare a b); simpl; split; done.
Qed.

Lemma str_ltb_lt a b : str_ltb a b = true -> String.le a b.
Proof.
  intros H. destruct (total String.le a b) as [|Hba]; [done|].
  apply str_ltb_le in Hba. congruence.
Qed.

Section sorted_lists.
Context {A : Type} (name : A -> string).

Definition name_le (x y : A) : Prop := String.le (name x) (name y).

Lemma insert_at_perm i (el : A) data : insert_at i el data ≡ₚ el :: data.
Proof.
  unfold insert_at. rewrite <- Permutation_middle. by rewrite take_drop.
Qed.

Lemma sorted_lookup_le data i j x y :
  StronglySorted name_le data -> (i <= j)%nat -> data !! i = Some x -> data !! j = Some y ->
  name_le x y.
Proof.
  intros Hs. revert i j. induction Hs as [|a l Hs IH Hall]; intros i j Hij Hi Hj; [done|].
  destruct i as [|i], j as [|j]; cbn in *; [|rewrite Forall_forall in Hall|lia|].
  - injection Hi as ->. injection Hj as ->. unfold name_le. done.
  - injection Hi as ->. apply Hall. by eapply list_elem_of_lookup_2.
  - apply (IH i j); [lia|done|done].
Qed.

(** The binary search of the source finds where the element belongs. *)
Lemma search_greater_spec data el :
  StronglySorted name_le data ->
  (forall x, x ∈ take (search_greater name data el) data -> name_le x el) /\
  (forall y, y ∈ drop (search_greater name data el) data -> name_le el y).
Proof.
  intros Hs. unfold search_greater.
  set (f := fun i => match data !! i with Some d => str_ltb (name el) (name d) | None => true end).
  assert (Hmono : forall a b, (a <= b)%nat -> f a = true -> f b = true).
  { intros a b Hab. unfold f. destruct (data !! b) as [y|] eqn:Ey; [|done].
    destruct (data !! a) as [x|] eqn:Ex.
    - intros Hx. pose proof (sorted_lookup_le data a b x y Hs Hab Ex Ey) as Hxy.
      destruct (str_ltb (name el) (name y)) eqn:E; [done|]. apply str_ltb_le in E.
      assert (String.le (name x) (name el)) as Hc by (unfold name_le in Hxy; by etrans).
      apply str_ltb_le in Hc. congruence.
    - apply lookup_ge_None_1 in Ex. apply lookup_lt_Some in Ey. lia. }
  destruct (Search_spec (length data) f Hmono) as (Hle & Hlow & Hhigh).
  set (r := Search (length data) f) in *. split.
  - intros x (i & Hi)%list_elem_of_lookup. apply lookup_take_Some in Hi as [Hi Hir].
    specialize (Hlow i Hir). unfold f in Hlow. rewrite Hi in Hlow. by apply str_ltb_le in Hlow.
  - intros y (i & Hi)%list_elem_of_lookup. rewrite lookup_drop in Hi.
    pose proof (lookup_lt_Some _ _ _ Hi) as Hlt.
    assert (f (r + i)%nat = true) as Hf by (apply (Hmono r); [lia|apply Hhigh; lia]).
    unfold f in Hf. rewrite Hi in Hf. by apply str_ltb_lt in Hf.
Qed.

Lemma insert_sorted data el :
  StronglySorted name_le data ->
  StronglySorted name_le (insert_at (search_greater name data el) el data).
Proof.
  intros Hs. destruct (search_greater_spec data el Hs) as [Hl Hr]. unfold insert_at.
  rewrite <- (take_drop (search_greater name data el) data) in Hs.
  apply StronglySorted_app in Hs as (Hlr & Hsl & Hsr).
  apply StronglySorted_app. split_and!; [|done|].
  - intros x y Hx [->|Hy]%elem_of_cons; [by apply Hl|by apply Hlr].
  - constructor; [done|]. apply Forall_forall. intros y Hy. by apply Hr.
Qed.

Lemma foldl_insert_sorted (ins : list A -> A -> list A) data l :
  (forall data el, ins data el = insert_at (search_greater name data el) el data) ->
  StronglySorted name_le data ->
  StronglySorted name_le (foldl ins data l) /\ foldl ins data l ≡ₚ data ++ l.
Proof.
  intros Hins. revert data. induction l as [|x l IH]; intros data Hs; cbn [foldl].
  - by rewrite app_nil_r.
  - rewrite Hins. destruct (IH _ (insert_sorted data x Hs)) as [IHs IHp]. split; [done|].
    rewrite IHp, insert_at_perm. by rewrite <- Permutation_middle.
Qed.
End sorted_lists.

(** Growing a sorted bridge with any interfaces keeps it sorted by name and
    adds exactly those interfaces. *)
Theorem addBridgedInterfaces_sorted sorted ifaces :
  StronglySorted (name_le bi_Name) sorted ->
  StronglySorted (name_le bi_Name) (addBridgedInterfaces sorted ifaces) /\
  addBridgedInterfaces sorted ifaces ≡ₚ sorted ++ ifaces.
Proof. intros Hs. by apply foldl_insert_sorted. Qed.

Lemma addBridgedInterfaces_sorted_witness :
  StronglySorted (name_le bi_Name)
    (addBridgedInterfaces [mkBridged "b" false 0] [mkBridged "c" false 0; mkBridged "a" false 1]).
Proof. apply addBridgedInterfaces_sorted. repeat constructor. Defined.

Lemma sortedIPAddresses_spec l :
  StronglySorted (name_le id) (sortedIPAddresses l) /\ sortedIPAddresses l ≡ₚ l.
Proof. apply (foldl_insert_sorted id insertSortIPAddress [] l); [done|constructor]. Qed.

(** Entries that differ only in the order of their addresses, or bridge
    domains that differ only in the order in which their interfaces were
    collected (no two of them of one name), are built equal; this is what lets
    [Equal] compare printed entries. *)
Theorem construct_order_insensitive :
  (forall l l', l ≡ₚ l' -> sortedIPAddresses l = sortedIPAddresses l') /\
  (forall vppAgent bdName ifaces ifaces' parms h,
    ifaces ≡ₚ ifaces' -> NoDup (bi_Name <$> ifaces) ->
    ConstructL2BD vppAgent bdName ifaces parms h = ConstructL2BD vppAgent bdName ifaces' parms h).
Proof.
  split.
  - intros l l' Hp. destruct (sortedIPAddresses_spec l) as [Hs1 Hp1].
    destruct (sortedIPAddresses_spec l') as [Hs2 Hp2].
    eapply (StronglySorted_unique_strong (name_le id)); [|done|done|by rewrite Hp1, Hp2].
    intros x y _ _. unfold name_le. cbn. intros H1 H2. by apply (anti_symm String.le).
  - intros vppAgent bdName ifaces ifaces' parms h Hp Hnd. unfold ConstructL2BD.
    replace (addBridgedInterfaces [] ifaces') with (addBridgedInterfaces [] ifaces); [done|].
    destruct (foldl_insert_sorted bi_Name insertSortBridgedInterface [] ifaces) as [Hs1 Hp1];
      [done|constructor|].
    destruct (foldl_insert_sorted bi_Name insertSortBridgedInterface [] ifaces') as [Hs2 Hp2];
      [done|constructor|]. cbn in Hp1, Hp2.
    eapply (StronglySorted_unique_strong (name_le bi_Name)); [|done|done|].
    + intros x y Hx Hy H1 H2. rewrite Hp1 in Hx. rewrite Hp2, <- Hp in Hy.
      assert (bi_Name x = bi_Name y) as E by (by apply (anti_symm String.le)).
      apply list_elem_of_lookup in Hx as [i Hi]. apply list_elem_of_lookup in Hy as [j Hj].
      assert (i = j) as ->; [|congruence].
      eapply NoDup_lookup; [done|..]; rewrite list_lookup_fmap.
      * by rewrite Hi.
      * rewrite Hj. cbn. by rewrite E.
    + unfold addBridgedInterfaces. by rewrite Hp1, Hp2.
Qed.

Lemma construct_order_insensitive_witness :
  sortedIPAddresses ["b"; "a"] = sortedIPAddresses ["a"; "b"].
Proof. apply (proj1 construct_order_insensitive). constructor. Defined.

(** ** Facts: Equal *)

(** The value an entry carries, with its bridge domain read from the heap and
    without the description of a route. *)
Definition entry_value (h : heap BridgeDomain) (kv : KVType)
  : option VppInterface * option BridgeDomain * option StaticRoute * option XConnectPair *
    option LinuxInterface * option ArpEntry :=
  (if String.eqb (VppEntryType kv) VppEntryTypeInterface then kv_IFace kv else None,
   if String.eqb (VppEntryType kv) VppEntryTypeL2BD then l ← kv_L2BD kv; cells h !! l else None,
   if String.eqb (VppEntryType kv) VppEntryTypeL3Route then with_sr_Description "" <$> kv_L3Route kv
   else None,
   if String.eqb (VppEntryType kv) VppEntryTypeL2XC then kv_XConn kv else None,
   if String.eqb (VppEntryType kv) VppEntryTypeLinuxInterface then kv_LinuxIFace kv else None,
   if String.eqb (VppEntryType kv) VppEntryTypeArp then kv_ArpEntry kv else None).

(** The entries the constructors build: of a known type, with the value of that type. *)
Definition wf_entry (h : heap BridgeDomain) (kv : KVType) : Prop :=
  (VppEntryType kv = VppEntryTypeInterface /\ is_Some (kv_IFace kv)) \/
  (VppEntryType kv = VppEntryTypeL2BD /\ exists l b, kv_L2BD kv = Some l /\ cells h !! l = Some b) \/
  (VppEntryType kv = VppEntryTypeL2XC /\ is_Some (kv_XConn kv)) \/
  (VppEntryType kv = VppEntryTypeLinuxInterface /\ is_Some (kv_LinuxIFace kv)) \/
  (VppEntryType kv = VppEntryTypeL3Route /\ is_Some (kv_L3Route kv)) \/
  (VppEntryType kv = VppEntryTypeArp /\ is_Some (kv_ArpEntry kv)).

Lemma Equal_decides h kv kv2 :
  wf_entry h kv -> wf_entry h kv2 ->
  exists b : bool, Equal kv kv2 h = Done b h /\
    (b = true <-> VppEntryType kv = VppEntryType kv2 /\ VppKey kv = VppKey kv2 /\
                  entry_value h kv = entry_value h kv2).
Proof.
  intros H1 H2. unfold Equal.
  destruct (String.eqb_spec (VppEntryType kv) (VppEntryType kv2)) as [Et|Et]; cbn [negb].
  2:{ exists false. split; [done|]. split; [done|]. by intros [? _]. }
  destruct (String.eqb_spec (VppKey kv) (VppKey kv2)) as [Ek|Ek]; cbn [negb].
  2:{ exists false. split; [done|]. split; [done|]. by intros (_ & ? & _). }
  unfold entry_value. rewrite <- Et. unfold wf_entry in *. rewrite <- Et in H2.
  destruct H1 as [[E H]|[[E H]|[[E H]|[[E H]|[[E H]|[E H]]]]]]; rewrite E in *; cbn [String.eqb];
    destruct H2 as [[E2 H2]|[[E2 H2]|[[E2 H2]|[[E2 H2]|[[E2 H2]|[E2 H2]]]]]]; try discriminate E2.
  - eexists. split; [reflexivity|]. rewrite bool_decide_eq_true. cbn. split; [by intros ->|].
    by intros (_ & _ & [= ->]).
  - destruct H as (l & b & Hl & Hb). destruct H2 as (l2 & b2 & Hl2 & Hb2).
    exists (bool_decide (Some b = Some b2)). split.
    { cbn. unfold read_L2BD. rewrite Hl, Hl2. unfold mbnd, heap_read, mret. rewrite Hb, Hb2. done. }
    rewrite bool_decide_eq_true. cbn. rewrite Hl, Hl2. cbn. rewrite Hb, Hb2.
    split; [by intros [= ->]|]. by intros (_ & _ & [= ->]).
  - eexists. split; [reflexivity|]. rewrite bool_decide_eq_true. cbn. split; [by intros ->|].
    by intros (_ & _ & [= ->]).
  - eexists. split; [reflexivity|]. rewrite bool_decide_eq_true. cbn. split; [by intros ->|].
    by intros (_ & _ & [= ->]).
  - destruct H as (r & Hr). destruct H2 as (r2 & Hr2). rewrite Hr, Hr2.
    eexists. split; [reflexivity|]. rewrite bool_decide_eq_true. cbn.
    split; [by intros ->|]. intros (_ & _ & H3). congruence.
  - eexists. split; [reflexivity|]. rewrite bool_decide_eq_true. cbn. split; [by intros ->|].
    by intros (_ & _ & [= ->]).
Qed.

(** C31: on the entries the controller builds, [Equal] does not panic, changes
    nothing, and decides that key, type and value agree, a route's description
    aside; so it is an equivalence. *)
Theorem Equal_spec h kv kv2 :
  wf_entry h kv -> wf_entry h kv2 ->
  exists b : bool, Equal kv kv2 h = Done b h /\
    (b = true <-> VppEntryType kv = VppEntryType kv2 /\ VppKey kv = VppKey kv2 /\
                  entry_value h kv = entry_value h kv2).
Proof. apply Equal_decides. Qed.

Lemma Equal_spec_witness :
  exists b : bool, Equal (constructUniDirXConnect "n" "a" "b") (constructUniDirXConnect "n" "a" "c")
    empty_heap = Done b empty_heap /\ b = false.
Proof.
  destruct (Equal_spec empty_heap (constructUniDirXConnect "n" "a" "b")
    (constructUniDirXConnect "n" "a" "c")) as (b & E & Hb).
  - do 2 right. left. split; [done|]. by eexists.
  - do 2 right. left. split; [done|]. by eexists.
  - exists b. split; [done|]. destruct b; [|done].
    destruct (proj1 Hb eq_refl) as (_ & _ & H). discriminate H.
Defined.

(** ** Facts: keys *)

Definition is_label (s : string) : Prop := lacks slash_byte s.

Lemma agent_key_label label rel :
  is_label label -> GetVppEtcdlabel (agent_key label rel) = label.
Proof.
  intros Hl. unfold GetVppEtcdlabel, agent_key, agentPrefix.
  change ("/vnf-agent/" +:+ label +:+ "/" +:+ rel)
    with ("" +:+ String.String slash_byte ("vnf-agent" +:+ String.String slash_byte
           (label +:+ String.String slash_byte rel))).
  rewrite !Split_lacks_app by done. cbn [length Nat.ltb Nat.leb].
  by destruct (Split rel slash_byte).
Qed.

Lemma agent_key_inj a b r r' :
  is_label a -> is_label b -> agent_key a r = agent_key b r' -> a = b /\ r = r'.
Proof.
  intros Ha Hb E. unfold agent_key, agentPrefix in E. apply sapp_inj_l in E.
  change ("/" +:+ r) with (String.String slash_byte r) in E.
  change ("/" +:+ r') with (String.String slash_byte r') in E.
  by apply sep_split_inj in E.
Qed.

(** What a named entry of an agent is: its kind and its name. *)
Inductive named_entry : Type :=
| EInterface (name : string)
| ELinuxInterface (name : string)
| EBridgeDomain (name : string)
| EXConnect (name : string).

Definition entry_key (agent : string) (e : named_entry) : string :=
  match e with
  | EInterface n => InterfaceKey agent n
  | ELinuxInterface n => LinuxInterfaceKey agent n
  | EBridgeDomain n => L2BridgeDomainKey agent n
  | EXConnect n => L2XConnectKey agent n
  end.

(** C30: the key of an interface, Linux interface, bridge domain or cross
    connect determines the agent it belongs to (and [GetVppEtcdlabel] reads it
    back), its kind and its name, whatever the name. *)
Theorem vpp_keys_injective a b e f :
  is_label a -> is_label b ->
  GetVppEtcdlabel (entry_key a e) = a /\ (entry_key a e = entry_key b f -> a = b /\ e = f).
Proof.
  intros Ha Hb. split; [destruct e; by apply agent_key_label|].
  destruct e, f; cbn [entry_key]; unfold InterfaceKey, LinuxInterfaceKey, L2BridgeDomainKey, L2XConnectKey;
    intros [-> E]%agent_key_inj; try done; split; try done;
    (apply sapp_inj_l in E; by subst) || discriminate E.
Qed.

Lemma vpp_keys_injective_witness :
  GetVppEtcdlabel (entry_key "node-1" (EXConnect "a/b")) = "node-1".
Proof. apply (vpp_keys_injective "node-1" "node-1" (EXConnect "a/b") (EXConnect "a/b")); done. Defined.

(** The key of a static ARP entry is made of the interface and the MAC
    address: two entries of an interface with one MAC share a key, although their
    IP addresses differ, and the key's last component is not an IP address as
    the vpp agent's key format [{if}/{ip}] says. *)
Theorem arp_key_ignores_ip agent ifname ip ip' mac :
  VppKey (ConstructStaticArpEntry agent (mkL3ArpEntry ip mac ifname)) =
  VppKey (ConstructStaticArpEntry agent (mkL3ArpEntry ip' mac ifname)) /\
  VppKey (ConstructStaticArpEntry "n" (mkL3ArpEntry "10.0.0.1" "02:00:00:00:00:01" "eth0")) <>
  ArpEntryKey "n" "eth0" "10.0.0.1".
Proof. split; [done|]. by vm_compute. Qed.

End VppAgent.
