(* ===== verification/State.v ===== *)
(** * The state of the plugin and the datastore it writes to

    Module-free: every later file works on [World], the Go globals together:
    [ctlrPlugin] (plugin_impl_controller.go: [CacheType] and the managers'
    caches), the transaction maps (rendertxn.go), the shared objects, and etcd.

    Shared objects: [*InterfaceStatus] objects are referenced from
    [ramCache.InterfaceStates] and from the [Status.Interfaces] of nodes and
    services and are changed in place; [*BridgeDomain] objects are referenced from
    vpp entries and grow in place.  Both live in heaps.  The other cached objects
    have one owner, the cache, and are records keyed as the cache is.

    The environment is class [Env]: the order in which Go's [range] visits a map,
    whether a read or write of etcd fails, and the text
    that protobuf gives of a message inside an error text. *)

From S2P Require Import Prelude GoStd GoNet Bitmap IdAlloc Ipam Model VppAgent.

(** ** The environment *)

Class Env : Type := {
  shuffle : Z -> list string -> list string;
  shuffle_perm : forall n l, shuffle n l ≡ₚ l;
  put_error : Z -> string -> option error;
  get_error : Z -> string -> option error;
  unmarshal_error : string;
  show_KVType : VppAgent.KVType -> string;
  show_MetaData : option MetaDataType -> string;
  show_IPAMPoolSpec : option IPAMPoolSpec -> string
}.

(** An environment in which etcd never fails and maps are visited in key order. *)
Definition quiet_env : Env := {|
  shuffle := fun _ l => l;
  shuffle_perm := fun _ l => Permutation_refl l;
  put_error := fun _ _ => None;
  get_error := fun _ _ => None;
  unmarshal_error := "cannot unmarshal";
  show_KVType := VppAgent.VppKey;
  show_MetaData := fun _ => "";
  show_IPAMPoolSpec := fun _ => ""
|}.

(** ** What etcd holds *)

Inductive Value : Type :=
| VIFace (v : VppAgent.VppInterface)
| VL2BD (v : VppAgent.BridgeDomain)
| VXConn (v : VppAgent.XConnectPair)
| VLinuxIFace (v : VppAgent.LinuxInterface)
| VL3Route (v : VppAgent.StaticRoute)
| VArpEntry (v : VppAgent.ArpEntry)
| VInterfaceStatus (v : InterfaceStatus)
| VNetworkNode (v : NetworkNode InterfaceStatus)
| VNetworkService (v : NetworkService InterfaceStatus)
| VNetworkNodeOverlay (v : NetworkNodeOverlay)
| VIPAMPool (v : IPAMPool)
| VPodToNode (v : NetworkPodToNodeMap)
| VSystemParameters (v : SystemParameters).

(** The payload of a message to the single goroutine that changes the
    configuration (model_mgrs.go: [OperationalMsg.data]): a posted object, or a name. *)
Inductive MsgData : Type :=
| MsgSysParms (v : SystemParameters)
| MsgIPAMPool (v : IPAMPool)
| MsgPodToNode (v : NetworkPodToNodeMap)
| MsgOverlay (v : NetworkNodeOverlay)
| MsgNode (v : NetworkNode loc)
| MsgService (v : NetworkService loc)
| MsgName (name : string)
| MsgNil.

(** The answer of a POST handler: the reason it refuses the object, or OK with
    the object it queued, if the configuration changes. *)
Inductive reply (A : Type) : Type :=
| BadRequest (e : error)
| HttpOK (queued : option A).

Arguments BadRequest {A} e.
Arguments HttpOK {A} queued.

(** The operations etcd has seen, the latest first. *)
Inductive etcd_op : Type :=
| Put (key : string)
| Delete (key : string).

(** ** The state *)

(** The plugin's globals.  [afterMap !! n] is [None] for a level whose map is nil. *)
Record World : Type := mkWorld {
  beforeMap : gmap Z (gmap string VppAgent.KVType);
  afterMap : gmap Z (gmap string VppAgent.KVType);
  txnLevel : Z;
  configMutex : bool;
  InterfaceStates : gmap string loc;
  VppEntries : gmap string VppAgent.KVType;
  MacAddrAllocator : MacAddr.MacAddrAllocatorType;
  MemifIDAllocator : Memif.MemifAllocatorType;
  VrfIDAllocator : Vrf.VrfAllocatorType;
  IPAMPoolAllocators : gmap string (option Ipam.PoolAllocatorType);
  ramPodToNode : gmap string NetworkPodToNodeMap;
  networkNodeCache : gmap string (NetworkNode loc);
  ipamPoolCache : gmap string IPAMPool;
  sysParmCache : SystemParameters;
  networkServiceCache : gmap string (NetworkService loc);
  networkNodeOverlayCache : gmap string NetworkNodeOverlay;
  vniAllocators : gmap string Vni.VxlanVniAllocatorType;
  vxLanAddresses : gmap string string;
  networkPodNodeCache : gmap string NetworkPodToNodeMap;
  if_heap : heap InterfaceStatus;
  bd_heap : heap VppAgent.BridgeDomain;
  etcd : gmap string Value;
  etcd_log : list etcd_op;
  clock : Z
}.

Definition with_beforeMap (v : gmap Z (gmap string VppAgent.KVType)) (x : World) : World :=
  mkWorld v (afterMap x) (txnLevel x) (configMutex x) (InterfaceStates x) (VppEntries x) (MacAddrAllocator x) (MemifIDAllocator x) (VrfIDAllocator x) (IPAMPoolAllocators x) (ramPodToNode x) (networkNodeCache x) (ipamPoolCache x) (sysParmCache x) (networkServiceCache x) (networkNodeOverlayCache x) (vniAllocators x) (vxLanAddresses x) (networkPodNodeCache x) (if_heap x) (bd_heap x) (etcd x) (etcd_log x) (clock x).

Definition with_afterMap (v : gmap Z (gmap string VppAgent.KVType)) (x : World) : World :=
  mkWorld (beforeMap x) v (txnLevel x) (configMutex x) (InterfaceStates x) (VppEntries x) (MacAddrAllocator x) (MemifIDAllocator x) (VrfIDAllocator x) (IPAMPoolAllocators x) (ramPodToNode x) (networkNodeCache x) (ipamPoolCache x) (sysParmCache x) (networkServiceCache x) (networkNodeOverlayCache x) (vniAllocators x) (vxLanAddresses x) (networkPodNodeCache x) (if_heap x) (bd_heap x) (etcd x) (etcd_log x) (clock x).

Definition with_txnLevel (v : Z) (x : World) : World :=
  mkWorld (beforeMap x) (afterMap x) v (configMutex x) (InterfaceStates x) (VppEntries x) (MacAddrAllocator x) (MemifIDAllocator x) (VrfIDAllocator x) (IPAMPoolAllocators x) (ramPodToNode x) (networkNodeCache x) (ipamPoolCache x) (sysParmCache x) (networkServiceCache x) (networkNodeOverlayCache x) (vniAllocators x) (vxLanAddresses x) (networkPodNodeCache x) (if_heap x) (bd_heap x) (etcd x) (etcd_log x) (clock x).

Definition with_configMutex (v : bool) (x : World) : World :=
  mkWorld (beforeMap x) (afterMap x) (txnLevel x) v (InterfaceStates x) (VppEntries x) (MacAddrAllocator x) (MemifIDAllocator x) (VrfIDAllocator x) (IPAMPoolAllocators x) (ramPodToNode x) (networkNodeCache x) (ipamPoolCache x) (sysParmCache x) (networkServiceCache x) (networkNodeOverlayCache x) (vniAllocators x) (vxLanAddresses x) (networkPodNodeCache x) (if_heap x) (bd_heap x) (etcd x) (etcd_log x) (clock x).

Definition with_InterfaceStates (v : gmap string loc) (x : World) : World :=
  mkWorld (beforeMap x) (afterMap x) (txnLevel x) (configMutex x) v (VppEntries x) (MacAddrAllocator x) (MemifIDAllocator x) (VrfIDAllocator x) (IPAMPoolAllocators x) (ramPodToNode x) (networkNodeCache x) (ipamPoolCache x) (sysParmCache x) (networkServiceCache x) (networkNodeOverlayCache x) (vniAllocators x) (vxLanAddresses x) (networkPodNodeCache x) (if_heap x) (bd_heap x) (etcd x) (etcd_log x) (clock x).

Definition with_VppEntries (v : gmap string VppAgent.KVType) (x : World) : World :=
  mkWorld (beforeMap x) (afterMap x) (txnLevel x) (configMutex x) (InterfaceStates x) v (MacAddrAllocator x) (MemifIDAllocator x) (VrfIDAllocator x) (IPAMPoolAllocators x) (ramPodToNode x) (networkNodeCache x) (ipamPoolCache x) (sysParmCache x) (networkServiceCache x) (networkNodeOverlayCache x) (vniAllocators x) (vxLanAddresses x) (networkPodNodeCache x) (if_heap x) (bd_heap x) (etcd x) (etcd_log x) (clock x).

Definition with_MacAddrAllocator (v : MacAddr.MacAddrAllocatorType) (x : World) : World :=
  mkWorld (beforeMap x) (afterMap x) (txnLevel x) (configMutex x) (InterfaceStates x) (VppEntries x) v (MemifIDAllocator x) (VrfIDAllocator x) (IPAMPoolAllocators x) (ramPodToNode x) (networkNodeCache x) (ipamPoolCache x) (sysParmCache x) (networkServiceCache x) (networkNodeOverlayCache x) (vniAllocators x) (vxLanAddresses x) (networkPodNodeCache x) (if_heap x) (bd_heap x) (etcd x) (etcd_log x) (clock x).

Definition with_MemifIDAllocator (v : Memif.MemifAllocatorType) (x : World) : World :=
  mkWorld (beforeMap x) (afterMap x) (txnLevel x) (configMutex x) (InterfaceStates x) (VppEntries x) (MacAddrAllocator x) v (VrfIDAllocator x) (IPAMPoolAllocators x) (ramPodToNode x) (networkNodeCache x) (ipamPoolCache x) (sysParmCache x) (networkServiceCache x) (networkNodeOverlayCache x) (vniAllocators x) (vxLanAddresses x) (networkPodNodeCache x) (if_heap x) (bd_heap x) (etcd x) (etcd_log x) (clock x).

Definition with_VrfIDAllocator (v : Vrf.VrfAllocatorType) (x : World) : World :=
  mkWorld (beforeMap x) (afterMap x) (txnLevel x) (configMutex x) (InterfaceStates x) (VppEntries x) (MacAddrAllocator x) (MemifIDAllocator x) v (IPAMPoolAllocators x) (ramPodToNode x) (networkNodeCache x) (ipamPoolCache x) (sysParmCache x) (networkServiceCache x) (networkNodeOverlayCache x) (vniAllocators x) (vxLanAddresses x) (networkPodNodeCache x) (if_heap x) (bd_heap x) (etcd x) (etcd_log x) (clock x).

Definition with_IPAMPoolAllocators (v : gmap string (option Ipam.PoolAllocatorType)) (x : World) : World :=
  mkWorld (beforeMap x) (afterMap x) (txnLevel x) (configMutex x) (InterfaceStates x) (VppEntries x) (MacAddrAllocator x) (MemifIDAllocator x) (VrfIDAllocator x) v (ramPodToNode x) (networkNodeCache x) (ipamPoolCache x) (sysParmCache x) (networkServiceCache x) (networkNodeOverlayCache x) (vniAllocators x) (vxLanAddresses x) (networkPodNodeCache x) (if_heap x) (bd_heap x) (etcd x) (etcd_log x) (clock x).

Definition with_ramPodToNode (v : gmap string NetworkPodToNodeMap) (x : World) : World :=
  mkWorld (beforeMap x) (afterMap x) (txnLevel x) (configMutex x) (InterfaceStates x) (VppEntries x) (MacAddrAllocator x) (MemifIDAllocator x) (VrfIDAllocator x) (IPAMPoolAllocators x) v (networkNodeCache x) (ipamPoolCache x) (sysParmCache x) (networkServiceCache x) (networkNodeOverlayCache x) (vniAllocators x) (vxLanAddresses x) (networkPodNodeCache x) (if_heap x) (bd_heap x) (etcd x) (etcd_log x) (clock x).

Definition with_networkNodeCache (v : gmap string (NetworkNode loc)) (x : World) : World :=
  mkWorld (beforeMap x) (afterMap x) (txnLevel x) (configMutex x) (InterfaceStates x) (VppEntries x) (MacAddrAllocator x) (MemifIDAllocator x) (VrfIDAllocator x) (IPAMPoolAllocators x) (ramPodToNode x) v (ipamPoolCache x) (sysParmCache x) (networkServiceCache x) (networkNodeOverlayCache x) (vniAllocators x) (vxLanAddresses x) (networkPodNodeCache x) (if_heap x) (bd_heap x) (etcd x) (etcd_log x) (clock x).

Definition with_ipamPoolCache (v : gmap string IPAMPool) (x : World) : World :=
  mkWorld (beforeMap x) (afterMap x) (txnLevel x) (configMutex x) (InterfaceStates x) (VppEntries x) (MacAddrAllocator x) (MemifIDAllocator x) (VrfIDAllocator x) (IPAMPoolAllocators x) (ramPodToNode x) (networkNodeCache x) v (sysParmCache x) (networkServiceCache x) (networkNodeOverlayCache x) (vniAllocators x) (vxLanAddresses x) (networkPodNodeCache x) (if_heap x) (bd_heap x) (etcd x) (etcd_log x) (clock x).

Definition with_sysParmCache (v : SystemParameters) (x : World) : World :=
  mkWorld (beforeMap x) (afterMap x) (txnLevel x) (configMutex x) (InterfaceStates x) (VppEntries x) (MacAddrAllocator x) (MemifIDAllocator x) (VrfIDAllocator x) (IPAMPoolAllocators x) (ramPodToNode x) (networkNodeCache x) (ipamPoolCache x) v (networkServiceCache x) (networkNodeOverlayCache x) (vniAllocators x) (vxLanAddresses x) (networkPodNodeCache x) (if_heap x) (bd_heap x) (etcd x) (etcd_log x) (clock x).

Definition with_networkServiceCache (v : gmap string (NetworkService loc)) (x : World) : World :=
  mkWorld (beforeMap x) (afterMap x) (txnLevel x) (configMutex x) (InterfaceStates x) (VppEntries x) (MacAddrAllocator x) (MemifIDAllocator x) (VrfIDAllocator x) (IPAMPoolAllocators x) (ramPodToNode x) (networkNodeCache x) (ipamPoolCache x) (sysParmCache x) v (networkNodeOverlayCache x) (vniAllocators x) (vxLanAddresses x) (networkPodNodeCache x) (if_heap x) (bd_heap x) (etcd x) (etcd_log x) (clock x).

Definition with_networkNodeOverlayCache (v : gmap string NetworkNodeOverlay) (x : World) : World :=
  mkWorld (beforeMap x) (afterMap x) (txnLevel x) (configMutex x) (InterfaceStates x) (VppEntries x) (MacAddrAllocator x) (MemifIDAllocator x) (VrfIDAllocator x) (IPAMPoolAllocators x) (ramPodToNode x) (networkNodeCache x) (ipamPoolCache x) (sysParmCache x) (networkServiceCache x) v (vniAllocators x) (vxLanAddresses x) (networkPodNodeCache x) (if_heap x) (bd_heap x) (etcd x) (etcd_log x) (clock x).

Definition with_vniAllocators (v : gmap string Vni.VxlanVniAllocatorType) (x : World) : World :=
  mkWorld (beforeMap x) (afterMap x) (txnLevel x) (configMutex x) (InterfaceStates x) (VppEntries x) (MacAddrAllocator x) (MemifIDAllocator x) (VrfIDAllocator x) (IPAMPoolAllocators x) (ramPodToNode x) (networkNodeCache x) (ipamPoolCache x) (sysParmCache x) (networkServiceCache x) (networkNodeOverlayCache x) v (vxLanAddresses x) (networkPodNodeCache x) (if_heap x) (bd_heap x) (etcd x) (etcd_log x) (clock x).

Definition with_vxLanAddresses (v : gmap string string) (x : World) : World :=
  mkWorld (beforeMap x) (afterMap x) (txnLevel x) (configMutex x) (InterfaceStates x) (VppEntries x) (MacAddrAllocator x) (MemifIDAllocator x) (VrfIDAllocator x) (IPAMPoolAllocators x) (ramPodToNode x) (networkNodeCache x) (ipamPoolCache x) (sysParmCache x) (networkServiceCache x) (networkNodeOverlayCache x) (vniAllocators x) v (networkPodNodeCache x) (if_heap x) (bd_heap x) (etcd x) (etcd_log x) (clock x).

Definition with_networkPodNodeCache (v : gmap string NetworkPodToNodeMap) (x : World) : World :=
  mkWorld (beforeMap x) (afterMap x) (txnLevel x) (configMutex x) (InterfaceStates x) (VppEntries x) (MacAddrAllocator x) (MemifIDAllocator x) (VrfIDAllocator x) (IPAMPoolAllocators x) (ramPodToNode x) (networkNodeCache x) (ipamPoolCache x) (sysParmCache x) (networkServiceCache x) (networkNodeOverlayCache x) (vniAllocators x) (vxLanAddresses x) v (if_heap x) (bd_heap x) (etcd x) (etcd_log x) (clock x).

Definition with_if_heap (v : heap InterfaceStatus) (x : World) : World :=
  mkWorld (beforeMap x) (afterMap x) (txnLevel x) (configMutex x) (InterfaceStates x) (VppEntries x) (MacAddrAllocator x) (MemifIDAllocator x) (VrfIDAllocator x) (IPAMPoolAllocators x) (ramPodToNode x) (networkNodeCache x) (ipamPoolCache x) (sysParmCache x) (networkServiceCache x) (networkNodeOverlayCache x) (vniAllocators x) (vxLanAddresses x) (networkPodNodeCache x) v (bd_heap x) (etcd x) (etcd_log x) (clock x).

Definition with_bd_heap (v : heap VppAgent.BridgeDomain) (x : World) : World :=
  mkWorld (beforeMap x) (afterMap x) (txnLevel x) (configMutex x) (InterfaceStates x) (VppEntries x) (MacAddrAllocator x) (MemifIDAllocator x) (VrfIDAllocator x) (IPAMPoolAllocators x) (ramPodToNode x) (networkNodeCache x) (ipamPoolCache x) (sysParmCache x) (networkServiceCache x) (networkNodeOverlayCache x) (vniAllocators x) (vxLanAddresses x) (networkPodNodeCache x) (if_heap x) v (etcd x) (etcd_log x) (clock x).

Definition with_etcd (v : gmap string Value) (x : World) : World :=
  mkWorld (beforeMap x) (afterMap x) (txnLevel x) (configMutex x) (InterfaceStates x) (VppEntries x) (MacAddrAllocator x) (MemifIDAllocator x) (VrfIDAllocator x) (IPAMPoolAllocators x) (ramPodToNode x) (networkNodeCache x) (ipamPoolCache x) (sysParmCache x) (networkServiceCache x) (networkNodeOverlayCache x) (vniAllocators x) (vxLanAddresses x) (networkPodNodeCache x) (if_heap x) (bd_heap x) v (etcd_log x) (clock x).

Definition with_etcd_log (v : list etcd_op) (x : World) : World :=
  mkWorld (beforeMap x) (afterMap x) (txnLevel x) (configMutex x) (InterfaceStates x) (VppEntries x) (MacAddrAllocator x) (MemifIDAllocator x) (VrfIDAllocator x) (IPAMPoolAllocators x) (ramPodToNode x) (networkNodeCache x) (ipamPoolCache x) (sysParmCache x) (networkServiceCache x) (networkNodeOverlayCache x) (vniAllocators x) (vxLanAddresses x) (networkPodNodeCache x) (if_heap x) (bd_heap x) (etcd x) v (clock x).

Definition with_clock (v : Z) (x : World) : World :=
  mkWorld (beforeMap x) (afterMap x) (txnLevel x) (configMutex x) (InterfaceStates x) (VppEntries x) (MacAddrAllocator x) (MemifIDAllocator x) (VrfIDAllocator x) (IPAMPoolAllocators x) (ramPodToNode x) (networkNodeCache x) (ipamPoolCache x) (sysParmCache x) (networkServiceCache x) (networkNodeOverlayCache x) (vniAllocators x) (vxLanAddresses x) (networkPodNodeCache x) (if_heap x) (bd_heap x) (etcd x) (etcd_log x) v.

(** The state before [Init]: all maps empty, all counters at their start. *)
Definition initial_world : World :=
  mkWorld ∅ ∅ 0 false ∅ ∅ MacAddr.NewMacAddrAllocator Memif.NewMemifAllocator
    Vrf.NewVrfAllocator ∅ ∅ ∅ ∅ zero_SysParms ∅ ∅ ∅ ∅ ∅ empty_heap empty_heap ∅ [] 0.

(** A field of the state is overwritten. *)
Definition put_field {A} (w : A -> World -> World) (a : A) : M World unit := modify (w a).

(** An object inside the state runs one of its methods. *)
Definition on_if_heap {A} (m : M (heap InterfaceStatus) A) : M World A := zoom if_heap with_if_heap m.

Definition on_bd_heap {A} (m : M (heap VppAgent.BridgeDomain) A) : M World A :=
  zoom bd_heap with_bd_heap m.

(** [m.f = g(m.f)] on the object at a location. *)
Definition update_if (l : loc) (g : InterfaceStatus -> InterfaceStatus) : M World unit :=
  on_if_heap (let! s := heap_read l in heap_write l (g s)).

(** A tick of the environment: the number of its choices so far. *)
Definition tick : M World Z :=
  let! n := get clock in modify (with_clock (n + 1)) ;;; mret n.

Section environment.
Context {E : Env}.

(** The keys of a map in the order a [range] loop visits them. *)
Definition order_keys {A} (m : gmap string A) : M World (list string) :=
  let! n := tick in mret (shuffle n (map_to_list m).*1).

Definition order_set (X : gset string) : M World (list string) :=
  let! n := tick in mret (shuffle n (elements X)).

(** [for k, v := range m { body }] over a map of the state: an entry deleted
    before it is reached is not visited. *)
Definition range_map {A} (prj : World -> gmap string A) (body : string -> A -> M World unit)
  : M World unit :=
  let! m := get prj in
  let! keys := order_keys m in
  forM keys (fun k =>
    let! m := get prj in
    match m !! k with Some a => body k a | None => mret tt end).

(** The same with a body that may return an error. *)
Definition range_mapR {A} (prj : World -> gmap string A) (body : string -> A -> M World (result unit))
  : M World (result unit) :=
  let! m := get prj in
  let! keys := order_keys m in
  forR keys (fun k =>
    let! m := get prj in
    match m !! k with Some a => body k a | None => mok tt end).

(** ** database/database.go *)

(** [WriteToDatastore] *)
Definition WriteToDatastore (key : string) (data : Value) : M World (result unit) :=
  let! n := tick in
  match put_error n key with
  | Some e => mfail e
  | None =>
      modify (fun w => with_etcd_log (Put key :: etcd_log w) (with_etcd (<[key := data]> (etcd w)) w)) ;;;
      mok tt
  end.

(** [DeleteFromDatastore]: the result of [db.Delete] is ignored. *)
Definition DeleteFromDatastore (key : string) : M World unit :=
  modify (fun w => with_etcd_log (Delete key :: etcd_log w) (with_etcd (delete key (etcd w)) w)).

(** [ReadFromDatastore]: the value found, if any, or the error. *)
Definition ReadFromDatastore (key : string) : M World (result (option Value)) :=
  let! n := tick in
  match get_error n key with
  | Some e => mfail e
  | None => let! m := get etcd in mok (m !! key)
  end.

(** The keys of etcd under a prefix. *)
Definition keys_under (prefix : string) (m : gmap string Value) : gmap string Value :=
  filter (fun kv => String.prefix prefix (fst kv) = true) m.

(** [ReadIterate]: the action runs on every value under the prefix; a failure
    is [log.Fatal], which ends the process. *)
Definition ReadIterate (keyPrefix : string) (actionFunc : Value -> M World unit) : M World (result unit) :=
  let! n := tick in
  match get_error n keyPrefix with
  | Some _ => panic
  | None =>
      range_map (fun w => keys_under keyPrefix (etcd w)) (fun _ v => actionFunc v) ;;; mok tt
  end.

(** [ReadIterate] with an action that fills a map of the caller: the values under
    the prefix, in the order of the iteration. *)
Definition ReadAll (keyPrefix : string) : M World (list Value) :=
  let! n := tick in
  match get_error n keyPrefix with
  | Some _ => panic
  | None =>
      let! m := get (fun w => keys_under keyPrefix (etcd w)) in
      let! keys := order_keys m in
      mret (omap (fun k => m !! k) keys)
  end.

(** [CleanDatastore]: removes everything under the prefix. *)
Definition CleanDatastore (treePrefix : string) : M World unit :=
  modify (fun w =>
    with_etcd_log (Delete treePrefix :: etcd_log w)
      (with_etcd (filter (fun kv => String.prefix treePrefix (fst kv) = false) (etcd w)) w)).

(** ** The rest of vppagent/database.go *)
Import VppAgent.

(** [WriteToEtcd]: the value of the entry's type. *)
Definition entry_data (kv : KVType) : M World (option Value) :=
  if String.eqb (VppEntryType kv) VppEntryTypeInterface then
    let! v := deref (kv_IFace kv) in mret (Some (VIFace v))
  else if String.eqb (VppEntryType kv) VppEntryTypeL2BD then
    let! l := deref (kv_L2BD kv) in let! v := on_bd_heap (heap_read l) in mret (Some (VL2BD v))
  else if String.eqb (VppEntryType kv) VppEntryTypeL2XC then
    let! v := deref (kv_XConn kv) in mret (Some (VXConn v))
  else if String.eqb (VppEntryType kv) VppEntryTypeLinuxInterface then
    let! v := deref (kv_LinuxIFace kv) in mret (Some (VLinuxIFace v))
  else if String.eqb (VppEntryType kv) VppEntryTypeL3Route then
    let! v := deref (kv_L3Route kv) in mret (Some (VL3Route v))
  else if String.eqb (VppEntryType kv) VppEntryTypeArp then
    let! v := deref (kv_ArpEntry kv) in mret (Some (VArpEntry v))
  else mret None.

Definition WriteToEtcd (kv : KVType) : M World (result unit) :=
  let! d := entry_data kv in
  match d with
  | Some v => WriteToDatastore (VppKey kv) v
  | None => mfail ("WriteToEtcd: unknown vpp entry type: " +:+ show_KVType kv)
  end.

(** The entry with the value read; [None] when the value is of another type. *)
Definition set_data (kv : KVType) (v : Value) : M World (option KVType) :=
  if String.eqb (VppEntryType kv) VppEntryTypeInterface then
    mret (match v with VIFace i => Some (with_kv_IFace (Some i) kv) | _ => None end)
  else if String.eqb (VppEntryType kv) VppEntryTypeLinuxInterface then
    mret (match v with VLinuxIFace i => Some (with_kv_LinuxIFace (Some i) kv) | _ => None end)
  else if String.eqb (VppEntryType kv) VppEntryTypeL2BD then
    match v with
    | VL2BD b => let! l := on_bd_heap (heap_new b) in mret (Some (with_kv_L2BD (Some l) kv))
    | _ => mret None
    end
  else if String.eqb (VppEntryType kv) VppEntryTypeL2XC then
    mret (match v with VXConn x => Some (with_kv_XConn (Some x) kv) | _ => None end)
  else if String.eqb (VppEntryType kv) VppEntryTypeL3Route then
    mret (match v with VL3Route r => Some (with_kv_L3Route (Some r) kv) | _ => None end)
  else if String.eqb (VppEntryType kv) VppEntryTypeArp then
    mret (match v with VArpEntry a => Some (with_kv_ArpEntry (Some a) kv) | _ => None end)
  else mret None.

Definition known_type (t : string) : bool :=
  existsb (String.eqb t) [VppEntryTypeInterface; VppEntryTypeLinuxInterface; VppEntryTypeL2BD;
                          VppEntryTypeL2XC; VppEntryTypeL3Route; VppEntryTypeArp].

(** [ReadFromEtcd]: the entry with its value when the key is found. *)
Definition ReadFromEtcd (kv : KVType) : M World (result (option KVType)) :=
  if known_type (VppEntryType kv) then
    let? v := ReadFromDatastore (VppKey kv) in
    match v with
    | None => mok None
    | Some v => let! kv := set_data kv v in
                match kv with
                | Some kv => mok (Some kv)
                | None => mfail unmarshal_error
                end
    end
  else mfail ("ReadFromEtcd: unsupported vpp entry type: " +:+ show_KVType kv).

Definition KV_DeleteFromDatastore (kv : KVType) : M World unit := DeleteFromDatastore (VppKey kv).

(** ** Objects with interface states, written to etcd with the states inside *)

(** The states a map of references holds. *)
Definition snapshot_map (h : heap InterfaceStatus) (m : gmap string loc) : gmap string InterfaceStatus :=
  omap (fun l => cells h !! l) m.

Definition snapshot_node (h : heap InterfaceStatus) (nn : NetworkNode loc) : NetworkNode InterfaceStatus :=
  mkNetworkNode (nn_Metadata nn) (nn_Spec nn)
    ((fun s => mkNetworkNodeStatus (nnt_Status s) (nnt_Msg s) (nnt_Rendered s)
                 (snapshot_map h <$> nnt_Interfaces s)) <$> nn_Status nn).

Definition snapshot_service (h : heap InterfaceStatus) (ns : NetworkService loc)
  : NetworkService InterfaceStatus :=
  mkNetworkService (ns_Metadata ns) (ns_Spec ns)
    ((fun s => mkNetworkServiceStatus (nst_OperStatus s) (nst_Msg s) (nst_Rendered s)
                 (snapshot_map h <$> nst_Interfaces s)) <$> ns_Status ns).

(** A map read back from etcd is nil when it was written empty. *)
Definition load_map {A} (m : option (gmap string A)) : option (gmap string A) :=
  match m with Some m => if decide (m = ∅) then None else Some m | None => None end.

(** Reading interface states creates the objects. *)
Fixpoint load_states (l : list (string * InterfaceStatus)) : M World (gmap string loc) :=
  match l with
  | [] => mret ∅
  | (k, s) :: l =>
      let! r := on_if_heap (heap_new (with_is_IpamPoolNums (load_map (is_IpamPoolNums s)) s)) in
      let! m := load_states l in
      mret (<[k := r]> m)
  end.

Definition load_interfaces (m : option (gmap string InterfaceStatus))
  : M World (option (gmap string loc)) :=
  match m with
  | None => mret None
  | Some m => let! r := load_states (map_to_list m) in
              mret (if decide (r = ∅) then None else Some r)
  end.

(** ** What these operations leave alone

    [framed I]: the invariant does not speak of the clock, of etcd and of the
    interface states.  What reads and writes etcd keeps such an invariant. *)
Record framed (I : World -> Prop) : Prop := {
  fr_clock : forall n w, I w -> I (with_clock n w);
  fr_etcd : forall m w, I w -> I (with_etcd m w);
  fr_etcd_log : forall l w, I w -> I (with_etcd_log l w);
  fr_if_heap : forall h w, I w -> I (with_if_heap h w)
}.

(** A key that is not one of the configuration. *)
Definition foreign (key : string) : Prop := String.prefix SfcControllerConfigPrefix key = false.

(** Iterating over a map only advances the time. *)
Section clocked.
Context (I : World -> Prop) (HC : forall n w, I w -> I (with_clock n w)).

Lemma clocked_tick : keeps I tick.
Proof. apply keeps_bind; [apply keeps_get|]. intros n s Hs. by apply HC. Qed.

Lemma clocked_order_keys {A} (m : gmap string A) : keeps I (order_keys m).
Proof. apply keeps_bind; [apply clocked_tick|]. intros n. apply keeps_ret. Qed.

Lemma clocked_order_set X : keeps I (order_set X).
Proof. apply keeps_bind; [apply clocked_tick|]. intros n. apply keeps_ret. Qed.

Lemma clocked_range_map {A} (prj : World -> gmap string A) body :
  (forall k a, keeps I (body k a)) -> keeps I (range_map prj body).
Proof.
  intros Hb. unfold range_map. apply keeps_bind; [apply keeps_get|]. intros m.
  apply keeps_bind; [apply clocked_order_keys|]. intros ks. apply keeps_forM. intros k _.
  apply keeps_bind; [apply keeps_get|]. intros m'. destruct (m' !! k); [apply Hb|apply keeps_ret].
Qed.

Lemma clocked_range_mapR {A} (prj : World -> gmap string A) body :
  (forall k a, keeps I (body k a)) -> keeps I (range_mapR prj body).
Proof.
  intros Hb. unfold range_mapR. apply keeps_bind; [apply keeps_get|]. intros m.
  apply keeps_bind; [apply clocked_order_keys|]. intros ks. apply keeps_forR. intros k _.
  apply keeps_bind; [apply keeps_get|]. intros m'. destruct (m' !! k); [apply Hb|apply keeps_mok].
Qed.

(** Nor does it speak of the interface states. *)
Context (HH : forall h w, I w -> I (with_if_heap h w)).

Lemma clocked_on_if_heap {A} (m : M (heap InterfaceStatus) A) : keeps I (on_if_heap m).
Proof.
  apply (keeps_zoom I _ _ _ (fun _ => True)); [by intros ? _; destruct (m s)|done|].
  intros h w Hw _. by apply HH.
Qed.

Lemma clocked_update_if l g : keeps I (update_if l g).
Proof. apply clocked_on_if_heap. Qed.
End clocked.

Section framed.
Context (I : World -> Prop) (HI : framed I).

Lemma keeps_tick : keeps I tick.
Proof. apply clocked_tick, (fr_clock I HI). Qed.

Lemma keeps_order_keys {A} (m : gmap string A) : keeps I (order_keys m).
Proof. apply clocked_order_keys, (fr_clock I HI). Qed.

Lemma keeps_order_set X : keeps I (order_set X).
Proof. apply clocked_order_set, (fr_clock I HI). Qed.

Lemma keeps_range_map {A} (prj : World -> gmap string A) body :
  (forall k a, keeps I (body k a)) -> keeps I (range_map prj body).
Proof. apply clocked_range_map, (fr_clock I HI). Qed.

Lemma keeps_range_mapR {A} (prj : World -> gmap string A) body :
  (forall k a, keeps I (body k a)) -> keeps I (range_mapR prj body).
Proof. apply clocked_range_mapR, (fr_clock I HI). Qed.

Lemma keeps_WriteToDatastore key v : keeps I (WriteToDatastore key v).
Proof.
  apply keeps_bind; [apply keeps_tick|]. intros n. destruct (put_error n key); [apply keeps_mfail|].
  apply keeps_bind; [|intros; apply keeps_mok]. intros w Hw.
  by apply (fr_etcd_log I HI), (fr_etcd I HI).
Qed.

Lemma keeps_DeleteFromDatastore key : keeps I (DeleteFromDatastore key).
Proof. intros w Hw. by apply (fr_etcd_log I HI), (fr_etcd I HI). Qed.

Lemma keeps_ReadFromDatastore key : keeps I (ReadFromDatastore key).
Proof.
  apply keeps_bind; [apply keeps_tick|]. intros n. destruct (get_error n key); [apply keeps_mfail|].
  apply keeps_bind; [apply keeps_get|]. intros m. apply keeps_mok.
Qed.

Lemma keeps_on_if_heap {A} (m : M (heap InterfaceStatus) A) : keeps I (on_if_heap m).
Proof. apply clocked_on_if_heap, (fr_if_heap I HI). Qed.

Lemma keeps_update_if l g : keeps I (update_if l g).
Proof. apply keeps_on_if_heap. Qed.

Lemma keeps_ReadIterate prefix action :
  (forall v, keeps I (action v)) -> keeps I (ReadIterate prefix action).
Proof.
  intros Ha. apply keeps_bind; [apply keeps_tick|]. intros n.
  destruct (get_error n prefix); [apply keeps_panic|].
  apply keeps_bind; [apply keeps_range_map; intros; apply Ha|]. intros; apply keeps_mok.
Qed.

Lemma keeps_ReadAll prefix : keeps I (ReadAll prefix).
Proof.
  apply keeps_bind; [apply keeps_tick|]. intros n. destruct (get_error n prefix); [apply keeps_panic|].
  apply keeps_bind; [apply keeps_get|]. intros m. apply keeps_bind; [apply keeps_order_keys|].
  intros; apply keeps_ret.
Qed.

(** ** When it does not speak of the bridge domains either *)
Context (HB : forall h w, I w -> I (with_bd_heap h w)).

Lemma keeps_on_bd_heap {A} (m : M (heap VppAgent.BridgeDomain) A) : keeps I (on_bd_heap m).
Proof.
  apply (keeps_zoom I _ _ _ (fun _ => True)); [by intros ? _; destruct (m s)|done|].
  intros h w Hw _. by apply HB.
Qed.

Lemma keeps_entry_data kv : keeps I (entry_data kv).
Proof.
  unfold entry_data. repeat destruct (String.eqb _ _);
    repeat (apply keeps_bind; [apply keeps_deref || apply keeps_on_bd_heap|intros]);
    apply keeps_ret.
Qed.

Lemma keeps_WriteToEtcd kv : keeps I (WriteToEtcd kv).
Proof.
  apply keeps_bind; [apply keeps_entry_data|]. intros [v|]; [apply keeps_WriteToDatastore|apply keeps_mfail].
Qed.

Lemma keeps_set_data kv v : keeps I (set_data kv v).
Proof.
  unfold set_data. repeat destruct (String.eqb _ _); try apply keeps_ret.
  destruct v; try apply keeps_ret. apply keeps_bind; [apply keeps_on_bd_heap|].
  intros; apply keeps_ret.
Qed.

Lemma keeps_ReadFromEtcd kv : keeps I (ReadFromEtcd kv).
Proof.
  unfold ReadFromEtcd. destruct (known_type _); [|apply keeps_mfail].
  apply keeps_rbnd; [apply keeps_ReadFromDatastore|]. intros [v|]; [|apply keeps_mok].
  apply keeps_bind; [apply keeps_set_data|]. intros [kv'|]; [apply keeps_mok|apply keeps_mfail].
Qed.

End framed.

End environment.

#[export] Hint Resolve keeps_tick keeps_order_keys keeps_order_set keeps_range_map keeps_range_mapR
  keeps_WriteToDatastore keeps_DeleteFromDatastore keeps_ReadFromDatastore keeps_on_bd_heap
  keeps_on_if_heap keeps_update_if keeps_entry_data keeps_WriteToEtcd keeps_set_data
  keeps_ReadFromEtcd keeps_ReadIterate keeps_ReadAll : keeps.

(** ** Weakest preconditions of the loops over maps and of etcd *)
Section wp.
Context {E : Env} (pan : Prop).

Lemma wp_put_field {A} (f : A -> World -> World) a Q w : Q tt (f a w) -> wpp pan (put_field f a) Q w.
Proof. done. Qed.

Lemma wp_DeleteFromDatastore key Q w :
  Q tt (with_etcd_log (Delete key :: etcd_log w) (with_etcd (delete key (etcd w)) w)) ->
  wpp pan (DeleteFromDatastore key) Q w.
Proof. done. Qed.

Lemma wp_heap_read l s (Q : InterfaceStatus -> World -> Prop) w :
  cells (if_heap w) !! l = Some s -> Q s w -> wpp pan (on_if_heap (heap_read l)) Q w.
Proof. intros H HQ. unfold wpp, on_if_heap, zoom, heap_read. rewrite H. by destruct w. Qed.

Lemma wp_update_if l g s (Q : unit -> World -> Prop) w :
  cells (if_heap w) !! l = Some s ->
  Q tt (with_if_heap (mkHeap (<[l := g s]> (cells (if_heap w))) (next_loc (if_heap w))) w) ->
  wpp pan (update_if l g) Q w.
Proof.
  intros H HQ. unfold wpp, update_if, on_if_heap, zoom, mbnd, heap_read, heap_write. rewrite H.
  by rewrite H.
Qed.

Lemma wp_heap_new s (Q : loc -> World -> Prop) w :
  Q (next_loc (if_heap w))
    (with_if_heap (mkHeap (<[next_loc (if_heap w) := s]> (cells (if_heap w))) (next_loc (if_heap w) + 1)) w) ->
  wpp pan (on_if_heap (heap_new s)) Q w.
Proof. done. Qed.

Lemma wp_order_keys {A} (m : gmap string A) (Q : list string -> World -> Prop) w :
  (forall ks n, NoDup ks -> (forall k, k ∈ ks <-> is_Some (m !! k)) -> Q ks (with_clock n w)) ->
  wpp pan (order_keys m) Q w.
Proof.
  intros H. apply H.
  - rewrite shuffle_perm. apply NoDup_fst_map_to_list.
  - intros k. rewrite shuffle_perm, list_elem_of_fmap. split.
    + intros ([k' a] & -> & Hk%elem_of_map_to_list). by exists a.
    + intros [a Ha]. exists (k, a). split; [done|]. by apply elem_of_map_to_list.
Qed.

(** The invariant [J d]: the keys of [d] were visited. *)
Lemma wp_range_map {A} (prj : World -> gmap string A) body (J : list string -> World -> Prop)
  (Q : unit -> World -> Prop) w :
  (forall n, J [] (with_clock n w)) ->
  (forall d k w', NoDup (d ++ [k]) -> (forall k', k' ∈ d ++ [k] -> is_Some (prj w !! k')) -> J d w' ->
     match prj w' !! k with
     | Some a => wpp pan (body k a) (fun _ => J (d ++ [k])) w'
     | None => J (d ++ [k]) w'
     end) ->
  (forall ks w', NoDup ks -> (forall k, k ∈ ks <-> is_Some (prj w !! k)) -> J ks w' -> Q tt w') ->
  wpp pan (range_map prj body) Q w.
Proof.
  intros H0 Hb HQ. unfold range_map. apply wp_bnd, wp_get, wp_bnd, wp_order_keys.
  intros ks n Hnd Hks. apply (wp_forM pan _ _ J); [apply H0| |intros w'; by apply HQ].
  intros d k r w' Eks Hd. apply wp_bnd, wp_get.
  assert (NoDup (d ++ [k])) as Hnd'.
  { rewrite Eks, cons_middle, app_assoc in Hnd. by apply NoDup_app in Hnd as (? & _). }
  specialize (Hb d k w' Hnd'). destruct (prj w' !! k); apply Hb; try done;
    intros k' Hk'; apply Hks; rewrite Eks, cons_middle, app_assoc; apply elem_of_app; by left.
Qed.

Lemma wp_range_mapR {A} (prj : World -> gmap string A) body (J : list string -> World -> Prop)
  (Q : result unit -> World -> Prop) w :
  (forall n, J [] (with_clock n w)) ->
  (forall d k w', NoDup (d ++ [k]) -> (forall k', k' ∈ d ++ [k] -> is_Some (prj w !! k')) -> J d w' ->
     match prj w' !! k with
     | Some a => wpp pan (body k a)
                   (fun r w'' => match r with inl e => Q (Err e) w'' | inr _ => J (d ++ [k]) w'' end) w'
     | None => J (d ++ [k]) w'
     end) ->
  (forall ks w', NoDup ks -> (forall k, k ∈ ks <-> is_Some (prj w !! k)) -> J ks w' -> Q (Ok tt) w') ->
  wpp pan (range_mapR prj body) Q w.
Proof.
  intros H0 Hb HQ. unfold range_mapR. apply wp_bnd, wp_get, wp_bnd, wp_order_keys.
  intros ks n Hnd Hks. apply (wp_forR pan _ _ J); [apply H0| |intros w'; by apply HQ].
  intros d k r w' Eks Hd. apply wp_bnd, wp_get.
  assert (NoDup (d ++ [k])) as Hnd'.
  { rewrite Eks, cons_middle, app_assoc in Hnd. by apply NoDup_app in Hnd as (? & _). }
  specialize (Hb d k w' Hnd'). destruct (prj w' !! k); apply Hb; try done;
    intros k' Hk'; apply Hks; rewrite Eks, cons_middle, app_assoc; apply elem_of_app; by left.
Qed.

Lemma wlp_and {A} (m : M World A) (P Q : A -> World -> Prop) w : wlp m P w -> wlp m Q w -> wlp m (fun a w' => P a w' /\ Q a w') w.
Proof. unfold wpp. by destruct (m w). Qed.

(** The first two statements, taken together. *)
Lemma wlp_assoc {A} (m m' : M World unit) (k : M World A) (P : World -> Prop) Q w :
  wlp (m ;;; m') (fun _ => P) w -> (forall w', P w' -> wlp k Q w') -> wlp (m ;;; m' ;;; k) Q w.
Proof. unfold wpp, mbnd. destruct (m w) as [u w1|]; [|done]. destruct (m' w1) as [[] w2|]; [|done]. intros H1 H2. by apply H2. Qed.

(** An invariant is kept by a loop when the body keeps it on what is in the map. *)
Lemma keeps_range_map_at (I : World -> Prop) {A} (prj : World -> gmap string A) body :
  (forall n w, I w -> I (with_clock n w)) ->
  (forall k a w, prj w !! k = Some a -> I w -> wlp (body k a) (fun _ => I) w) -> keeps I (range_map prj body).
Proof.
  intros HC Hb. apply keeps_wlp. intros w Hw. unfold range_map. apply wp_bnd, wp_get, wp_bnd.
  apply (wlp_keeps I); [by apply clocked_order_keys|done|]. intros ks w1 Hw1.
  apply (wlp_keeps I); [apply keeps_forM; intros k _|done|by intros]. apply keeps_wlp. intros w2 Hw2.
  apply wp_bnd, wp_get. destruct (prj w2 !! k) as [a|] eqn:Hk; [by eapply Hb|by apply wp_ret].
Qed.

Lemma keeps_range_mapR_at (I : World -> Prop) {A} (prj : World -> gmap string A) body :
  (forall n w, I w -> I (with_clock n w)) ->
  (forall k a w, prj w !! k = Some a -> I w -> wlp (body k a) (fun _ => I) w) -> keeps I (range_mapR prj body).
Proof.
  intros HC Hb. apply keeps_wlp. intros w Hw. unfold range_mapR. apply wp_bnd, wp_get, wp_bnd.
  apply (wlp_keeps I); [by apply clocked_order_keys|done|]. intros ks w1 Hw1.
  apply (wlp_keeps I); [apply keeps_forR; intros k _|done|by intros]. apply keeps_wlp. intros w2 Hw2.
  apply wp_bnd, wp_get. destruct (prj w2 !! k) as [a|] eqn:Hk; [by eapply Hb|by apply wp_mok].
Qed.

Lemma wp_WriteToDatastore key v (Q : result unit -> World -> Prop) w :
  (forall e, Q (Err e) (with_clock (clock w + 1) w)) ->
  Q (Ok tt) (with_etcd_log (Put key :: etcd_log w) (with_etcd (<[key := v]> (etcd w)) (with_clock (clock w + 1) w))) ->
  wpp pan (WriteToDatastore key v) Q w.
Proof.
  intros He Ho. unfold WriteToDatastore, tick. repeat (wp_step; cbv beta).
  destruct (put_error _ _); [apply He|exact Ho].
Qed.
End wp.

(** [wp_auto] on the state of the plugin. *)
Ltac wpw_step :=
  lazymatch goal with
  | |- wpp _ (put_field _ _) _ _ => apply wp_put_field
  | |- wpp _ (DeleteFromDatastore _) _ _ => apply wp_DeleteFromDatastore
  | |- _ => wp_step
  end.

Ltac wpw := repeat (wpw_step; cbv beta).
