(* ===== verification/RenderTxn.v ===== *)
(** * The config transaction: src/plugins/controller/rendertxn.go

    A transaction collects the entries rendered from the configuration in
    [afterMap] and compares them, at its end, with the entries of the previous
    transaction: [RenderTxnConfigEnd] is the only place where rendered entries
    reach etcd.  Nodes and services render into a level of their own, which is
    merged into level 0 when they are done, or emptied when they failed. *)

From S2P Require Import Prelude GoStd Model VppAgent State.

Module RenderTxn.
Import VppAgent.

Abbreviation Rendered := (gmap string RenderedVppAgentEntry).

(** ** Operations *)

(** [m[level][key] = kv]: the map of the level must not be nil. *)
Definition after_put (level : Z) (key : string) (kv : KVType) : M World unit :=
  let! m := get afterMap in
  match m !! level with
  | None => panic
  | Some l => put_field with_afterMap (<[level := <[key := kv]> l]> m)
  end.

Definition before_put (level : Z) (key : string) (kv : KVType) : M World unit :=
  let! m := get beforeMap in
  match m !! level with
  | None => panic
  | Some l => put_field with_beforeMap (<[level := <[key := kv]> l]> m)
  end.

(** [delete(m[level], key)]: nothing on a nil map. *)
Definition after_delete (level : Z) (key : string) : M World unit :=
  modify (fun w => with_afterMap (alter (delete key) level (afterMap w)) w).

Definition before_delete (level : Z) (key : string) : M World unit :=
  modify (fun w => with_beforeMap (alter (delete key) level (beforeMap w)) w).

(** The map of a level; reading a nil map is reading the empty one. *)
Definition after_level (level : Z) (w : World) : gmap string KVType := default ∅ (afterMap w !! level).

Definition before_level (level : Z) (w : World) : gmap string KVType := default ∅ (beforeMap w !! level).

Definition RenderTxnGetAfterMap (key : string) : M World (option KVType) :=
  get (fun w => after_level 0 w !! key).

Definition initLevelMap (level : Z) : M World unit :=
  modify (fun w => with_afterMap (<[level := ∅]> (afterMap w))
                     (with_beforeMap (<[level := ∅]> (beforeMap w)) w)).

Definition removeLevelMap (level : Z) : M World unit :=
  modify (fun w => with_afterMap (delete level (afterMap w))
                     (with_beforeMap (delete level (beforeMap w)) w)).

(** [configMutex.Lock()] blocks forever when this goroutine holds the lock. *)
Definition lock : M World unit :=
  let! l := get configMutex in if (l : bool) then panic else put_field with_configMutex true.

Section env.
Context {E : Env}.

Definition RenderTxnConfigStart : M World unit :=
  lock ;;;
  put_field with_beforeMap ∅ ;;;
  put_field with_afterMap ∅ ;;;
  put_field with_txnLevel 0 ;;;
  initLevelMap 0 ;;;
  range_map VppEntries (fun key vppKV =>
    if String.eqb key (VppKey vppKV) then before_put 0 (VppKey vppKV) vppKV
    else panic (* log.Fatal *)).

Definition RenderTxnConfigEntityStart : M World unit :=
  modify (fun w => with_txnLevel (txnLevel w + 1) w) ;;;
  let! l := get txnLevel in initLevelMap l.

Definition RenderTxnConfigEntityEnd : M World unit :=
  let! l := get txnLevel in
  range_map (after_level l) (fun key entry => after_put (l - 1) key entry) ;;;
  removeLevelMap l ;;;
  modify (fun w => with_txnLevel (txnLevel w - 1) w).

Definition RenderTxnConfigEntityRemoveEntries : M World unit :=
  let! l := get txnLevel in
  modify (fun w => with_afterMap (<[l := ∅]> (afterMap w)) w).

(** The first loop of [RenderTxnConfigEnd], for one entry of the before cache. *)
Definition reconcile_before (key : string) (before : KVType) : M World unit :=
  let! after := get (fun w => after_level 0 w !! key) in
  match after with
  | None =>
      DeleteFromDatastore key ;;;
      modify (fun w => with_VppEntries (delete key (VppEntries w)) w) ;;;
      before_delete 0 key
  | Some after =>
      let! eq := on_bd_heap (Equal before after) in
      if (eq : bool) then after_delete 0 key else mret tt
  end.

(** [RenderTxnConfigEnd]; the deferred unlock runs on both returns. *)
Definition RenderTxnConfigEnd : M World (result unit) :=
  range_map (before_level 0) reconcile_before ;;;
  let! r := range_mapR (after_level 0) (fun _ after => WriteToEtcd after) in
  match r with
  | inl e => put_field with_configMutex false ;;; mfail e
  | inr _ =>
      range_map (after_level 0) (fun _ vppKV =>
        modify (fun w => with_VppEntries (<[VppKey vppKV := vppKV]> (VppEntries w)) w)) ;;;
      put_field with_configMutex false ;;; mok tt
  end.

(** [RenderTxnAddVppEntryToTxn]: the map of rendered entries is returned; [None]
    is a nil map, which a new key may not be put into. *)
Definition RenderTxnAddVppEntryToTxn (rendered : option Rendered) (renderingEntity : string)
  (vppKV : KVType) : M World (option Rendered) :=
  let! l := get txnLevel in
  let! cur := get (fun w => after_level l w !! VppKey vppKV) in
  let! rendered' :=
    match cur with
    | Some _ => mret rendered
    | None => let! r := deref rendered in
              mret (Some (<[VppKey vppKV := mkRendered (VppKey vppKV) (VppEntryType vppKV)]> r))
    end in
  after_put l (VppKey vppKV) vppKV ;;;
  mret rendered'.

Fixpoint RenderTxnAddVppEntriesToTxn (rendered : option Rendered) (renderingEntity : string)
  (vppKVs : list KVType) : M World (option Rendered) :=
  match vppKVs with
  | [] => mret rendered
  | kv :: vppKVs =>
      let! rendered := RenderTxnAddVppEntryToTxn rendered renderingEntity kv in
      RenderTxnAddVppEntriesToTxn rendered renderingEntity vppKVs
  end.

Definition DeleteRenderedVppAgentEntries (rendered : option Rendered) : M World unit :=
  let r := default ∅ rendered in
  let! keys := order_keys r in
  forM keys (fun k =>
    match r !! k with
    | Some e =>
        modify (fun w => with_VppEntries (delete (re_VppAgentKey e) (VppEntries w)) w) ;;;
        DeleteFromDatastore (re_VppAgentKey e)
    | None => mret tt
    end).

End env.

(** ** The specification of a transaction's end

    [B] are the entries before, [A] the entries rendered, [eq] their comparison. *)
Definition needs_put (eq : KVType -> KVType -> bool) (B A : gmap string KVType) (k : string) : Prop :=
  exists a, A !! k = Some a /\ forall b, B !! k = Some b -> eq b a = false.

Definition needs_delete (B A : gmap string KVType) (k : string) : Prop :=
  is_Some (B !! k) /\ A !! k = None.

(** The entry known for [k] once the transaction is over. *)
Definition entry_after (eq : KVType -> KVType -> bool) (B A : gmap string KVType) (k : string)
  : option KVType :=
  match A !! k, B !! k with
  | None, _ => None
  | Some a, None => Some a
  | Some a, Some b => Some (if eq b a then b else a)
  end.

(** What etcd holds for [k] once the transaction is over. *)
Definition value_after (eq : KVType -> KVType -> bool) (datum : KVType -> option Value)
  (B A : gmap string KVType) (old : option Value) (k : string) : option Value :=
  match A !! k, B !! k with
  | None, None => old
  | None, Some _ => None
  | Some a, None => datum a
  | Some a, Some b => if eq b a then old else datum a
  end.

(** The value of an entry, with its bridge domain read from the heap. *)
Definition entry_datum (h : heap BridgeDomain) (kv : KVType) : option Value :=
  if String.eqb (VppEntryType kv) VppEntryTypeInterface then VIFace <$> kv_IFace kv
  else if String.eqb (VppEntryType kv) VppEntryTypeL2BD then
    l ← kv_L2BD kv; VL2BD <$> cells h !! l
  else if String.eqb (VppEntryType kv) VppEntryTypeL2XC then VXConn <$> kv_XConn kv
  else if String.eqb (VppEntryType kv) VppEntryTypeLinuxInterface then VLinuxIFace <$> kv_LinuxIFace kv
  else if String.eqb (VppEntryType kv) VppEntryTypeL3Route then VL3Route <$> kv_L3Route kv
  else if String.eqb (VppEntryType kv) VppEntryTypeArp then VArpEntry <$> kv_ArpEntry kv
  else None.

(** The boolean [Equal] computes on well-formed entries. *)
Definition equal_entries (h : heap BridgeDomain) (a b : KVType) : bool :=
  match Equal a b h with Done r _ => r | Panic => false end.

(** A map of entries as the transaction keeps them. *)
Definition wf_entries (h : heap BridgeDomain) (m : gmap string KVType) : Prop :=
  forall k kv, m !! k = Some kv -> VppKey kv = k /\ wf_entry h kv.


(** ** Running one entry *)

Lemma equal_entries_run h a b :
  wf_entry h a -> wf_entry h b -> Equal a b h = Done (equal_entries h a b) h.
Proof.
  intros Ha Hb. unfold equal_entries. by destruct (Equal_decides h a b Ha Hb) as (r & -> & _).
Qed.

Lemma with_bd_heap_id w : with_bd_heap (bd_heap w) w = w.
Proof. by destruct w. Qed.

Lemma on_bd_heap_run {A} (m : M (heap BridgeDomain) A) w (a : A) :
  m (bd_heap w) = Done a (bd_heap w) -> on_bd_heap m w = Done a w.
Proof. intros H. unfold on_bd_heap, zoom. rewrite H. by rewrite with_bd_heap_id. Qed.

Lemma entry_data_run w kv :
  wf_entry (bd_heap w) kv ->
  exists v, entry_datum (bd_heap w) kv = Some v /\ entry_data kv w = Done (Some v) w.
Proof.
  unfold wf_entry, entry_datum, entry_data.
  intros [[Et [v H]]|[[Et (l & b & Hl & Hb)]|[[Et [v H]]|[[Et [v H]]|[[Et [v H]]|[Et [v H]]]]]]];
    rewrite Et; cbn; rewrite ?H, ?Hl; cbn; try (by eexists).
  exists (VL2BD b). rewrite Hb. split; [done|]. unfold mbnd, mret.
  by rewrite (on_bd_heap_run _ _ b) by (unfold heap_read; by rewrite Hb).
Qed.

(** ** Loops that treat the keys one by one *)

(** What the state knows of one key. *)
Record key_view : Type := mkView {
  v_before : option KVType; v_after : option KVType;
  v_entry : option KVType; v_etcd : option Value
}.

Definition view (w : World) (k : string) : key_view :=
  mkView (before_level 0 w !! k) (after_level 0 w !! k) (VppEntries w !! k) (etcd w !! k).

(** A step that works on one key: it keeps the heap and the views of the other
    keys, and its effect on its own key and on the log depends on the view. *)
Record local_step (step : World -> string -> World)
  (on_view : heap BridgeDomain -> string -> key_view -> key_view)
  (ops : heap BridgeDomain -> string -> key_view -> list etcd_op) (ok : World -> Prop) : Prop := {
  ls_heap : forall w k, bd_heap (step w k) = bd_heap w;
  ls_self : forall w k, ok w -> view (step w k) k = on_view (bd_heap w) k (view w k);
  ls_other : forall w k k', ok w -> k <> k' -> view (step w k) k' = view w k';
  ls_log : forall w k, ok w -> etcd_log (step w k) = ops (bd_heap w) k (view w k) ++ etcd_log w;
  ls_ok : forall w k, ok w -> ok (step w k)
}.

Section local_steps.
Context (step : World -> string -> World) on_view ops ok (Hstep : local_step step on_view ops ok).

Lemma fold_heap ks w : bd_heap (foldl step w ks) = bd_heap w.
Proof.
  revert w. induction ks as [|k ks IH]; intros w; cbn; [done|]. by rewrite IH, (ls_heap _ _ _ _ Hstep).
Qed.

Lemma fold_ok ks w : ok w -> ok (foldl step w ks).
Proof. revert w. induction ks; intros w Hw; cbn; [done|]. by apply IHks, (ls_ok _ _ _ _ Hstep). Qed.

Lemma fold_view ks w k :
  ok w -> NoDup ks ->
  view (foldl step w ks) k = if decide (k ∈ ks) then on_view (bd_heap w) k (view w k) else view w k.
Proof.
  revert w. induction ks as [|k' ks IH]; intros w Hok Hnd; cbn [foldl].
  { by rewrite decide_False by (by apply not_elem_of_nil). }
  apply NoDup_cons in Hnd as [Hni Hnd].
  rewrite IH by (done || by apply (ls_ok _ _ _ _ Hstep)). rewrite (ls_heap _ _ _ _ Hstep).
  destruct (decide (k = k')) as [->|Hne].
  - rewrite decide_False by done. rewrite decide_True by left. by apply (ls_self _ _ _ _ Hstep).
  - rewrite (ls_other _ _ _ _ Hstep) by done.
    destruct (decide (k ∈ ks)); [rewrite decide_True by (by right)|rewrite decide_False by set_solver]; done.
Qed.

Lemma fold_log ks w :
  ok w -> NoDup ks ->
  exists l, etcd_log (foldl step w ks) = l ++ etcd_log w /\
    (forall o, o ∈ l <-> exists k, k ∈ ks /\ o ∈ ops (bd_heap w) k (view w k)) /\
    ((forall h k v o o', o ∈ ops h k v -> o' ∈ ops h k v -> o = o') ->
     (forall h k v, (length (ops h k v) <= 1)%nat) ->
     (forall h k k' v v' o, o ∈ ops h k v -> o ∈ ops h k' v' -> k = k') -> NoDup l).
Proof.
  revert w. induction ks as [|k ks IH]; intros w Hok Hnd; cbn [foldl].
  { exists []. split_and!; [done| |intros; constructor]. intros o. split.
    - by intros ?%not_elem_of_nil.
    - by intros (? & ?%not_elem_of_nil & _). }
  apply NoDup_cons in Hnd as [Hni Hnd].
  destruct (IH (step w k)) as (l & El & Hl & Hnl); [by apply (ls_ok _ _ _ _ Hstep)|done|].
  exists (l ++ ops (bd_heap w) k (view w k)).
  rewrite El, (ls_log _ _ _ _ Hstep), app_assoc by done.
  assert (Hl' : forall o, o ∈ l <-> exists k', k' ∈ ks /\ o ∈ ops (bd_heap w) k' (view w k')).
  { intros o. rewrite Hl. rewrite (ls_heap _ _ _ _ Hstep). split; intros (k' & Hk' & Ho);
      exists k'; (split; [done|]);
      [rewrite <- (ls_other _ _ _ _ Hstep w k k') by (done || congruence || set_solver)
      |rewrite (ls_other _ _ _ _ Hstep w k k') by (done || congruence || set_solver)]; done. }
  split_and!; [done| |].
  - intros o. rewrite elem_of_app, Hl'. split.
    + intros [(k' & ? & ?)|Ho]; [exists k'; split; [by right|done]|exists k; split; [left|done]].
    + intros (k' & [->|Hk']%elem_of_cons & Ho); [by right|left; by exists k'].
  - intros H1 H2 H3. apply NoDup_app. split_and!; [by apply Hnl| |].
    + intros o (k' & Hk' & Ho)%Hl' Ho'. specialize (H3 _ _ _ _ _ _ Ho Ho'). by subst.
    + specialize (H2 (bd_heap w) k (view w k)).
      destruct (ops (bd_heap w) k (view w k)) as [|o [|o' ops']]; cbn in H2; [constructor|apply NoDup_singleton|lia].
Qed.
End local_steps.

(** A range loop whose body is a step on the keys present. *)
Lemma forM_steps (body : string -> M World unit) (step : World -> string -> World) (ok : World -> Prop) ks w :
  (forall w k, ok w -> k ∈ ks -> body k w = Done tt (step w k) /\ ok (step w k)) ->
  ok w -> forM ks body w = Done tt (foldl step w ks).
Proof.
  revert w. induction ks as [|k ks IH]; intros w H Hw; cbn; [done|].
  unfold mbnd. destruct (H w k Hw) as [-> Hok]; [left|]. apply IH; [|done].
  intros w' k' Hw' Hk'. apply H; [done|by right].
Qed.

Lemma forR_steps (body : string -> M World (result unit)) (step : World -> string -> World)
  (ok : World -> Prop) ks w :
  (forall w k, ok w -> k ∈ ks -> body k w = Done (Ok tt) (step w k) /\ ok (step w k)) ->
  ok w -> forR ks body w = Done (Ok tt) (foldl step w ks).
Proof.
  revert w. induction ks as [|k ks IH]; intros w H Hw; cbn; [done|].
  unfold rbnd, mbnd. destruct (H w k Hw) as [-> Hok]; [left|]. cbn. apply IH; [|done].
  intros w' k' Hw' Hk'. apply H; [done|by right].
Qed.

Lemma order_keys_run `{E : Env} {A} (m : gmap string A) w :
  exists ks, order_keys m w = Done ks (with_clock (clock w + 1) w) /\ NoDup ks /\
    (forall k, k ∈ ks <-> is_Some (m !! k)).
Proof.
  eexists. split; [reflexivity|]. split.
  - rewrite shuffle_perm. apply NoDup_fst_map_to_list.
  - intros k. rewrite shuffle_perm, list_elem_of_fmap. split.
    + intros ([k' a] & -> & H%elem_of_map_to_list). by exists a.
    + intros [a Ha]. exists (k, a). split; [done|]. by apply elem_of_map_to_list.
Qed.

Lemma range_map_run `{E : Env} {A} (prj : World -> gmap string A) body w :
  exists ks, NoDup ks /\ (forall k, k ∈ ks <-> is_Some (prj w !! k)) /\
    range_map prj body w =
    forM ks (fun k => let! m := get prj in
      match m !! k with Some a => body k a | None => mret tt end) (with_clock (clock w + 1) w).
Proof.
  destruct (order_keys_run (prj w) w) as (ks & Er & Hnd & Hks). exists ks.
  split_and!; [done|done|]. unfold range_map, mbnd at 1, get at 1. unfold mbnd at 1. by rewrite Er.
Qed.

Lemma view_clock w n k : view (with_clock n w) k = view w k.
Proof. by destruct w. Qed.

(** ** The three loops of [RenderTxnConfigEnd] as steps *)

Definition reconcile_step (w : World) (k : string) : World :=
  match before_level 0 w !! k with
  | None => w
  | Some b =>
      match after_level 0 w !! k with
      | None =>
          with_beforeMap (alter (delete k) 0 (beforeMap w))
            (with_VppEntries (delete k (VppEntries w))
               (with_etcd_log (Delete k :: etcd_log w) (with_etcd (delete k (etcd w)) w)))
      | Some a =>
          if equal_entries (bd_heap w) b a
          then with_afterMap (alter (delete k) 0 (afterMap w)) w else w
      end
  end.

Definition reconcile_view (h : heap BridgeDomain) (_ : string) (v : key_view) : key_view :=
  match v_before v, v_after v with
  | None, _ => v
  | Some b, None => mkView None None None None
  | Some b, Some a => if equal_entries h b a then mkView (Some b) None (v_entry v) (v_etcd v) else v
  end.

Definition reconcile_ops (h : heap BridgeDomain) (k : string) (v : key_view) : list etcd_op :=
  match v_before v, v_after v with Some _, None => [Delete k] | _, _ => [] end.

Definition put_step (w : World) (k : string) : World :=
  match after_level 0 w !! k with
  | None => w
  | Some a =>
      match entry_datum (bd_heap w) a with
      | None => w
      | Some d => with_etcd_log (Put (VppKey a) :: etcd_log w)
                    (with_etcd (<[VppKey a := d]> (etcd w)) (with_clock (clock w + 1) w))
      end
  end.

Definition put_view (h : heap BridgeDomain) (_ : string) (v : key_view) : key_view :=
  match v_after v with
  | None => v
  | Some a => mkView (v_before v) (Some a) (v_entry v) (entry_datum h a)
  end.

Definition put_ops (h : heap BridgeDomain) (k : string) (v : key_view) : list etcd_op :=
  match v_after v with Some _ => [Put k] | None => [] end.

Definition record_step (w : World) (k : string) : World :=
  match after_level 0 w !! k with
  | None => w
  | Some a => with_VppEntries (<[VppKey a := a]> (VppEntries w)) w
  end.

Definition record_view (h : heap BridgeDomain) (_ : string) (v : key_view) : key_view :=
  match v_after v with
  | None => v
  | Some a => mkView (v_before v) (Some a) (Some a) (v_etcd v)
  end.

Definition ok_before (w : World) : Prop := wf_entries (bd_heap w) (before_level 0 w).

Definition ok_after (w : World) : Prop := wf_entries (bd_heap w) (after_level 0 w).

Lemma level_alter k (m : gmap Z (gmap string KVType)) :
  default ∅ (alter (delete k) 0 m !! 0) = delete k (default ∅ (m !! 0) : gmap string KVType).
Proof.
  rewrite lookup_alter. rewrite decide_True by done. destruct (m !! 0); cbn; [done|].
  by rewrite delete_empty.
Qed.

Lemma after_level_delete k w :
  after_level 0 (with_afterMap (alter (delete k) 0 (afterMap w)) w) = delete k (after_level 0 w).
Proof. apply level_alter. Qed.

Lemma wf_entries_delete h k m : wf_entries h m -> wf_entries h (delete k m).
Proof. intros H k' kv Hk. apply H. by apply lookup_delete_Some in Hk as [_ ?]. Qed.

Lemma reconcile_local :
  local_step reconcile_step reconcile_view reconcile_ops (fun w => ok_before w /\ ok_after w).
Proof.
  split.
  - intros w k. unfold reconcile_step.
    destruct (before_level 0 w !! k), (after_level 0 w !! k); try done.
    by destruct (equal_entries _ _ _).
  - intros w k _. unfold reconcile_step, reconcile_view, view. cbn [v_before v_after].
    destruct (before_level 0 w !! k) as [b|] eqn:Eb; [|by rewrite Eb].
    destruct (after_level 0 w !! k) as [a|] eqn:Ea.
    + destruct (equal_entries (bd_heap w) b a); [|by rewrite Eb, Ea].
      rewrite after_level_delete, lookup_delete_eq. cbn. f_equal. exact Eb.
    + unfold before_level, after_level in *. cbn. rewrite level_alter, !lookup_delete_eq.
      by rewrite Ea.
  - intros w k k' _ Hne. unfold reconcile_step, view.
    destruct (before_level 0 w !! k) as [b|] eqn:Eb; [|done].
    destruct (after_level 0 w !! k) as [a|] eqn:Ea.
    + destruct (equal_entries (bd_heap w) b a); [|done].
      rewrite after_level_delete, lookup_delete_ne by done. done.
    + unfold before_level, after_level in *. cbn. by rewrite level_alter, !lookup_delete_ne.
  - intros w k _. unfold reconcile_step, reconcile_ops, view. cbn [v_before v_after].
    destruct (before_level 0 w !! k), (after_level 0 w !! k); try done.
    by destruct (equal_entries _ _ _).
  - intros w k [Hb Ha]. unfold reconcile_step.
    destruct (before_level 0 w !! k) as [b|] eqn:Eb; [|done].
    destruct (after_level 0 w !! k) as [a|] eqn:Ea.
    + destruct (equal_entries (bd_heap w) b a); [|done]. split; [exact Hb|].
      unfold ok_after. rewrite after_level_delete. by apply wf_entries_delete.
    + split; [|exact Ha]. unfold ok_before, before_level in *. cbn. rewrite level_alter.
      by apply wf_entries_delete.
Qed.

Lemma datum_some h kv : wf_entry h kv -> is_Some (entry_datum h kv).
Proof.
  intros H. destruct (entry_data_run (with_bd_heap h initial_world) kv H) as (v & Hv & _).
  by exists v.
Qed.

Lemma put_local : local_step put_step put_view put_ops ok_after.
Proof.
  split.
  - intros w k. unfold put_step. destruct (after_level 0 w !! k); [|done]. by destruct (entry_datum _ _).
  - intros w k Hok. unfold put_step, put_view, view. cbn [v_after].
    destruct (after_level 0 w !! k) as [a|] eqn:Ea; [|by rewrite Ea].
    destruct (Hok k a Ea) as [<- Hwf]. destruct (datum_some _ _ Hwf) as [d Hd]. rewrite Hd.
    unfold before_level, after_level in *. cbn. by rewrite Ea, lookup_insert_eq.
  - intros w k k' Hok Hne. unfold put_step, view.
    destruct (after_level 0 w !! k) as [a|] eqn:Ea; [|done].
    destruct (Hok k a Ea) as [<- Hwf]. destruct (entry_datum _ _); [|done].
    unfold before_level, after_level in *. cbn. by rewrite lookup_insert_ne.
  - intros w k Hok. unfold put_step, put_ops, view. cbn [v_after].
    destruct (after_level 0 w !! k) as [a|] eqn:Ea; [|done].
    destruct (Hok k a Ea) as [<- Hwf]. by destruct (datum_some _ _ Hwf) as [d ->].
  - intros w k Hok. unfold put_step. destruct (after_level 0 w !! k) as [a|] eqn:Ea; [|done].
    by destruct (entry_datum _ _).
Qed.

Lemma record_local : local_step record_step record_view (fun _ _ _ => []) ok_after.
Proof.
  split.
  - intros w k. unfold record_step. by destruct (after_level 0 w !! k).
  - intros w k Hok. unfold record_step, record_view, view. cbn [v_after].
    destruct (after_level 0 w !! k) as [a|] eqn:Ea; [|by rewrite Ea].
    destruct (Hok k a Ea) as [<- Hwf].
    unfold before_level, after_level in *. cbn. by rewrite Ea, lookup_insert_eq.
  - intros w k k' Hok Hne. unfold record_step, view.
    destruct (after_level 0 w !! k) as [a|] eqn:Ea; [|done].
    destruct (Hok k a Ea) as [<- Hwf].
    unfold before_level, after_level in *. cbn. by rewrite lookup_insert_ne.
  - intros w k Hok. unfold record_step. by destruct (after_level 0 w !! k).
  - intros w k Hok. unfold record_step. by destruct (after_level 0 w !! k).
Qed.

Section run.
Context {E : Env}.

Lemma reconcile_run w k :
  ok_before w -> ok_after w ->
  (let! m := get (before_level 0) in
   match m !! k with Some a => reconcile_before k a | None => mret tt end) w =
  Done tt (reconcile_step w k).
Proof.
  intros Hb Ha. unfold mbnd, get, reconcile_step.
  destruct (before_level 0 w !! k) as [b|] eqn:Eb; [|done].
  unfold reconcile_before, mbnd, get. destruct (after_level 0 w !! k) as [a|] eqn:Ea; [|done].
  rewrite (on_bd_heap_run _ _ (equal_entries (bd_heap w) b a)).
  - by destruct (equal_entries _ _ _).
  - apply equal_entries_run; [by apply (Hb k)|by apply (Ha k)].
Qed.

Lemma put_run w k :
  (forall n key, put_error n key = None) -> ok_after w ->
  (let! m := get (after_level 0) in
   match m !! k with Some a => WriteToEtcd a | None => mok tt end) w =
  Done (Ok tt) (put_step w k).
Proof.
  intros Hno Ha. unfold put_step, mbnd, get.
  destruct (after_level 0 w !! k) as [a|] eqn:Ea; [|done].
  destruct (Ha k a Ea) as [_ Hwf]. destruct (entry_data_run w a Hwf) as (d & Hd & Hr).
  rewrite Hd. unfold WriteToEtcd, mbnd. rewrite Hr. unfold WriteToDatastore, tick, mbnd, get, modify.
  cbn. rewrite Hno. by destruct w.
Qed.

Lemma record_run w k :
  (let! m := get (after_level 0) in
   match m !! k with
   | Some a => modify (fun w => with_VppEntries (<[VppKey a := a]> (VppEntries w)) w)
   | None => mret tt end) w = Done tt (record_step w k).
Proof. unfold record_step, mbnd, get. by destruct (after_level 0 w !! k). Qed.

(** The state after the first loop. *)
Lemma reconcile_loop w :
  ok_before w -> ok_after w ->
  exists w', range_map (before_level 0) reconcile_before w = Done tt w' /\
    bd_heap w' = bd_heap w /\ ok_after w' /\
    (forall k, view w' k = reconcile_view (bd_heap w) k (view w k)) /\
    exists l, etcd_log w' = l ++ etcd_log w /\ NoDup l /\
      (forall o, o ∈ l <-> exists k, o = Delete k /\ needs_delete (before_level 0 w) (after_level 0 w) k).
Proof.
  intros Hb Ha. unfold range_map, mbnd at 1, get at 1.
  destruct (order_keys_run (before_level 0 w) w) as (ks & Er & Hnd & Hks).
  unfold mbnd at 1. rewrite Er. set (w0 := with_clock (clock w + 1) w).
  assert (Hv0 : forall k, view w0 k = view w k) by (intros; apply view_clock).
  exists (foldl reconcile_step w0 ks). split.
  { apply (forM_steps _ _ (fun w => ok_before w /\ ok_after w)); [|done].
    intros w' k Hok Hk. split; [by apply reconcile_run; apply Hok|].
    by apply (ls_ok _ _ _ _ reconcile_local). }
  pose proof reconcile_local as HL.
  split; [by rewrite (fold_heap _ _ _ _ HL)|].
  split; [apply (fold_ok _ _ _ _ HL ks w0); done|]. split.
  - intros k. rewrite (fold_view _ _ _ _ HL) by done. rewrite Hv0. change (bd_heap w0) with (bd_heap w).
    destruct (decide (k ∈ ks)) as [|Hni]; [done|]. rewrite Hks in Hni.
    unfold reconcile_view, view. cbn. by rewrite (proj2 (eq_None_not_Some _) Hni).
  - destruct (fold_log _ _ _ _ HL ks w0) as (l & El & Hl & Hndl); [done|done|].
    exists l. split; [done|]. split.
    + apply Hndl; unfold reconcile_ops.
      * intros h k v o o'. destruct (v_before v), (v_after v); set_solver.
      * intros h k v. destruct (v_before v), (v_after v); cbn; lia.
      * intros h k k' v v' o. destruct (v_before v), (v_after v), (v_before v'), (v_after v'); set_solver.
    + intros o. rewrite Hl. split.
      * intros (k & Hk & Ho). rewrite Hv0 in Ho. unfold reconcile_ops, view in Ho. cbn in Ho.
        exists k. unfold needs_delete. apply Hks in Hk.
        destruct (before_level 0 w !! k), (after_level 0 w !! k); set_solver.
      * intros (k & -> & Hk & Hn). exists k. split; [by apply Hks|]. rewrite Hv0.
        unfold reconcile_ops, view. cbn. rewrite Hn. destruct Hk as [b ->]. set_solver.
Qed.

(** The state after the writes. *)
Lemma put_loop w :
  (forall n key, put_error n key = None) -> ok_after w ->
  exists w', range_mapR (after_level 0) (fun _ after => WriteToEtcd after) w = Done (Ok tt) w' /\
    bd_heap w' = bd_heap w /\ ok_after w' /\
    (forall k, view w' k = put_view (bd_heap w) k (view w k)) /\
    exists l, etcd_log w' = l ++ etcd_log w /\ NoDup l /\
      (forall o, o ∈ l <-> exists k, o = Put k /\ is_Some (after_level 0 w !! k)).
Proof.
  intros Hno Ha. unfold range_mapR, mbnd at 1, get at 1.
  destruct (order_keys_run (after_level 0 w) w) as (ks & Er & Hnd & Hks).
  unfold mbnd at 1. rewrite Er. set (w0 := with_clock (clock w + 1) w).
  assert (Hv0 : forall k, view w0 k = view w k) by (intros; apply view_clock).
  pose proof put_local as HL. exists (foldl put_step w0 ks). split.
  { apply (forR_steps _ _ ok_after); [|done]. intros w' k Hok Hk.
    split; [by apply put_run|]. by apply (ls_ok _ _ _ _ HL). }
  split; [by rewrite (fold_heap _ _ _ _ HL)|].
  split; [apply (fold_ok _ _ _ _ HL ks w0); done|]. split.
  - intros k. rewrite (fold_view _ _ _ _ HL) by done. rewrite Hv0. change (bd_heap w0) with (bd_heap w).
    destruct (decide (k ∈ ks)) as [|Hni]; [done|]. rewrite Hks in Hni.
    unfold put_view, view. cbn. by rewrite (proj2 (eq_None_not_Some _) Hni).
  - destruct (fold_log _ _ _ _ HL ks w0) as (l & El & Hl & Hndl); [done|done|].
    exists l. split; [done|]. split.
    + apply Hndl; unfold put_ops.
      * intros h k v o o'. destruct (v_after v); set_solver.
      * intros h k v. destruct (v_after v); cbn; lia.
      * intros h k k' v v' o. destruct (v_after v), (v_after v'); set_solver.
    + intros o. rewrite Hl. split.
      * intros (k & Hk & Ho). rewrite Hv0 in Ho. unfold put_ops, view in Ho. cbn in Ho.
        exists k. apply Hks in Hk. destruct Hk as [a Hk]. rewrite Hk in Ho. set_solver.
      * intros (k & -> & Hk). exists k. split; [by apply Hks|]. rewrite Hv0.
        unfold put_ops, view. cbn. destruct Hk as [a ->]. set_solver.
Qed.

(** The state after the new entries are recorded. *)
Lemma record_loop w :
  ok_after w ->
  exists w', range_map (after_level 0) (fun _ vppKV =>
      modify (fun w => with_VppEntries (<[VppKey vppKV := vppKV]> (VppEntries w)) w)) w = Done tt w' /\
    bd_heap w' = bd_heap w /\ etcd_log w' = etcd_log w /\
    (forall k, view w' k = record_view (bd_heap w) k (view w k)).
Proof.
  intros Ha. unfold range_map, mbnd at 1, get at 1.
  destruct (order_keys_run (after_level 0 w) w) as (ks & Er & Hnd & Hks).
  unfold mbnd at 1. rewrite Er. set (w0 := with_clock (clock w + 1) w).
  assert (Hv0 : forall k, view w0 k = view w k) by (intros; apply view_clock).
  pose proof record_local as HL. exists (foldl record_step w0 ks). split.
  { apply (forM_steps _ _ ok_after); [|done]. intros w' k Hok Hk.
    split; [by apply record_run|]. by apply (ls_ok _ _ _ _ HL). }
  split; [by rewrite (fold_heap _ _ _ _ HL)|]. split.
  - destruct (fold_log _ _ _ _ HL ks w0) as (l & El & Hl & _); [done|done|].
    destruct l as [|o l]; [done|]. exfalso.
    destruct (proj1 (Hl o)) as (? & _ & Hin); [left|]. by apply not_elem_of_nil in Hin.
  - intros k. rewrite (fold_view _ _ _ _ HL) by done. rewrite Hv0. change (bd_heap w0) with (bd_heap w).
    destruct (decide (k ∈ ks)) as [|Hni]; [done|]. rewrite Hks in Hni.
    unfold record_view, view. cbn. by rewrite (proj2 (eq_None_not_Some _) Hni).
Qed.

Lemma view_mutex w b k : view (with_configMutex b w) k = view w k.
Proof. by destruct w. Qed.

(** The whole of [RenderTxnConfigEnd] when etcd takes every write. *)
Lemma ConfigEnd_views w :
  (forall n key, put_error n key = None) -> ok_before w -> ok_after w ->
  exists w' l1 l2, RenderTxnConfigEnd w = Done (Ok tt) w' /\ configMutex w' = false /\
    bd_heap w' = bd_heap w /\
    (forall k, view w' k = record_view (bd_heap w) k (put_view (bd_heap w) k
                 (reconcile_view (bd_heap w) k (view w k)))) /\
    etcd_log w' = l2 ++ l1 ++ etcd_log w /\ NoDup l1 /\ NoDup l2 /\
    (forall o, o ∈ l1 <-> exists k, o = Delete k /\ needs_delete (before_level 0 w) (after_level 0 w) k) /\
    (forall o, o ∈ l2 <-> exists k, o = Put k /\
       is_Some (v_after (reconcile_view (bd_heap w) k (view w k)))).
Proof.
  intros Hno Hb Ha. unfold RenderTxnConfigEnd.
  destruct (reconcile_loop w Hb Ha) as (w1 & R1 & Hh1 & Ha1 & V1 & l1 & L1 & N1 & I1).
  unfold mbnd at 1. rewrite R1.
  destruct (put_loop w1 Hno Ha1) as (w2 & R2 & Hh2 & Ha2 & V2 & l2 & L2 & N2 & I2).
  unfold mbnd at 1. rewrite R2. cbn.
  destruct (record_loop w2 Ha2) as (w3 & R3 & Hh3 & L3 & V3).
  unfold mbnd at 1. rewrite R3. cbn. eexists _, l1, l2. split; [reflexivity|].
  split_and!; [done| | | |done|done|done|].
  - cbn. by rewrite Hh3, Hh2.
  - intros k. rewrite view_mutex, V3, V2, V1. by rewrite Hh2, Hh1.
  - cbn. by rewrite L3, L2, L1.
  - intros o. rewrite I2. split; intros (k & -> & H); exists k; (split; [done|]); revert H;
      rewrite <- V1; done.
Qed.

Lemma config_end_run w :
  (forall n key, put_error n key = None) ->
  wf_entries (bd_heap w) (before_level 0 w) -> wf_entries (bd_heap w) (after_level 0 w) ->
  VppEntries w = before_level 0 w ->
  let B := before_level 0 w in
  let A := after_level 0 w in
  let eq := equal_entries (bd_heap w) in
  exists w' ops, RenderTxnConfigEnd w = Done (Ok tt) w' /\ configMutex w' = false /\ bd_heap w' = bd_heap w /\
    (forall k, VppEntries w' !! k = entry_after eq B A k) /\
    (forall k, etcd w' !! k = value_after eq (entry_datum (bd_heap w)) B A (etcd w !! k) k) /\
    etcd_log w' = ops ++ etcd_log w /\ NoDup ops /\
    (forall k, Put k ∈ ops <-> needs_put eq B A k) /\
    (forall k, Delete k ∈ ops <-> needs_delete B A k).
Proof.
  intros Hno Hb Ha HV B A eq.
  destruct (ConfigEnd_views w Hno Hb Ha) as (w' & l1 & l2 & R & HM & HH & V & L & N1 & N2 & I1 & I2).
  exists w', (l2 ++ l1).
  assert (HVk : forall k, v_entry (view w' k) = entry_after eq B A k /\
    v_etcd (view w' k) = value_after eq (entry_datum (bd_heap w)) B A (etcd w !! k) k).
  { intros k. rewrite V. unfold view, reconcile_view, put_view, record_view, entry_after, value_after.
    cbn [v_before v_after v_entry v_etcd]. rewrite HV. subst A B eq.
    destruct (before_level 0 w !! k) as [b|] eqn:Eb, (after_level 0 w !! k) as [a|] eqn:Ea; cbn; try done.
    by destruct (equal_entries (bd_heap w) b a). }
  split_and!; [done|done|done| | | | | |].
  - intros k. apply HVk.
  - intros k. apply HVk.
  - by rewrite L, app_assoc.
  - apply NoDup_app. split_and!; [done| |done]. intros o (k & -> & _)%I2 (k' & [=] & _)%I1.
  - intros k. rewrite elem_of_app. split.
    + intros [(k' & [= <-] & H)%I2|(k' & [=] & _)%I1]. revert H.
      unfold view, reconcile_view, needs_put. cbn [v_before v_after]. subst A B eq.
      destruct (before_level 0 w !! k) as [b|] eqn:Eb, (after_level 0 w !! k) as [a|] eqn:Ea; cbn.
      * destruct (equal_entries (bd_heap w) b a) eqn:Ee; cbn; [by intros [? ?]|].
        intros _. exists a. split; [done|]. by intros ? [= <-].
      * by intros [? ?].
      * intros _. by exists a.
      * by intros [? ?].
    + intros (a & Ea & Hne). left. apply I2. exists k. split; [done|].
      unfold view, reconcile_view. cbn [v_before v_after]. subst A B eq. rewrite Ea.
      destruct (before_level 0 w !! k) as [b|] eqn:Eb; [|by eexists].
      by rewrite (Hne b eq_refl); eexists.
  - intros k. rewrite elem_of_app. split.
    + intros [(k' & [=] & _)%I2|(k' & [= <-] & H)%I1]. done.
    + intros H. right. apply I1. by exists k.
Qed.


(** C32: rendering what is already known is quiet: when the rendered entries
    have the keys of the known ones and each equals its predecessor, the end of
    the transaction sends etcd nothing and leaves etcd and the known entries as
    they were. *)
Theorem RenderTxnConfigEnd_idempotent w :
  (forall n key, put_error n key = None) ->
  wf_entries (bd_heap w) (before_level 0 w) -> wf_entries (bd_heap w) (after_level 0 w) ->
  VppEntries w = before_level 0 w ->
  (forall k, is_Some (before_level 0 w !! k) <-> is_Some (after_level 0 w !! k)) ->
  (forall k b a, before_level 0 w !! k = Some b -> after_level 0 w !! k = Some a ->
     equal_entries (bd_heap w) b a = true) ->
  exists w', RenderTxnConfigEnd w = Done (Ok tt) w' /\ etcd_log w' = etcd_log w /\
    etcd w' = etcd w /\ VppEntries w' = VppEntries w.
Proof.
  intros Hno Hb Ha HV Hdom Heq.
  destruct (ConfigEnd_views w Hno Hb Ha) as (w' & l1 & l2 & R & HM & _ & V & L & N1 & N2 & I1 & I2).
  exists w'. split; [done|].
  assert (Hnone : forall k, v_after (reconcile_view (bd_heap w) k (view w k)) = None).
  { intros k. unfold reconcile_view, view. cbn [v_before v_after].
    destruct (before_level 0 w !! k) as [b|] eqn:Eb, (after_level 0 w !! k) as [a|] eqn:Ea; try done.
    - by rewrite (Heq k b a).
    - exfalso. destruct (proj2 (Hdom k)) as [? Hx]; [by rewrite Ea; eexists|]. congruence. }
  assert (l1 = []) as ->.
  { destruct l1 as [|o l1]; [done|]. exfalso.
    destruct (proj1 (I1 o)) as (k & _ & Hs & Hn); [left|].
    apply Hdom in Hs as [? Hs]. congruence. }
  assert (l2 = []) as ->.
  { destruct l2 as [|o l2]; [done|]. exfalso.
    destruct (proj1 (I2 o)) as (k & _ & [? Hs]); [left|]. rewrite Hnone in Hs. done. }
  split; [done|].
  assert (HVk : forall k, v_entry (view w' k) = VppEntries w !! k /\ v_etcd (view w' k) = etcd w !! k).
  { intros k. rewrite V. specialize (Hnone k). unfold put_view. rewrite Hnone.
    unfold record_view. rewrite Hnone. unfold reconcile_view, view. cbn [v_before v_after v_entry v_etcd].
    destruct (before_level 0 w !! k) as [b|] eqn:Eb, (after_level 0 w !! k) as [a|] eqn:Ea; cbn; try done.
    - by rewrite (Heq k b a).
    - exfalso. destruct (proj1 (Hdom k)) as [? Hx]; [by rewrite Eb; eexists|]. congruence. }
  split; apply map_eq; intros k; apply HVk.
Qed.

(** The writes leave the known entries alone, failing or not. *)
Definition entries_are (V : gmap string KVType) (w : World) : Prop := VppEntries w = V.

Lemma entries_framed V : framed (entries_are V).
Proof. by split. Qed.

(** C33: when a write to etcd fails, the transaction reports the error, still
    unlocks the configuration, and records none of the rendered entries: the
    known entries are the old ones less those that were deleted, so the next
    transaction compares against what was known before and tries again. *)
Theorem RenderTxnConfigEnd_error w e w' :
  wf_entries (bd_heap w) (before_level 0 w) -> wf_entries (bd_heap w) (after_level 0 w) ->
  VppEntries w = before_level 0 w ->
  RenderTxnConfigEnd w = Done (Err e) w' ->
  configMutex w' = false /\
  (forall k, VppEntries w' !! k =
     if decide (after_level 0 w !! k = None) then None else VppEntries w !! k).
Proof.
  intros Hb Ha HV. unfold RenderTxnConfigEnd.
  destruct (reconcile_loop w Hb Ha) as (w1 & R1 & Hh1 & Ha1 & V1 & _).
  unfold mbnd at 1. rewrite R1. unfold mbnd at 1.
  assert (Hk : keeps (entries_are (VppEntries w1))
                 (range_mapR (after_level 0) (fun _ after => WriteToEtcd after))).
  { apply keeps_range_mapR; [apply entries_framed|]. intros _ a.
    apply keeps_WriteToEtcd; [apply entries_framed|done]. }
  specialize (Hk w1 eq_refl). destruct (range_mapR _ _ w1) as [[e'|[]] w2|]; [| |done].
  - cbn. intros [= <- <-]. split; [done|]. intros k. cbn. rewrite Hk.
    change (VppEntries w1 !! k) with (v_entry (view w1 k)). rewrite V1.
    unfold reconcile_view, view. cbn [v_before v_after v_entry v_etcd]. rewrite HV.
    destruct (before_level 0 w !! k) as [b|] eqn:Eb, (after_level 0 w !! k) as [a|] eqn:Ea; cbn; try done.
    destruct (equal_entries _ _ _); cbn; done.
  - unfold mbnd at 1. by destruct (range_map _ _ w2).
Qed.
End run.

(** ** Entities *)

(** Entries put into a level one after the other. *)
Definition add_all (kvs : list KVType) (m : gmap string KVType) : gmap string KVType :=
  foldl (fun m kv => <[VppKey kv := kv]> m) m kvs.

Definition merged (ks : list string) (N M : gmap string KVType) : gmap string KVType :=
  foldl (fun m k => match N !! k with Some e => <[k := e]> m | None => m end) M ks.

Lemma merged_lookup ks N M k :
  merged ks N M !! k = if decide (k ∈ ks /\ is_Some (N !! k)) then N !! k else M !! k.
Proof.
  revert M. induction ks as [|k' ks IH]; intros M; cbn [merged foldl].
  { rewrite decide_False; [done|]. by intros [?%not_elem_of_nil _]. }
  fold (merged ks N (match N !! k' with Some e => <[k' := e]> M | None => M end)). rewrite IH.
  destruct (decide (k ∈ ks /\ is_Some (N !! k))) as [Hin|Hni].
  { rewrite decide_True; [done|]. split; [right; apply Hin|apply Hin]. }
  destruct (decide (k = k')) as [->|Hne].
  - destruct (N !! k') as [e|] eqn:E.
    + rewrite decide_True by (split; [left|by eexists]). by rewrite lookup_insert_eq.
    + rewrite decide_False; [done|]. by intros [_ [? ?]].
  - rewrite (decide_False (P := k ∈ k' :: ks /\ _)).
    + destruct (N !! k'); [by rewrite lookup_insert_ne|done].
    + intros [[->|?]%elem_of_cons ?]; [done|]. by apply Hni.
Qed.

Lemma merged_all ks N M : (forall k, k ∈ ks <-> is_Some (N !! k)) -> merged ks N M = N ∪ M.
Proof.
  intros Hks. apply map_eq. intros k. rewrite merged_lookup, lookup_union.
  destruct (decide (k ∈ ks /\ is_Some (N !! k))) as [[_ [e ->]]|Hn].
  - by destruct (M !! k).
  - assert (N !! k = None) as ->; [|by destruct (M !! k)].
    apply eq_None_not_Some. intros Hs. apply Hn. split; [by apply Hks|done].
Qed.

Lemma with_afterMap_id w : with_afterMap (afterMap w) w = w.
Proof. by destruct w. Qed.

Section entities.
Context {E : Env}.

Lemma add_entries_spec kvs w r M :
  afterMap w !! txnLevel w = Some M -> dom r = dom M ->
  forall entity, exists r' : Rendered,
    RenderTxnAddVppEntriesToTxn (Some r) entity kvs w =
      Done (Some r') (with_afterMap (<[txnLevel w := add_all kvs M]> (afterMap w)) w) /\
    dom r' = dom (add_all kvs M).
Proof.
  intros HM Hdom entity. revert w r M HM Hdom.
  induction kvs as [|kv kvs IH]; intros w r M HM Hdom; cbn [RenderTxnAddVppEntriesToTxn].
  { exists r. split; [|exact Hdom]. cbn [add_all foldl]. rewrite insert_id by done. by rewrite with_afterMap_id. }
  set (w1 := with_afterMap (<[txnLevel w := <[VppKey kv := kv]> M]> (afterMap w)) w).
  assert (exists r1 : Rendered, RenderTxnAddVppEntryToTxn (Some r) entity kv w = Done (Some r1) w1 /\
            dom r1 = dom (<[VppKey kv := kv]> M)) as (r1 & R1 & D1).
  { unfold RenderTxnAddVppEntryToTxn, mbnd, get, after_put, after_level. rewrite HM. cbn [default].
    change (id M) with M. destruct (M !! VppKey kv) eqn:Ek.
    - exists r. split; [cbn; by rewrite HM|]. rewrite Hdom, dom_insert_L.
      apply elem_of_dom_2 in Ek. set_solver.
    - eexists. split; [cbn; rewrite HM; reflexivity|]. by rewrite !dom_insert_L, Hdom. }
  unfold mbnd at 1. rewrite R1.
  destruct (IH w1 r1 (<[VppKey kv := kv]> M)) as (r' & R' & D'); [by cbn; rewrite lookup_insert_eq|done|].
  exists r'. rewrite R'. split; [|done]. unfold w1. cbn. by rewrite insert_insert_eq.
Qed.

Lemma entity_end_spec w N M l :
  txnLevel w = l -> afterMap w !! l = Some N -> afterMap w !! (l - 1) = Some M ->
  exists w', RenderTxnConfigEntityEnd w = Done tt w' /\ txnLevel w' = l - 1 /\
    afterMap w' = <[l - 1 := N ∪ M]> (delete l (afterMap w)) /\
    VppEntries w' = VppEntries w /\ etcd w' = etcd w /\ bd_heap w' = bd_heap w.
Proof.
  intros Hl HN HM. unfold RenderTxnConfigEntityEnd, mbnd at 1, get at 1. rewrite Hl.
  destruct (range_map_run (after_level l) (fun key entry => after_put (l - 1) key entry) w)
    as (ks & _ & Hks & Er).
  unfold mbnd at 1. rewrite Er. clear Er. set (w0 := with_clock (clock w + 1) w).
  unfold after_level in Hks. rewrite HN in Hks. change (default ∅ (Some N)) with N in Hks.
  assert (Hloop : forall ks w M, afterMap w !! l = Some N -> afterMap w !! (l - 1) = Some M ->
    forM ks (fun k => let! m := get (after_level l) in
       match m !! k with Some a => after_put (l - 1) k a | None => mret tt end) w =
    Done tt (with_afterMap (<[l - 1 := merged ks N M]> (afterMap w)) w)).
  { clear. induction ks as [|k ks IH]; intros w M HN HM; cbn [forM merged foldl].
    - rewrite insert_id by done. by rewrite with_afterMap_id.
    - unfold mbnd at 1, mbnd at 1, get at 1, after_level. rewrite HN. cbn [default].
      change (id N) with N. destruct (N !! k) as [e|]; [|by apply IH].
      unfold after_put, mbnd at 1, get at 1. rewrite HM. unfold put_field, modify.
      rewrite (IH _ (<[k := e]> M)); cbn.
      + by rewrite insert_insert_eq.
      + by rewrite lookup_insert_ne by lia.
      + by rewrite lookup_insert_eq. }
  rewrite (Hloop ks w0 M HN HM). rewrite merged_all by done.
  eexists. split; [reflexivity|]. cbn. split_and!; try done; [lia|].
  rewrite delete_insert_ne by lia. done.
Qed.

(** The state after [RenderTxnConfigEntityStart]. *)
Definition entity_started (w : World) : World :=
  let l := txnLevel w + 1 in
  with_afterMap (<[l := ∅]> (afterMap w)) (with_beforeMap (<[l := ∅]> (beforeMap w)) (with_txnLevel l w)).

Lemma entity_start_run w : RenderTxnConfigEntityStart w = Done tt (entity_started w).
Proof. reflexivity. Qed.

(** C9: an entity renders in a level of its own.  Whatever entries it adds
    between [RenderTxnConfigEntityStart] and [RenderTxnConfigEntityEnd], the
    rendered map lists exactly their keys, and the level below ends with them
    merged over what it had; if [RenderTxnConfigEntityRemoveEntries] runs first
    it ends as it was.  Either way the transaction level is back and the known
    entries and etcd are untouched. *)
Theorem entity_bracket w kvs M (failed : bool) entity :
  afterMap w !! txnLevel w = Some M ->
  exists (r : Rendered) w',
    (RenderTxnConfigEntityStart ;;;
     let! r := RenderTxnAddVppEntriesToTxn (Some ∅) entity kvs in
     (if failed then RenderTxnConfigEntityRemoveEntries else mret tt) ;;;
     RenderTxnConfigEntityEnd ;;;
     mret r) w = Done (Some r) w' /\
    dom r = list_to_set (VppKey <$> kvs) /\
    txnLevel w' = txnLevel w /\
    after_level (txnLevel w) w' = (if failed then M else add_all kvs ∅ ∪ M) /\
    VppEntries w' = VppEntries w /\ etcd w' = etcd w.
Proof.
  intros HM. set (L := txnLevel w).
  unfold mbnd at 1. rewrite entity_start_run. set (w1 := entity_started w). unfold mbnd at 1.
  destruct (add_entries_spec kvs w1 ∅ ∅) with (entity := entity) as (r & R & D);
    [subst w1; cbn; by rewrite lookup_insert_eq|done|].
  rewrite R.
  assert (Hdom : dom (add_all kvs ∅) = list_to_set (VppKey <$> kvs)).
  { clear. enough (forall m, dom (add_all kvs m) = list_to_set (VppKey <$> kvs) ∪ dom m) as H
      by (rewrite H, dom_empty_L; set_solver).
    induction kvs as [|kv kvs IH]; intros m; cbn; [set_solver|].
    fold (add_all kvs (<[VppKey kv := kv]> m)). rewrite IH, dom_insert_L. set_solver. }
  set (N := if failed then ∅ else add_all kvs ∅).
  assert (exists w3, (if failed then RenderTxnConfigEntityRemoveEntries else mret tt)
     (with_afterMap (<[txnLevel w1 := add_all kvs ∅]> (afterMap w1)) w1) = Done tt w3 /\
     txnLevel w3 = L + 1 /\ afterMap w3 !! (L + 1) = Some N /\ afterMap w3 !! L = Some M /\
     VppEntries w3 = VppEntries w /\ etcd w3 = etcd w) as (w3 & R3 & H3 & HN & HM3 & HV & He).
  { destruct failed; (eexists; split; [reflexivity|]); cbn; subst w1 L N; cbn;
      rewrite ?lookup_insert_eq, ?lookup_insert_ne by lia; done. }
  unfold mbnd at 1. rewrite R3. unfold mbnd at 1.
  destruct (entity_end_spec w3 N M (L + 1)) as (w4 & R4 & H4 & HA & HV4 & He4 & _);
    [done|done|by replace (L + 1 - 1) with L by lia|].
  rewrite R4. exists r, w4. split; [reflexivity|]. split_and!.
  - by rewrite D, Hdom.
  - rewrite H4. lia.
  - unfold after_level. rewrite HA. replace (L + 1 - 1) with L by lia. rewrite lookup_insert_eq.
    cbn. subst N. destruct failed; [by rewrite (left_id_L ∅ (∪))|done].
  - by rewrite HV4.
  - by rewrite He4.
Qed.

Lemma config_start_run w :
  (forall k kv, VppEntries w !! k = Some kv -> VppKey kv = k) ->
  if configMutex w then RenderTxnConfigStart w = Panic
  else exists w', RenderTxnConfigStart w = Done tt w' /\ configMutex w' = true /\ txnLevel w' = 0 /\
    before_level 0 w' = VppEntries w /\ after_level 0 w' = ∅ /\ afterMap w' !! 0 = Some ∅ /\
    VppEntries w' = VppEntries w /\ etcd w' = etcd w /\ bd_heap w' = bd_heap w /\
    networkNodeCache w' = networkNodeCache w /\ networkServiceCache w' = networkServiceCache w /\
    sysParmCache w' = sysParmCache w.
Proof.
  intros Hkey. unfold RenderTxnConfigStart, lock. destruct (configMutex w) eqn:EM.
  { unfold mbnd at 1, mbnd at 1, get at 1. by rewrite EM. }
  unfold mbnd at 1, mbnd at 1, get at 1. rewrite EM. unfold put_field, modify at 1.
  unfold initLevelMap, modify. unfold mbnd at 1, mbnd at 1, mbnd at 1, mbnd at 1.
  match goal with |- context [range_map _ _ ?x] => set (w1 := x) end.
  match goal with |- context [range_map ?p ?b _] =>
    destruct (range_map_run p b w1) as (ks & _ & Hks & Er) end.
  rewrite Er. clear Er. set (w0 := with_clock (clock w1 + 1) w1).
  assert (Hloop : forall ks w' m, VppEntries w' = VppEntries w -> beforeMap w' !! 0 = Some m ->
    forM ks (fun k => let! m := get VppEntries in
       match m !! k with
       | Some vppKV => if String.eqb k (VppKey vppKV) then before_put 0 (VppKey vppKV) vppKV else panic
       | None => mret tt end) w' =
    Done tt (with_beforeMap (<[0 := merged ks (VppEntries w) m]> (beforeMap w')) w')).
  { clear -Hkey. induction ks as [|k ks IH]; intros w' m HV HB; cbn [forM merged foldl].
    - rewrite insert_id by done. by destruct w'.
    - unfold mbnd at 1, mbnd at 1, get at 1. rewrite HV.
      destruct (VppEntries w !! k) as [kv|] eqn:Ek; [|by apply IH].
      rewrite (Hkey k kv Ek), String.eqb_refl. unfold before_put, mbnd at 1, get at 1. rewrite HB.
      unfold put_field, modify. rewrite (IH _ (<[k := kv]> m)); cbn; [|done|by rewrite lookup_insert_eq].
      by rewrite insert_insert_eq. }
  rewrite (Hloop ks w0 ∅); [|done|done]. rewrite merged_all by done.
  eexists. split; [reflexivity|]. cbn. split_and!; try done.
  unfold before_level. cbn. rewrite lookup_insert_eq. cbn. by rewrite (right_id_L ∅ (∪)).
Qed.

(** Starting a transaction takes the lock, makes the known entries the
    "before" cache of level 0 and empties the "after" cache; when the lock is
    already held by this goroutine it never returns. *)
Theorem RenderTxnConfigStart_snapshot w :
  (forall k kv, VppEntries w !! k = Some kv -> VppKey kv = k) ->
  if configMutex w then RenderTxnConfigStart w = Panic
  else exists w', RenderTxnConfigStart w = Done tt w' /\ configMutex w' = true /\ txnLevel w' = 0 /\
    before_level 0 w' = VppEntries w /\ after_level 0 w' = ∅ /\ afterMap w' !! 0 = Some ∅ /\
    VppEntries w' = VppEntries w /\ etcd w' = etcd w /\ bd_heap w' = bd_heap w /\
    networkNodeCache w' = networkNodeCache w /\ networkServiceCache w' = networkServiceCache w /\
    sysParmCache w' = sysParmCache w.
Proof. apply config_start_run. Qed.
End entities.

(** ** Witnesses *)

Definition xc (a b : string) : KVType := constructUniDirXConnect "node" a b.

Lemma xc_wf h a b : wf_entry h (xc a b).
Proof. do 2 right. left. split; [done|by eexists]. Qed.

(** A state inside a transaction with one known and two rendered entries. *)
Definition demo_world : World :=
  with_VppEntries {[VppKey (xc "a" "b") := xc "a" "b"]}
    (with_beforeMap {[0 := {[VppKey (xc "a" "b") := xc "a" "b"]}]}
      (with_afterMap {[0 := {[VppKey (xc "a" "c") := xc "a" "c"]}]} initial_world)).

Lemma demo_before : before_level 0 demo_world = {[VppKey (xc "a" "b") := xc "a" "b"]}.
Proof. unfold before_level, demo_world. cbn. by rewrite lookup_singleton_eq. Qed.

Lemma demo_after : after_level 0 demo_world = {[VppKey (xc "a" "c") := xc "a" "c"]}.
Proof. unfold after_level, demo_world. cbn. by rewrite lookup_singleton_eq. Qed.

Lemma demo_wf h a b : wf_entries h {[VppKey (xc a b) := xc a b]}.
Proof. intros k kv [<- <-]%lookup_singleton_Some. split; [done|apply xc_wf]. Qed.


Definition demo_same : World :=
  with_VppEntries {[VppKey (xc "a" "b") := xc "a" "b"]}
    (with_beforeMap {[0 := {[VppKey (xc "a" "b") := xc "a" "b"]}]}
      (with_afterMap {[0 := {[VppKey (xc "a" "b") := xc "a" "b"]}]} initial_world)).

Lemma RenderTxnConfigEnd_idempotent_witness :
  exists w', @RenderTxnConfigEnd quiet_env demo_same = Done (Ok tt) w' /\ etcd_log w' = [].
Proof.
  assert (B : before_level 0 demo_same = {[VppKey (xc "a" "b") := xc "a" "b"]})
    by (unfold before_level, demo_same; cbn; by rewrite lookup_singleton_eq).
  assert (A : after_level 0 demo_same = {[VppKey (xc "a" "b") := xc "a" "b"]})
    by (unfold after_level, demo_same; cbn; by rewrite lookup_singleton_eq).
  destruct (@RenderTxnConfigEnd_idempotent quiet_env demo_same) as (w' & R & L & _);
    [done|rewrite B; apply demo_wf|rewrite A; apply demo_wf|by rewrite B|by rewrite A, B| |].
  - rewrite A, B. intros k b a [_ <-]%lookup_singleton_Some [_ <-]%lookup_singleton_Some.
    vm_compute. reflexivity.
  - exists w'. split; [exact R|exact L].
Defined.

(** An etcd that refuses every write. *)
Definition broken_env : Env := {|
  shuffle := fun _ l => l;
  shuffle_perm := fun _ l => Permutation_refl l;
  put_error := fun _ _ => Some "etcd is down";
  get_error := fun _ _ => None;
  unmarshal_error := "";
  show_KVType := VppKey;
  show_MetaData := fun _ => "";
  show_IPAMPoolSpec := fun _ => ""
|}.

Lemma RenderTxnConfigEnd_error_witness :
  exists w', @RenderTxnConfigEnd broken_env demo_world = Done (Err "etcd is down") w' /\
    configMutex w' = false.
Proof.
  eexists. assert (R : @RenderTxnConfigEnd broken_env demo_world = Done (Err "etcd is down") _)
    by (vm_compute; reflexivity).
  split; [exact R|].
  refine (proj1 (@RenderTxnConfigEnd_error broken_env demo_world _ _ _ _ _ R));
    [rewrite demo_before; apply demo_wf|rewrite demo_after; apply demo_wf|by rewrite demo_before].
Defined.

Lemma entity_bracket_witness :
  exists (r : Rendered), dom r = {["/vnf-agent/node/vpp/config/v1/xconnect/x"]}.
Proof.
  destruct (@entity_bracket quiet_env demo_world [xc "x" "y"] {[VppKey (xc "a" "c") := xc "a" "c"]}
    false "") as (r & w' & _ & D & _); [done|].
  exists r. rewrite D. cbn. by rewrite (right_id_L ∅ (∪)).
Defined.

Lemma RenderTxnConfigStart_snapshot_witness :
  exists w', @RenderTxnConfigStart quiet_env demo_world = Done tt w' /\ configMutex w' = true.
Proof.
  destruct (@RenderTxnConfigStart_snapshot quiet_env demo_world) as (w' & R & M & _).
  - intros k kv Hk. change (VppEntries demo_world) with
      ({[VppKey (xc "a" "b") := xc "a" "b"]} : gmap string KVType) in Hk.
    by apply lookup_singleton_Some in Hk as [<- <-].
  - exists w'. split; [exact R|exact M].
Defined.

End RenderTxn.
