(* ===== verification/Utils.v ===== *)
(** * Names of pods and interfaces: src/plugins/controller/utils.go

    Module Utils: the "pod/interface" strings of a connection and the comparison
    of address lists. *)

From S2P Require Import Prelude GoStd.

Module Utils.

(** [ConnPodName]: the part before the first slash, "" without a slash. *)
Definition ConnPodName (s : string) : string :=
  match byte_index slash_byte s with None => "" | Some n => stake n s end.

(** [ConnInterfaceName]: the part after the first slash. *)
Definition ConnInterfaceName (s : string) : string :=
  match byte_index slash_byte s with None => "" | Some n => sdrop (n + 1) s end.

Definition ConnPodInterfaceNames (s : string) : string * string :=
  match byte_index slash_byte s with
  | None => ("", "")
  | Some n => (stake n s, sdrop (n + 1) s)
  end.

Definition NodeInterfaceNames (s : string) : string * string := ConnPodInterfaceNames s.

Definition ConnPodInterfaceSlashToUScore (s : string) : string :=
  let '(s0, s1) := ConnPodInterfaceNames s in s0 +:+ "_" +:+ s1.

(** [ipAddressArraysEqual]: counts the addresses of [a1] that occur in [a2]. *)
Definition ipAddressArraysEqual (a1 a2 : list string) : bool :=
  if negb (length a1 =? length a2)%nat then false
  else
    let foundCount := length (filter (fun e1 => existsb (String.eqb e1) a2 = true) a1) in
    (foundCount =? length a1)%nat.

(** [findInterfaceLabel] of networknode.go *)
Definition findInterfaceLabel (labels : list string) (label : string) : bool :=
  existsb (fun l => String.eqb l label) labels.

Lemma split_first_slash pod ifname :
  lacks slash_byte pod ->
  ConnPodName (pod +:+ "/" +:+ ifname) = pod /\ ConnInterfaceName (pod +:+ "/" +:+ ifname) = ifname.
Proof.
  intros H. unfold ConnPodName, ConnInterfaceName.
  change ("/" +:+ ifname) with (String.String slash_byte ifname).
  by rewrite byte_index_app_lacks, stake_app, sdrop_S_app.
Qed.

(** A name with a slash is its two parts. *)
Lemma conn_names_join s :
  ~ lacks slash_byte s -> ConnPodName s +:+ "/" +:+ ConnInterfaceName s = s.
Proof.
  intros H. destruct (byte_index slash_byte s) as [n|] eqn:E; [|done].
  destruct (byte_index_Some _ _ _ E) as (a & b & -> & Ha & _).
  destruct (split_first_slash a b Ha) as [H1 H2].
  change ("/" +:+ b) with (String.String slash_byte b) in H1, H2. by rewrite H1, H2.
Qed.

(** ** Properties *)

(** A string [pod/interface] whose pod has no slash splits into the pod and
    the whole rest, the three accessors agree, and without a slash both names
    are empty (which validation then refuses). *)
Theorem ConnPodInterfaceNames_roundtrip s :
  (forall pod ifname, lacks slash_byte pod ->
     ConnPodInterfaceNames (pod +:+ "/" +:+ ifname) = (pod, ifname)) /\
  ConnPodInterfaceNames s = (ConnPodName s, ConnInterfaceName s) /\
  (lacks slash_byte s -> ConnPodInterfaceNames s = ("", "")) /\
  (~ lacks slash_byte s ->
     s = ConnPodName s +:+ "/" +:+ ConnInterfaceName s /\ lacks slash_byte (ConnPodName s)).
Proof.
  assert (Hsplit : forall pod ifname, lacks slash_byte pod ->
            ConnPodInterfaceNames (pod +:+ "/" +:+ ifname) = (pod, ifname)).
  { intros pod ifname H. unfold ConnPodInterfaceNames.
    change ("/" +:+ ifname) with (String.String slash_byte ifname).
    by rewrite byte_index_app_lacks, stake_app, sdrop_S_app. }
  assert (Hagree : ConnPodInterfaceNames s = (ConnPodName s, ConnInterfaceName s)).
  { unfold ConnPodInterfaceNames, ConnPodName, ConnInterfaceName. by destruct (byte_index _ _). }
  split_and!; [done|done| |].
  - intros H. unfold ConnPodInterfaceNames. by rewrite H.
  - intros H. destruct (byte_index slash_byte s) as [n|] eqn:E; [|done].
    destruct (byte_index_Some _ _ _ E) as (a & b & -> & Ha & Hl).
    pose proof (Hsplit a b Ha) as Hs. change ("/" +:+ b) with (String.String slash_byte b) in Hs.
    rewrite Hagree in Hs. injection Hs as -> ->. done.
Qed.

Lemma ConnPodInterfaceNames_roundtrip_witness :
  ConnPodInterfaceNames ("pod1" +:+ "/" +:+ "if/0") = ("pod1", "if/0").
Proof. apply (proj1 (ConnPodInterfaceNames_roundtrip "")). reflexivity. Defined.

(** Lists with the same addresses compare equal in any order, but the
    comparison is not an equality of multisets nor symmetric: it accepts lists
    with different addresses when one list repeats an address. *)
Theorem ipAddressArraysEqual_spec :
  (forall a1 a2, a1 ≡ₚ a2 -> ipAddressArraysEqual a1 a2 = true) /\
  ipAddressArraysEqual ["10.0.0.1/24"; "10.0.0.1/24"] ["10.0.0.1/24"; "10.0.0.2/24"] = true /\
  ipAddressArraysEqual ["10.0.0.1/24"; "10.0.0.2/24"] ["10.0.0.1/24"; "10.0.0.1/24"] = false.
Proof.
  split; [|done]. intros a1 a2 Hp. unfold ipAddressArraysEqual.
  rewrite (Permutation_length Hp), Nat.eqb_refl. cbn [negb].
  assert (filter (fun e1 => existsb (String.eqb e1) a2 = true) a1 = a1) as ->.
  { assert (Forall (fun e1 => existsb (String.eqb e1) a2 = true) a1) as Hall.
    { apply Forall_forall. intros x Hx. apply existsb_exists. exists x.
      split; [|apply String.eqb_refl]. apply list_elem_of_In. by rewrite <- Hp. }
    clear Hp. induction Hall as [|x l Hx Hl IH]; [done|]. by rewrite filter_cons_True, IH. }
  by rewrite (Permutation_length Hp), Nat.eqb_refl.
Qed.

Lemma ipAddressArraysEqual_spec_witness : ipAddressArraysEqual ["b"; "a"] ["a"; "b"] = true.
Proof. apply (proj1 ipAddressArraysEqual_spec). constructor. Defined.

End Utils.
