(* ===== verification/SysParms.v ===== *)
(** * The system parameters: src/plugins/controller/sysparms.go

    Module SysParms: the manager of the one [SystemParameters] object and what
    the renderers ask it for (default MTU and rx mode, bridge domain templates). *)

From S2P Require Import Prelude GoStd Model State.

Module SysParms.

Definition KeyPrefix : string := SfcControllerConfigPrefix +:+ "system-parameters".

Definition InitRAMCache : M World unit := put_field with_sysParmCache zero_SysParms.

(** [ConfigEqual] compares the protobuf texts. *)
Definition ConfigEqual (sp sp2 : SystemParameters) : bool := bool_decide (sp = sp2).

Definition GetDefaultSystemBDParms : BDParms := mkBDParms "" true true true true false 0.

(** [FindL2BDTemplate]: [None] is nil. *)
Definition FindL2BDTemplate (templateName : string) : M World (option BDParms) :=
  get (fun w => list_find (fun t => bdp_Name t = templateName) (sp_L2BdTemplates (sysParmCache w))
                ≫= fun p => Some (snd p)).

(** [validate] fills in the defaults, then checks the rx mode. *)
Definition with_defaults (sp : SystemParameters) : SystemParameters :=
  let sp := if sp_Mtu sp =? 0 then with_sp_Mtu 1500 sp else sp in
  if sp_DefaultStaticRoutePreference sp =? 0 then with_sp_DefaultStaticRoutePreference 5 sp else sp.

Definition valid_rx_mode (m : string) : bool :=
  String.eqb m "" || String.eqb m RxModeAdaptive || String.eqb m RxModeInterrupt
  || String.eqb m RxModePolling.

Definition validate (sp : SystemParameters) : SystemParameters * option error :=
  let sp := with_defaults sp in
  (sp, if valid_rx_mode (sp_RxMode sp) then None
       else Some ("SysParm: Invalid rxMode setting " +:+ sp_RxMode sp)).

Section env.
Context {E : Env}.

Definition writeToDatastore (sp : SystemParameters) : M World (result unit) :=
  WriteToDatastore KeyPrefix (VSystemParameters sp).

Definition deleteFromDatastore : M World unit := DeleteFromDatastore KeyPrefix.

Definition HandleCRUDOperationCU (sp : SystemParameters) : M World (result unit) :=
  match validate sp with
  | (_, Some e) => mfail e
  | (sp, None) =>
      put_field with_sysParmCache sp ;;;
      writeToDatastore sp
  end.

Definition HandleCRUDOperationR : M World SystemParameters := get sysParmCache.

Definition HandleCRUDOperationD : M World (result unit) :=
  put_field with_sysParmCache zero_SysParms ;;;
  HandleCRUDOperationCU zero_SysParms ;;;
  mok tt.

Definition LoadAllFromDatastoreIntoCache : M World (result unit) :=
  let? v := ReadFromDatastore KeyPrefix in
  match v with
  | Some (VSystemParameters sp) => put_field with_sysParmCache sp ;;; mok tt
  | Some _ => mfail unmarshal_error
  | None => mok tt
  end.

(** [Init] ignores the error of the load. *)
Definition Init : M World unit := InitRAMCache ;;; LoadAllFromDatastoreIntoCache ;;; mret tt.

(** [systemParametersProcessPost], once the body is parsed. *)
Definition systemParametersProcessPost (sp : SystemParameters) : M World (reply SystemParameters) :=
  let! existing := HandleCRUDOperationR in
  if ConfigEqual existing sp then mret (HttpOK None)
  else match validate sp with
       | (_, Some e) => mret (BadRequest e)
       | (sp, None) => mret (HttpOK (Some sp))
       end.
End env.

Definition ResolveMtu (mtu : Z) : M World Z :=
  get (fun w => if mtu =? 0 then sp_Mtu (sysParmCache w) else mtu).

Definition ResolveRxMode (rxMode : string) : M World string :=
  get (fun w => if String.eqb rxMode "" then sp_RxMode (sysParmCache w) else rxMode).

(** ** Properties *)

(** The parameters the renderers may rely on. *)
Definition effective (sp : SystemParameters) : Prop :=
  sp_Mtu sp <> 0 /\ sp_DefaultStaticRoutePreference sp <> 0 /\ valid_rx_mode (sp_RxMode sp) = true.

Section properties.
Context {E : Env}.

(** An update either is refused for its rx mode and changes nothing at all,
    or leaves effective parameters in the cache (a non-zero MTU and preference,
    a known rx mode) that keep every value given; validating is idempotent, and a
    delete always leaves the defaults MTU 1500 and preference 5. *)
Theorem sysparms_update sp w :
  (match HandleCRUDOperationCU sp w with
   | Done r w' =>
       if valid_rx_mode (sp_RxMode sp)
       then effective (sysParmCache w') /\
            (sp_Mtu sp <> 0 -> sp_Mtu (sysParmCache w') = sp_Mtu sp) /\
            sp_L2BdTemplates (sysParmCache w') = sp_L2BdTemplates sp /\
            (forall v, r = Ok v -> etcd w' !! KeyPrefix = Some (VSystemParameters (sysParmCache w')))
       else w' = w /\ exists e, r = Err e
   | Panic => False
   end) /\
  validate (fst (validate sp)) = validate sp /\
  (exists r w', HandleCRUDOperationD w = Done r w' /\
     sysParmCache w' = mkSysParms 1500 "" 0 5 [] "" 0).
Proof.
  assert (Hd : forall sp, sp_RxMode (with_defaults sp) = sp_RxMode sp).
  { intros []. unfold with_defaults. cbn.
    by repeat (destruct (_ =? 0); cbn). }
  split_and!.
  - unfold HandleCRUDOperationCU, validate. rewrite Hd.
    destruct (valid_rx_mode (sp_RxMode sp)) eqn:Ev; [|by cbn; eauto].
    unfold mbnd at 1, put_field, modify. unfold writeToDatastore, WriteToDatastore, tick, mbnd, get, modify.
    cbn. assert (Hall : effective (with_defaults sp) /\
         (sp_Mtu sp <> 0 -> sp_Mtu (with_defaults sp) = sp_Mtu sp) /\
         sp_L2BdTemplates (with_defaults sp) = sp_L2BdTemplates sp).
    { unfold effective. rewrite Hd. destruct sp as [mtu dir wt pr tm rx vr]. unfold with_defaults. cbn in *.
      destruct (Z.eqb_spec mtu 0), (Z.eqb_spec pr 0); cbn;
        repeat (case_match; cbn); split_and!; done || lia. }
    destruct (put_error _ _); cbn; split_and!; try apply Hall; try done.
    intros v _. by rewrite lookup_insert_eq.
  - assert (with_defaults (with_defaults sp) = with_defaults sp) as Hw.
    2:{ unfold validate. cbn [fst]. by rewrite Hw. }
    destruct sp as [mtu dir wt pr tm rx vr]. unfold with_defaults.
    cbn [sp_Mtu]. destruct (mtu =? 0) eqn:Em; cbn [with_sp_Mtu sp_DefaultStaticRoutePreference];
      destruct (pr =? 0) eqn:Ep;
      cbn [with_sp_DefaultStaticRoutePreference with_sp_Mtu sp_Mtu sp_DefaultStaticRoutePreference];
      rewrite ?Em, ?Ep; cbn; rewrite ?Ep; done.
  - unfold HandleCRUDOperationD, put_field, modify. unfold mbnd at 1, mbnd at 1.
    unfold HandleCRUDOperationCU. cbn. unfold mbnd at 1, put_field, modify at 1.
    unfold writeToDatastore, WriteToDatastore, tick, mbnd, get, modify. cbn.
    destruct (put_error _ _); eexists _, _; (split; [reflexivity|done]).
Qed.
End properties.

Lemma sysparms_update_witness :
  exists r w', @HandleCRUDOperationD quiet_env initial_world = Done r w' /\
     sysParmCache w' = mkSysParms 1500 "" 0 5 [] "" 0.
Proof. apply (@sysparms_update quiet_env zero_SysParms initial_world). Defined.

End SysParms.
