(* ===== verification/IpamPool.v ===== *)
(** * The address pools: src/plugins/controller/ipampool.go

    Module IpamPool: the manager of the [IPAMPool] objects.  A pool of scope
    "system" has one allocator, a pool of scope "node" or "network_service" one
    for each node or service; the allocators (idapi/ipam) live in
    [ramCache.IPAMPoolAllocators] under a name made of scope, pool and entity.  A
    [*ipam.PoolAllocatorType] is that name here: the allocator is only reached
    through the map. *)

From S2P Require Import Prelude GoStd GoNet Ipam Model State.

Module IpamPool.

Definition KeyPrefix : string := SfcControllerConfigPrefix +:+ "ipam-pool/".

Definition NameKey (name : string) : string := KeyPrefix +:+ name.

Definition InitRAMCache : M World unit := put_field with_ipamPoolCache ∅.

(** [ConfigEqual] compares the protobuf texts of metadata and spec. *)
Definition ConfigEqual (p p2 : IPAMPool) : bool :=
  bool_decide (ip_Metadata p = ip_Metadata p2) && bool_decide (ip_Spec p = ip_Spec p2).

Definition contructAllocatorName (ipamPool : IPAMPool) (entityName : string) : M World string :=
  let! spec := deref (ip_Spec ipamPool) in
  if String.eqb (ips_Scope spec) IPAMPoolScopeSystem then
    let! md := deref (ip_Metadata ipamPool) in
    mret ("/" +:+ ips_Scope spec +:+ "/" +:+ md_Name md)
  else if String.eqb (ips_Scope spec) IPAMPoolScopeNode
          || String.eqb (ips_Scope spec) IPAMPoolScopeNetworkService then
    let! md := deref (ip_Metadata ipamPool) in
    mret ("/" +:+ ips_Scope spec +:+ "/" +:+ md_Name md +:+ "/" +:+ entityName)
  else mret "".

(** [FindAllocator]: the name of the allocator found. *)
Definition FindAllocator (poolName entityName : string) : M World (result string) :=
  let! p := get (fun w => ipamPoolCache w !! poolName) in
  match p with
  | None => mfail ("Cannot find ipam pool " +:+ poolName)
  | Some ipamPool =>
      let! allocatorName := contructAllocatorName ipamPool entityName in
      let! a := get (fun w => IPAMPoolAllocators w !! allocatorName) in
      match a with
      | None => mfail ("Cannot find allocator pool " +:+ poolName +:+ ": allocator: " +:+ allocatorName)
      | Some _ => mok allocatorName
      end
  end.

(** A method call on the allocator of that name, which may be a nil pointer. *)
Definition on_allocator {A} (name : string) (m : M Ipam.PoolAllocatorType A) : M World A :=
  let! o := get (fun w => IPAMPoolAllocators w !! name) in
  let! p := deref (o ≫= id) in
  match m p with
  | Done a p' =>
      modify (fun w => with_IPAMPoolAllocators (<[name := Some p']> (IPAMPoolAllocators w)) w) ;;;
      mret a
  | Panic => panic
  end.

(** The entity that a pool of this scope allocates for. *)
Definition scoped_entity (spec : IPAMPoolSpec) (nodeName vsName : string) : string :=
  if String.eqb (ips_Scope spec) IPAMPoolScopeNode then nodeName
  else if String.eqb (ips_Scope spec) IPAMPoolScopeNetworkService then vsName
  else "".

(** [ipamPool.Status.Addresses[allocatorPool.Name] = allocatorPool.GetAllocatedAddressesStatus()] *)
Definition update_addresses (poolName allocatorName : string) : M World unit :=
  let! name := on_allocator allocatorName (get Ipam.Name) in
  let! status := on_allocator allocatorName (get Ipam.GetAllocatedAddressesStatus) in
  let! o := get (fun w => ipamPoolCache w !! poolName) in
  let! ipamPool := deref o in
  let! st := deref (ip_Status ipamPool) in
  let! addrs := deref st in
  modify (fun w => with_ipamPoolCache
    (<[poolName := with_ip_Status (Some (Some (<[name := status]> addrs))) ipamPool]> (ipamPoolCache w)) w).

Definition AllocateAddress (poolName nodeName vsName : string) : M World (result (string * Z)) :=
  let! p := get (fun w => ipamPoolCache w !! poolName) in
  match p with
  | None => mfail ("Cannot find ipam pool " +:+ poolName)
  | Some ipamPool =>
      let! spec := deref (ip_Spec ipamPool) in
      let! r := FindAllocator poolName (scoped_entity spec nodeName vsName) in
      match r with
      | inl err => mfail ("Cannot find ipam pool allocator for " +:+ poolName +:+ ": " +:+ err)
      | inr allocatorPool =>
          let! r := on_allocator allocatorPool Ipam.AllocateIPAddress in
          match r with
          | inl _ => mfail ("Cannot allocate address from ipam pool " +:+ poolName)
          | inr (ipAddress, ipNum) =>
              update_addresses poolName allocatorPool ;;;
              mok (ipAddress, ipNum)
          end
      end
  end.

Definition SetAddress (poolName nodeName vsName : string) (ipNum : Z) : M World (result string) :=
  let! p := get (fun w => ipamPoolCache w !! poolName) in
  match p with
  | None => mfail ("Cannot find ipam pool " +:+ poolName)
  | Some ipamPool =>
      let! spec := deref (ip_Spec ipamPool) in
      let! r := FindAllocator poolName (scoped_entity spec nodeName vsName) in
      match r with
      | inl err => mfail ("Cannot find ipam pool allocator for " +:+ poolName +:+ ": " +:+ err)
      | inr allocatorPool =>
          let! r := on_allocator allocatorPool (Ipam.SetAddress ipNum) in
          match r with
          | inl _ => mfail ("Cannot allocate address from ipam pool " +:+ poolName)
          | inr ipAddrStr =>
              update_addresses poolName allocatorPool ;;;
              mok ipAddrStr
          end
      end
  end.

Definition SetAddressIfInPool (poolName nodeName vsName ipAddress : string) : M World unit :=
  let! p := get (fun w => ipamPoolCache w !! poolName) in
  match p with
  | None => mret tt
  | Some ipamPool =>
      let! spec := deref (ip_Spec ipamPool) in
      let! r := FindAllocator poolName (scoped_entity spec nodeName vsName) in
      match r with
      | inl _ => mret tt
      | inr allocatorPool =>
          on_allocator allocatorPool (Ipam.SetIPAddrIfInsidePool ipAddress) ;;;
          update_addresses poolName allocatorPool
      end
  end.

Section env.
Context {E : Env}.

(** One pool of the loop of [EntityCreate]. *)
Definition entity_create_pool (entityName scope : string) (ipamPool : IPAMPool) : M World unit :=
  let! spec := deref (ip_Spec ipamPool) in
  if String.eqb (ips_Scope spec) scope then
    let! md := deref (ip_Metadata ipamPool) in
    let! r := FindAllocator (md_Name md) entityName in
    match r with
    | inr _ => mret tt
    | inl _ =>
        let! allocatorName := contructAllocatorName ipamPool entityName in
        modify (fun w => with_IPAMPoolAllocators
          (<[allocatorName := Ipam.NewIPAMPoolAllocator allocatorName
               (ips_StartRange spec) (ips_EndRange spec) (ips_Network spec)]> (IPAMPoolAllocators w)) w)
    end
  else mret tt.

Definition EntityCreate (entityName scope : string) : M World unit :=
  range_map ipamPoolCache (fun _ ipamPool => entity_create_pool entityName scope ipamPool).

(** One pool of the loop of [EntityDelete]; [poolKey] is its key in the cache. *)
Definition entity_delete_pool (entityName scope : string) (poolKey : string) (ipamPool : IPAMPool)
  : M World unit :=
  let! spec := deref (ip_Spec ipamPool) in
  if String.eqb (ips_Scope spec) scope || String.eqb scope IPAMPoolScopeAny then
    let! md := deref (ip_Metadata ipamPool) in
    let! r := FindAllocator (md_Name md) entityName in
    let! ipamPoolAllocator :=
      match r with
      | inl _ => mret None
      | inr name => get (fun w => IPAMPoolAllocators w !! name ≫= id)
      end in
    match ipamPoolAllocator with
    | None => mret tt
    | Some _ =>
        let! allocatorName := contructAllocatorName ipamPool entityName in
        let! st := deref (ip_Status ipamPool) in
        modify (fun w => with_ipamPoolCache
          (<[poolKey := with_ip_Status (Some (delete allocatorName <$> st)) ipamPool]> (ipamPoolCache w)) w) ;;;
        modify (fun w => with_IPAMPoolAllocators (delete allocatorName (IPAMPoolAllocators w)) w)
    end
  else mret tt.

Definition EntityDelete (entityName scope : string) : M World unit :=
  range_map ipamPoolCache (entity_delete_pool entityName scope).

Definition writeToDatastore (ip : IPAMPool) : M World (result unit) :=
  let! md := deref (ip_Metadata ip) in WriteToDatastore (NameKey (md_Name md)) (VIPAMPool ip).

Definition deleteFromDatastore (ip : IPAMPool) : M World unit :=
  let! md := deref (ip_Metadata ip) in DeleteFromDatastore (NameKey (md_Name md)).

(** [HandleCRUDOperationCU]; the status of the posted object is ignored. *)
Definition HandleCRUDOperationCU (_ipamPool : IPAMPool) : M World (result unit) :=
  let ipamPool := with_ip_Status None _ipamPool in
  let! md := deref (ip_Metadata _ipamPool) in
  modify (fun w => with_ipamPoolCache (<[md_Name md := ipamPool]> (ipamPoolCache w)) w) ;;;
  let! spec := deref (ip_Spec ipamPool) in
  (if String.eqb (ips_Scope spec) IPAMPoolScopeSystem then EntityCreate "" (ips_Scope spec)
   else if String.eqb (ips_Scope spec) IPAMPoolScopeNode then
     range_map networkNodeCache (fun _ nn =>
       let! md := deref (nn_Metadata nn) in EntityCreate (md_Name md) (ips_Scope spec))
   else if String.eqb (ips_Scope spec) IPAMPoolScopeNetworkService then
     range_map networkServiceCache (fun _ ns =>
       let! md := deref (ns_Metadata ns) in EntityCreate (md_Name md) (ips_Scope spec))
   else mret tt) ;;;
  let ipamPool := with_ip_Status (Some (Some ∅)) ipamPool in
  modify (fun w => with_ipamPoolCache (<[md_Name md := ipamPool]> (ipamPoolCache w)) w) ;;;
  writeToDatastore ipamPool.

Definition HandleCRUDOperationR (name : string) : M World (option IPAMPool) :=
  get (fun w => ipamPoolCache w !! name).

Definition HandleCRUDOperationD (name : string) : M World (result unit) :=
  let! p := get (fun w => ipamPoolCache w !! name) in
  match p with
  | None => mok tt
  | Some ipamPool =>
      modify (fun w => with_ipamPoolCache (delete name (ipamPoolCache w)) w) ;;;
      DeleteFromDatastore (NameKey name) ;;;
      let! spec := deref (ip_Spec ipamPool) in
      EntityDelete name (ips_Scope spec) ;;;
      mok tt
  end.

(** [HandleCRUDOperationGetAll] *)
Definition HandleCRUDOperationGetAll : M World (gmap string IPAMPool) := get ipamPoolCache.

(** A pool as it is read from etcd: an empty map comes back nil. *)
Definition load_pool (v : Value) : M World unit :=
  match v with
  | VIPAMPool ip =>
      let ip := with_ip_Status (load_map <$> ip_Status ip) ip in
      let! md := deref (ip_Metadata ip) in
      modify (fun w => with_ipamPoolCache (<[md_Name md := ip]> (ipamPoolCache w)) w)
  | _ => panic (* log.Fatal: the value does not unmarshal *)
  end.

Definition LoadAllFromDatastoreIntoCache : M World (result unit) := ReadIterate KeyPrefix load_pool.

Definition Init : M World unit := InitRAMCache ;;; LoadAllFromDatastoreIntoCache ;;; mret tt.

Definition validate (ip : IPAMPool) : option error :=
  match ip_Metadata ip, ip_Spec ip with
  | Some md, Some spec =>
      if String.eqb (ips_Scope spec) IPAMPoolScopeSystem || String.eqb (ips_Scope spec) IPAMPoolScopeNode
         || String.eqb (ips_Scope spec) IPAMPoolScopeNetworkService
      then match Net.ParseCIDR (ips_Network spec) with
           | inl err => Some ("ipam pool '" +:+ md_Name md +:+ "', " +:+ err +:+
                              ", expected format i.p.v.4/xx, or ip::v6/xx")
           | inr _ => None
           end
      else Some ("IPAM pool: " +:+ md_Name md +:+ " scope '" +:+ ips_Scope spec +:+ "' not recognized")
  | md, spec => Some ("IPAM pool: Metadata: '" +:+ show_MetaData md +:+ "' or Spec: '" +:+
                      show_IPAMPoolSpec spec +:+ "' config is missing")
  end.

(** [processPost] on a parsed body. *)
Definition processPost (urlName : string) (ipamPool : IPAMPool) : M World (reply IPAMPool) :=
  let! md := deref (ip_Metadata ipamPool) in
  if negb (String.eqb urlName (md_Name md)) then
    mret (BadRequest "json name does not matach url name")
  else
    let! existing := HandleCRUDOperationR urlName in
    if match existing with Some p => ConfigEqual p ipamPool | None => false end
    then mret (HttpOK None)
    else match validate ipamPool with
         | Some err => mret (BadRequest err)
         | None => mret (HttpOK (Some ipamPool))
         end.

End env.

(** ** What these operations leave alone *)

(** An invariant that does not speak of the clock, of the allocators and of the status of
    the pools. *)
Record ipam_free (I : World -> Prop) : Prop := {
  if_clock : forall n w, I w -> I (with_clock n w);
  if_alloc : forall A w, I w -> I (with_IPAMPoolAllocators A w);
  if_status : forall k p st w, ipamPoolCache w !! k = Some p -> I w ->
    I (with_ipamPoolCache (<[k := with_ip_Status st p]> (ipamPoolCache w)) w)
}.

(** Looking up an allocator changes nothing. *)
Lemma keeps_contructAllocatorName I p e : keeps I (contructAllocatorName p e).
Proof. unfold contructAllocatorName. keeps_auto. Qed.

Lemma keeps_FindAllocator I p e : keeps I (FindAllocator p e).
Proof. unfold FindAllocator. keeps_auto; apply keeps_contructAllocatorName. Qed.

Section keeps.
Context {E : Env} (I : World -> Prop) (HI : ipam_free I).

Lemma keeps_on_allocator {A} n (m : M Ipam.PoolAllocatorType A) : keeps I (on_allocator n m).
Proof. unfold on_allocator. keeps_auto. apply keeps_modify. intros w. by apply (if_alloc I HI). Qed.

Lemma keeps_update_addresses p a : keeps I (update_addresses p a).
Proof.
  unfold update_addresses. do 2 (apply keeps_bind; [apply keeps_on_allocator|intros ?]).
  apply keeps_wlp. intros w Hw. wpw. destruct (ipamPoolCache w !! p) as [ip|] eqn:Hp; [|done]. wpw.
  destruct (ip_Status ip) as [[addrs|]|]; [|done|done]. wpw. by apply (if_status I HI).
Qed.

Lemma keeps_AllocateAddress p n v : keeps I (AllocateAddress p n v).
Proof.
  unfold AllocateAddress. keeps_auto;
    (apply keeps_FindAllocator || apply keeps_on_allocator || apply keeps_update_addresses).
Qed.

Lemma keeps_SetAddress p n v i : keeps I (SetAddress p n v i).
Proof.
  unfold SetAddress. keeps_auto;
    (apply keeps_FindAllocator || apply keeps_on_allocator || apply keeps_update_addresses).
Qed.

Lemma keeps_SetAddressIfInPool p n v a : keeps I (SetAddressIfInPool p n v a).
Proof.
  unfold SetAddressIfInPool. keeps_auto;
    (apply keeps_FindAllocator || apply keeps_on_allocator || apply keeps_update_addresses).
Qed.

Lemma keeps_EntityCreate e s : keeps I (EntityCreate e s).
Proof.
  apply clocked_range_map; [apply (if_clock I HI)|]. intros k p. unfold entity_create_pool.
  keeps_auto; try (apply keeps_FindAllocator || apply keeps_contructAllocatorName).
  apply keeps_modify. intros w. by apply (if_alloc I HI).
Qed.

Lemma keeps_EntityDelete e s : keeps I (EntityDelete e s).
Proof.
  apply keeps_wlp. intros w Hw.
  apply (wp_range_map True _ _ (fun _ => I)); [by intros; apply (if_clock I HI)| |done].
  intros d k w' _ _ Hw'. destruct (ipamPoolCache w' !! k) as [p|] eqn:Hk; [|done].
  unfold entity_delete_pool. wpw. destruct (ip_Spec p) as [spec|]; [|done]. wpw.
  destruct (_ || _); [|by wpw]. wpw. destruct (ip_Metadata p) as [md|]; [|done]. wpw.
  apply (wlp_keeps (eq w')); [apply keeps_FindAllocator|done|]. intros r ? <-.
  apply wp_bnd, (wlp_keeps (eq w')); [by destruct r; keeps_auto|done|]. intros [a|] ? <-; [|by wpw].
  apply wp_bnd, (wlp_keeps (eq w')); [apply keeps_contructAllocatorName|done|]. intros n ? <-. wpw.
  destruct (ip_Status p) as [st|]; [|done]. wpw. by apply (if_alloc I HI), (if_status I HI).
Qed.
End keeps.

#[export] Hint Resolve keeps_FindAllocator keeps_AllocateAddress keeps_SetAddress
  keeps_SetAddressIfInPool keeps_EntityCreate keeps_EntityDelete : keeps.

(** ** Properties *)

Definition valid_scope (scope : string) : Prop :=
  scope = IPAMPoolScopeSystem \/ scope = IPAMPoolScopeNode \/ scope = IPAMPoolScopeNetworkService.

(** The name of the allocator of a pool for an entity. *)
Definition alloc_name (scope poolName entityName : string) : string :=
  if String.eqb scope IPAMPoolScopeSystem then "/" +:+ scope +:+ "/" +:+ poolName
  else "/" +:+ scope +:+ "/" +:+ poolName +:+ "/" +:+ entityName.

(** A cached pool: named as its key, with a spec of a known scope. *)
Definition wf_pool (k : string) (p : IPAMPool) : Prop :=
  exists md spec, ip_Metadata p = Some md /\ md_Name md = k /\ ip_Spec p = Some spec /\
    valid_scope (ips_Scope spec).

Definition wf_pools (C : gmap string IPAMPool) : Prop := forall k p, C !! k = Some p -> wf_pool k p.

(** The pools have their status, as after [HandleCRUDOperationCU]. *)
Definition has_status (p : IPAMPool) : Prop := exists addrs, ip_Status p = Some (Some addrs).

Lemma sapp_inj_r s t u : s +:+ u = t +:+ u -> s = t.
Proof.
  intros H. apply bytes_of_inj. apply (f_equal bytes_of) in H. rewrite !bytes_of_app in H.
  by apply app_inv_tail in H.
Qed.

Lemma alloc_name_inj scope k k' e : alloc_name scope k e = alloc_name scope k' e -> k = k'.
Proof.
  unfold alloc_name. destruct (String.eqb scope IPAMPoolScopeSystem); intros H.
  - by do 3 apply sapp_inj_l in H.
  - do 3 apply sapp_inj_l in H. rewrite <- !(sapp_assoc _ "/") in H. rewrite !sapp_assoc in H.
    by apply sapp_inj_r in H.
Qed.

Lemma contructAllocatorName_run p md spec e w :
  ip_Metadata p = Some md -> ip_Spec p = Some spec -> valid_scope (ips_Scope spec) ->
  contructAllocatorName p e w = Done (alloc_name (ips_Scope spec) (md_Name md) e) w.
Proof.
  intros Hm Hs Hv. unfold contructAllocatorName, mbnd, alloc_name. rewrite Hs. cbn.
  destruct Hv as [E|[E|E]]; rewrite E; cbn; rewrite Hm; done.
Qed.

Lemma FindAllocator_run k p md spec e w :
  ipamPoolCache w !! k = Some p ->
  ip_Metadata p = Some md -> ip_Spec p = Some spec -> valid_scope (ips_Scope spec) ->
  exists err, FindAllocator k e w =
    Done (match IPAMPoolAllocators w !! alloc_name (ips_Scope spec) (md_Name md) e with
          | Some _ => Ok (alloc_name (ips_Scope spec) (md_Name md) e)
          | None => Err err
          end) w.
Proof.
  intros Hp Hm Hs Hv. eexists. unfold FindAllocator, mbnd, get. rewrite Hp.
  erewrite contructAllocatorName_run by done. by destruct (_ !! alloc_name _ _ _).
Qed.

Lemma on_allocator_run {A} name (m : M Ipam.PoolAllocatorType A) p a p' w :
  IPAMPoolAllocators w !! name = Some (Some p) -> m p = Done a p' ->
  on_allocator name m w = Done a (with_IPAMPoolAllocators (<[name := Some p']> (IPAMPoolAllocators w)) w).
Proof. intros H E. unfold on_allocator, mbnd, get. rewrite H. cbn. by rewrite E. Qed.

Lemma on_allocator_panic {A} name (m : M Ipam.PoolAllocatorType A) p w :
  IPAMPoolAllocators w !! name = Some (Some p) -> m p = Panic -> on_allocator name m w = Panic.
Proof. intros H E. unfold on_allocator, mbnd, get. rewrite H. cbn. by rewrite E. Qed.

(** *** Making allocators *)

(** What [EntityCreate] has made of the allocators [A0] once the pools [d] are done. *)
Record created (C : gmap string IPAMPool) (A0 : gmap string (option Ipam.PoolAllocatorType))
  (entityName scope : string) (d : list string)
  (A : gmap string (option Ipam.PoolAllocatorType)) : Prop := {
  cr_kept : forall name a, A0 !! name = Some a -> A !! name = Some a;
  cr_new : forall k p spec, k ∈ d -> C !! k = Some p -> ip_Spec p = Some spec -> ips_Scope spec = scope ->
    A0 !! alloc_name scope k entityName = None ->
    A !! alloc_name scope k entityName =
      Some (Ipam.NewIPAMPoolAllocator (alloc_name scope k entityName)
              (ips_StartRange spec) (ips_EndRange spec) (ips_Network spec));
  cr_only : forall name, A0 !! name = None -> is_Some (A !! name) ->
    exists k p spec, k ∈ d /\ C !! k = Some p /\ ip_Spec p = Some spec /\ ips_Scope spec = scope /\
      name = alloc_name scope k entityName
}.

Lemma created_nil C A e s : created C A e s [] A.
Proof.
  split; [done| |].
  - by intros k p spec ?%not_elem_of_nil.
  - intros name H [a Ha]. congruence.
Qed.

(** A pool of another scope, or whose allocator exists, changes nothing. *)
Lemma created_skip C A0 e s d k A :
  created C A0 e s d A ->
  (forall p spec, C !! k = Some p -> ip_Spec p = Some spec -> ips_Scope spec = s ->
     is_Some (A !! alloc_name s k e)) ->
  ~ (k ∈ d) -> created C A0 e s (d ++ [k]) A.
Proof.
  intros [H1 H2 H3] Hk Hni. split; [done| |].
  - intros k' p spec [Hd| ->%list_elem_of_singleton]%elem_of_app Hp Hs He Hn; [by eapply H2|].
    destruct (H3 _ Hn (Hk p spec Hp Hs He)) as (k2 & ? & ? & Hk2 & _ & _ & _ & E).
    apply alloc_name_inj in E. by subst.
  - intros name Hn Ha. destruct (H3 name Hn Ha) as (k' & p & spec & ? & ?).
    exists k', p, spec. split; [by apply elem_of_app; left|done].
Qed.

Lemma created_add C A0 e s d k A p spec :
  created C A0 e s d A -> C !! k = Some p -> ip_Spec p = Some spec -> ips_Scope spec = s ->
  A !! alloc_name s k e = None ->
  created C A0 e s (d ++ [k])
    (<[alloc_name s k e := Ipam.NewIPAMPoolAllocator (alloc_name s k e)
         (ips_StartRange spec) (ips_EndRange spec) (ips_Network spec)]> A).
Proof.
  intros [H1 H2 H3] Hp Hs He Hn. split.
  - intros name a Ha. rewrite lookup_insert_ne; [by apply H1|]. intros <-. apply H1 in Ha. congruence.
  - intros k' p' spec' Hd Hp' Hs' He' Hn'. destruct (decide (k' = k)) as [->|Hne].
    + rewrite lookup_insert_eq. by simplify_eq.
    + rewrite lookup_insert_ne by (by intros ?%alloc_name_inj).
      apply elem_of_app in Hd as [Hd|Hd%list_elem_of_singleton]; [by eapply H2|done].
  - intros name Hn' Ha. destruct (decide (name = alloc_name s k e)) as [->|Hne].
    + exists k, p, spec. split; [apply elem_of_app; right; left|done].
    + rewrite lookup_insert_ne in Ha by done. destruct (H3 name Hn' Ha) as (k' & p' & spec' & ? & ?).
      exists k', p', spec'. split; [by apply elem_of_app; left|done].
Qed.

Section properties.
Context {E : Env}.

Lemma entity_create_pool_wp C A0 e s d k p A w n :
  valid_scope s -> wf_pools C -> C !! k = Some p -> ipamPoolCache w = C -> ~ (k ∈ d) ->
  created C A0 e s d A ->
  wp (entity_create_pool e s p) (fun _ w' => exists n A', created C A0 e s (d ++ [k]) A' /\
        w' = with_clock n (with_IPAMPoolAllocators A' w))
     (with_clock n (with_IPAMPoolAllocators A w)).
Proof.
  intros Hv Hwf Hp HC Hni Hcr. destruct (Hwf k p Hp) as (md & spec & Hm & Hk & Hs & Hvs).
  unfold entity_create_pool. rewrite Hs. do 2 wp_step. cbv beta.
  destruct (String.eqb_spec (ips_Scope spec) s) as [Hsc|Hsc].
  - rewrite Hm. do 3 wp_step. rewrite Hk.
    destruct (FindAllocator_run k p md spec e (with_clock n (with_IPAMPoolAllocators A w)))
      as [err Ef]; [by subst|done..|].
    rewrite Hk, Hsc in Ef. eapply wp_run; [exact Ef|].
    change (IPAMPoolAllocators (with_clock n (with_IPAMPoolAllocators A w))) with A.
    destruct (A !! alloc_name s k e) eqn:Ea.
    + apply wp_ret. exists n, A. split; [|done].
      apply created_skip; [done| |done]. intros. by rewrite Ea.
    + cbn [Err]. wp_step. eapply wp_run; [by apply (contructAllocatorName_run p md spec)|]. rewrite Hk, Hsc.
      apply wp_modify. eexists n, _. split; [by apply (created_add C A0 e s d k A p spec)|done].
  - apply wp_ret. exists n, A. split; [|done].
    apply created_skip; [done| |done]. intros p' spec' ? ? ?. simplify_eq.
Qed.

Lemma EntityCreate_wp e s w :
  valid_scope s -> wf_pools (ipamPoolCache w) ->
  wp (EntityCreate e s)
     (fun _ w' => exists n A ks, created (ipamPoolCache w) (IPAMPoolAllocators w) e s ks A /\
        (forall k, k ∈ ks <-> is_Some (ipamPoolCache w !! k)) /\
        w' = with_clock n (with_IPAMPoolAllocators A w)) w.
Proof.
  intros Hv Hwf.
  apply (wp_range_map _ _ _ (fun d w' => exists n A,
     created (ipamPoolCache w) (IPAMPoolAllocators w) e s d A /\
     w' = with_clock n (with_IPAMPoolAllocators A w))).
  - intros n. exists n, (IPAMPoolAllocators w). split; [apply created_nil|by destruct w].
  - intros d k w' Hnd Hks (n & A & Hcr & ->).
    change (ipamPoolCache (with_clock n (with_IPAMPoolAllocators A w))) with (ipamPoolCache w).
    destruct (Hks k) as [p Hp]; [by apply elem_of_app; right; left|]. rewrite Hp.
    apply NoDup_app in Hnd as (_ & Hnd & _).
    apply (entity_create_pool_wp (ipamPoolCache w)); try done. intros Hd. by apply (Hnd k Hd); left.
  - intros ks w' _ Hks (n & A & Hcr & ->). by exists n, A, ks.
Qed.

(** [EntityCreate], run when a node, service or pool appears, visits the pools
    in any order and makes exactly the allocators that are missing: every allocator
    that exists is kept as it is, every pool of the scope has one for the entity
    afterwards (a fresh one over the pool's network and range if it had none), none is
    made for any other name, and nothing else of the state changes. *)
Theorem EntityCreate_makes_missing e s w :
  valid_scope s -> wf_pools (ipamPoolCache w) ->
  wp (EntityCreate e s)
     (fun _ w' =>
        (forall name a, IPAMPoolAllocators w !! name = Some a -> IPAMPoolAllocators w' !! name = Some a) /\
        (forall k p spec, ipamPoolCache w !! k = Some p -> ip_Spec p = Some spec -> ips_Scope spec = s ->
           IPAMPoolAllocators w !! alloc_name s k e = None ->
           IPAMPoolAllocators w' !! alloc_name s k e =
             Some (Ipam.NewIPAMPoolAllocator (alloc_name s k e)
                     (ips_StartRange spec) (ips_EndRange spec) (ips_Network spec))) /\
        (forall name, IPAMPoolAllocators w !! name = None -> is_Some (IPAMPoolAllocators w' !! name) ->
           exists k p spec, ipamPoolCache w !! k = Some p /\ ip_Spec p = Some spec /\
             ips_Scope spec = s /\ name = alloc_name s k e) /\
        exists n, w' = with_clock n (with_IPAMPoolAllocators (IPAMPoolAllocators w') w)) w.
Proof.
  intros Hv Hwf. eapply wp_conseq; [by apply EntityCreate_wp|].
  intros _ w' (n & A & ks & [H1 H2 H3] & Hks & ->). cbn [IPAMPoolAllocators with_clock with_IPAMPoolAllocators].
  split_and!; [done| | |by exists n].
  - intros k p spec Hp. apply H2; [by apply Hks; eauto|done].
  - intros name Hn Ha. destruct (H3 name Hn Ha) as (k & p & spec & _ & ?). by exists k, p, spec.
Qed.

(** *** Allocating from a pool *)

(** C34: [AllocateAddress] is the pool allocator's [AllocateIPAddress] on the
    allocator of the pool for this node or service: the same address and number, the
    same new allocator, and the pool's status then shows the allocator's counts; when
    the allocator has no address left the status is unchanged and the error names the
    pool; an unknown pool or a missing allocator is an error that changes nothing. *)
Theorem AllocateAddress_refines poolName node vs w :
  match ipamPoolCache w !! poolName with
  | None => AllocateAddress poolName node vs w = Done (Err ("Cannot find ipam pool " +:+ poolName)) w
  | Some p =>
      wf_pool poolName p -> has_status p ->
      exists spec, ip_Spec p = Some spec /\
      let name := alloc_name (ips_Scope spec) poolName (scoped_entity spec node vs) in
      match IPAMPoolAllocators w !! name with
      | None => exists err, AllocateAddress poolName node vs w = Done (Err err) w
      | Some None => AllocateAddress poolName node vs w = Panic
      | Some (Some a) =>
          match Ipam.AllocateIPAddress a with
          | Panic => AllocateAddress poolName node vs w = Panic
          | Done (inl _) a' =>
              AllocateAddress poolName node vs w =
                Done (Err ("Cannot allocate address from ipam pool " +:+ poolName))
                  (with_IPAMPoolAllocators (<[name := Some a']> (IPAMPoolAllocators w)) w)
          | Done (inr (ipAddress, ipNum)) a' =>
              exists addrs, ip_Status p = Some (Some addrs) /\
              AllocateAddress poolName node vs w =
                Done (Ok (ipAddress, ipNum))
                  (with_ipamPoolCache
                     (<[poolName := with_ip_Status
                          (Some (Some (<[Ipam.Name a' := Ipam.GetAllocatedAddressesStatus a']> addrs))) p]>
                        (ipamPoolCache w))
                     (with_IPAMPoolAllocators (<[name := Some a']> (IPAMPoolAllocators w)) w))
          end
      end
  end.
Proof.
  destruct (ipamPoolCache w !! poolName) as [p|] eqn:Hp.
  2:{ unfold AllocateAddress, mbnd, get. by rewrite Hp. }
  intros (md & spec & Hm & <- & Hs & Hv) (addrs & Hst). exists spec. split; [done|].
  destruct (FindAllocator_run (md_Name md) p md spec (scoped_entity spec node vs) w Hp Hm Hs Hv)
    as [err Ef].
  intros name. change (alloc_name (ips_Scope spec) (md_Name md) (scoped_entity spec node vs)) with name in Ef.
  assert (forall r, FindAllocator (md_Name md) (scoped_entity spec node vs) w = Done r w ->
    AllocateAddress (md_Name md) node vs w =
      match r with
      | inl err => Done (Err ("Cannot find ipam pool allocator for " +:+ md_Name md +:+ ": " +:+ err)) w
      | inr n => mbnd (on_allocator n Ipam.AllocateIPAddress) (fun r => match r with
          | inl _ => mfail ("Cannot allocate address from ipam pool " +:+ md_Name md)
          | inr (ipAddress, ipNum) => update_addresses (md_Name md) n ;;; mok (ipAddress, ipNum) end) w
      end) as Hrun.
  { intros r Hr. unfold AllocateAddress at 1. unfold mbnd at 1, get. rewrite Hp, Hs.
    unfold mbnd at 1. cbn [deref mret]. unfold mbnd at 1. rewrite Hr. by destruct r. }
  specialize (Hrun _ Ef). destruct (IPAMPoolAllocators w !! name) as [[a|]|] eqn:Ea.
  - cbn [Ok] in Hrun. unfold mbnd at 1 in Hrun. destruct (Ipam.AllocateIPAddress a) as [r a'|] eqn:Er.
    + erewrite on_allocator_run in Hrun by done. destruct r as [e|[str num]]; [done|].
      exists addrs. split; [done|]. rewrite Hrun.
      set (w1 := with_IPAMPoolAllocators _ w).
      assert (forall A (f : Ipam.PoolAllocatorType -> A), on_allocator name (get f) w1 = Done (f a') w1) as Hget.
      { intros A f. rewrite (on_allocator_run name _ a' (f a') a'); [|by cbn; rewrite lookup_insert_eq|done].
        unfold w1. cbn [IPAMPoolAllocators with_IPAMPoolAllocators]. by rewrite insert_insert_eq. }
      unfold update_addresses. unfold mbnd at 1, mbnd at 1. rewrite Hget.
      unfold mbnd at 1. rewrite Hget. unfold mbnd, get. cbn [ipamPoolCache with_IPAMPoolAllocators w1].
      rewrite Hp. cbn [deref mret]. by rewrite Hst.
    + rewrite Hrun. by erewrite on_allocator_panic.
  - cbn [Ok] in Hrun. rewrite Hrun. unfold on_allocator, mbnd, get. by rewrite Ea.
  - cbn [Err] in Hrun. eexists. exact Hrun.
Qed.

(** *** Changing a pool *)

(** The allocators of [w] are in [w'] as they were; [w'] has the same caches. *)
Definition keeps_allocators (w w' : World) : Prop :=
  (forall name a, IPAMPoolAllocators w !! name = Some a -> IPAMPoolAllocators w' !! name = Some a) /\
  (exists n A, w' = with_clock n (with_IPAMPoolAllocators A w)).

Lemma keeps_allocators_refl n w : keeps_allocators w (with_clock n w).
Proof. split; [done|]. exists n, (IPAMPoolAllocators w). by destruct w. Qed.

Lemma EntityCreate_keeps e s w0 w :
  valid_scope s -> wf_pools (ipamPoolCache w0) -> keeps_allocators w0 w ->
  wp (EntityCreate e s) (fun _ w' => keeps_allocators w0 w') w.
Proof.
  intros Hv Hwf [Hk (n & A & ->)]. eapply wp_conseq; [by apply EntityCreate_wp|].
  intros _ w' (n' & A' & ks & [H1 _ _] & _ & ->). split; [intros; by apply H1, Hk|].
  by exists n', A'.
Qed.

(** The objects of a cache have their metadata. *)
Definition named_nodes (w : World) : Prop :=
  forall k nn, networkNodeCache w !! k = Some nn -> is_Some (nn_Metadata nn).

Definition named_services (w : World) : Prop :=
  forall k ns, networkServiceCache w !! k = Some ns -> is_Some (ns_Metadata ns).

Lemma create_for_all_keeps {A} (prj : World -> gmap string A) (md : A -> option MetaDataType) s w :
  (forall n A w, prj (with_clock n (with_IPAMPoolAllocators A w)) = prj w) ->
  (forall k a, prj w !! k = Some a -> is_Some (md a)) ->
  valid_scope s -> wf_pools (ipamPoolCache w) ->
  wp (range_map prj (fun _ a => let! md := deref (md a) in EntityCreate (md_Name md) s))
     (fun _ w' => keeps_allocators w w') w.
Proof.
  intros Hprj Hmd Hv Hwf.
  apply (wp_range_map _ _ _ (fun _ w' => keeps_allocators w w')); [intros; apply keeps_allocators_refl| |done].
  intros d k w' _ Hks Hk. destruct Hk as [Hk (n & A' & ->)]. rewrite Hprj.
  destruct (Hks k) as [a Ha]; [by apply elem_of_app; right; left|]. rewrite Ha.
  destruct (Hmd k a Ha) as [m Hm]. rewrite Hm. do 2 wp_step. apply EntityCreate_keeps; [done..|].
  split; [done|by exists n, A'].
Qed.

(** Creating or updating a pool installs it with an empty status (whatever
    status was posted) and stores it in etcd, but never replaces an allocator: when
    the network or range of a pool changes, the nodes and services that have an
    allocator keep allocating from the old network. *)
Theorem pool_update_keeps_allocators k p w :
  wf_pool k p -> wf_pools (ipamPoolCache w) -> named_nodes w -> named_services w ->
  wp (HandleCRUDOperationCU p)
     (fun r w' =>
        ipamPoolCache w' = <[k := with_ip_Status (Some (Some ∅)) p]> (ipamPoolCache w) /\
        (r = Ok tt -> etcd w' !! NameKey k = Some (VIPAMPool (with_ip_Status (Some (Some ∅)) p))) /\
        forall name a, IPAMPoolAllocators w !! name = Some a -> IPAMPoolAllocators w' !! name = Some a) w.
Proof.
  intros (md & spec & Hm & Hk & Hs & Hv) Hwf Hnn Hns. unfold HandleCRUDOperationCU.
  cbn [ip_Metadata ip_Spec with_ip_Status]. rewrite Hm, Hs. do 2 wp_step. cbv beta. rewrite Hk.
  do 2 wp_step. set (w1 := with_ipamPoolCache _ w). do 3 wp_step. cbv beta.
  assert (wf_pools (ipamPoolCache w1)) as Hwf1.
  { intros k' p'. unfold w1. cbn. destruct (decide (k' = k)) as [->|Hne].
    - rewrite lookup_insert_eq. intros [= <-]. by exists md, spec.
    - rewrite lookup_insert_ne by done. apply Hwf. }
  apply (wp_conseq _ _ (fun _ w' => keeps_allocators w1 w')).
  - destruct (String.eqb_spec (ips_Scope spec) IPAMPoolScopeSystem).
    { apply EntityCreate_keeps; [done..|]. split; [done|]. exists (clock w1), (IPAMPoolAllocators w1). by destruct w. }
    destruct (String.eqb_spec (ips_Scope spec) IPAMPoolScopeNode).
    { by apply (create_for_all_keeps networkNodeCache nn_Metadata). }
    destruct (String.eqb_spec (ips_Scope spec) IPAMPoolScopeNetworkService).
    { by apply (create_for_all_keeps networkServiceCache ns_Metadata). }
    destruct Hv as [?|[?|?]]; done.
  - intros [] w2 [Hkeep (n & A & ->)]. do 2 wp_step. unfold writeToDatastore. cbn [ip_Metadata with_ip_Status].
    rewrite Hm. do 2 wp_step. cbv beta. rewrite Hk.
    assert (forall X : gmap string IPAMPool, <[k := with_ip_Status (Some (Some ∅)) (with_ip_Status None p)]>
       (<[k := with_ip_Status None p]> X) = <[k := with_ip_Status (Some (Some ∅)) p]> X) as Hc.
    { intros X. by rewrite insert_insert_eq. }
    apply wp_WriteToDatastore.
    + intros e. split_and!; [apply Hc|done|done].
    + split_and!; [apply Hc| |done]. intros _. cbn. by rewrite lookup_insert_eq.
Qed.

(** *** Deleting a pool *)

(** What [EntityDelete "" or name] leaves when the pools [d] of scope system are done. *)
Record deleted (C : gmap string IPAMPool) (A0 : gmap string (option Ipam.PoolAllocatorType))
  (d : list string) (w : World) : Prop := {
  de_pools : forall k p, C !! k = Some p -> exists q, ipamPoolCache w !! k = Some q /\
     ip_Metadata q = ip_Metadata p /\ ip_Spec q = ip_Spec p /\ has_status q;
  de_gone : forall k p spec a, k ∈ d -> C !! k = Some p -> ip_Spec p = Some spec ->
     ips_Scope spec = IPAMPoolScopeSystem ->
     IPAMPoolAllocators w !! alloc_name IPAMPoolScopeSystem k "" <> Some (Some a);
  de_kept : forall name, (forall k p, C !! k = Some p -> name <> alloc_name IPAMPoolScopeSystem k "") ->
     IPAMPoolAllocators w !! name = A0 !! name;
  de_mono : forall name, IPAMPoolAllocators w !! name = A0 !! name \/ IPAMPoolAllocators w !! name = None
}.

Lemma alloc_name_system k e : alloc_name IPAMPoolScopeSystem k e = alloc_name IPAMPoolScopeSystem k "".
Proof. done. Qed.

Lemma entity_delete_pool_wp C A0 e d k p w :
  wf_pools C -> C !! k = Some p -> deleted C A0 d w -> ~ (k ∈ d) ->
  match ipamPoolCache w !! k with
  | Some q => wp (entity_delete_pool e IPAMPoolScopeSystem k q) (fun _ w' => deleted C A0 (d ++ [k]) w') w
  | None => False
  end.
Proof.
  intros Hwf Hp [H1 H2 H3 H4] Hni. destruct (H1 k p Hp) as (q & Hq & Eqm & Eqs & [addrs Hst]).
  rewrite Hq. destruct (Hwf k p Hp) as (md & spec & Hm & Hk & Hs & Hv). rewrite Hm in Eqm. rewrite Hs in Eqs.
  unfold entity_delete_pool. rewrite Eqs. do 2 wp_step. cbv beta. change (String.eqb IPAMPoolScopeSystem IPAMPoolScopeAny) with false.
  rewrite orb_false_r. destruct (String.eqb_spec (ips_Scope spec) IPAMPoolScopeSystem) as [Hsc|Hsc].
  2:{ apply wp_ret. split; [done| |done|done]. intros k' p' spec' a [Hd|Hd%list_elem_of_singleton]%elem_of_app; [by apply H2|].
      intros. simplify_eq. }
  rewrite Eqm. do 3 wp_step. rewrite Hk.
  destruct (FindAllocator_run k q md spec e w Hq Eqm Eqs Hv) as [err Ef]. rewrite Hk, Hsc, alloc_name_system in Ef.
  eapply wp_run; [exact Ef|]. cbv beta.
  destruct (IPAMPoolAllocators w !! alloc_name IPAMPoolScopeSystem k "") as [[a|]|] eqn:Ea; cbn [Ok Err].
  - wp_step. wp_step. rewrite Ea. cbn. wp_step.
    eapply wp_run; [by apply (contructAllocatorName_run q md spec)|]. rewrite Hk, Hsc, alloc_name_system, Hst.
    do 4 wp_step. cbv beta. do 1 wp_step. split; cbn.
    + intros k' p' Hp'. destruct (decide (k' = k)) as [->|Hne].
      * rewrite lookup_insert_eq. simplify_eq. eexists. split; [done|]. cbn. split_and!; [congruence..|by eexists].
      * rewrite lookup_insert_ne by done. by apply H1.
    + intros k' p' spec' a' Hd Hp' Hs' Hsc'. destruct (decide (k' = k)) as [->|Hne].
      * by rewrite lookup_delete_eq.
      * rewrite lookup_delete_ne by (intros E'; by pose proof (alloc_name_inj IPAMPoolScopeSystem _ _ "" E')).
        apply elem_of_app in Hd as [Hd|Hd%list_elem_of_singleton]; [by eapply H2|done].
    + intros name Hn. rewrite lookup_delete_ne by (intros <-; by apply (Hn k p)). by apply H3.
    + intros name. destruct (decide (name = alloc_name IPAMPoolScopeSystem k "")) as [->|Hne].
      * right. by rewrite lookup_delete_eq.
      * rewrite lookup_delete_ne by done. apply H4.
  - do 2 wp_step. rewrite Ea. cbn. split; [done| |done|done].
    intros k' p' spec' a [Hd|Hd%list_elem_of_singleton]%elem_of_app; [by apply H2|]. intros; subst. by rewrite Ea.
  - do 3 wp_step. split; [done| |done|done].
    intros k' p' spec' a [Hd|Hd%list_elem_of_singleton]%elem_of_app; [by apply H2|]. intros; subst. by rewrite Ea.
Qed.

Lemma keeps_delete_pool name e s k q X :
  k <> name -> keeps (fun w => ipamPoolCache w !! name = None /\ etcd w = X) (entity_delete_pool e s k q).
Proof.
  intros Hne. unfold entity_delete_pool, FindAllocator, contructAllocatorName. keeps_auto;
    apply keeps_modify; intros w [Hn He]; split; try done. cbn. by rewrite lookup_insert_ne.
Qed.

(** Deleting a pool of scope "system" removes it from the cache and etcd, but
    the allocator that goes is the wrong one: [EntityDelete] runs over the pools that
    remain, so every other system pool loses its allocator (and with it the record of
    the addresses in use), while the allocator of the deleted pool stays. *)
Theorem pool_delete_system name p spec w :
  wf_pools (ipamPoolCache w) -> (forall k q, ipamPoolCache w !! k = Some q -> has_status q) ->
  ipamPoolCache w !! name = Some p -> ip_Spec p = Some spec -> ips_Scope spec = IPAMPoolScopeSystem ->
  wp (HandleCRUDOperationD name)
     (fun r w' =>
        r = Ok tt /\ ipamPoolCache w' !! name = None /\ etcd w' !! NameKey name = None /\
        IPAMPoolAllocators w' !! alloc_name IPAMPoolScopeSystem name "" =
          IPAMPoolAllocators w !! alloc_name IPAMPoolScopeSystem name "" /\
        forall k q sq a, k <> name -> ipamPoolCache w !! k = Some q -> ip_Spec q = Some sq ->
          ips_Scope sq = IPAMPoolScopeSystem ->
          IPAMPoolAllocators w' !! alloc_name IPAMPoolScopeSystem k "" <> Some (Some a)) w.
Proof.
  intros Hwf Hst Hp Hs Hsc. unfold HandleCRUDOperationD. do 2 wp_step. rewrite Hp.
  set (C := delete name (ipamPoolCache w)). do 3 wp_step. apply wp_modify. rewrite Hs. do 2 wp_step. cbv beta.
  rewrite Hsc. wp_step.
  assert (wf_pools C) as HwfC. { intros k q Hq. apply lookup_delete_Some in Hq as [_ Hq]. by apply Hwf. }
  set (w1 := with_etcd_log _ _).
  assert (deleted C (IPAMPoolAllocators w) [] w1) as Hd0.
  { split; [|by intros ???? ?%not_elem_of_nil|done|by left].
    intros k q Hq. exists q. split_and!; [done..|]. apply lookup_delete_Some in Hq as [_ Hq]. by eapply Hst. }
  apply (wp_range_map _ _ _ (fun d w' => deleted C (IPAMPoolAllocators w) d w' /\
           ipamPoolCache w' !! name = None /\ etcd w' = etcd w1)).
  - intros n. split_and!; [|by cbn; rewrite lookup_delete_eq|done].
    destruct Hd0 as [H1 H2 H3 H4]. by split.
  - intros d k w' Hnd Hks (Hd & Hnn & He). change (ipamPoolCache w1) with C in Hks.
    destruct (Hks k) as [q Hq]; [by apply elem_of_app; right; left|].
    apply NoDup_app in Hnd as (_ & Hnd & _).
    assert (~ (k ∈ d)) as Hni by (intros Hd'; by apply (Hnd k Hd'); left).
    assert (k <> name) as Hne by (intros ->; unfold C in Hq; by rewrite lookup_delete_eq in Hq).
    pose proof (entity_delete_pool_wp C _ name d k q w' HwfC Hq Hd Hni) as Hw.
    destruct (ipamPoolCache w' !! k) as [q'|] eqn:Hq'; [|done].
    eapply (wp_keeps _ (fun w2 => ipamPoolCache w2 !! name = None /\ etcd w2 = etcd w1));
      [by apply keeps_delete_pool|done|exact Hw|done].
  - intros ks w' _ Hks ([H1 H2 H3 H4] & Hnn & He). do 1 wp_step. change (ipamPoolCache w1) with C in Hks.
    split_and!; [done|done|by rewrite He; cbn; rewrite lookup_delete_eq| |].
    + apply H3. intros k q Hq E'%alloc_name_inj. subst k. unfold C in Hq. by rewrite lookup_delete_eq in Hq.
    + intros k q sq a Hne Hq Hsq Hscq. assert (C !! k = Some q) as Hq' by (unfold C; by rewrite lookup_delete_ne).
      eapply H2; [|done..]. apply Hks. by eexists.
Qed.

End properties.

(** *** Concrete pools *)

Definition demo_pool (name : string) : IPAMPool :=
  mkIPAMPool (Some (mkMeta name ∅)) (Some (mkIPAMPoolSpec IPAMPoolScopeSystem "10.1.0.0/24" 0 0)) (Some (Some ∅)).

(** Two system pools, each with its allocator. *)
Definition demo_world : World :=
  with_ipamPoolCache (<["a" := demo_pool "a"]> {["b" := demo_pool "b"]})
    (with_IPAMPoolAllocators
       (<["/system/a" := Ipam.NewIPAMPoolAllocator "/system/a" 0 0 "10.1.0.0/24"]>
          {["/system/b" := Ipam.NewIPAMPoolAllocator "/system/b" 0 0 "10.1.0.0/24"]})
       initial_world).

Lemma wf_demo_pool name : wf_pool name (demo_pool name).
Proof. eexists _, _. split_and!; [done..|]. by left. Qed.

Lemma demo_pools k p : ipamPoolCache demo_world !! k = Some p -> p = demo_pool k.
Proof.
  cbn. destruct (decide (k = "a")) as [->|Ha]; [rewrite lookup_insert_eq; by intros [= <-]|].
  rewrite lookup_insert_ne by done. intros [<- <-]%lookup_singleton_Some. done.
Qed.

Lemma wf_demo_pools : wf_pools (ipamPoolCache demo_world).
Proof. intros k p ->%demo_pools. apply wf_demo_pool. Qed.

Lemma EntityCreate_makes_missing_witness :
  wp (@EntityCreate quiet_env "" IPAMPoolScopeSystem)
    (fun _ w' => forall name a, IPAMPoolAllocators demo_world !! name = Some a ->
       IPAMPoolAllocators w' !! name = Some a) demo_world.
Proof.
  eapply wp_conseq.
  - apply (@EntityCreate_makes_missing quiet_env "" IPAMPoolScopeSystem demo_world).
    + by left.
    + apply wf_demo_pools.
  - intros ? ? H. apply H.
Defined.

(** The first address of pool "a", for any node and service. *)
Lemma AllocateAddress_refines_witness :
  exists w', AllocateAddress "a" "node" "vs" demo_world = Done (Ok ("10.1.0.1/24", 1)) w' /\
    ip_Status <$> ipamPoolCache w' !! "a" =
      Some (Some (Some {["/system/a" := "1 of 254 addresses are set, 253 are free"]})).
Proof.
  destruct (AllocateAddress_refines "a" "node" "vs" demo_world) as (spec & Hs & H).
  - apply wf_demo_pool.
  - by exists ∅.
  - injection Hs as <-. vm_compute in H. destruct H as (addrs & [= <-] & H).
    eexists. split; [vm_compute; exact H|vm_compute; reflexivity].
Defined.

(** A new network for pool "a": its allocator stays. *)
Lemma pool_update_keeps_allocators_witness :
  let p := mkIPAMPool (Some (mkMeta "a" ∅)) (Some (mkIPAMPoolSpec IPAMPoolScopeSystem "192.168.0.0/24" 0 0)) None in
  wp (@HandleCRUDOperationCU quiet_env p)
    (fun _ w' => IPAMPoolAllocators w' !! "/system/a" = IPAMPoolAllocators demo_world !! "/system/a" /\
       ip_Spec <$> ipamPoolCache w' !! "a" = Some (ip_Spec p)) demo_world.
Proof.
  intros p. eapply wp_conseq.
  - apply (@pool_update_keeps_allocators quiet_env "a" p demo_world).
    + eexists _, _. split_and!; [done..|]. by left.
    + apply wf_demo_pools.
    + intros k nn H. cbn in H. by rewrite lookup_empty in H.
    + intros k ns H. cbn in H. by rewrite lookup_empty in H.
  - intros r w' (Hc & _ & Ha). rewrite Hc, lookup_insert_eq. split; [|reflexivity].
    rewrite (Ha "/system/a" (Ipam.NewIPAMPoolAllocator "/system/a" 0 0 "10.1.0.0/24")); reflexivity.
Defined.

Lemma pool_delete_system_witness :
  wp (@HandleCRUDOperationD quiet_env "a")
    (fun _ w' => (forall a, IPAMPoolAllocators w' !! "/system/b" <> Some (Some a)) /\
       IPAMPoolAllocators w' !! "/system/a" = IPAMPoolAllocators demo_world !! "/system/a") demo_world.
Proof.
  eapply wp_conseq.
  - eapply (@pool_delete_system quiet_env "a" (demo_pool "a") _ demo_world).
    + apply wf_demo_pools.
    + intros k q ->%demo_pools. by exists ∅.
    + reflexivity.
    + reflexivity.
    + reflexivity.
  - intros r w' (_ & _ & _ & Ha & Hb). split; [|exact Ha].
    intros a. apply (Hb "b" (demo_pool "b") (mkIPAMPoolSpec IPAMPoolScopeSystem "10.1.0.0/24" 0 0) a);
      [done|reflexivity|reflexivity|reflexivity].
Defined.
End IpamPool.
