(* ===== verification/PodNodeMap.v ===== *)
(** * Where pods run: src/plugins/controller/networkpodnodemap.go

    Module PodNodeMap: the manager of the [NetworkPodToNodeMap] objects.  The
    configured placements are in [networkPodNodeCache]; the placements that the
    renderers use are in [ramCache.NetworkPodToNodeMap], which also holds what
    Contiv reports in etcd. *)

From S2P Require Import Prelude GoStd Model State.

Module PodNodeMap.

Definition KeyPrefix : string := SfcControllerConfigPrefix +:+ "network-pod-to-node-map/".

Definition NameKey (name : string) : string := KeyPrefix +:+ name.

Definition ContivKsrNetworkPodToNodePrefix : string :=
  SfcControllerContivKSRPrefix +:+ SfcControllerStatusPrefix +:+ "network-pod-to-node-map/".

Definition InitRAMCache : M World unit := put_field with_networkPodNodeCache ∅.

Definition ConfigEqual (p2n p2n2 : NetworkPodToNodeMap) : bool := bool_decide (p2n = p2n2).

Definition validate (p2n : NetworkPodToNodeMap) : option error := None.

(** The action of [loadAllFromDatastore]: [p2nMap[p2n.Pod] = p2n]. *)
Fixpoint load_into (vs : list Value) (p2nMap : gmap string NetworkPodToNodeMap)
  : M World (gmap string NetworkPodToNodeMap) :=
  match vs with
  | [] => mret p2nMap
  | VPodToNode p2n :: vs => load_into vs (<[pn_Pod p2n := p2n]> p2nMap)
  | _ :: _ => panic (* log.Fatal: the value does not unmarshal *)
  end.

Section env.
Context {E : Env}.

Definition writeToDatastore (p2n : NetworkPodToNodeMap) : M World (result unit) :=
  WriteToDatastore (NameKey (pn_Pod p2n)) (VPodToNode p2n).

Definition deleteFromDatastore (p2n : NetworkPodToNodeMap) : M World unit :=
  DeleteFromDatastore (NameKey (pn_Pod p2n)).

Definition HandleCRUDOperationCU (p2n : NetworkPodToNodeMap) : M World (result unit) :=
  match validate p2n with
  | Some e => mfail e
  | None =>
      modify (fun w => with_networkPodNodeCache (<[pn_Pod p2n := p2n]> (networkPodNodeCache w)) w) ;;;
      modify (fun w => with_ramPodToNode (<[pn_Pod p2n := p2n]> (ramPodToNode w)) w) ;;;
      writeToDatastore p2n
  end.

Definition HandleCRUDOperationR (name : string) : M World (option NetworkPodToNodeMap) :=
  get (fun w => networkPodNodeCache w !! name).

Definition HandleCRUDOperationD (name : string) : M World (result unit) :=
  modify (fun w => with_networkPodNodeCache (delete name (networkPodNodeCache w)) w) ;;;
  DeleteFromDatastore (NameKey name) ;;;
  mok tt.

Definition HandleCRUDOperationGetAll : M World (gmap string NetworkPodToNodeMap) := get networkPodNodeCache.

Definition loadAllFromDatastore (prefix : string) (p2nMap : gmap string NetworkPodToNodeMap)
  : M World (gmap string NetworkPodToNodeMap) :=
  let! vs := ReadAll prefix in load_into vs p2nMap.

Definition LoadAllFromDatastoreIntoCache : M World (result unit) :=
  let! ram := get ramPodToNode in
  let! ram := loadAllFromDatastore KeyPrefix ram in
  put_field with_ramPodToNode ram ;;;
  let! cache := get networkPodNodeCache in
  let! cache := loadAllFromDatastore KeyPrefix cache in
  put_field with_networkPodNodeCache cache ;;;
  mok tt.

Definition Init : M World unit := InitRAMCache ;;; LoadAllFromDatastoreIntoCache ;;; mret tt.

(** [networkPodNodeMapProcessPost] on a parsed body. *)
Definition networkPodNodeMapProcessPost (urlName : string) (p2n : NetworkPodToNodeMap)
  : M World (reply NetworkPodToNodeMap) :=
  if negb (String.eqb urlName (pn_Pod p2n)) then
    mret (BadRequest "json name does not matach url name")
  else
    let! existing := HandleCRUDOperationR urlName in
    if match existing with Some p => ConfigEqual p p2n | None => false end
    then mret (HttpOK None)
    else match validate p2n with
         | Some err => mret (BadRequest err)
         | None => mret (HttpOK (Some p2n))
         end.

(** [SyncNetworkPodToNodeMap]: whether rendering is required. *)
Definition SyncNetworkPodToNodeMap : M World bool :=
  let! contivNetworkPodToNodeMapMap := loadAllFromDatastore ContivKsrNetworkPodToNodePrefix ∅ in
  let! tempNetworkPodToNodeMapMap := get ramPodToNode in
  put_field with_ramPodToNode ∅ ;;;
  range_map networkPodNodeCache (fun pod entry =>
    modify (fun w => with_ramPodToNode (<[pod := entry]> (ramPodToNode w)) w)) ;;;
  range_map (fun _ => contivNetworkPodToNodeMapMap) (fun pod entry =>
    modify (fun w => with_ramPodToNode (<[pod := entry]> (ramPodToNode w)) w)) ;;;
  let! ram := get ramPodToNode in
  if negb (size tempNetworkPodToNodeMapMap =? size ram)%nat then mret true
  else
    let! pods := order_keys tempNetworkPodToNodeMapMap in
    mret (existsb (fun pod =>
      match tempNetworkPodToNodeMapMap !! pod with
      | Some entry => match ram !! pn_Pod entry with
                      | Some ramEntry => negb (ConfigEqual ramEntry entry)
                      | None => true
                      end
      | None => false
      end) pods).

End env.

(** ** Properties *)

(** Placements kept under the name of their pod. *)
Definition keyed (m : gmap string NetworkPodToNodeMap) : Prop := forall k p, m !! k = Some p -> pn_Pod p = k.

(** What etcd holds under a prefix: every value is a placement, stored under its pod. *)
Definition held_under (prefix : string) (w : World) (m : gmap string NetworkPodToNodeMap) : Prop :=
  keyed m /\
  (forall k v, etcd w !! k = Some v -> String.prefix prefix k = true ->
     exists p, v = VPodToNode p /\ k = prefix +:+ pn_Pod p) /\
  (forall pod p, m !! pod = Some p <-> etcd w !! (prefix +:+ pod) = Some (VPodToNode p)).

(** What Contiv reports. *)
Definition contiv_reports : World -> gmap string NetworkPodToNodeMap -> Prop := held_under ContivKsrNetworkPodToNodePrefix.

Section properties.
Context {E : Env}.

Lemma load_into_keyed vs m0 w :
  Forall (fun v => exists p, v = VPodToNode p) vs ->
  exists m, load_into vs m0 w = Done m w /\ (keyed m0 -> keyed m) /\
    (forall pod p, m !! pod = Some p -> m0 !! pod = Some p \/ VPodToNode p ∈ vs) /\
    (forall p, VPodToNode p ∈ vs -> is_Some (m !! pn_Pod p)) /\
    (forall pod, is_Some (m0 !! pod) -> is_Some (m !! pod)).
Proof.
  revert m0. induction vs as [|v vs IH]; intros m0 Hf.
  { exists m0. split_and!; [done..|by left| |done]. by intros p ?%not_elem_of_nil. }
  apply Forall_cons in Hf as [[p ->] Hf]. destruct (IH (<[pn_Pod p := p]> m0) Hf) as (m & Er & Hk & H1 & H2 & H3).
  exists m. split_and!.
  - exact Er.
  - intros Hk0. apply Hk. intros k q. destruct (decide (k = pn_Pod p)) as [->|Hne].
    + rewrite lookup_insert_eq. by intros [= <-].
    + rewrite lookup_insert_ne by done. apply Hk0.
  - intros pod q [Hq|Hq]%H1; [|by right; right].
    destruct (decide (pod = pn_Pod p)) as [->|Hne].
    + rewrite lookup_insert_eq in Hq. injection Hq as <-. right; left.
    + rewrite lookup_insert_ne in Hq by done. by left.
  - intros q [Hq|Hq]%elem_of_cons; [|by apply H2]. injection Hq as ->. apply H3.
    rewrite lookup_insert_eq. eauto.
  - intros pod Hp. apply H3. destruct (decide (pod = pn_Pod p)) as [->|Hne].
    + rewrite lookup_insert_eq. eauto.
    + by rewrite lookup_insert_ne.
Qed.

Lemma load_held prefix w m :
  held_under prefix w m -> (forall n k, get_error n k = None) ->
  wp (loadAllFromDatastore prefix ∅)
     (fun m' w' => m' = m /\ exists n, w' = with_clock n w) w.
Proof.
  intros (Hk & Hv & Hm) Hge. unfold loadAllFromDatastore, ReadAll, tick. wp_auto.
  rewrite Hge. wp_auto. apply wp_order_keys. intros ks n Hnd Hks. wp_step. cbv beta.
  set (w1 := with_clock n _). set (vs := omap _ ks).
  assert (forall v, v ∈ vs <-> exists p, v = VPodToNode p /\ m !! pn_Pod p = Some p) as Hvs.
  { intros v. unfold vs. rewrite list_elem_of_omap. split.
    - intros (k & Hk1 & Hk2). unfold keys_under in Hk2. apply map_lookup_filter_Some in Hk2 as [Hl Hp].
      destruct (Hv k v Hl Hp) as (p & -> & ->). exists p. split; [done|]. by apply Hm.
    - intros (p & -> & Hp). apply Hm in Hp.
      exists (prefix +:+ pn_Pod p).
      assert (keys_under prefix (etcd w) !!
        (prefix +:+ pn_Pod p) = Some (VPodToNode p)) as Hl.
      { apply map_lookup_filter_Some. split; [done|]. apply prefix_app. }
      split; [|exact Hl]. apply Hks. by eexists. }
  destruct (load_into_keyed vs ∅ w1) as (m' & Er & Hk' & H1 & H2 & _).
  { apply Forall_forall. intros v (p & -> & _)%Hvs. eauto. }
  eapply wp_run; [exact Er|]. split; [|by exists n].
  assert (keyed m') as Hkm by (apply Hk'; by intros k p ?%lookup_empty_Some).
  apply map_eq. intros pod. apply option_eq. intros p. split.
  - intros Hp. destruct (H1 pod p Hp) as [?%lookup_empty_Some|(q & [= <-] & Hq)%Hvs]; [done|].
    by rewrite (Hkm _ _ Hp) in Hq.
  - intros Hp. assert (VPodToNode p ∈ vs) as Hin.
    { apply Hvs. exists p. split; [done|]. by rewrite (Hk _ _ Hp). }
    destruct (H2 p Hin) as [q Hq]. rewrite (Hk _ _ Hp) in Hq.
    destruct (H1 pod q Hq) as [?%lookup_empty_Some|(q' & [= <-] & Hq')%Hvs]; [done|].
    rewrite (Hkm _ _ Hq) in Hq'. by simplify_eq.
Qed.

(** Copying a map into [ramPodToNode], in any order. *)
Lemma copy_into_ram (src : World -> gmap string NetworkPodToNodeMap) w :
  (forall n r, src (with_clock n (with_ramPodToNode r w)) = src w) ->
  wp (range_map src (fun pod entry =>
        modify (fun w => with_ramPodToNode (<[pod := entry]> (ramPodToNode w)) w)))
     (fun _ w' => exists n, w' = with_clock n (with_ramPodToNode (src w ∪ ramPodToNode w) w)) w.
Proof.
  intros Hsrc.
  apply (wp_range_map _ _ _ (fun d w' => exists n r, w' = with_clock n (with_ramPodToNode r w) /\
    forall k, r !! k = if decide (k ∈ d) then src w !! k else ramPodToNode w !! k)).
  - intros n. exists n, (ramPodToNode w). split; [by destruct w|].
    intros k. by rewrite decide_False by apply not_elem_of_nil.
  - intros d k w' _ Hks (n & r & -> & Hr). rewrite Hsrc.
    destruct (Hks k) as [p Hp]; [by apply elem_of_app; right; left|]. rewrite Hp.
    wp_step. exists n, (<[k := p]> r). split; [done|]. intros k'.
    destruct (decide (k' = k)) as [->|Hne].
    + rewrite lookup_insert_eq, decide_True; [done|]. apply elem_of_app. right. left.
    + rewrite lookup_insert_ne, Hr by done.
      destruct (decide (k' ∈ d)); [rewrite decide_True|rewrite decide_False]; set_solver.
  - intros ks w' _ Hks (n & r & -> & Hr). exists n. f_equal. f_equal. apply map_eq. intros k.
    rewrite Hr. destruct (decide (k ∈ ks)) as [Hin|Hni].
    + apply Hks in Hin as [p Hp]. symmetry. rewrite Hp. by apply lookup_union_Some_l.
    + assert (src w !! k = None) as Hn by (apply eq_None_not_Some; by rewrite <- Hks).
      symmetry. by apply lookup_union_r.
Qed.

(** After a resync, the placements the renderers use are what Contiv reports,
    over what is configured, whatever they were before and in whatever order the maps
    are visited; rendering is required exactly when they changed, and nothing else
    of the state changes. *)
Theorem Sync_spec contiv w :
  contiv_reports w contiv -> keyed (networkPodNodeCache w) -> keyed (ramPodToNode w) ->
  (forall n k, get_error n k = None) ->
  wp SyncNetworkPodToNodeMap
     (fun required w' =>
        ramPodToNode w' = contiv ∪ networkPodNodeCache w /\
        (required = true <-> ramPodToNode w' <> ramPodToNode w) /\
        exists n, w' = with_clock n (with_ramPodToNode (contiv ∪ networkPodNodeCache w) w)) w.
Proof.
  intros Hc Hkc Hkr Hge. unfold SyncNetworkPodToNodeMap. wp_step.
  eapply wp_conseq; [by apply load_held|]. intros ? w1 [-> [n ->]]. wpw.
  eapply wp_conseq; [by apply copy_into_ram|]. intros [] w2 [n2 ->]. wpw.
  eapply wp_conseq; [by apply (copy_into_ram (fun _ => contiv))|]. intros [] w3 [n3 ->]. wpw. cbn [ramPodToNode networkPodNodeCache with_clock with_ramPodToNode].
  rewrite (map_union_empty (networkPodNodeCache w)).
  set (ram := contiv ∪ networkPodNodeCache w).
  assert (keyed ram) as Hkram.
  { intros k p [Hp|[_ Hp]]%lookup_union_Some_raw; [by apply Hc|by apply Hkc]. }
  destruct (Nat.eqb_spec (size (ramPodToNode w)) (size ram)) as [Es|Es]; cbn [negb].
  - wp_step. apply wp_order_keys. intros ks n4 Hnd Hks. wp_step. split; [done|]. split; [|by exists n4].
    cbn [ramPodToNode with_clock with_ramPodToNode]. set (test := existsb _ ks).
    assert (test = true -> ram <> ramPodToNode w) as Hyes.
    { unfold test. rewrite existsb_exists. intros (k & _ & Hk) Heq.
      destruct (ramPodToNode w !! k) as [p|] eqn:Hp; [|done].
      rewrite (Hkr _ _ Hp), Heq, Hp in Hk. unfold ConfigEqual in Hk. by rewrite bool_decide_true in Hk. }
    assert (test = false -> ram = ramPodToNode w) as Hno.
    { intros Ht. symmetry. apply map_subseteq_size_eq; [|by rewrite Es]. apply map_subseteq_spec. intros k p Hp.
      destruct (decide (ram !! k = Some p)) as [|Hn]; [done|]. exfalso.
      enough (test = true) by congruence. apply existsb_exists.
      exists k. split; [apply list_elem_of_In, Hks; by eexists|].
      rewrite Hp, (Hkr _ _ Hp). destruct (ram !! k) as [q|]; [|done].
      unfold ConfigEqual. rewrite bool_decide_false; [done|]. by intros ->. }
    destruct test; [by split; [intros _; apply Hyes|]|]. split; [done|]. intros Hne. by destruct Hne; apply Hno.
  - wp_step. split; [done|]. split; [|by exists n3]. split; [|done]. intros _ Heq. apply Es.
    cbn in Heq. by rewrite <- Heq.
Qed.

(** A configured placement is effective at once (both maps and, unless etcd
    fails, the datastore), but deleting it removes it only from the configuration: the
    renderers keep the old placement until the next resync. *)
Theorem placement_update_delete p w :
  wp (HandleCRUDOperationCU p ;;; HandleCRUDOperationR (pn_Pod p))
     (fun r w' => r = Some p /\ ramPodToNode w' !! pn_Pod p = Some p) w /\
  wp (HandleCRUDOperationD (pn_Pod p))
     (fun r w' => r = Ok tt /\ networkPodNodeCache w' = delete (pn_Pod p) (networkPodNodeCache w) /\
        etcd w' !! NameKey (pn_Pod p) = None /\ ramPodToNode w' = ramPodToNode w) w.
Proof.
  split.
  - wp_step. unfold HandleCRUDOperationCU. cbn [validate]. wp_auto. unfold writeToDatastore.
    apply wp_WriteToDatastore; [intros e|]; apply wp_get; cbn; by rewrite !lookup_insert_eq.
  - unfold HandleCRUDOperationD. wpw. cbn. by rewrite lookup_delete_eq.
Qed.

End properties.

(** A pod that Contiv has moved to another node than the configured one. *)
Definition demo_contiv : gmap string NetworkPodToNodeMap := {["pod1" := mkPodToNode "pod1" "node2"]}.

Definition demo_world : World :=
  with_networkPodNodeCache {["pod1" := mkPodToNode "pod1" "node1"]}
    (with_etcd {[ContivKsrNetworkPodToNodePrefix +:+ "pod1" := VPodToNode (mkPodToNode "pod1" "node2")]}
       initial_world).

Lemma Sync_spec_witness :
  wp (@SyncNetworkPodToNodeMap quiet_env)
    (fun required w' => ramPodToNode w' !! "pod1" = Some (mkPodToNode "pod1" "node2") /\ required = true)
    demo_world.
Proof.
  eapply wp_conseq.
  - apply (@Sync_spec quiet_env demo_contiv demo_world).
    + split_and!.
      * intros k p H. unfold demo_contiv in H. by apply lookup_singleton_Some in H as [<- <-].
      * intros k v H _. unfold demo_world in H. cbn in H. apply lookup_singleton_Some in H as [<- <-]. by eexists.
      * intros pod p. unfold demo_contiv, demo_world. cbn. rewrite !lookup_singleton_Some. split.
        -- intros [<- <-]. done.
        -- intros [E [= <-]]. apply sapp_inj_l in E. by subst.
    + intros k p H. unfold demo_world in H. cbn in H. by apply lookup_singleton_Some in H as [<- <-].
    + intros k p H. cbn in H. by rewrite lookup_empty in H.
    + done.
  - intros required w' (Hr & Hreq & _). rewrite Hr. split; [reflexivity|]. apply Hreq. rewrite Hr. discriminate.
Defined.
End PodNodeMap.
