(* ===== verification/Interfaces.v ===== *)
(** * Interface states: src/plugins/controller/interfaces.go

    Module Interfaces: the state the controller keeps for an interface of a node
    or pod: its MAC address, the numbers allocated for it from address pools, its
    addresses.  A state is one object on the heap [if_heap], shared by
    [ramCache.InterfaceStates] and the status of the node or service that renders the
    interface.  A map of states passed to a function is returned changed. *)

From S2P Require Import Prelude GoStd GoNet IdAlloc Ipam Model State Utils IpamPool.

Module Interfaces.
Import Utils.

Definition InterfaceStatusKeyPrefix : string := SfcControllerStatusPrefix +:+ "interface/".

(** [ctlrPlugin.ramCache.MacAddrAllocator.Allocate()] *)
Definition allocate_mac : M World (string * Z) :=
  zoom MacAddrAllocator with_MacAddrAllocator MacAddr.Allocate.

Section env.
Context {E : Env}.

(** The state of an interface: the known one, or a new object. *)
Definition find_or_new_status (vppAgent entityInterfaceName : string) : M World loc :=
  let! o := get (fun w => InterfaceStates w !! entityInterfaceName) in
  match o with
  | Some l => mret l
  | None => on_if_heap (heap_new
              (mkInterfaceStatus entityInterfaceName "" [] "" 0 (Some ∅) [] 0 vppAgent "" 0 ""))
  end.

Definition set_mac (ifStatus : loc) (entityInterface : Interface) : M World unit :=
  let! s := on_if_heap (heap_read ifStatus) in
  if String.eqb (if_MacAddress entityInterface) "" then
    if String.eqb (is_MacAddress s) "" then
      let! a := allocate_mac in
      update_if ifStatus (fun s => with_is_MacAddrID (snd a) (with_is_MacAddress (fst a) s))
    else mret tt
  else if negb (String.eqb (is_MacAddress s) (if_MacAddress entityInterface)) then
    update_if ifStatus (with_is_MacAddress (if_MacAddress entityInterface))
  else mret tt.

(** [ifStatus.IpAddresses = append(ifStatus.IpAddresses, a)]: the list may share its
    array with the interface's, which has its own length and does not see it. *)
Definition append_address (a : string) (s : InterfaceStatus) : InterfaceStatus :=
  with_is_IpAddresses (is_IpAddresses s ++ [a]) s.

(** The addresses allocated earlier are marked as used and listed. *)
Definition mark_allocated (vppAgent entityName : string) (ifStatus : loc) : M World (result unit) :=
  let! s := on_if_heap (heap_read ifStatus) in
  let nums := default ∅ (is_IpamPoolNums s) in
  let! pools := order_keys nums in
  forR pools (fun poolName =>
    let? ipAddress := IpamPool.SetAddress poolName vppAgent entityName (default 0 (nums !! poolName)) in
    update_if ifStatus (append_address ipAddress) ;;;
    mok tt).

(** Addresses are allocated from the pools that gave none yet. *)
Definition allocate_missing (vppAgent entityName : string) (ifStatus : loc) (poolNames : list string)
  : M World (result unit) :=
  forR poolNames (fun poolName =>
    let! s := on_if_heap (heap_read ifStatus) in
    match default ∅ (is_IpamPoolNums s) !! poolName with
    | Some _ => mok tt
    | None =>
        let? a := IpamPool.AllocateAddress poolName vppAgent entityName in
        update_if ifStatus (append_address (fst a)) ;;;
        let! nums := deref (is_IpamPoolNums s) in
        update_if ifStatus (with_is_IpamPoolNums (Some (<[poolName := snd a]> nums))) ;;;
        mok tt
    end).

(** Each address is offered to every pool, in case a pool contains it. *)
Definition offer_addresses (vppAgent entityName : string) (ipAddresses : list string) : M World unit :=
  forM ipAddresses (fun ipAddress =>
    range_map ipamPoolCache (fun _ ipamPool =>
      let! md := deref (ip_Metadata ipamPool) in
      IpamPool.SetAddressIfInPool (md_Name md) vppAgent entityName ipAddress)).

Definition InitInterfaceStatus (entityName vppAgent : string) (entityInterface : Interface)
  : M World (result loc) :=
  let entityInterfaceName := if_Parent entityInterface +:+ "/" +:+ if_Name entityInterface in
  let! ifStatus := find_or_new_status vppAgent entityInterfaceName in
  set_mac ifStatus entityInterface ;;;
  update_if ifStatus (with_is_IpAddresses (if_IpAddresses entityInterface)) ;;;
  let? _ := mark_allocated vppAgent entityName ifStatus in
  let? _ := allocate_missing vppAgent entityName ifStatus (if_IpamPoolNames entityInterface) in
  let! s := on_if_heap (heap_read ifStatus) in
  offer_addresses vppAgent entityName (is_IpAddresses s) ;;;
  mok ifStatus.

(** [PersistInterfaceStatus]; [interfaces] may be a nil map. *)
Definition PersistInterfaceStatus (interfaces : option (gmap string loc)) (ifStatus : loc)
  (podName ifName : string) : M World (option (gmap string loc)) :=
  let entityInterfaceName := podName +:+ "/" +:+ ifName in
  let interfaceKey := InterfaceStatusKeyPrefix +:+ entityInterfaceName in
  let! m := deref interfaces in
  modify (fun w => with_InterfaceStates (<[entityInterfaceName := ifStatus]> (InterfaceStates w)) w) ;;;
  let! s := on_if_heap (heap_read ifStatus) in
  WriteToDatastore interfaceKey (VInterfaceStatus s) ;;;
  mret (Some (<[entityInterfaceName := ifStatus]> m)).

Definition RetrieveInterfaceStatusFromRamCache (interfaces : option (gmap string loc))
  (podInterfaceName : string) : option loc := default ∅ interfaces !! podInterfaceName.

Definition RemoveInterfaceStatus (interfaces : option (gmap string loc)) (podName ifName : string)
  : M World (option (gmap string loc)) :=
  let entityInterfaceName := podName +:+ "/" +:+ ifName in
  let interfaceKey := InterfaceStatusKeyPrefix +:+ entityInterfaceName in
  modify (fun w => with_InterfaceStates (delete entityInterfaceName (InterfaceStates w)) w) ;;;
  DeleteFromDatastore interfaceKey ;;;
  mret (delete entityInterfaceName <$> interfaces).

Definition UpdateRamCacheAllocatorsForInterfaceStatus (ifStatus : loc) (entityName : string)
  : M World (result unit) :=
  let! s := on_if_heap (heap_read ifStatus) in
  let nums := default ∅ (is_IpamPoolNums s) in
  let! pools := order_keys nums in
  let? _ := forR pools (fun poolName =>
    let? _ := IpamPool.SetAddress poolName (is_Node s) entityName (default 0 (nums !! poolName)) in
    mok tt) in
  offer_addresses (is_Node s) entityName (is_IpAddresses s) ;;;
  mok tt.

Definition load_interface (v : Value) : M World unit :=
  match v with
  | VInterfaceStatus s =>
      let! l := on_if_heap (heap_new (with_is_IpamPoolNums (load_map (is_IpamPoolNums s)) s)) in
      modify (fun w => with_InterfaceStates (<[is_Name s := l]> (InterfaceStates w)) w)
  | _ => panic (* log.Fatal: the value does not unmarshal *)
  end.

Definition LoadAllInterfacesFromDatastoreIntoCache : M World (result unit) :=
  ReadIterate InterfaceStatusKeyPrefix load_interface.

(** [DeleteInterfaceEntries]: an entry that is gone before the loop reaches it is
    not visited. *)
Definition DeleteInterfaceEntries (interfaces : option (gmap string loc))
  : M World (option (gmap string loc)) :=
  let! keys := order_keys (default ∅ interfaces) in
  foldM keys interfaces (fun interfaces k =>
    match default ∅ interfaces !! k with
    | None => mret interfaces
    | Some l =>
        let! s := on_if_heap (heap_read l) in
        RemoveInterfaceStatus interfaces (ConnPodName (is_Name s)) (ConnInterfaceName (is_Name s))
    end).

End env.

(** ** What these operations leave alone *)

(** An invariant that does not speak of what an interface state is made of. *)
Record interface_free (I : World -> Prop) : Prop := {
  in_if_heap : forall h w, I w -> I (with_if_heap h w);
  in_ipam : IpamPool.ipam_free I;
  in_mac : forall a w, I w -> I (with_MacAddrAllocator a w)
}.

Section keeps.
Context {E : Env} (I : World -> Prop) (HI : interface_free I).

Let Hp : IpamPool.ipam_free I := in_ipam I HI.
Let Hc : forall n w, I w -> I (with_clock n w) := IpamPool.if_clock I Hp.
Let Hh : forall h w, I w -> I (with_if_heap h w) := in_if_heap I HI.

Lemma keeps_find_or_new a n : keeps I (find_or_new_status a n).
Proof. unfold find_or_new_status. keeps_auto; by apply clocked_on_if_heap. Qed.

Lemma keeps_set_mac l e : keeps I (set_mac l e).
Proof.
  unfold set_mac. keeps_auto; try (by apply clocked_on_if_heap); try (by apply clocked_update_if);
  apply (keeps_zoom I _ _ _ (fun _ => True)); [by intros ? _; destruct (MacAddr.Allocate _)|done|].
  intros t w Hw _. by apply (in_mac I HI).
Qed.

Lemma keeps_mark_allocated a n l : keeps I (mark_allocated a n l).
Proof.
  unfold mark_allocated. keeps_auto; try (by apply clocked_on_if_heap); try (by apply clocked_update_if);
    try (by apply IpamPool.keeps_SetAddress); try (by apply clocked_order_keys).
Qed.

Lemma keeps_allocate_missing a n l ps : keeps I (allocate_missing a n l ps).
Proof.
  unfold allocate_missing. keeps_auto; try (by apply clocked_on_if_heap); try (by apply clocked_update_if);
    try (by apply IpamPool.keeps_AllocateAddress).
Qed.

Lemma keeps_offer_addresses a n ips : keeps I (offer_addresses a n ips).
Proof.
  unfold offer_addresses. apply keeps_forM. intros ip _. apply clocked_range_map; [done|]. intros k p.
  keeps_auto; try (by apply IpamPool.keeps_SetAddressIfInPool).
Qed.

Lemma keeps_InitInterfaceStatus e a i : keeps I (InitInterfaceStatus e a i).
Proof.
  unfold InitInterfaceStatus.
  apply keeps_bind; [apply keeps_find_or_new|]. intros l.
  apply keeps_bind; [apply keeps_set_mac|]. intros _.
  apply keeps_bind; [by apply clocked_update_if|]. intros _.
  apply keeps_rbnd; [apply keeps_mark_allocated|]. intros _.
  apply keeps_rbnd; [apply keeps_allocate_missing|]. intros _.
  apply keeps_bind; [by apply clocked_on_if_heap|]. intros s.
  apply keeps_bind; [apply keeps_offer_addresses|]. intros _. apply keeps_mok.
Qed.
End keeps.

(** An invariant that does not speak of interface states, in memory or in etcd. *)
Record stores_status (I : World -> Prop) : Prop := {
  ss_clock : forall n w, I w -> I (with_clock n w);
  ss_if_heap : forall h w, I w -> I (with_if_heap h w);
  ss_states : forall X w, I w -> I (with_InterfaceStates X w);
  ss_put : forall key v w, foreign key -> I w -> I (with_etcd_log (Put key :: etcd_log w) (with_etcd (<[key := v]> (etcd w)) w));
  ss_delete : forall key w, foreign key -> I w -> I (with_etcd_log (Delete key :: etcd_log w) (with_etcd (delete key (etcd w)) w))
}.

Lemma framed_stores I : framed I -> (forall X w, I w -> I (with_InterfaceStates X w)) -> stores_status I.
Proof. intros [] HX. split; auto. Qed.

Section stores.
Context {E : Env} (I : World -> Prop) (HI : stores_status I).

Lemma keeps_write_foreign key v : foreign key -> keeps I (WriteToDatastore key v).
Proof.
  intros Hk. apply keeps_bind; [apply clocked_tick, (ss_clock I HI)|]. intros n.
  destruct (put_error n key); [apply keeps_mfail|]. apply keeps_bind; [|intros; apply keeps_mok].
  intros w. by apply (ss_put I HI).
Qed.

Lemma keeps_RemoveInterfaceStatus m p i : keeps I (RemoveInterfaceStatus m p i).
Proof.
  unfold RemoveInterfaceStatus. apply keeps_bind; [apply keeps_modify; intros w; apply (ss_states I HI)|]. intros _.
  apply keeps_bind; [|intros _; apply keeps_ret]. intros w. by apply (ss_delete I HI).
Qed.

Lemma keeps_PersistInterfaceStatus m l p i : keeps I (PersistInterfaceStatus m l p i).
Proof.
  unfold PersistInterfaceStatus. apply keeps_bind; [apply keeps_deref|]. intros m'.
  apply keeps_bind; [apply keeps_modify; intros w; apply (ss_states I HI)|]. intros _.
  apply keeps_bind; [apply clocked_on_if_heap, (ss_if_heap I HI)|]. intros s.
  apply keeps_bind; [by apply keeps_write_foreign|]. intros _. apply keeps_ret.
Qed.

Lemma keeps_DeleteInterfaceEntries m : keeps I (DeleteInterfaceEntries m).
Proof.
  unfold DeleteInterfaceEntries. keeps_auto;
    [apply clocked_order_keys, (ss_clock I HI)|apply clocked_on_if_heap, (ss_if_heap I HI)|apply keeps_RemoveInterfaceStatus].
Qed.
End stores.

(** ** Properties *)

Definition nums (s : InterfaceStatus) : gmap string Z := default ∅ (is_IpamPoolNums s).

(** The state an interface is prepared from. *)
Definition fresh_status (name agent : string) : InterfaceStatus :=
  mkInterfaceStatus name "" [] "" 0 (Some ∅) [] 0 agent "" 0 "".

Definition known_status (name agent : string) (w : World) : InterfaceStatus :=
  default (fresh_status name agent) (l ← InterfaceStates w !! name; cells (if_heap w) !! l).

(** The MAC address and its number that interface [ei] gets, and the allocator then. *)
Definition mac_for (ei : Interface) (s : InterfaceStatus) (a : MacAddr.MacAddrAllocatorType)
  : string * Z * MacAddr.MacAddrAllocatorType :=
  if String.eqb (if_MacAddress ei) "" then
    if String.eqb (is_MacAddress s) "" then
      match MacAddr.Allocate a with Done (mac, n) a' => (mac, n, a') | Panic => ("", 0, a) end
    else (is_MacAddress s, is_MacAddrID s, a)
  else (if_MacAddress ei, is_MacAddrID s, a).

(** [s] is state [s0] made ready for [ei], with the pools [d] allocated from. *)
Record prepared (ei : Interface) (mac : string * Z) (s0 : InterfaceStatus) (d : list string)
  (s : InterfaceStatus) : Prop := {
  pr_mac : (is_MacAddress s, is_MacAddrID s) = mac;
  pr_addrs : exists extra, is_IpAddresses s = if_IpAddresses ei ++ extra /\
    length extra = size (nums s);
  pr_kept : forall p n, nums s0 !! p = Some n -> nums s !! p = Some n;
  pr_pools : forall p, p ∈ d -> is_Some (nums s !! p);
  pr_only : forall p, is_Some (nums s !! p) -> is_Some (nums s0 !! p) \/ p ∈ d;
  pr_rest : is_Name s = is_Name s0 /\ is_MemifID s = is_MemifID s0 /\ is_Node s = is_Node s0
}.

Section properties.
Context {E : Env}.

Definition obj (l : loc) (s : InterfaceStatus) (w : World) : Prop := cells (if_heap w) !! l = Some s.

Lemma obj_update l s' w :
  obj l s' (with_if_heap (mkHeap (<[l := s']> (cells (if_heap w))) (next_loc (if_heap w))) w).
Proof. unfold obj. cbn. by rewrite lookup_insert_eq. Qed.

(** The pools never touch the heap or the MAC allocator. *)
Lemma obj_ipam_free l s a :
  IpamPool.ipam_free (fun w => obj l s w /\ MacAddrAllocator w = a).
Proof. by split. Qed.

Lemma wp_allocate_mac (Q : string * Z -> World -> Prop) w :
  match MacAddr.Allocate (MacAddrAllocator w) with
  | Done a m => Q a (with_MacAddrAllocator m w)
  | Panic => True
  end -> wlp allocate_mac Q w.
Proof. unfold wpp, allocate_mac, zoom. by destruct (MacAddr.Allocate _). Qed.

Lemma set_mac_wp l s ei w :
  obj l s w ->
  wlp (set_mac l ei)
    (fun _ w' => exists s', obj l s' w' /\ MacAddrAllocator w' = snd (mac_for ei s (MacAddrAllocator w)) /\
       (is_MacAddress s', is_MacAddrID s') = fst (mac_for ei s (MacAddrAllocator w)) /\
       is_IpamPoolNums s' = is_IpamPoolNums s /\
       (is_Name s' = is_Name s /\ is_MemifID s' = is_MemifID s /\ is_Node s' = is_Node s)) w.
Proof.
  intros Hl. unfold set_mac, mac_for. wp_step. eapply wp_heap_read; [exact Hl|].
  destruct (String.eqb_spec (if_MacAddress ei) "") as [Hm|Hm].
  - destruct (String.eqb_spec (is_MacAddress s) "") as [Hs|Hs].
    + wp_step. apply wp_allocate_mac.
      destruct (MacAddr.Allocate (MacAddrAllocator w)) as [[mac n] a|] eqn:Ea; [|done].
      eapply wp_update_if; [exact Hl|]. eexists. split; [by apply obj_update|]. done.
    + wp_step. by exists s.
  - destruct (String.eqb_spec (is_MacAddress s) (if_MacAddress ei)) as [Hs|Hs]; cbn [negb].
    + wp_step. exists s. split_and!; [done|done|by rewrite Hs|done..].
    + eapply wp_update_if; [exact Hl|]. eexists. split; [by apply obj_update|]. done.
Qed.

Lemma mark_allocated_wp agent ent l ei mac s0 s w :
  obj l s w -> (is_MacAddress s, is_MacAddrID s) = mac -> is_IpAddresses s = if_IpAddresses ei ->
  is_IpamPoolNums s = is_IpamPoolNums s0 ->
  is_Name s = is_Name s0 /\ is_MemifID s = is_MemifID s0 /\ is_Node s = is_Node s0 ->
  wlp (mark_allocated agent ent l)
    (fun r w' => r = Ok tt -> exists s', obj l s' w' /\ MacAddrAllocator w' = MacAddrAllocator w /\
       prepared ei mac s0 [] s' /\ is_IpamPoolNums s' = is_IpamPoolNums s0) w.
Proof.
  intros Hl Hmac Hips Hn Hrest. unfold mark_allocated. wp_step. eapply wp_heap_read; [exact Hl|].
  wp_step. apply wp_order_keys. intros ks n Hnd Hks. rewrite Hn in *.
  apply (wp_forR _ _ _ (fun d w' => exists s' extra, obj l s' w' /\ MacAddrAllocator w' = MacAddrAllocator w /\
     s' = with_is_IpAddresses (if_IpAddresses ei ++ extra) s /\ length extra = length d)).
  - exists s, []. split_and!; [done|done| |done]. rewrite app_nil_r, <- Hips. by destruct s.
  - intros d p r w' Eks (s' & extra & Hl' & Ha & Hs' & Hlen). wp_step.
    eapply wlp_keeps; [apply IpamPool.keeps_SetAddress, (obj_ipam_free l s' (MacAddrAllocator w))|done|].
    intros [e|ip] w2 [Hl2 Ha2]; [done|]. wp_step. eapply wp_update_if; [exact Hl2|]. wp_step.
    exists (append_address ip s'), (extra ++ [ip]). split_and!; [by apply obj_update|done| |].
    + subst s'. unfold append_address. cbn. by rewrite app_assoc.
    + rewrite !length_app, Hlen. done.
  - intros w' (s' & extra & Hl' & Ha & -> & Hlen) _. eexists. split; [exact Hl'|]. split; [done|].
    split; [|by cbn; rewrite Hn]. split; cbn; [done| | | | |done].
    + exists extra. split; [done|]. rewrite Hlen. unfold nums. cbn. rewrite Hn.
      assert (size (dom (default ∅ (is_IpamPoolNums s0))) = length ks) as Hsz.
      { rewrite <- (size_list_to_set (C := gset string) ks) by done. f_equal. apply set_eq. intros k.
        rewrite elem_of_dom, elem_of_list_to_set. by rewrite Hks. }
      by rewrite <- Hsz, size_dom.
    + intros p k. unfold nums. cbn. by rewrite Hn.
    + by intros p ?%not_elem_of_nil.
    + intros p. unfold nums. cbn. rewrite Hn. by left.
Qed.

Lemma allocate_missing_wp agent ent l ei mac s0 ps s w :
  obj l s w -> prepared ei mac s0 [] s ->
  wlp (allocate_missing agent ent l ps)
    (fun r w' => r = Ok tt -> exists s', obj l s' w' /\ MacAddrAllocator w' = MacAddrAllocator w /\
       prepared ei mac s0 ps s') w.
Proof.
  intros Hl Hp. unfold allocate_missing.
  apply (wp_forR _ _ _ (fun d w' => exists s', obj l s' w' /\ MacAddrAllocator w' = MacAddrAllocator w /\
     prepared ei mac s0 d s')); [by exists s| |by intros].
  intros d p r w' _ (s' & Hl' & Ha & [H1 (extra & H2 & H2') H3 H4 H5 H6]). wp_step.
  eapply wp_heap_read; [exact Hl'|]. fold (nums s').
  destruct (nums s' !! p) as [num|] eqn:Hpn.
  - wp_step. exists s'. split_and!; [done|done|]. split; try done; [by exists extra| |].
    + intros q [Hq| ->%list_elem_of_singleton]%elem_of_app; [by apply H4|by eexists].
    + intros q [Hq|Hq]%H5; [by left|right]. apply elem_of_app; by left.
  - wp_step. eapply wlp_keeps; [apply IpamPool.keeps_AllocateAddress, (obj_ipam_free l s' (MacAddrAllocator w))|done|].
    intros [e|[ip num]] w2 [Hl2 Ha2]; [done|]. wp_step. eapply wp_update_if; [exact Hl2|]. wp_step.
    destruct (is_IpamPoolNums s') as [m|] eqn:Hm; [|done]. wp_step.
    wp_step. eapply wp_update_if; [by apply obj_update|]. wp_step.
    eexists. split; [by apply obj_update|]. split; [done|].
    assert (nums s' = m) as Hnm by (unfold nums; by rewrite Hm). rewrite Hnm in *.
    split; cbn; [done| | | | |done].
    + exists (extra ++ [ip]). split; [by rewrite H2, app_assoc|]. rewrite length_app, H2'. unfold nums. cbn.
      rewrite map_size_insert_None by done. lia.
    + intros q k Hq. unfold nums. cbn. rewrite lookup_insert_ne; [by apply H3|]. intros <-.
      apply H3 in Hq. congruence.
    + intros q Hq. unfold nums. cbn. destruct (decide (q = p)) as [->|Hne]; [rewrite lookup_insert_eq; eauto|].
      rewrite lookup_insert_ne by done. apply elem_of_app in Hq as [Hq|Hq%list_elem_of_singleton]; [by apply H4|done].
    + intros q. unfold nums. cbn. destruct (decide (q = p)) as [->|Hne].
      * intros _. right. apply elem_of_app. right; left.
      * rewrite lookup_insert_ne by done. intros [Hq|Hq]%H5; [by left|right]. apply elem_of_app; by left.
Qed.

(** Preparing an interface is stable: the configured MAC address wins, else the
    one it had, else a new one is drawn (and only then does the counter move); the
    numbers it was given from pools are kept for ever, and every pool it names and has
    no number of gives one; its addresses are the configured ones followed by one for
    each number, so a second rendering yields the same state. *)
Theorem InitInterfaceStatus_spec ent agent ei w :
  let name := if_Parent ei +:+ "/" +:+ if_Name ei in
  let s0 := known_status name agent w in
  (forall l, InterfaceStates w !! name = Some l -> is_Some (cells (if_heap w) !! l)) ->
  wlp (InitInterfaceStatus ent agent ei)
    (fun r w' => forall l, r = Ok l ->
       l = default (next_loc (if_heap w)) (InterfaceStates w !! name) /\
       MacAddrAllocator w' = snd (mac_for ei s0 (MacAddrAllocator w)) /\
       exists s, cells (if_heap w') !! l = Some s /\
         prepared ei (fst (mac_for ei s0 (MacAddrAllocator w))) s0 (if_IpamPoolNames ei) s) w.
Proof.
  intros name s0 Hok. unfold InitInterfaceStatus. fold name. wp_step.
  apply (wp_conseq _ _ (fun l w' => l = default (next_loc (if_heap w)) (InterfaceStates w !! name) /\
     obj l s0 w' /\ MacAddrAllocator w' = MacAddrAllocator w)).
  { unfold find_or_new_status. wp_auto. unfold s0, known_status.
    destruct (InterfaceStates w !! name) as [l|] eqn:El; cbn.
    - destruct (Hok l eq_refl) as [s Hs]. split_and!; [done| |done]. by rewrite Hs.
    - split_and!; [done| |done]. unfold obj. cbn. by rewrite lookup_insert_eq. }
  intros l w1 (El & Hl & Ha). wp_step. eapply wp_conseq; [by apply set_mac_wp|]. rewrite Ha.
  intros [] w2 (s2 & Hl2 & Ha2 & Hmac & Hn & Hrest). wp_step. eapply wp_update_if; [exact Hl2|]. wp_step.
  eapply wp_conseq; [apply (mark_allocated_wp agent ent l ei (fst (mac_for ei s0 (MacAddrAllocator w))) s0
    (with_is_IpAddresses (if_IpAddresses ei) s2)); [apply obj_update|done..]|].
  intros [e|[]] w3 H3; [intros l' [=]|]. destruct (H3 eq_refl) as (s3 & Hl3 & Ha3 & Hp3 & _). wp_step.
  eapply wp_conseq; [exact (allocate_missing_wp agent ent l ei _ _ _ _ _ Hl3 Hp3)|].
  intros [e|[]] w4 H4; [intros l' [=]|]. destruct (H4 eq_refl) as (s4 & Hl4 & Ha4 & Hp4). wp_step.
  eapply wp_heap_read; [exact Hl4|]. wp_step.
  assert (keeps (fun w => obj l s4 w /\ MacAddrAllocator w = MacAddrAllocator w4)
            (offer_addresses agent ent (is_IpAddresses s4))) as Hk.
  { unfold offer_addresses. apply keeps_forM. intros ip _. intros w5 H5.
    apply (wp_range_map True _ _ (fun _ w => obj l s4 w /\ MacAddrAllocator w = MacAddrAllocator w4));
      [done| |done]. intros d k w6 _ _ H6. destruct (ipamPoolCache w6 !! k) as [p|]; [|done].
    wp_step. destruct (ip_Metadata p) as [md|]; [|done]. wp_step.
    eapply wlp_keeps; [apply IpamPool.keeps_SetAddressIfInPool, obj_ipam_free|exact H6|done]. }
  eapply wlp_keeps; [exact Hk|done|]. intros [] w5 [Hl5 Ha5]. wp_step.
  intros l' [= <-]. split; [done|]. split; [by rewrite Ha5, Ha4, Ha3; cbn|]. by exists s4.
Qed.

(** *** Removing the states of an entity *)

(** The states of a map are named as its keys, which are "entity/interface". *)
Definition named_states (m : gmap string loc) (h : heap InterfaceStatus) : Prop :=
  forall k l, m !! k = Some l -> ~ lacks slash_byte k /\ exists s, cells h !! l = Some s /\ is_Name s = k.

Lemma RemoveInterfaceStatus_run interfaces k w :
  ~ lacks slash_byte k ->
  RemoveInterfaceStatus interfaces (ConnPodName k) (ConnInterfaceName k) w =
    Done (delete k <$> interfaces)
      (with_etcd_log (Delete (InterfaceStatusKeyPrefix +:+ k) :: etcd_log w)
        (with_etcd (delete (InterfaceStatusKeyPrefix +:+ k) (etcd w))
          (with_InterfaceStates (delete k (InterfaceStates w)) w))).
Proof.
  intros H. unfold RemoveInterfaceStatus. by rewrite conn_names_join.
Qed.

(** The states of the keys [d] of the map [m] were removed: [m1] is left of it. *)
Record removed (m : gmap string loc) (w : World) (d : list string) (m1 : option (gmap string loc)) (w1 : World) : Prop := {
  rm_map : exists m', m1 = Some m' /\ forall k, m' !! k = if decide (k ∈ d) then None else m !! k;
  rm_heap : if_heap w1 = if_heap w;
  rm_states : forall k, InterfaceStates w1 !! k = if decide (k ∈ d) then None else InterfaceStates w !! k;
  rm_etcd : forall k, k ∈ d -> etcd w1 !! (InterfaceStatusKeyPrefix +:+ k) = None;
  rm_rest : forall key, (forall k, k ∈ d -> key <> InterfaceStatusKeyPrefix +:+ k) -> etcd w1 !! key = etcd w !! key
}.

Lemma removed_nil m n w : removed m w [] (Some m) (with_clock n w).
Proof. split; try done; [by exists m|by intros k ?%not_elem_of_nil]. Qed.

(** What one key more does to a map of which the keys [d] were deleted. *)
Lemma delete_done {X} (m m1 : gmap string X) d k :
  (forall k', m1 !! k' = if decide (k' ∈ d) then None else m !! k') ->
  forall k', delete k m1 !! k' = if decide (k' ∈ d ++ [k]) then None else m !! k'.
Proof.
  intros H k'. destruct (decide (k' = k)) as [->|Hne].
  - rewrite lookup_delete_eq, decide_True; [done|]. apply elem_of_app. right; left.
  - rewrite lookup_delete_ne, H by done. destruct (decide (k' ∈ d)); [rewrite decide_True|rewrite decide_False]; set_solver.
Qed.

Lemma removed_step m w d k m1 w1 :
  removed m w d (Some m1) w1 ->
  removed m w (d ++ [k]) (Some (delete k m1))
    (with_etcd_log (Delete (InterfaceStatusKeyPrefix +:+ k) :: etcd_log w1)
      (with_etcd (delete (InterfaceStatusKeyPrefix +:+ k) (etcd w1))
        (with_InterfaceStates (delete k (InterfaceStates w1)) w1))).
Proof.
  intros [(m' & [= <-] & H1) H2 H3 H4 H5]. split; cbn.
  - eexists. split; [done|]. by apply delete_done.
  - done.
  - by apply delete_done.
  - intros k' Hk'. destruct (decide (k' = k)) as [->|Hne]; [by rewrite lookup_delete_eq|].
    rewrite lookup_delete_ne by (intros E'; by apply sapp_inj_l in E').
    apply H4. apply elem_of_app in Hk' as [|Hk'%list_elem_of_singleton]; done.
  - intros key Hkey. rewrite lookup_delete_ne.
    + apply H5. intros k' Hk'. apply Hkey. apply elem_of_app. by left.
    + intros <-. apply (Hkey k); [|done]. apply elem_of_app. right; left.
Qed.

(** [DeleteInterfaceEntries], which deletes from the map it ranges over, leaves
    no entry of it whatever the order: the map is empty, each of its states is gone from
    [ramCache.InterfaceStates] and from etcd, and the states of other entities stay. *)
Theorem DeleteInterfaceEntries_removes m w :
  named_states m (if_heap w) ->
  wp (DeleteInterfaceEntries (Some m))
     (fun m' w' => m' = Some ∅ /\ if_heap w' = if_heap w /\
        (forall k, InterfaceStates w' !! k = if decide (is_Some (m !! k)) then None else InterfaceStates w !! k) /\
        (forall k, is_Some (m !! k) -> etcd w' !! (InterfaceStatusKeyPrefix +:+ k) = None) /\
        (forall key, (forall k, is_Some (m !! k) -> key <> InterfaceStatusKeyPrefix +:+ k) ->
           etcd w' !! key = etcd w !! key)) w.
Proof.
  intros Hm. unfold DeleteInterfaceEntries. wp_step. apply wp_order_keys. cbn [default]. intros ks n Hnd Hks.
  apply (wp_foldM_done _ _ _ _ (removed m w)); [apply removed_nil| |].
  - intros d k r m1 w1 Eks Hr. pose proof Hr as [(m' & -> & H1) H2 _ _ _].
    assert (~ (k ∈ d)) as Hkd.
    { rewrite Eks in Hnd. apply NoDup_app in Hnd as (_ & Hnd & _). intros Hd. by apply (Hnd k Hd); left. }
    assert (is_Some (m !! k)) as [l Hl].
    { apply Hks. rewrite Eks. apply elem_of_app. right; left. }
    destruct (Hm k l Hl) as (Hsl & s & Hs & Hn). cbn [default].
    rewrite H1, decide_False, Hl by done. wp_step. eapply wp_heap_read; [by rewrite H2|]. rewrite Hn.
    eapply wp_run; [by apply RemoveInterfaceStatus_run|]. by apply removed_step.
  - intros m1 w1 [(m' & -> & H1) H2 H3 H4 H5]. split_and!; [|done| | |].
    + f_equal. apply map_eq. intros k. rewrite H1, lookup_empty. case_decide as Hk; [done|].
      destruct (m !! k) eqn:E'; [|done]. exfalso. apply Hk, Hks. by eexists.
    + intros k. rewrite H3. by rewrite (decide_ext _ _ _ _ (Hks k)).
    + intros k Hk. by apply H4, Hks.
    + intros key Hkey. apply H5. intros k Hk. by apply Hkey, Hks.
Qed.

End properties.

(** *** Configured addresses are not kept out of the pools *)

Lemma family_app s t b : Net.family s = Some b -> Net.family (s +:+ t) = Some b.
Proof.
  induction s as [|c s IH]; [done|]. rewrite sapp_cons. cbn [Net.family].
  destruct (Ascii.eqb c "."%char); [done|]. destruct (Net.is_colon c); [done|apply IH].
Qed.

(** An address text with a prefix length is not an address for [net.ParseIP]. *)
Lemma ParseIP_with_length a b c d t :
  Net.is_octet a -> Net.is_octet b -> Net.is_octet c -> Net.is_octet d ->
  Net.ParseIP (Net.dotted a b c d +:+ "/" +:+ t) = None.
Proof.
  intros Ha Hb Hc Hd. unfold Net.ParseIP. rewrite (family_app _ _ true) by by apply Ipam.family_dotted.
  unfold Net.parseIPv4, Net.dotted. rewrite !sapp_assoc. rewrite Net.octet_first; [|done|done].
  rewrite Net.octet_next; [|done|done]. rewrite Net.octet_next; [|done|done].
  by rewrite Net.octet_next.
Qed.

Definition demo_if (parent name : string) (ips pools : list string) : Interface :=
  mkInterface name false "" "" 0 "" ips pools "" None None [] parent "" None None None.

Definition demo_addresses (r : outcome World (result loc)) : option (list string) :=
  match r with
  | Done (inr l) w => is_IpAddresses <$> cells (if_heap w) !! l
  | _ => None
  end.

(** C35: an address an interface is configured with is never marked in the pools that
    contain it: the texts end in a prefix length, which [SetIPAddrIfInsidePool] cannot
    parse, so offering them changes no allocator.  A pool then gives the address
    to another interface: here [10.1.0.1/24] is configured on one and
    allocated to the next. *)
Theorem configured_address_collision :
  (forall a b c d t p, Net.is_octet a -> Net.is_octet b -> Net.is_octet c -> Net.is_octet d ->
     Ipam.SetIPAddrIfInsidePool (Net.dotted a b c d +:+ "/" +:+ t) p = Done tt p) /\
  let first := @InitInterfaceStatus quiet_env "vs" "node1" (demo_if "p1" "if1" ["10.1.0.1/24"] []) in
  let second := @InitInterfaceStatus quiet_env "vs" "node1" (demo_if "p2" "if1" [] ["a"]) in
  demo_addresses (first IpamPool.demo_world) = Some ["10.1.0.1/24"] /\
  demo_addresses ((first ;;; second) IpamPool.demo_world) = Some ["10.1.0.1/24"].
Proof.
  split; [|vm_compute; done]. intros a b c d t p Ha Hb Hc Hd. unfold Ipam.SetIPAddrIfInsidePool, mbnd, get.
  by rewrite ParseIP_with_length.
Qed.

Lemma configured_address_collision_witness :
  Ipam.SetIPAddrIfInsidePool (Net.dotted 10 1 0 1 +:+ "/" +:+ "24") Ipam.pool30 = Done tt Ipam.pool30.
Proof. apply (proj1 configured_address_collision); unfold Net.is_octet; lia. Defined.

(** A state as it is read back from etcd when it had no pool: its map is nil. *)
Definition reloaded_world : World :=
  with_InterfaceStates {["p1/if1" := 0]}
    (with_if_heap (mkHeap {[0 := mkInterfaceStatus "p1/if1" "" [] "02:00:00:00:00:01" 1 None [] 0 "node1" "" 0 ""]} 1)
       IpamPool.demo_world).

(** Giving such an interface a pool ends the process: assignment to a nil map. *)
Lemma reloaded_interface_panics :
  @InitInterfaceStatus quiet_env "vs" "node1" (demo_if "p1" "if1" [] ["a"]) reloaded_world = Panic.
Proof. vm_compute. reflexivity. Qed.

(** An interface of pool "a" rendered twice: the same state. *)
Lemma InitInterfaceStatus_spec_witness :
  wlp (@InitInterfaceStatus quiet_env "vs" "node1" (demo_if "p1" "if1" ["1.2.3.4/32"] ["a"]))
    (fun r w' => forall l, r = Ok l -> l = 0) IpamPool.demo_world.
Proof.
  eapply wp_conseq.
  - apply (@InitInterfaceStatus_spec quiet_env "vs" "node1" (demo_if "p1" "if1" ["1.2.3.4/32"] ["a"])).
    intros l H. vm_compute in H. discriminate.
  - intros r w' H l ->. by destruct (H l eq_refl) as (-> & _).
Defined.

Lemma DeleteInterfaceEntries_removes_witness :
  wp (@DeleteInterfaceEntries quiet_env (Some {["p1/if1" := 0]}))
    (fun m' w' => m' = Some ∅ /\ InterfaceStates w' !! "p1/if1" = None) reloaded_world.
Proof.
  eapply wp_conseq.
  - apply (@DeleteInterfaceEntries_removes quiet_env {["p1/if1" := 0]} reloaded_world).
    intros k l [<- <-]%lookup_singleton_Some. split; [discriminate|]. eexists. split; reflexivity.
  - intros m' w' (Hm & _ & Hs & _). split; [exact Hm|]. rewrite Hs. reflexivity.
Defined.
End Interfaces.
