(* ===== verification/EntityTxn.v ===== *)
(** * Rendering into a level of the transaction

    Module EntityTxn: what holds while a node or a service renders: the level of its own
    holds well-formed entries, the levels below, the known entries and the bridge
    domains that exist stay.  The renderers of nodes and services are proved to
    keep it; the lemmas here are what one step of the transaction does to it. *)

From S2P Require Import Prelude GoStd Model VppAgent State RenderTxn IpamPool Interfaces.

Module EntityTxn.
Import VppAgent RenderTxn Interfaces.

(** What an entity may not change: the maps of the other levels, the known
    entries, the lock, the system parameters, and which bridge domains exist. *)
Record frame : Type := mkFrame {
  fr_level : Z;
  fr_lower : gmap Z (gmap string KVType);
  fr_before : gmap Z (gmap string KVType);
  fr_known : gmap string KVType;
  fr_mutex : bool;
  fr_sysparms : SystemParameters;
  fr_objects : gset loc
}.

(** The entity is rendering in its level, which holds [N]. *)
Record in_level (F : frame) (N : gmap string KVType) (w : World) : Prop := {
  il_level : txnLevel w = fr_level F;
  il_after : afterMap w = <[fr_level F := N]> (fr_lower F);
  il_before : beforeMap w = fr_before F;
  il_known : VppEntries w = fr_known F;
  il_mutex : configMutex w = fr_mutex F;
  il_sysparms : sysParmCache w = fr_sysparms F;
  il_objects : fr_objects F ⊆ dom (cells (bd_heap w));
  il_wf : wf_entries (bd_heap w) N
}.

(** The frame of an entity that starts in [w]. *)
Definition frame_of (w : World) : frame :=
  mkFrame (txnLevel w + 1) (afterMap w) (<[txnLevel w + 1 := ∅]> (beforeMap w)) (VppEntries w)
    (configMutex w) (sysParmCache w) (dom (cells (bd_heap w))).

(** The rest of the state may change. *)
Lemma in_level_ext F N w w' :
  in_level F N w ->
  txnLevel w' = txnLevel w -> afterMap w' = afterMap w -> beforeMap w' = beforeMap w ->
  VppEntries w' = VppEntries w -> configMutex w' = configMutex w -> bd_heap w' = bd_heap w ->
  sysParmCache w' = sysParmCache w ->
  in_level F N w'.
Proof. intros [] E1 E2 E3 E4 E5 E6 E7. by split; rewrite ?E1, ?E2, ?E3, ?E4, ?E5, ?E6, ?E7. Qed.

Lemma entity_started_in_level w : in_level (frame_of w) ∅ (entity_started w).
Proof.
  by split.
Qed.

(** Well-formedness only asks that bridge domains exist. *)
Lemma wf_entry_mono h h' kv :
  dom (cells h) ⊆ dom (cells h') -> wf_entry h kv -> wf_entry h' kv.
Proof.
  intros Hd [H|[(Et & l & b & Hl & Hb)|H]]; [by left| |by right; right].
  right; left. split; [done|]. assert (l ∈ dom (cells h')) as [b' Hb']%elem_of_dom; [|by eauto].
  apply Hd. by apply elem_of_dom.
Qed.

Lemma wf_entries_mono h h' N :
  dom (cells h) ⊆ dom (cells h') -> wf_entries h N -> wf_entries h' N.
Proof. intros Hd H k kv Hk. destruct (H k kv Hk). split; [done|]. by eapply wf_entry_mono. Qed.

Lemma wf_entries_insert h N kv :
  wf_entry h kv -> wf_entries h N -> wf_entries h (<[VppKey kv := kv]> N).
Proof.
  intros Hkv HN k kv' [[<- <-]|[_ Hk]]%lookup_insert_Some; [done|by apply HN].
Qed.

Lemma wf_entries_union h N M : wf_entries h N -> wf_entries h M -> wf_entries h (N ∪ M).
Proof. intros HN HM k kv [Hk|[_ Hk]]%lookup_union_Some_raw; [by apply HN|by apply HM]. Qed.

(** The heap of bridge domains grew. *)
Lemma in_level_heap F N w h :
  in_level F N w -> dom (cells (bd_heap w)) ⊆ dom (cells h) -> in_level F N (with_bd_heap h w).
Proof.
  intros [] Hd. split; try done; cbn; [by etrans|by eapply wf_entries_mono].
Qed.

(** One more entry in the level. *)
Lemma in_level_put F N w kv :
  in_level F N w -> wf_entry (bd_heap w) kv ->
  in_level F (<[VppKey kv := kv]> N)
    (with_afterMap (<[txnLevel w := <[VppKey kv := kv]> N]> (afterMap w)) w).
Proof.
  intros [El Ea Eb Ek Em Es Eo Ew] Hkv. split; try done; cbn.
  - by rewrite El, Ea, insert_insert_eq.
  - by apply wf_entries_insert.
Qed.

Section env.
Context {E : Env}.

(** [RenderTxnAddVppEntryToTxn]: the entry is in the level, and its key is listed when
    it is new there. *)
Lemma AddVppEntryToTxn_wlp F N w rendered entity kv :
  in_level F N w -> wf_entry (bd_heap w) kv ->
  wlp (RenderTxnAddVppEntryToTxn (Some rendered) entity kv)
    (fun r w' => w' = with_afterMap (<[txnLevel w := <[VppKey kv := kv]> N]> (afterMap w)) w /\
       in_level F (<[VppKey kv := kv]> N) w' /\
       exists rendered', r = Some rendered' /\
         dom rendered' = (if decide (VppKey kv ∈ dom N) then ∅ else {[VppKey kv]}) ∪ dom rendered) w.
Proof.
  intros HF Hkv. pose proof (il_level _ _ _ HF) as El. pose proof (il_after _ _ _ HF) as Ea.
  unfold RenderTxnAddVppEntryToTxn. wpw. unfold after_level. rewrite El, Ea, lookup_insert_eq. change (default ∅ (Some N)) with N.
  assert (wlp (after_put (fr_level F) (VppKey kv) kv)
            (fun _ w' => w' = with_afterMap (<[txnLevel w := <[VppKey kv := kv]> N]> (afterMap w)) w) w) as Hput.
  { unfold after_put. wpw. rewrite Ea, lookup_insert_eq. wpw. by rewrite El. }
  assert (in_level F (<[VppKey kv := kv]> N)
            (with_afterMap (<[txnLevel w := <[VppKey kv := kv]> N]> (afterMap w)) w)) as HF' by by apply in_level_put.
  destruct (N !! VppKey kv) as [kv0|] eqn:Ek; wpw.
  - eapply wp_conseq; [apply Hput|]. cbv beta. intros [] w' ->. wpw. split; [by rewrite El, Ea|]. split; [exact HF'|].
    exists rendered. split; [done|]. rewrite decide_True by (by apply elem_of_dom). set_solver.
  - eapply wp_conseq; [apply Hput|]. cbv beta.
    intros [] w' ->. wpw. split; [by rewrite El, Ea|]. split; [exact HF'|].
    eexists. split; [done|]. rewrite decide_False by (by apply not_elem_of_dom).
    by rewrite dom_insert_L.
Qed.

(** The level and a rendered map that, with the keys [X], lists it. *)
Record listing (F : frame) (X : gset string) (w : World) (r : option Rendered) (w' : World) : Prop := {
  li_frame : w' = with_afterMap (afterMap w') w;
  li_listed : exists N r', in_level F N w' /\ r = Some r' /\ dom r' ∪ X = dom N
}.

Lemma with_afterMap_twice a b w : with_afterMap a (with_afterMap b w) = with_afterMap a w.
Proof. done. Qed.

Lemma AddVppEntryToTxn_listing F X w w0 rendered entity kv :
  listing F X w0 rendered w -> wf_entry (bd_heap w0) kv ->
  wlp (RenderTxnAddVppEntryToTxn rendered entity kv) (listing F X w0) w.
Proof.
  intros [Ew (N' & r & HF & -> & Hdom)] Hkv.
  eapply wp_conseq; [eapply AddVppEntryToTxn_wlp; [exact HF|by rewrite Ew]|].
  intros r' w' (Ew' & HF' & r1 & -> & Hr1). split.
  - rewrite Ew', Ew. done.
  - eexists _, r1. split; [exact HF'|]. split; [done|]. rewrite Hr1, dom_insert_L.
    destruct (decide _); set_solver.
Qed.

Lemma AddVppEntriesToTxn_listing F X w w0 rendered entity kvs :
  listing F X w0 rendered w -> Forall (wf_entry (bd_heap w0)) kvs ->
  wlp (RenderTxnAddVppEntriesToTxn rendered entity kvs) (listing F X w0) w.
Proof.
  intros Hl Hkvs. revert rendered w Hl. induction Hkvs as [|kv kvs Hkv _ IH]; intros rendered w Hl; cbn.
  - by wpw.
  - apply wp_bnd. eapply wp_conseq; [by apply AddVppEntryToTxn_listing|]. intros r w' Hl'. by apply IH.
Qed.

(** [RenderTxnConfigEntityRemoveEntries]: the level is empty. *)
Lemma RemoveEntries_in_level F N w :
  in_level F N w ->
  exists w', RenderTxnConfigEntityRemoveEntries w = Done tt w' /\ in_level F ∅ w' /\
    w' = with_afterMap (afterMap w') w.
Proof.
  intros [El Ea Eb Ek Em Es Eo Ew]. eexists. split; [reflexivity|]. cbn. split; [|done].
  split; try done; cbn. by rewrite El, Ea, insert_insert_eq.
Qed.

(** What [RenderTxnConfigEntityEnd] leaves alone. *)
Lemma keeps_EntityEnd_caches C S b V m h p :
  keeps (fun w => networkNodeCache w = C /\ networkServiceCache w = S /\ beforeMap w = b /\ VppEntries w = V /\
           configMutex w = m /\ bd_heap w = h /\ sysParmCache w = p)
    (let! l := get txnLevel in range_map (after_level l) (fun key entry => after_put (l - 1) key entry)).
Proof.
  apply keeps_bind; [apply keeps_get|]. intros l. apply keeps_range_map; [by split|].
  intros k kv. unfold after_put. keeps_auto. by apply keeps_modify.
Qed.

(** The end of the entity: its entries are merged over those of the level below. *)
Lemma entity_end_wlp F N M w :
  in_level F N w -> fr_lower F !! (fr_level F - 1) = Some M ->
  wlp RenderTxnConfigEntityEnd (fun _ w' =>
    txnLevel w' = fr_level F - 1 /\
    afterMap w' = <[fr_level F - 1 := N ∪ M]> (delete (fr_level F) (fr_lower F)) /\
    beforeMap w' = delete (fr_level F) (fr_before F) /\ VppEntries w' = fr_known F /\
    configMutex w' = fr_mutex F /\ bd_heap w' = bd_heap w /\ sysParmCache w' = fr_sysparms F /\
    networkNodeCache w' = networkNodeCache w /\ networkServiceCache w' = networkServiceCache w) w.
Proof.
  intros [El Ea Eb Ek Em Es Eo Ew] HM.
  assert (wlp RenderTxnConfigEntityEnd (fun _ w' => beforeMap w' = delete (fr_level F) (fr_before F) /\
     VppEntries w' = fr_known F /\ configMutex w' = fr_mutex F /\ bd_heap w' = bd_heap w /\ sysParmCache w' = fr_sysparms F /\
     networkNodeCache w' = networkNodeCache w /\ networkServiceCache w' = networkServiceCache w) w) as H.
  { pose proof (keeps_EntityEnd_caches (networkNodeCache w) (networkServiceCache w) (fr_before F) (fr_known F)
      (fr_mutex F) (bd_heap w) (fr_sysparms F) w) as Hk. cbv beta in Hk.
    unfold RenderTxnConfigEntityEnd, removeLevelMap. unfold mbnd, get in Hk |- *. unfold wpp. rewrite El in *.
    destruct (range_map _ _ w) as [[] w1|]; [|done]. cbn. destruct Hk as (H1 & H2 & H3 & H4 & H5 & H6 & H7); [done|].
    by rewrite H1, H2, H3, H4, H5, H6, H7. }
  destruct (entity_end_spec w N M (fr_level F)) as (w' & R & H1 & H2 & H3 & _ & H5);
    [done|by rewrite Ea, lookup_insert_eq|by rewrite Ea, lookup_insert_ne by lia|].
  unfold wpp in *. rewrite R in *. destruct H as (? & ? & ? & ? & ? & ? & ?). split_and!; try done.
  rewrite H2, Ea. by rewrite delete_insert_eq.
Qed.

End env.

(** ** The entries that are constructed are well-formed *)
Create HintDb wf_entry.

Section wf.
Context (h : heap BridgeDomain).

Lemma wf_interface agent i : wf_entry h (kv_interface agent i).
Proof. left. split; [done|by eexists]. Qed.

Lemma wf_linux agent i : wf_entry h (kv_linux_interface agent i).
Proof. right; right; right; left. split; [done|by eexists]. Qed.

Lemma wf_xconnect agent a b : wf_entry h (constructUniDirXConnect agent a b).
Proof. right; right; left. split; [done|by eexists]. Qed.

Lemma wf_arp agent a : wf_entry h (ConstructStaticArpEntry agent a).
Proof. right; right; right; right; right. split; [done|by eexists]. Qed.

Lemma wf_route agent r kv : ConstructStaticRoute agent r = Some kv -> wf_entry h kv.
Proof.
  unfold ConstructStaticRoute. intros (key & _ & [= <-])%bind_Some.
  right; right; right; right; left. split; [done|by eexists].
Qed.
End wf.

#[export] Hint Resolve wf_interface wf_linux wf_xconnect wf_arp wf_route : wf_entry.

(** A new bridge domain, and one that gets more interfaces. *)
Lemma ConstructL2BD_wlp agent name ifaces p w :
  wlp (on_bd_heap (ConstructL2BD agent name ifaces p))
    (fun kv w' => exists h, w' = with_bd_heap h w /\ dom (cells (bd_heap w)) ⊆ dom (cells h) /\
      wf_entry h kv /\ foreign (VppKey kv)) w.
Proof.
  unfold wpp, on_bd_heap, zoom, ConstructL2BD, mbnd, heap_new, mret. eexists. split; [done|]. cbn. split_and!.
  - rewrite dom_insert_L. set_solver.
  - right; left. split; [done|]. eexists _, _. split; [done|]. cbn. by rewrite lookup_insert_eq.
  - done.
Qed.

Lemma AppendInterfacesToL2BD_wlp agent l ifaces w :
  wlp (on_bd_heap (AppendInterfacesToL2BD agent l ifaces))
    (fun kv w' => exists h, w' = with_bd_heap h w /\ dom (cells (bd_heap w)) ⊆ dom (cells h) /\
      wf_entry h kv /\ foreign (VppKey kv)) w.
Proof.
  unfold wpp, on_bd_heap, zoom, AppendInterfacesToL2BD, mbnd, heap_read, heap_write, mret.
  destruct (cells (bd_heap w) !! l) as [b|] eqn:El; [|done]. rewrite El. eexists. split; [done|]. cbn. split_and!.
  - rewrite dom_insert_L. set_solver.
  - right; left. split; [done|]. eexists _, _. split; [done|]. cbn. by rewrite lookup_insert_eq.
  - done.
Qed.

(** ** An entity as a whole

    [w'] is [w] with the entries [N] merged over those of the current level. *)
Record merged_into (w : World) (N : gmap string KVType) (w' : World) : Prop := {
  mi_level : txnLevel w' = txnLevel w;
  mi_after : forall M, afterMap w !! txnLevel w = Some M ->
    afterMap w' = <[txnLevel w := N ∪ M]> (delete (txnLevel w + 1) (afterMap w));
  mi_before : beforeMap w' = delete (txnLevel w + 1) (beforeMap w);
  mi_known : VppEntries w' = VppEntries w;
  mi_mutex : configMutex w' = configMutex w;
  mi_sysparms : sysParmCache w' = sysParmCache w;
  mi_objects : dom (cells (bd_heap w)) ⊆ dom (cells (bd_heap w'));
  mi_wf : wf_entries (bd_heap w') N
}.

Lemma entity_merged `{E : Env} w N M w1 :
  afterMap w !! txnLevel w = Some M -> in_level (frame_of w) N w1 ->
  wlp RenderTxnConfigEntityEnd (fun _ w' => merged_into w N w' /\
    networkNodeCache w' = networkNodeCache w1 /\ networkServiceCache w' = networkServiceCache w1) w1.
Proof.
  intros HM HF. eapply wp_conseq; [eapply (entity_end_wlp (frame_of w) N M); [done|]|].
  - cbn. by replace (txnLevel w + 1 - 1) with (txnLevel w) by lia.
  - cbn. intros _ w' (H1 & H2 & H3 & H4 & H5 & H6 & Hsp & H7 & H8). split; [|done].
    destruct HF as [_ _ _ _ _ _ Ho Hw]. cbn in Ho.
    replace (txnLevel w + 1 - 1) with (txnLevel w) in * by lia.
    split; rewrite ?H6; try done.
    + intros M' HM'. rewrite HM in HM'. injection HM' as <-. done.
    + by rewrite H3, delete_insert_eq.
Qed.

(** Levels are numbered from 0 and below the current one nothing changes. *)
Lemma merged_into_wf w N w' M :
  merged_into w N w' -> wf_entries (bd_heap w) M -> wf_entries (bd_heap w') (N ∪ M).
Proof. intros [] HM. apply wf_entries_union; [done|]. by eapply wf_entries_mono. Qed.

(** ** Entries that are computed *)

(** Well-formed whatever bridge domains there are, and not under a key of the configuration. *)
Definition wf_anywhere (kv : KVType) : Prop := (forall h, wf_entry h kv) /\ foreign (VppKey kv).

Lemma wf_anywhere_entry h kv : wf_anywhere kv -> wf_entry h kv.
Proof. by intros []. Qed.

Lemma keeps_bind_val {S A B} (I : S -> Prop) (m : M S A) (k : A -> M S B) (P : A -> Prop) :
  (forall s, I s -> wlp m (fun a s' => I s' /\ P a) s) -> (forall a, P a -> keeps I (k a)) -> keeps I (mbnd m k).
Proof.
  intros Hm Hk s Hs. specialize (Hm s Hs). unfold mbnd, wpp in *. destruct (m s) as [a s'|]; [|done].
  destruct Hm as [Hs' Ha]. by apply (Hk a Ha).
Qed.

Lemma keeps_deref_val {S A B} (I : S -> Prop) (o : option A) (k : A -> M S B) :
  (forall a, o = Some a -> keeps I (k a)) -> keeps I (mbnd (deref o) k).
Proof. intros Hk. destruct o as [a|]; [|done]. by apply Hk. Qed.

(** The first statements of a sequence, taken together. *)
Lemma keeps_bind_assoc {S A B D} (I : S -> Prop) (m : M S A) (f : A -> M S B) (g : B -> M S D) :
  keeps I (mbnd m f) -> (forall b, keeps I (g b)) -> keeps I (mbnd m (fun a => mbnd (f a) g)).
Proof.
  intros Hm Hg s Hs. specialize (Hm s Hs). unfold mbnd in *. destruct (m s) as [a s'|]; [|done].
  destruct (f a s') as [b s''|]; [|done]. by apply (Hg b).
Qed.

Lemma keeps_bind_assoc3 {S A A' B D} (I : S -> Prop) (m : M S A) (m' : A -> M S A') (f : A -> A' -> M S B)
  (g : B -> M S D) :
  keeps I (mbnd m (fun a => mbnd (m' a) (f a))) -> (forall b, keeps I (g b)) ->
  keeps I (mbnd m (fun a => mbnd (m' a) (fun a' => mbnd (f a a') g))).
Proof.
  intros Hm Hg s Hs. specialize (Hm s Hs). unfold mbnd in *. destruct (m s) as [a s'|]; [|done].
  destruct (m' a s') as [a' s''|]; [|done]. destruct (f a a' s'') as [b s3|]; [|done]. by apply (Hg b).
Qed.

(** *** Hints and a tactic for entries and for what keeps an invariant *)
Lemma wf_anywhere_route agent r kv : ConstructStaticRoute agent r = Some kv -> wf_anywhere kv.
Proof.
  intros Hr. split; [intros h; by eapply wf_route|]. unfold ConstructStaticRoute in Hr.
  apply bind_Some in Hr as (key & Hk & [= <-]). apply bind_Some in Hk as (net & _ & Hk). by apply fmap_Some in Hk as (rel & _ & ->).
Qed.

Lemma wf_ethernet a i ips mac mtu st rx : wf_anywhere (ConstructEthernetInterface a i ips mac mtu st rx).
Proof. split; [intros h; apply wf_interface|done]. Qed.

Lemma wf_loopback a i ips mac mtu st rx : wf_anywhere (ConstructLoopbackInterface a i ips mac mtu st rx).
Proof. split; [intros h; apply wf_interface|done]. Qed.

Lemma wf_memif a i ips mac mtu st rx id ma p dir m : wf_anywhere (ConstructMemInterface a i ips mac mtu st rx id ma p dir m).
Proof. split; [intros h; apply wf_interface|done]. Qed.

Lemma wf_vxlan a i vni s d : wf_anywhere (ConstructVxlanInterface a i vni s d).
Proof. split; [intros h; apply wf_interface|done]. Qed.

Lemma wf_tap a i ips mac mtu st rx p host : wf_anywhere (ConstructTapInterface a i ips mac mtu st rx p host).
Proof. split; [intros h; apply wf_interface|done]. Qed.

Lemma wf_linux_tap a i ips mac mtu st host ns ms : wf_anywhere (ConstructLinuxTapInterface a i ips mac mtu st host ns ms).
Proof. split; [intros h; apply wf_linux|done]. Qed.

Lemma wf_afpacket a i ips mac mtu st rx host : wf_anywhere (ConstructAFPacketInterface a i ips mac mtu st rx host).
Proof. split; [intros h; apply wf_interface|done]. Qed.

Lemma wf_veth a i ips mac mtu st host peer ns ms : wf_anywhere (ConstructVEthInterface a i ips mac mtu st host peer ns ms).
Proof. split; [intros h; apply wf_linux|done]. Qed.

Lemma wf_arp_anywhere a e : wf_anywhere (ConstructStaticArpEntry a e).
Proof. split; [intros h; apply wf_arp|done]. Qed.

Lemma wf_cross_connect a i0 i1 : Forall wf_anywhere (ConstructXConnect a i0 i1).
Proof.
  apply Forall_cons. split; [|apply Forall_singleton]; (split; [intros h; apply wf_xconnect|done]).
Qed.

(** The steps of a renderer; names are not unfolded to find one. *)
Create HintDb serve.

#[export] Hint Constants Opaque : serve.

#[export] Hint Resolve wf_ethernet wf_loopback wf_memif wf_vxlan wf_tap wf_linux_tap wf_afpacket wf_veth
  wf_arp_anywhere wf_cross_connect : serve.

#[export] Hint Extern 2 (wf_anywhere _) => eapply wf_anywhere_route; eassumption : serve.
End EntityTxn.
