(* ===== verification/NetworkNode.v ===== *)
(** * Nodes: src/plugins/controller/networknode.go

    Module NetworkNode: the manager of the [NetworkNode] objects and their renderer.
    A [*NetworkNode] of the cache is its key; what a method changes of the
    object is stored back under the key.  [validate] writes the [Parent] of each
    interface, so it returns the object changed. *)

From S2P Require Import Prelude GoStd GoNet Model VppAgent State RenderTxn Utils SysParms IpamPool Interfaces EntityTxn.

Module NetworkNode.
Import Utils Interfaces RenderTxn EntityTxn.

Definition ModelTypeNetworkNode : string := "network-node".

Definition KeyPrefix : string := SfcControllerConfigPrefix +:+ "network-node/".

Definition NameKey (name : string) : string := KeyPrefix +:+ name.

Definition InitRAMCache : M World unit := put_field with_networkNodeCache ∅.

(** [ConfigEqual] compares the protobuf texts of metadata and spec. *)
Definition ConfigEqual (nn n2 : NetworkNode loc) : bool :=
  bool_decide (nn_Metadata nn = nn_Metadata n2) && bool_decide (nn_Spec nn = nn_Spec n2).

(** [nn.Metadata.Name] *)
Definition node_name (nn : NetworkNode loc) : M World string :=
  let! md := deref (nn_Metadata nn) in mret (md_Name md).

(** The object behind a pointer, and storing it back. *)
Definition get_node (k : string) : M World (NetworkNode loc) :=
  let! o := get (fun w => networkNodeCache w !! k) in deref o.

Definition put_node (k : string) (nn : NetworkNode loc) : M World unit :=
  modify (fun w => with_networkNodeCache (<[k := nn]> (networkNodeCache w)) w).

Definition get_status (k : string) : M World (NetworkNodeStatus loc) :=
  let! nn := get_node k in deref (nn_Status nn).

Definition put_status (k : string) (st : NetworkNodeStatus loc) : M World unit :=
  let! nn := get_node k in put_node k (with_nn_Status (Some st) nn).

Definition AppendStatusMsg (k : string) (msg : string) : M World unit :=
  let! st := get_status k in put_status k (with_nnt_Msg (nnt_Msg st ++ [msg]) st).

(** [RenderTxnAddVppEntryToTxn(nn.Status.RenderedVppAgentEntries, "network-node/" + name, vppKV)] *)
Definition add_entry (k : string) (vppKV : VppAgent.KVType) : M World unit :=
  let! nn := get_node k in
  let! st := deref (nn_Status nn) in
  let! name := node_name nn in
  let! rendered := RenderTxnAddVppEntryToTxn (nnt_Rendered st) (ModelTypeNetworkNode +:+ "/" +:+ name) vppKV in
  put_status k (with_nnt_Rendered rendered st).

(** [nodeValidateInterfaces]: the interfaces with their parent set as far as the loop
    came, and the error. *)
Fixpoint nodeValidateInterfaces (name nodeName : string) (iFaces : list Interface)
  : list Interface * option error :=
  match iFaces with
  | [] => ([], None)
  | iFace :: rest =>
      if String.eqb (if_IfType iFace) IfTypeEthernet || String.eqb (if_IfType iFace) IfTypeVxlanTunnel then
        let iFace := with_if_Parent name iFace in
        let bad := omap (fun a => match Net.ParseCIDR a with inl e => Some e | inr _ => None end)
                     (if_IpAddresses iFace) in
        match bad with
        | e :: _ => (iFace :: rest, Some ("node/if: " +:+ nodeName +:+ "/" +:+ if_Name iFace +:+ " '" +:+ e +:+
                                          "', expected format i.p.v.4/xx, or ip::v6/xx"))
        | [] => let '(rest, err) := nodeValidateInterfaces name nodeName rest in (iFace :: rest, err)
        end
      else (iFaces, Some ("node/if: " +:+ nodeName +:+ "/" +:+ if_Name iFace +:+ " has invalid if type '" +:+
                          if_IfType iFace +:+ "'"))
  end.

Definition validate_l2bd (name : string) (l2bd : L2BD) : M World (result unit) :=
  if negb (String.eqb (l2bd_L2BdTemplate l2bd) "") && bool_decide (is_Some (l2bd_BdParms l2bd)) then
    mfail ("node: " +:+ name +:+ ", l2bd: " +:+ l2bd_Name l2bd +:+
           "  cannot refer to temmplate and provide l2bd parameters")
  else if negb (String.eqb (l2bd_L2BdTemplate l2bd) "") then
    let! t := SysParms.FindL2BDTemplate (l2bd_L2BdTemplate l2bd) in
    match t with
    | None => mfail ("node: " +:+ name +:+ ", l2bd: " +:+ l2bd_Name l2bd +:+
                     "  has invalid reference to non-existant l2bd template '" +:+ l2bd_L2BdTemplate l2bd +:+ "'")
    | Some _ => mok tt
    end
  else mok tt.

Definition validate (nn : NetworkNode loc) : M World (NetworkNode loc * option error) :=
  let! spec := deref (nn_Spec nn) in
  let! name := node_name nn in
  let '(ifaces, err) := nodeValidateInterfaces name name (nns_Interfaces spec) in
  let nn := with_nn_Spec (Some (with_nns_Interfaces ifaces spec)) nn in
  match err with
  | Some e => mret (nn, Some e)
  | None =>
      let! r := forR (nns_L2Bds spec) (validate_l2bd name) in
      mret (nn, match r with inl e => Some e | inr _ => None end)
  end.

(** [FindVxlanIPaddress]: the first address that parses of the first vxlan interface
    that has one. *)
Definition FindVxlanIPaddress (nodeName : string) : M World (result string) :=
  let! o := get (fun w => networkNodeCache w !! nodeName) in
  match o with
  | None => mfail ("node not found: " +:+ nodeName)
  | Some nn =>
      let! spec := deref (nn_Spec nn) in
      let found := iFace ← nns_Interfaces spec;
                   (if String.eqb (if_IfType iFace) IfTypeVxlanTunnel
                    then omap (fun a => match Net.ParseCIDR a with inl _ => None | inr (ip, _) => Some ip end)
                           (if_IpAddresses iFace)
                    else []) in
      match found with
      | ip :: _ => mok (Net.IP_String ip)
      | [] => mfail ("no vxlan ip address found for node: " +:+ nodeName)
      end
  end.

(** [FindInterfaceInNode]: the interface, [None] for nil, and its type. *)
Definition FindInterfaceInNode (nodeName ifName : string) : M World (option Interface * string) :=
  let! o := get (fun w => networkNodeCache w !! nodeName) in
  match o with
  | None => mret (None, "")
  | Some nn =>
      let! spec := deref (nn_Spec nn) in
      mret (match list_find (fun i => if_Name i = ifName) (nns_Interfaces spec) with
            | Some (_, i) => (Some i, if_IfType i)
            | None => (None, "")
            end)
  end.

(** [FindInterfacesForThisLabelInNode]: once for each matching label of an interface. *)
Definition FindInterfacesForThisLabelInNode (nodeName : string) (labels : list string)
  : M World (list Interface * list string) :=
  let! o := get (fun w => networkNodeCache w !! nodeName) in
  match o with
  | None => mret ([], [])
  | Some nn =>
      let! spec := deref (nn_Spec nn) in
      let interfaces := iFace ← nns_Interfaces spec;
                        ifaceLabel ← if_Labels iFace;
                        (if existsb (String.eqb ifaceLabel) labels then [iFace] else []) in
      mret (interfaces, map if_IfType interfaces)
  end.

(** [FindL2BDForNode] *)
Definition FindL2BDForNode (nodeName l2bdName : string) : M World (option L2BD) :=
  let! o := get (fun w => networkNodeCache w !! nodeName) in
  match o with
  | None => mret None
  | Some nn =>
      let! spec := deref (nn_Spec nn) in
      mret (list_find (fun b => l2bd_Name b = l2bdName) (nns_L2Bds spec) ≫= fun p => Some (snd p))
  end.

Definition vppKeyL2BDName (nodeName l2bdName : string) : string :=
  "L2BD_" +:+ nodeName +:+ "_" +:+ l2bdName.

(** [FindVppL2BDForNode]: the node and the bridge domain, either may be nil; the
    bridge of the transaction comes before the known one. *)
Definition FindVppL2BDForNode (nodeName l2bdName : string) : M World (option (NetworkNode loc) * option loc) :=
  let! l2bd := FindL2BDForNode nodeName l2bdName in
  match l2bd with
  | None => mret (None, None)
  | Some _ =>
      let key := VppAgent.L2BridgeDomainKey nodeName (vppKeyL2BDName nodeName l2bdName) in
      let! a := RenderTxnGetAfterMap key in
      let! v := get (fun w => VppEntries w !! key) in
      match (match a with Some kv => Some kv | None => v end) with
      | None => mret (None, None)
      | Some kv => let! nn := get (fun w => networkNodeCache w !! nodeName) in
                   mret (nn, VppAgent.kv_L2BD kv)
      end
  end.

(** The first address of an interface; [ipAddresses[0]] panics on an empty list. *)
Definition first_address (i : Interface) : M World string := deref (head (if_IpAddresses i)).

(** Whether a static route may use the interface of a node with [n] interfaces. *)
Definition route_interface (label : string) (n : nat) (i : Interface) : bool :=
  String.eqb (if_IfType i) IfTypeEthernet && (findInterfaceLabel (if_Labels i) label || (n =? 1)%nat).

Definition RenderVxlanLoopbackInterfaceAndStaticRoutes (renderingEntity fromNode toNode : string) (vrfID : Z)
  (fromVxlanAddress toVxlanAddress : string) (createLoopbackInterface createLoopbackStaticRoutes : bool)
  (networkNodeInterfaceLabel : string) : M World (option Rendered) :=
  let renderedEntries := Some ∅ in
  let fromVxlanAddress := VppAgent.StripSlashAndSubnetIPAddress fromVxlanAddress in
  let toVxlanAddress := VppAgent.StripSlashAndSubnetIPAddress toVxlanAddress in
  let! n1 := get (fun w => networkNodeCache w !! fromNode) in
  let! sp := get sysParmCache in
  let! renderedEntries :=
    if createLoopbackInterface then
      let! n1 := deref n1 in
      let! name := node_name n1 in
      RenderTxnAddVppEntryToTxn renderedEntries renderingEntity
        (VppAgent.ConstructLoopbackInterface name ("IF_VXLAN_LOOPBACK_" +:+ fromNode) [fromVxlanAddress]
           "" (sp_Mtu sp) IfAdminStatusEnabled (sp_RxMode sp))
    else mret renderedEntries in
  let! n2 := get (fun w => networkNodeCache w !! toNode) in
  if createLoopbackStaticRoutes then
    let! n1 := deref n1 in
    let! spec1 := deref (nn_Spec n1) in
    foldM (nns_Interfaces spec1) renderedEntries (fun renderedEntries node1Iface =>
      if route_interface networkNodeInterfaceLabel (length (nns_Interfaces spec1)) node1Iface then
        let! n2 := deref n2 in
        let! spec2 := deref (nn_Spec n2) in
        foldM (nns_Interfaces spec2) renderedEntries (fun renderedEntries node2Iface =>
          if route_interface networkNodeInterfaceLabel (length (nns_Interfaces spec2)) node2Iface then
            let! hop := first_address node2Iface in
            let! name := node_name n1 in
            let! vppKV := deref (VppAgent.ConstructStaticRoute name
              (mkL3VRFRoute vrfID ("L3VRF_VXLAN Node:" +:+ fromNode +:+ " to Node:" +:+ toNode)
                 toVxlanAddress hop (if_Name node1Iface)
                 (sp_DefaultStaticRouteWeight sp) (sp_DefaultStaticRoutePreference sp))) in
            RenderTxnAddVppEntryToTxn renderedEntries renderingEntity vppKV
          else mret renderedEntries)
      else mret renderedEntries)
  else mret renderedEntries.

Section env.
Context {E : Env}.

Definition writeToDatastore (nn : NetworkNode loc) : M World (result unit) :=
  let! name := node_name nn in
  let! h := get if_heap in
  WriteToDatastore (NameKey name) (VNetworkNode (snapshot_node h nn)).

Definition deleteFromDatastore (nn : NetworkNode loc) : M World unit :=
  let! name := node_name nn in DeleteFromDatastore (NameKey name).

(** *** Rendering *)

Definition render_l2bd (k : string) (l2bd : L2BD) : M World unit :=
  let! bdParms :=
    if negb (String.eqb (l2bd_L2BdTemplate l2bd) "") then SysParms.FindL2BDTemplate (l2bd_L2BdTemplate l2bd)
    else mret (Some (default SysParms.GetDefaultSystemBDParms (l2bd_BdParms l2bd))) in
  let! nn := get_node k in
  let! name := node_name nn in
  let! bdParms := deref bdParms in
  let! vppKV := on_bd_heap (VppAgent.ConstructL2BD name (vppKeyL2BDName name (l2bd_Name l2bd)) [] bdParms) in
  add_entry k vppKV.

Definition renderNodeL2BDs (k : string) : M World (result unit) :=
  let! nn := get_node k in
  let! spec := deref (nn_Spec nn) in
  forM (nns_L2Bds spec) (render_l2bd k) ;;;
  mok tt.

(** One interface of [renderNodeInterfaces]. *)
Definition render_interface (k : string) (iFace : Interface) : M World (result unit) :=
  if String.eqb (if_IfType iFace) IfTypeEthernet && negb (if_BypassRenderer iFace) then
    let! nn := get_node k in
    let! name := node_name nn in
    let! r := InitInterfaceStatus name name iFace in
    match r with
    | inl err =>
        let! st := get_status k in
        let! interfaces := RemoveInterfaceStatus (nnt_Interfaces st) (if_Parent iFace) (if_Name iFace) in
        put_status k (with_nnt_Interfaces interfaces st) ;;;
        AppendStatusMsg k ("node interface: " +:+ if_Parent iFace +:+ "/" +:+ if_Name iFace +:+ ", " +:+ err) ;;;
        mfail err
    | inr ifStatus =>
        let! st := get_status k in
        let! interfaces := PersistInterfaceStatus (nnt_Interfaces st) ifStatus (if_Parent iFace) (if_Name iFace) in
        put_status k (with_nnt_Interfaces interfaces st) ;;;
        let! s := on_if_heap (heap_read ifStatus) in
        let! mtu := SysParms.ResolveMtu (if_Mtu iFace) in
        let! rxMode := SysParms.ResolveRxMode (if_RxMode iFace) in
        add_entry k (VppAgent.ConstructEthernetInterface name (if_Name iFace) (is_IpAddresses s)
          (is_MacAddress s) mtu (if_AdminStatus iFace) rxMode) ;;;
        mok tt
    end
  else mok tt.

Definition renderNodeInterfaces (k : string) : M World (result unit) :=
  let! nn := get_node k in
  let! spec := deref (nn_Spec nn) in
  forR (nns_Interfaces spec) (render_interface k).

Definition renderComplete (k : string) : M World (result unit) :=
  let! st := get_status k in
  (match nnt_Msg st with
   | [] => AppendStatusMsg k "OK" ;;;
           let! st := get_status k in
           put_status k (with_nnt_Status OperStatusUp st)
   | _ => RenderTxnConfigEntityRemoveEntries ;;;
          put_status k (with_nnt_Status OperStatusDown (with_nnt_Rendered None st))
   end) ;;;
  let! nn := get_node k in
  writeToDatastore nn.

(** [renderConfig]; the deferred calls run in reverse order on every return. *)
Definition renderConfig (k : string) : M World (result unit) :=
  RenderTxnConfigEntityStart ;;;
  let! nn := get_node k in
  let! v := validate nn in
  put_node k (fst v) ;;;
  match snd v with
  | Some err => RenderTxnConfigEntityEnd ;;; mfail err
  | None =>
      put_status k (mkNetworkNodeStatus "" [] (Some ∅) (Some ∅)) ;;;
      let! r := renderNodeInterfaces k ;;? renderNodeL2BDs k in
      renderComplete k ;;;
      RenderTxnConfigEntityEnd ;;;
      mret r
  end.

Definition RenderAll : M World unit :=
  range_map networkNodeCache (fun k _ => renderConfig k ;;; mret tt).

Definition renderDelete (k : string) : M World unit :=
  let! st := get_status k in
  DeleteRenderedVppAgentEntries (nnt_Rendered st) ;;;
  let! interfaces := DeleteInterfaceEntries (nnt_Interfaces st) in
  put_status k (with_nnt_Interfaces interfaces st).

(** *** CRUD *)

Definition HandleCRUDOperationCU (_nn : NetworkNode loc) : M World (result unit) :=
  let! v := validate (with_nn_Status None _nn) in
  let nn := match snd v with
            | Some err => with_nn_Status (Some (mkNetworkNodeStatus "" [err] None None)) (fst v)
            | None => fst v
            end in
  let! name := node_name _nn in
  put_node name nn ;;;
  writeToDatastore nn ;;?
  IpamPool.EntityCreate name IPAMPoolScopeNode ;;;
  mok tt.

Definition HandleCRUDOperationR (name : string) : M World (option (NetworkNode loc)) :=
  get (fun w => networkNodeCache w !! name).

Definition HandleCRUDOperationD (nodeName : string) : M World (result unit) :=
  let! o := get (fun w => networkNodeCache w !! nodeName) in
  match o with
  | None => mok tt
  | Some _ =>
      renderDelete nodeName ;;;
      modify (fun w => with_networkNodeCache (delete nodeName (networkNodeCache w)) w) ;;;
      DeleteFromDatastore (NameKey nodeName) ;;;
      IpamPool.EntityDelete nodeName IPAMPoolScopeNode ;;;
      mok tt
  end.

Definition HandleCRUDOperationGetAll : M World (gmap string (NetworkNode loc)) := get networkNodeCache.

(** A node as it is read from etcd: its states become objects, empty maps nil. *)
Definition load_node (v : Value) : M World unit :=
  match v with
  | VNetworkNode nn =>
      let! md := deref (nn_Metadata nn) in
      let! st :=
        match nn_Status nn with
        | None => mret None
        | Some s => let! i := load_interfaces (nnt_Interfaces s) in
                    mret (Some (mkNetworkNodeStatus (nnt_Status s) (nnt_Msg s) (load_map (nnt_Rendered s)) i))
        end in
      put_node (md_Name md) (mkNetworkNode (nn_Metadata nn) (nn_Spec nn) st)
  | _ => panic (* log.Fatal: the value does not unmarshal *)
  end.

Definition LoadAllFromDatastoreIntoCache : M World (result unit) := ReadIterate KeyPrefix load_node.

Definition Init : M World unit := InitRAMCache ;;; LoadAllFromDatastoreIntoCache ;;; mret tt.

(** [httpNetworkNodeProcessPost] on a parsed body. *)
Definition httpNetworkNodeProcessPost (urlName : string) (nn : NetworkNode loc)
  : M World (reply (NetworkNode loc)) :=
  let! name := node_name nn in
  if negb (String.eqb urlName name) then mret (BadRequest "json name does not matach url name")
  else
    let! existing := HandleCRUDOperationR urlName in
    let! v :=
      match existing with
      | Some e => let! v := validate nn in
                  mret (fst v, bool_decide (snd v = None) && ConfigEqual e (fst v))
      | None => mret (nn, false)
      end in
    if (snd v : bool) then mret (HttpOK None)
    else
      let! v := validate (fst v) in
      match snd v with
      | Some err => mret (BadRequest err)
      | None => mret (HttpOK (Some (fst v)))
      end.

End env.

(** ** Rendering a node

    The nodes other than [k], and the services, are [C] and [S]. *)
Record node_at (F : frame) (k : string) (C : gmap string (NetworkNode loc))
  (S : gmap string (NetworkService loc)) (N : gmap string VppAgent.KVType)
  (st : NetworkNodeStatus loc) (w : World) : Prop := {
  na_level : in_level F N w;
  na_node : exists nn, networkNodeCache w !! k = Some nn /\ nn_Status nn = Some st;
  na_others : delete k (networkNodeCache w) = C;
  na_services : networkServiceCache w = S
}.

(** The parents of the interfaces of a node are filled in by its validation. *)
Definition unparented (spec : NetworkNodeSpec) : NetworkNodeSpec :=
  with_nns_Interfaces (map (with_if_Parent "") (nns_Interfaces spec)) spec.

Definition same_node {R R'} (n : NetworkNode R) (n' : NetworkNode R') : Prop :=
  nn_Metadata n' = nn_Metadata n /\ unparented <$> nn_Spec n' = unparented <$> nn_Spec n.

(** While the node renders: the rendered map lists the keys of its level. *)
Definition node_rendering (F : frame) (k : string) C S (ms : list string) (w : World) : Prop :=
  exists N st, node_at F k C S N st w /\ nnt_Msg st = ms /\
    exists r, nnt_Rendered st = Some r /\ dom r = dom N.

Section rendering.
Context {E : Env} (F : frame) (k : string) (C : gmap string (NetworkNode loc))
  (S : gmap string (NetworkService loc)).

(** The parts of the state that the renderer of a node changes freely. *)
Lemma node_at_ext N st w w' :
  node_at F k C S N st w ->
  txnLevel w' = txnLevel w -> afterMap w' = afterMap w -> beforeMap w' = beforeMap w ->
  VppEntries w' = VppEntries w -> configMutex w' = configMutex w -> bd_heap w' = bd_heap w ->
  sysParmCache w' = sysParmCache w ->
  networkNodeCache w' = networkNodeCache w -> networkServiceCache w' = networkServiceCache w ->
  node_at F k C S N st w'.
Proof. intros [HF Hn Ho Hs] ??????? E1 E2. split; [by eapply in_level_ext|by rewrite E1..|by rewrite E2]. Qed.

Lemma node_at_interface_free N st : interface_free (node_at F k C S N st).
Proof. split; [|split|]; intros; by eapply node_at_ext. Qed.

Lemma get_node_wlp N st w :
  node_at F k C S N st w ->
  wlp (get_node k) (fun nn w' => w' = w /\ networkNodeCache w !! k = Some nn /\ nn_Status nn = Some st) w.
Proof.
  intros [_ (nn & Hn & Hst) _ _]. unfold get_node. wpw. by eapply wp_deref.
Qed.

Lemma node_status_read N st w :
  node_at F k C S N st w -> wlp (get_status k) (fun st' w' => w' = w /\ st' = st) w.
Proof.
  intros Hw. unfold get_status. wpw. eapply wp_conseq; [by eapply get_node_wlp|].
  intros nn w' (-> & _ & Hst). by eapply wp_deref.
Qed.

Lemma node_status_write N st st' w :
  node_at F k C S N st w -> wlp (put_status k st') (fun _ => node_at F k C S N st') w.
Proof.
  intros Hw. unfold put_status, put_node. wpw. eapply wp_conseq; [by eapply get_node_wlp|].
  intros nn w' (-> & Hn & Hst). wpw. destruct Hw as [HF _ Ho Hs]. split; [by eapply in_level_ext| |cbn|done].
  - eexists. cbn. by rewrite lookup_insert_eq.
  - by rewrite delete_insert_eq.
Qed.

Lemma AppendStatusMsg_wlp N st msg w :
  node_at F k C S N st w ->
  wlp (AppendStatusMsg k msg) (fun _ => node_at F k C S N (with_nnt_Msg (nnt_Msg st ++ [msg]) st)) w.
Proof.
  intros Hw. unfold AppendStatusMsg. wpw. eapply wp_conseq; [by eapply node_status_read|].
  intros st' w' [-> ->]. by eapply node_status_write.
Qed.

Lemma node_at_afterMap N N' st w :
  node_at F k C S N st w ->
  in_level F N' (with_afterMap (<[txnLevel w := N']> (afterMap w)) w) ->
  node_at F k C S N' st (with_afterMap (<[txnLevel w := N']> (afterMap w)) w).
Proof. intros [_ Hn Ho Hs] HF. by split. Qed.

Lemma add_entry_wlp ms kv w :
  node_rendering F k C S ms w -> VppAgent.wf_entry (bd_heap w) kv ->
  wlp (add_entry k kv) (fun _ => node_rendering F k C S ms) w.
Proof.
  intros (N & st & Hw & Hms & r & Hr & Hdom) Hkv. unfold add_entry. wpw.
  eapply wp_conseq; [by eapply get_node_wlp|]. intros nn w' (-> & _ & Hst). wpw.
  eapply wp_deref; [done|]. wpw. unfold node_name. wpw. destruct (nn_Metadata nn); [|done]. wpw. rewrite Hr.
  eapply wp_conseq; [by eapply AddVppEntryToTxn_wlp, Hkv; apply Hw|].
  intros r0 w' (-> & HF & r' & -> & Hr'). eapply wp_conseq; [by eapply node_status_write, node_at_afterMap|].
  intros [] w' Hw'. eexists _, _. split; [done|]. split; [done|]. exists r'. split; [done|].
  rewrite Hr', Hdom, dom_insert_L. destruct (decide _); set_solver.
Qed.

Lemma render_l2bd_keeps l2bd : keeps (node_rendering F k C S []) (render_l2bd k l2bd).
Proof.
  intros w Hw.
  assert (wlp (render_l2bd k l2bd) (fun _ => node_rendering F k C S []) w) as H; [|exact H].
  unfold render_l2bd. wpw.
  apply (wp_conseq _ _ (fun _ w' => w' = w)).
  { destruct (negb _); [|done]. unfold SysParms.FindL2BDTemplate. by wpw. }
  intros p w' ->. wpw. destruct Hw as (N & st & Hw & Hms & r & Hr & Hdom).
  eapply wp_conseq; [by eapply get_node_wlp|]. intros nn w' (-> & _ & _). wpw.
  unfold node_name. wpw. destruct (nn_Metadata nn); [|done]. wpw. destruct p as [p|]; [|done]. wpw.
  eapply wp_conseq; [apply ConstructL2BD_wlp|]. intros kv w' (h & -> & Hh & Hkv & _).
  apply add_entry_wlp; [|done]. exists N, st. split; [|eauto]. destruct Hw as [HF Hn Ho Hs].
  split; try done. by apply in_level_heap.
Qed.

Lemma node_at_states N st X w : node_at F k C S N st w -> node_at F k C S N st (with_InterfaceStates X w).
Proof. intros [HF Hn Ho Hs]. split; try done. by eapply in_level_ext. Qed.

Lemma node_at_framed N st : framed (node_at F k C S N st).
Proof. split; intros; by eapply node_at_ext. Qed.

Lemma node_at_stores N st : stores_status (node_at F k C S N st).
Proof. apply framed_stores; [apply node_at_framed|apply node_at_states]. Qed.

(** The interface of a node: on an error, which is appended to the messages, its
    state is removed. *)
Lemma render_interface_wlp iFace w :
  node_rendering F k C S [] w ->
  wlp (render_interface k iFace) (fun r w' =>
    match r with
    | inr _ => node_rendering F k C S [] w'
    | inl _ => exists m, node_rendering F k C S [m] w'
    end) w.
Proof.
  intros Hw. unfold render_interface. destruct (_ && _); [|by wpw]. wpw.
  destruct Hw as (N & st & Hw & Hms & Hr).
  eapply wp_conseq; [by eapply get_node_wlp|]. intros nn w' (-> & _ & _). wpw.
  unfold node_name. wpw. destruct (nn_Metadata nn) as [md|]; [|done]. wpw.
  eapply wlp_keeps; [apply keeps_InitInterfaceStatus, node_at_interface_free|exact Hw|].
  clear w Hw. intros [err|l] w Hw; wpw.
  - eapply wp_conseq; [by eapply node_status_read|]. intros st' w' [-> ->]. wpw.
    eapply wlp_keeps; [apply keeps_RemoveInterfaceStatus, node_at_stores|exact Hw|].
    clear w Hw. intros ifs w Hw. wpw. eapply wp_conseq; [by eapply node_status_write|].
    clear w Hw. intros [] w Hw. wpw. eapply wp_conseq; [by eapply AppendStatusMsg_wlp|].
    clear w Hw. intros [] w Hw. wpw. eexists _, N, _. split; [done|]. cbn. by rewrite Hms.
  - eapply wp_conseq; [by eapply node_status_read|]. intros st' w' [-> ->]. wpw.
    eapply wlp_keeps; [apply keeps_PersistInterfaceStatus, node_at_stores|exact Hw|].
    clear w Hw. intros ifs w Hw. wpw. eapply wp_conseq; [by eapply node_status_write|].
    clear w Hw. intros [] w Hw. wpw.
    eapply wlp_keeps; [apply (keeps_on_if_heap _ (node_at_framed N (with_nnt_Interfaces ifs st)))|exact Hw|].
    clear w Hw. intros s w Hw. unfold SysParms.ResolveMtu, SysParms.ResolveRxMode. wpw.
    eapply wp_conseq; [apply add_entry_wlp; [by eexists _, _|apply wf_interface]|].
    intros [] w' Hw'. by wpw.
Qed.

Lemma renderNodeInterfaces_wlp w :
  node_rendering F k C S [] w ->
  wlp (renderNodeInterfaces k) (fun r w' =>
    match r with
    | inr _ => node_rendering F k C S [] w'
    | inl _ => exists m, node_rendering F k C S [m] w'
    end) w.
Proof.
  intros Hw. unfold renderNodeInterfaces. wpw. pose proof Hw as (N & st & Hw' & _).
  eapply wp_conseq; [by eapply get_node_wlp|]. intros nn w' (-> & _ & _). wpw.
  destruct (nn_Spec nn) as [spec|]; [|done]. wpw.
  apply (wp_forR _ _ _ (fun _ => node_rendering F k C S [])); [done| |by intros].
  intros d x r w' _ Hd. eapply wp_conseq; [by apply render_interface_wlp|]. by intros [e|[]] w'' H.
Qed.

Lemma renderNodeL2BDs_wlp w :
  node_rendering F k C S [] w ->
  wlp (renderNodeL2BDs k) (fun r w' => r = Ok tt /\ node_rendering F k C S [] w') w.
Proof.
  intros Hw. unfold renderNodeL2BDs. wpw. pose proof Hw as (N & st & Hw' & _).
  eapply wp_conseq; [by eapply get_node_wlp|]. intros nn w' (-> & _ & _). wpw.
  destruct (nn_Spec nn) as [spec|]; [|done]. wpw.
  eapply wlp_keeps; [apply keeps_forM; intros; apply render_l2bd_keeps|exact Hw|]. intros [] w' H. by wpw.
Qed.

(** How the rendering of a node ends: its entries are kept and listed, or there are none. *)
Definition node_done (ok : bool) (N : gmap string VppAgent.KVType) (st : NetworkNodeStatus loc) : Prop :=
  if ok then nnt_Status st = OperStatusUp /\ nnt_Msg st = ["OK"] /\
             exists r, nnt_Rendered st = Some r /\ dom r = dom N
  else nnt_Status st = OperStatusDown /\ nnt_Msg st <> [] /\ nnt_Rendered st = None /\ N = ∅.

Lemma node_renderComplete_wlp ms w :
  node_rendering F k C S ms w ->
  wlp (renderComplete k) (fun _ w' => exists N st, node_at F k C S N st w' /\ node_done (bool_decide (ms = [])) N st) w.
Proof.
  intros (N & st & Hw & Hms & Hr). unfold renderComplete. wpw.
  eapply wp_conseq; [by eapply node_status_read|]. intros st' w' [-> ->]. wpw.
  eapply (wp_conseq _ _ (fun _ w' => exists N st, node_at F k C S N st w' /\ node_done (bool_decide (ms = [])) N st)).
  - rewrite Hms. destruct ms as [|m ms]; wpw.
    + eapply wp_conseq; [by eapply AppendStatusMsg_wlp|]. clear w Hw. intros [] w Hw. wpw.
      eapply wp_conseq; [by eapply node_status_read|]. intros st' w' [-> ->]. wpw.
      eapply wp_conseq; [by eapply node_status_write|]. intros [] w' Hw'. eexists _, _. split; [done|].
      cbn. by rewrite Hms.
    + destruct (RemoveEntries_in_level _ _ _ (na_level _ _ _ _ _ _ _ Hw)) as (w1 & R & HF & E1).
      eapply wp_run; [exact R|].
      assert (node_at F k C S ∅ st w1) as Hw1 by (rewrite E1; split; [by rewrite <- E1|apply Hw..]).
      eapply wp_conseq; [by eapply node_status_write|]. intros [] w' Hw'. eexists _, _. split; [done|].
      cbn. by rewrite Hms.
  - intros [] w' (N' & st' & Hw' & Hd). wpw. eapply wp_conseq; [by eapply get_node_wlp|].
    intros nn w2 (-> & _ & _). unfold writeToDatastore, node_name. wpw.
    destruct (nn_Metadata nn); [|done]. wpw.
    eapply wlp_keeps; [apply (keeps_WriteToDatastore _ (node_at_framed N' st'))|exact Hw'|]. intros r w2 Hw2. eauto.
Qed.
End rendering.

Section render.
Context {E : Env}.

(** Validation reads the system parameters only. *)
Lemma node_validate_reads nn : reads sysParmCache (validate nn).
Proof.
  unfold validate, node_name. reads_auto. unfold validate_l2bd, SysParms.FindL2BDTemplate. reads_auto.
  apply reads_get. by intros s1 s2 ->.
Qed.

(** In the state [w], node [nn] fails validation. *)
Definition node_rejected (w : World) (nn : NetworkNode loc) (err : error) : Prop :=
  exists nn', validate nn w = Done (nn', Some err) w.

Lemma node_rejected_ext w w' nn err :
  sysParmCache w = sysParmCache w' -> node_rejected w nn err -> node_rejected w' nn err.
Proof. intros Ew [nn' R]. exists nn'. by eapply reads_done; [apply node_validate_reads|exact R|]. Qed.

(** What a rendering did to node [nn] in the state [w]: [r] is its result, [N] its entries. *)
Definition node_outcome (w : World) (nn : NetworkNode loc) (r : result unit)
  (N : gmap string VppAgent.KVType) (new : option (NetworkNodeStatus loc)) : Prop :=
  match r with
  | inr _ => exists st, new = Some st /\ node_done true N st
  | inl e => (N = ∅ /\ new = nn_Status nn /\ node_rejected w nn e) \/ exists st, new = Some st /\ node_done false N st
  end.

Lemma validate_status nn w :
  wlp (validate nn) (fun v w' => w' = w /\ nn_Status (fst v) = nn_Status nn /\
    validate nn w = Done v w) w.
Proof.
  enough (wlp (validate nn) (fun v w' => w' = w /\ nn_Status (fst v) = nn_Status nn) w) as H.
  { unfold wpp in *. destruct (validate nn w) as [v w'|]; [|done]. by destruct H as [-> H]. }
  unfold validate, node_name. wpw. destruct (nn_Spec nn) as [spec|]; [|done]. wpw.
  destruct (nn_Metadata nn) as [md|]; [|done]. wpw.
  destruct (nodeValidateInterfaces _ _ _) as [ifs [e|]]; wpw; [done|].
  apply (wp_conseq _ _ (fun _ w' => w' = w)); [|intros r w' ->; by wpw].
  apply (wp_forR _ _ _ (fun _ w' => w' = w)); [done| |by intros].
  intros d x rest w' _ ->. unfold validate_l2bd, SysParms.FindL2BDTemplate.
  repeat case_match; wpw; try done; case_match; by wpw.
Qed.

Lemma node_renderConfig_wlp k nn w M :
  networkNodeCache w !! k = Some nn -> afterMap w !! txnLevel w = Some M ->
  wlp (renderConfig k) (fun r w' =>
    exists N nn', merged_into w N w' /\ networkNodeCache w' = <[k := nn']> (networkNodeCache w) /\
      networkServiceCache w' = networkServiceCache w /\
      node_outcome w nn r N (nn_Status nn')) w.
Proof.
  intros Hk HM. unfold renderConfig. wpw. eapply wp_run; [apply entity_start_run|].
  pose proof (entity_started_in_level w) as HF. wpw.
  assert (forall C nn', delete k C = delete k (networkNodeCache w) -> C !! k = Some nn' ->
            C = <[k := nn']> (networkNodeCache w)) as Hins.
  { intros C nn' Hd Hn. rewrite <- insert_delete_eq, <- Hd. by rewrite insert_delete_id. }
  unfold get_node. wpw. change (networkNodeCache (entity_started w)) with (networkNodeCache w). rewrite Hk. wpw.
  eapply wp_conseq; [apply validate_status|]. intros [nn1 err] w1 (-> & Hst & Hval). cbn [fst snd] in *. wpw.
  unfold put_node. wpw.
  set (w1 := with_networkNodeCache _ _).
  assert (in_level (frame_of w) ∅ w1) as HF1 by by eapply in_level_ext.
  destruct err as [err|]; wpw.
  - eapply wp_conseq; [by eapply entity_merged|]. intros [] w' (Hm & Hn & Hs). wpw.
    exists ∅, nn1. split_and!; [done|by rewrite Hn|by rewrite Hs|]. left. rewrite Hst.
    split_and!; [done|done|]. apply (node_rejected_ext (entity_started w)); [done|by exists nn1].
  - set (st0 := mkNetworkNodeStatus _ _ _ _).
    apply (wp_conseq _ _ (fun _ => node_rendering (frame_of w) k (delete k (networkNodeCache w))
             (networkServiceCache w) [])).
    { unfold put_status, get_node, put_node, w1. wpw. cbn [networkNodeCache with_networkNodeCache].
      rewrite lookup_insert_eq. wpw. exists ∅, st0. split; [split|split; [done|]].
      - by eapply in_level_ext.
      - eexists. cbn. rewrite lookup_insert_eq. by split.
      - cbn. by rewrite !delete_insert_eq.
      - done.
      - exists ∅. split; [done|]. by rewrite !dom_empty_L. }
    intros [] w2 Hw2. apply wp_bnd.
    apply (wp_conseq _ _ (fun r w' => exists ms, bool_decide (ms = []) = match r with inr _ => true | inl _ => false end /\
             node_rendering (frame_of w) k (delete k (networkNodeCache w)) (networkServiceCache w) ms w')).
    { wpw. eapply wp_conseq; [by apply renderNodeInterfaces_wlp|]. intros [e|[]] w' Hw'.
      - destruct Hw' as [m Hw']. by exists [m].
      - eapply wp_conseq; [by apply renderNodeL2BDs_wlp|]. intros r w'' [-> Hw'']. by exists []. }
    intros r w3 (ms & Hms & Hw3). wpw. eapply wp_conseq; [by eapply node_renderComplete_wlp|].
    intros _ w4 (N & st & [HF4 (nn4 & Hn4 & Hst4) Ho4 Hs4] & Hd). wpw.
    eapply wp_conseq; [by eapply entity_merged|]. intros [] w' (Hm & Hn & Hs). wpw.
    exists N, nn4. rewrite Hn, Hs, Hst4. split_and!; [done|by apply Hins|done|].
    rewrite Hms in Hd. destruct r as [e|[]]; [right|]; by exists st.
Qed.

End render.

(** ** Loopback interfaces and routes of a vxlan tunnel

    The entries are added to the level of the entity that renders, and the map that
    is returned lists those that were not there. *)
Lemma RenderVxlan_listing F N w entity a b vrf fa ta loop routes label :
  in_level F N w ->
  wlp (RenderVxlanLoopbackInterfaceAndStaticRoutes entity a b vrf fa ta loop routes label)
    (listing F (dom N) w) w.
Proof.
  intros HF. unfold RenderVxlanLoopbackInterfaceAndStaticRoutes, node_name. wpw.
  apply (wp_conseq _ _ (listing F (dom N) w)).
  { assert (listing F (dom N) w (Some ∅) w) as Hl.
    { split; [by rewrite with_afterMap_id|]. eexists _, _. split; [done|]. split; [done|]. set_solver. }
    destruct loop; [|by wpw]. destruct (networkNodeCache w !! a) as [n1|]; [|done]. wpw.
    destruct (nn_Metadata n1); [|done]. wpw. apply AddVppEntryToTxn_listing; [done|apply wf_interface]. }
  intros re w1 Hl. wpw. destruct routes; [|by wpw].
  destruct (networkNodeCache w !! a) as [n1|]; [|done]. wpw. destruct (nn_Spec n1) as [s1|]; [|done]. wpw.
  apply (wp_foldM _ _ _ _ (listing F (dom N) w)); [done| |by intros].
  intros r i1 w2 _ Hl2. destruct (route_interface _ _ i1); [|by wpw].
  destruct (networkNodeCache w1 !! b) as [n2|]; [|done]. wpw. destruct (nn_Spec n2) as [s2|]; [|done]. wpw.
  apply (wp_foldM _ _ _ _ (listing F (dom N) w)); [done| |by intros].
  intros r' i2 w3 _ Hl3. destruct (route_interface _ _ i2); [|by wpw]. wpw.
  unfold first_address. destruct (head (if_IpAddresses i2)); [|done]. wpw.
  destruct (nn_Metadata n1); [|done]. wpw.
  destruct (VppAgent.ConstructStaticRoute _ _) as [kv|] eqn:Ekv; [|done]. wpw.
  apply AddVppEntryToTxn_listing; [done|by eapply wf_route].
Qed.

(** ** Witness: a node with an interface and a bridge, inside a transaction *)
Definition demo_node : NetworkNode loc :=
  mkNetworkNode (Some (mkMeta "n1" ∅))
    (Some (mkNetworkNodeSpec "" ""
       [mkInterface "eth0" false IfTypeEthernet "" 0 "" ["10.5.0.1/24"] [] "" None None [] "" "" None None None]
       [mkL2BD "bd" None ""]))
    None.

Definition demo_rendering : World :=
  with_networkNodeCache {["n1" := demo_node]} (with_afterMap {[0 := ∅]} initial_world).

(** The node renders two entries. *)
Lemma demo_node_renders :
  match @renderConfig quiet_env "n1" demo_rendering with
  | Done r w' => r = Ok tt /\ size (after_level 0 w') = 2%nat
  | Panic => False
  end.
Proof. vm_compute. split; reflexivity. Qed.

End NetworkNode.
