(* ===== verification/Overlay.v ===== *)
(** * Node overlays: src/plugins/controller/networknodeoverlay.go

    Module Overlay: the manager of the [NetworkNodeOverlay] objects, the vni allocators
    of the mesh overlays and the vxlan address of each node. *)

From S2P Require Import Prelude GoStd IdAlloc Ipam Model State IpamPool NetworkNode.

Module Overlay.

Definition KeyPrefix : string := SfcControllerConfigPrefix +:+ "network-node-overlay/".

Definition NameKey (name : string) : string := KeyPrefix +:+ name.

Definition InitRAMCache : M World unit :=
  put_field with_networkNodeOverlayCache ∅ ;;;
  put_field with_vniAllocators ∅ ;;;
  put_field with_vxLanAddresses ∅.

Definition ConfigEqual (nno n2 : NetworkNodeOverlay) : bool :=
  bool_decide (nno_Metadata nno = nno_Metadata n2) && bool_decide (nno_Spec nno = nno_Spec n2).

(** [AppendStatusMsg] starts a new status. *)
Definition AppendStatusMsg (msg : string) (nno : NetworkNodeOverlay) : NetworkNodeOverlay :=
  with_nno_Status (Some (mkOverlayStatus "" [msg] None)) nno.

(** [nno.Metadata.Name] *)
Definition overlay_name (nno : NetworkNodeOverlay) : M World string :=
  let! md := deref (nno_Metadata nno) in mret (md_Name md).

Definition AllocateVxlanAddress (poolName nodeName nodeLabel : string) : M World (result (string * Z)) :=
  if String.eqb poolName "" then
    let! r := NetworkNode.FindVxlanIPaddress nodeName in
    match r with
    | inr ipAddress => mok (ipAddress, 0)
    | inl err =>
        if negb (String.eqb nodeLabel "") then
          let! p := NetworkNode.FindInterfacesForThisLabelInNode nodeName [nodeLabel] in
          match fst p with
          | [i] =>
              match if_IpAddresses i with
              | [a] => if String.eqb (if_IfType i) IfTypeEthernet then mok (a, 0)
                       else mfail ("An ethernet interface with an ip_address is required for this label: " +:+ nodeLabel)
              | _ => mfail ("An ethernet interface with an ip_address is required for this label: " +:+ nodeLabel)
              end
          | _ => mfail ("One interface must have a label: " +:+ nodeLabel)
          end
        else mfail err
    end
  else
    let! known := get (fun w => vxLanAddresses w !! nodeName) in
    match known with
    | Some vxlanIPAddress => mok (vxlanIPAddress, 0)
    | None =>
        let! r := IpamPool.FindAllocator poolName "" in
        match r with
        | inl err => mfail ("Cannot find system vxlan pool " +:+ poolName +:+ ": " +:+ err)
        | inr vxlanIpamPool =>
            let! r := IpamPool.on_allocator vxlanIpamPool Ipam.AllocateIPAddress in
            match r with
            | inl _ => mfail ("Cannot allocate address from node overlay vxlan pool " +:+ poolName)
            | inr (vxlanIPAddress, ipNum) =>
                modify (fun w => with_vxLanAddresses (<[nodeName := vxlanIPAddress]> (vxLanAddresses w)) w) ;;;
                mok (vxlanIPAddress, ipNum)
            end
        end
    end.

(** [vniAllocator.AllocateVni()] on the allocator of an overlay. *)
Definition on_vni_allocator {A} (name : string) (m : M Vni.VxlanVniAllocatorType A) : M World A :=
  let! o := get (fun w => vniAllocators w !! name) in
  let! a := deref o in
  match m a with
  | Done r a' => modify (fun w => with_vniAllocators (<[name := a']> (vniAllocators w)) w) ;;; mret r
  | Panic => panic
  end.

Definition validate (nno : NetworkNodeOverlay) : M World (option error) :=
  let! spec := deref (nno_Spec nno) in
  let fail (text : string -> string) : M World (option error) :=
    let! name := overlay_name nno in mret (Some ("Network Node Overlay: " +:+ text name)) in
  let isMesh := String.eqb (nos_ServiceMeshType spec) NetworkNodeOverlayTypeMesh in
  let isHub := String.eqb (nos_ServiceMeshType spec) NetworkNodeOverlayTypeHubAndSpoke in
  if negb (isMesh || isHub) then
    fail (fun name => name +:+ " service mesh type '" +:+ nos_ServiceMeshType spec +:+ "' not recognized")
  else if negb (String.eqb (nos_ConnectionType spec) NetworkNodeOverlayConnectionTypeVxlan) then
    fail (fun name => name +:+ " connection type '" +:+ nos_ConnectionType spec +:+ "' not recognized")
  else if isMesh then
    match nos_VxlanMeshParms spec with
    | None => fail (fun name => name +:+ " vxlan mesh parameters not specified")
    | Some p =>
        if (vm_VniRangeEnd p <? vm_VniRangeStart p) || (vm_VniRangeStart p =? 0) || (vm_VniRangeEnd p =? 0)
        then fail (fun name => name +:+ " vxlan vni range invalid")
        else mret None
    end
  else
    match nos_VxlanHubAndSpokeParms spec with
    | None => fail (fun name => name +:+ " vxlan hub and spoke parameters not specified")
    | Some p => if hs_Vni p =? 0 then fail (fun name => name +:+ " vxlan vni invalid") else mret None
    end.

Section env.
Context {E : Env}.

Definition writeToDatastore (nno : NetworkNodeOverlay) : M World (result unit) :=
  let! name := overlay_name nno in WriteToDatastore (NameKey name) (VNetworkNodeOverlay nno).

Definition deleteFromDatastore (nno : NetworkNodeOverlay) : M World unit :=
  let! name := overlay_name nno in DeleteFromDatastore (NameKey name).

(** [HandleCRUDOperationCU]; an invalid overlay is kept with a message in its status. *)
Definition HandleCRUDOperationCU (_nno : NetworkNodeOverlay) : M World (result unit) :=
  let nno := with_nno_Status None _nno in
  let! err := validate nno in
  let nno := match err with Some e => AppendStatusMsg e nno | None => nno end in
  let! name := overlay_name _nno in
  modify (fun w => with_networkNodeOverlayCache (<[name := nno]> (networkNodeOverlayCache w)) w) ;;;
  let! spec := deref (nno_Spec nno) in
  match nos_VxlanMeshParms spec with
  | Some p =>
      modify (fun w => match vniAllocators w !! name with
        | Some _ => w
        | None => with_vniAllocators
            (<[name := Vni.NewVxlanVniAllocator (vm_VniRangeStart p) (vm_VniRangeEnd p)]> (vniAllocators w)) w
        end)
  | None => mret tt
  end ;;;
  writeToDatastore nno.

Definition HandleCRUDOperationR (name : string) : M World (option NetworkNodeOverlay) :=
  get (fun w => networkNodeOverlayCache w !! name).

Definition HandleCRUDOperationD (name : string) : M World (result unit) :=
  let! o := get (fun w => networkNodeOverlayCache w !! name) in
  match o with
  | None => mok tt
  | Some _ =>
      modify (fun w => with_networkNodeOverlayCache (delete name (networkNodeOverlayCache w)) w) ;;;
      DeleteFromDatastore (NameKey name) ;;;
      mok tt
  end.

Definition HandleCRUDOperationGetAll : M World (gmap string NetworkNodeOverlay) := get networkNodeOverlayCache.

Definition load_overlay (v : Value) : M World unit :=
  match v with
  | VNetworkNodeOverlay nno =>
      let nno := with_nno_Status ((fun s => mkOverlayStatus (not_Status s) (not_Msg s) (load_map (not_Rendered s)))
                                    <$> nno_Status nno) nno in
      let! name := overlay_name nno in
      modify (fun w => with_networkNodeOverlayCache (<[name := nno]> (networkNodeOverlayCache w)) w)
  | _ => panic (* log.Fatal: the value does not unmarshal *)
  end.

Definition LoadAllFromDatastoreIntoCache : M World (result unit) := ReadIterate KeyPrefix load_overlay.

Definition Init : M World unit := InitRAMCache ;;; LoadAllFromDatastoreIntoCache ;;; mret tt.

(** [networkNodeOverlayProcessPost] on a parsed body. *)
Definition networkNodeOverlayProcessPost (urlName : string) (nno : NetworkNodeOverlay)
  : M World (reply NetworkNodeOverlay) :=
  let! name := overlay_name nno in
  if negb (String.eqb urlName name) then mret (BadRequest "json name does not matach url name")
  else
    let! existing := HandleCRUDOperationR urlName in
    if match existing with Some e => ConfigEqual e nno | None => false end then mret (HttpOK None)
    else
      let! err := validate nno in
      match err with
      | Some err => mret (BadRequest err)
      | None => mret (HttpOK (Some nno))
      end.

End env.
End Overlay.
