(* ===== verification/ServiceIf.v ===== *)
(** * Interfaces of network services: src/plugins/controller/networkservice_if.go

    Module ServiceIf: the [NetworkService] objects as the renderers reach them, the
    interface pairs of a pod and its vswitch (memif, veth with AF_PACKET, tap), the
    forwarding entries of an interface, and the bridges of networkservice.go.  A
    [*NetworkService] of the cache is its key. *)

From S2P Require Import Prelude GoStd IdAlloc Model VppAgent State RenderTxn Utils SysParms Interfaces EntityTxn NetworkNode.

Module ServiceIf.
Import Utils Interfaces RenderTxn EntityTxn VppAgent.

Definition ModelTypeNetworkService : string := "network-service".

(** [ns.Metadata.Name] *)
Definition service_name (ns : NetworkService loc) : M World string :=
  let! md := deref (ns_Metadata ns) in mret (md_Name md).

(** The object behind a pointer, and storing it back. *)
Definition get_service (k : string) : M World (NetworkService loc) :=
  let! o := get (fun w => networkServiceCache w !! k) in deref o.

Definition put_service (k : string) (ns : NetworkService loc) : M World unit :=
  modify (fun w => with_networkServiceCache (<[k := ns]> (networkServiceCache w)) w).

Definition get_status (k : string) : M World (NetworkServiceStatus loc) :=
  let! ns := get_service k in deref (ns_Status ns).

Definition put_status (k : string) (st : NetworkServiceStatus loc) : M World unit :=
  let! ns := get_service k in put_service k (with_ns_Status (Some st) ns).

Definition AppendStatusMsg (k : string) (msg : string) : M World unit :=
  let! st := get_status k in put_status k (with_nst_Msg (nst_Msg st ++ [msg]) st).

(** [ns.AppendStatusMsg(msg); return fmt.Errorf(msg)] *)
Definition fail_with {A} (k : string) (msg : string) : M World (result A) :=
  AppendStatusMsg k msg ;;; mfail msg.

(** [ns.Metadata.Name] of the object at [k] *)
Definition name_at (k : string) : M World string := let! ns := get_service k in service_name ns.

(** [RenderTxnAddVppEntriesToTxn(ns.Status.RenderedVppAgentEntries, "network-service/" + name, vppKVs)] *)
Definition add_entries (k : string) (vppKVs : list KVType) : M World unit :=
  let! ns := get_service k in
  let! st := deref (ns_Status ns) in
  let! name := service_name ns in
  let! rendered := RenderTxnAddVppEntriesToTxn (nst_Rendered st) (ModelTypeNetworkService +:+ "/" +:+ name) vppKVs in
  put_status k (with_nst_Rendered rendered st).

Definition add_entry (k : string) (vppKV : KVType) : M World unit := add_entries k [vppKV].

(** [for k, v := range renderedEntries { ns.Status.RenderedVppAgentEntries[k] = v }] *)
Definition add_rendered (k : string) (renderedEntries : option Rendered) : M World unit :=
  let entries := default ∅ renderedEntries in
  if decide (entries = ∅) then mret tt
  else
    let! st := get_status k in
    let! r := deref (nst_Rendered st) in
    put_status k (with_nst_Rendered (Some (entries ∪ r)) st).

(** [vppKV.IFace.Vrf = vrf] *)
Definition set_vrf (vrf : Z) (kv : KVType) : KVType :=
  with_kv_IFace ((fun i => mkVppInterface (vi_Name i) (vi_Type i) (vi_Enabled i) (vi_PhysAddress i) (vi_Mtu i)
                    vrf (vi_IpAddresses i) (vi_RxModeSettings i) (vi_Memif i) (vi_Vxlan i) (vi_Afpacket i) (vi_Tap i))
                 <$> kv_IFace kv) kv.

(** [stringFirstNLastM]: [%c] prints a byte as the character of that number. *)
Definition stringFirstNLastM (n m : nat) (str : string) : string :=
  if (slen str <=? n + m)%nat then str
  else
    let b := bytes_of str in
    String.concat "" (map fmt_c (take n b ++ drop (length b - m) b)).

(** What the lengths leave for the other name. *)
Definition port_budget (lenContainer : nat) : nat * nat :=
  match lenContainer with
  | 7 => (4, 4) | 6 => (4, 5) | 5 => (5, 5) | 4 => (5, 6) | 3 => (6, 6) | 2 => (6, 7) | 1 => (7, 7)
  | _ => (3, 4)
  end%nat.

Definition container_budget (lenPort : nat) : nat * nat :=
  match lenPort with
  | 6 => (5, 4) | 5 => (5, 5) | 4 => (6, 5) | 3 => (6, 6) | 2 => (7, 6) | 1 => (7, 7)
  | _ => (4, 4)
  end%nat.

Definition constructBaseHostName (container port : string) : string :=
  let '(cb, ce) := container_budget (slen port) in
  let '(pb, pe) := port_budget (slen container) in
  stringFirstNLastM cb ce container +:+ stringFirstNLastM pb pe port.

(** [ctlrPlugin.ramCache.MemifIDAllocator.Allocate()] *)
Definition allocate_memif : M World Z := zoom MemifIDAllocator with_MemifIDAllocator Memif.Allocate.

Definition RenderInterfaceForwarding (k : string) (networkPodInterface : Interface) : M World (result unit) :=
  match if_Fwd networkPodInterface with
  | None => mok tt
  | Some fwd =>
      let vppAgent := if_Parent networkPodInterface in
      forM (fwd_L3VrfRoute fwd) (fun l3Vrf =>
        let! name := name_at k in
        let desc := "FWD NS_" +:+ name +:+ "_IF_" +:+ if_Name networkPodInterface +:+ "_VRF_" +:+
                    dec (rt_VrfId l3Vrf) +:+ "_DST_" +:+ rt_DstIpAddr l3Vrf in
        let! vppKV := deref (ConstructStaticRoute vppAgent
          (mkL3VRFRoute (rt_VrfId l3Vrf) desc (rt_DstIpAddr l3Vrf) (rt_NextHopAddr l3Vrf)
             (if_Name networkPodInterface) 0 0)) in
        add_entry k vppKV) ;;;
      forM (fwd_L3Arp fwd) (fun l3Arp =>
        add_entry k (ConstructStaticArpEntry vppAgent
          (mkL3ArpEntry (arp_IpAddress l3Arp) (arp_PhysAddress l3Arp) (if_Name networkPodInterface)))) ;;;
      mok tt
  end.

Section env.
Context {E : Env}.

(** [InitInterfaceStatus] of a pod interface, with the clean-up when it fails. *)
Definition init_pod_interface (k agent : string) (i : Interface) : M World (result loc) :=
  let! name := name_at k in
  let! r := InitInterfaceStatus name agent i in
  match r with
  | inr ifStatus => mok ifStatus
  | inl err =>
      let! st := get_status k in
      let! interfaces := RemoveInterfaceStatus (nst_Interfaces st) (if_Parent i) (if_Name i) in
      put_status k (with_nst_Interfaces interfaces st) ;;;
      AppendStatusMsg k ("network pod interface: " +:+ if_Parent i +:+ "/" +:+ if_Name i +:+ ", " +:+ err) ;;;
      mfail err
  end.

(** [PersistInterfaceStatus(ns.Status.Interfaces, ifStatus, i.Parent, i.Name)] *)
Definition persist (k : string) (ifStatus : loc) (i : Interface) : M World unit :=
  let! st := get_status k in
  let! interfaces := PersistInterfaceStatus (nst_Interfaces st) ifStatus (if_Parent i) (if_Name i) in
  put_status k (with_nst_Interfaces interfaces st).

(** [if ifStatus.MemifID == 0 { ifStatus.MemifID = Allocate() }] *)
Definition ensure_memif_id (ifStatus : loc) : M World unit :=
  let! s := on_if_heap (heap_read ifStatus) in
  if is_MemifID s =? 0 then
    let! id := allocate_memif in update_if ifStatus (with_is_MemifID id)
  else mret tt.

(** The memif entry of one end. *)
Definition memif_entry (agent ifName : string) (addresses : list string) (mac : string) (i : Interface)
  (memifID : Z) (isMaster : bool) (master : string) : M World KVType :=
  let! mtu := SysParms.ResolveMtu (if_Mtu i) in
  let! rxMode := SysParms.ResolveRxMode (if_RxMode i) in
  let! sp := get sysParmCache in
  mret (ConstructMemInterface agent ifName addresses mac mtu (if_AdminStatus i) rxMode memifID isMaster
          (if_MemifParms i) (sp_MemifDirectory sp) master).

Definition RenderConnMemifPair (k vppAgent : string) (conn : Connection) (networkPodInterface : Interface)
  (networkPodType : string) : M World (result (string * option loc)) :=
  let connPodName := if_Parent networkPodInterface in
  let connInterfaceName := if_Name networkPodInterface in
  let? ifStatus := init_pod_interface k vppAgent networkPodInterface in
  ensure_memif_id ifStatus ;;;
  persist k ifStatus networkPodInterface ;;;
  let! s := on_if_heap (heap_read ifStatus) in
  let! vppKV := memif_entry connPodName connInterfaceName (is_IpAddresses s) (is_MacAddress s)
                  networkPodInterface (is_MemifID s) false vppAgent in
  add_entry k vppKV ;;;
  let ifName := "IF_MEMIF_VSWITCH_" +:+ connPodName +:+ "_" +:+ connInterfaceName in
  let! vppKV := memif_entry vppAgent ifName [] "" networkPodInterface (is_MemifID s) true vppAgent in
  add_entry k (set_vrf (cn_VrfId conn) vppKV) ;;;
  mok (ifName, Some ifStatus).

Definition RenderConnDirectInterPodMemifPair (k : string) (if0 if1 : Interface) (networkPodType : string)
  : M World (result unit) :=
  let? if0Status := init_pod_interface k (if_Parent if0) if0 in
  ensure_memif_id if0Status ;;;
  persist k if0Status if0 ;;;
  let! s0 := on_if_heap (heap_read if0Status) in
  let! vppKV := memif_entry (if_Parent if0) (if_Name if0) (is_IpAddresses s0) (is_MacAddress s0) if0
                  (is_MemifID s0) false (if_Parent if1) in
  add_entry k vppKV ;;;
  let? _ := RenderInterfaceForwarding k if0 in
  let? if1Status := init_pod_interface k (if_Parent if1) if1 in
  let! s0 := on_if_heap (heap_read if0Status) in
  update_if if1Status (with_is_MemifID (is_MemifID s0)) ;;;
  persist k if1Status if1 ;;;
  let! s1 := on_if_heap (heap_read if1Status) in
  let! vppKV := memif_entry (if_Parent if1) (if_Name if1) (is_IpAddresses s1) (is_MacAddress s1) if1
                  (is_MemifID s1) true (if_Parent if1) in
  add_entry k vppKV ;;;
  let? _ := RenderInterfaceForwarding k if1 in
  mok tt.

(** [RenderConnTapPair]; the interface name it returns is never set. *)
Definition RenderConnTapPair (k vppAgent : string) (conn : Connection) (networkPodInterface : Interface)
  (networkPodType : string) : M World (result (string * option loc)) :=
  let ifName := "" in
  let connPodName := if_Parent networkPodInterface in
  let connInterfaceName := if_Name networkPodInterface in
  let? ifStatus := init_pod_interface k vppAgent networkPodInterface in
  let linTapIfName := "IF_TAP_VNF_" +:+ connPodName +:+ "_" +:+ connInterfaceName in
  let tapIfName := "IF_TAP_VSWITCH_" +:+ connPodName +:+ "_" +:+ connInterfaceName in
  let hostPortLabel := if String.eqb (if_HostPortLabel networkPodInterface) ""
                       then constructBaseHostName connPodName connInterfaceName
                       else if_HostPortLabel networkPodInterface in
  update_if ifStatus (with_is_HostPortLabel hostPortLabel) ;;;
  persist k ifStatus networkPodInterface ;;;
  let hostNameSpace := match if_TapParms networkPodInterface with Some p => tp_Namespace p | None => "" end in
  let! s := on_if_heap (heap_read ifStatus) in
  let! mtu := SysParms.ResolveMtu (if_Mtu networkPodInterface) in
  let! rxMode := SysParms.ResolveRxMode (if_RxMode networkPodInterface) in
  add_entry k (ConstructLinuxTapInterface vppAgent linTapIfName (is_IpAddresses s) (is_MacAddress s) mtu
    (if_AdminStatus networkPodInterface) hostPortLabel hostNameSpace connPodName) ;;;
  add_entry k (set_vrf (cn_VrfId conn) (ConstructTapInterface vppAgent tapIfName [] "" mtu
    (if_AdminStatus networkPodInterface) rxMode (if_TapParms networkPodInterface) hostPortLabel)) ;;;
  mok (ifName, Some ifStatus).

Definition RenderConnVethAfpPair (k vppAgent : string) (conn : Connection) (networkPodInterface : Interface)
  (networkPodType : string) : M World (result (string * option loc)) :=
  let connPodName := if_Parent networkPodInterface in
  let connInterfaceName := if_Name networkPodInterface in
  let? ifStatus := init_pod_interface k vppAgent networkPodInterface in
  let veth1Name := "IF_VETH_VNF_" +:+ connPodName +:+ "_" +:+ connInterfaceName in
  let veth2Name := "IF_VETH_VSWITCH_" +:+ connPodName +:+ "_" +:+ connInterfaceName in
  let host1Name := connInterfaceName in
  let host2Name := if String.eqb (if_HostPortLabel networkPodInterface) ""
                   then constructBaseHostName connPodName connInterfaceName
                   else if_HostPortLabel networkPodInterface in
  let isVppContainer := String.eqb networkPodType NetworkPodTypeVPPContainer in
  update_if ifStatus (with_is_HostPortLabel host2Name) ;;;
  persist k ifStatus networkPodInterface ;;;
  let! s := on_if_heap (heap_read ifStatus) in
  let vethIPAddresses := if isVppContainer then [] else is_IpAddresses s in
  let! mtu := SysParms.ResolveMtu (if_Mtu networkPodInterface) in
  let! rxMode := SysParms.ResolveRxMode (if_RxMode networkPodInterface) in
  add_entry k (ConstructVEthInterface vppAgent veth1Name vethIPAddresses (is_MacAddress s) mtu
    (if_AdminStatus networkPodInterface) host1Name veth2Name (if_LinuxNamespace networkPodInterface) connPodName) ;;;
  add_entry k (ConstructVEthInterface vppAgent veth2Name [] "" mtu
    (if_AdminStatus networkPodInterface) host2Name veth1Name (if_LinuxNamespace networkPodInterface) vppAgent) ;;;
  (if isVppContainer then
     add_entry k (set_vrf (cn_VrfId conn) (ConstructAFPacketInterface connPodName (if_Name networkPodInterface)
       (is_IpAddresses s) (is_MacAddress s) mtu (if_AdminStatus networkPodInterface) rxMode host1Name))
   else mret tt) ;;;
  let ifName := "IF_AFPIF_VSWITCH_" +:+ connPodName +:+ "_" +:+ connInterfaceName in
  add_entry k (set_vrf (cn_VrfId conn) (ConstructAFPacketInterface vppAgent ifName [] "" mtu
    (if_AdminStatus networkPodInterface) rxMode host2Name)) ;;;
  mok (ifName, Some ifStatus).

(** [RenderConnInterfacePair]: the interface of the vswitch and the state, nil for an
    ethernet interface, which the node has rendered. *)
Definition RenderConnInterfacePair (k vppAgent : string) (conn : Connection) (netPodInterface : Interface)
  (networkPodType : string) : M World (result (string * option loc)) :=
  if String.eqb (if_IfType netPodInterface) IfTypeEthernet then mok (if_Name netPodInterface, None)
  else
    let? r :=
      if String.eqb (if_IfType netPodInterface) IfTypeMemif then
        RenderConnMemifPair k vppAgent conn netPodInterface networkPodType
      else if String.eqb (if_IfType netPodInterface) IfTypeVeth then
        RenderConnVethAfpPair k vppAgent conn netPodInterface networkPodType
      else if String.eqb (if_IfType netPodInterface) IfTypeTap then
        RenderConnTapPair k vppAgent conn netPodInterface networkPodType
      else mok ("", None) in
    let? _ := RenderInterfaceForwarding k netPodInterface in
    mok r.

(** *** Bridges: [RenderL2BD] and [RenderNetworkPodL2BD] of networkservice.go *)

(** The parameters of the bridge of a connection; nil for a missing template. *)
Definition connection_bd_parms (conn : Connection) : M World (option BDParms) :=
  match cn_L2Bd conn with
  | Some l2bd =>
      if negb (String.eqb (l2bd_L2BdTemplate l2bd) "") then SysParms.FindL2BDTemplate (l2bd_L2BdTemplate l2bd)
      else mret (l2bd_BdParms l2bd)
  | None => mret (Some SysParms.GetDefaultSystemBDParms)
  end.

(** A bridge of its own for the connection, on agent [agent]. *)
Definition render_connection_bd (k agent : string) (conn : Connection) (connIndex : Z)
  (l2bdIFs : list BridgedInterface) : M World unit :=
  let! bdParms := connection_bd_parms conn in
  let! name := name_at k in
  let! bdParms := deref bdParms in
  let! vppKV := on_bd_heap (ConstructL2BD agent ("BD_" +:+ name +:+ "_CONN_" +:+ dec (connIndex + 1)) l2bdIFs bdParms) in
  add_entry k vppKV.

Definition RenderL2BD (k : string) (conn : Connection) (connIndex : Z) (nodeName : string)
  (l2bdIFs : list BridgedInterface) : M World (result unit) :=
  if negb (String.eqb (cn_UseNodeL2Bd conn) "") then
    let! p := NetworkNode.FindVppL2BDForNode nodeName (cn_UseNodeL2Bd conn) in
    match snd p with
    | None =>
        let! name := name_at k in
        let! nn := deref (fst p) in
        let! nodeName' := NetworkNode.node_name nn in
        fail_with k ("network-service: " +:+ name +:+ ", referencing a missing node/l2bd: " +:+
                     nodeName' +:+ "/" +:+ cn_UseNodeL2Bd conn)
    | Some nodeL2BD =>
        let! vppKV := on_bd_heap (AppendInterfacesToL2BD nodeName nodeL2BD l2bdIFs) in
        add_entry k vppKV ;;;
        mok tt
    end
  else
    render_connection_bd k nodeName conn connIndex l2bdIFs ;;;
    mok tt.

Definition RenderNetworkPodL2BD (k : string) (conn : Connection) (connIndex : Z) (podName : string)
  (l2bdIFs : list BridgedInterface) : M World (result unit) :=
  if negb (String.eqb (cn_UseNodeL2Bd conn) "") then
    let! name := name_at k in
    fail_with k ("network-service/connIndex: " +:+ name +:+ "/" +:+ dec (connIndex + 1) +:+
                 ", cannot use a node/l2bd: " +:+ cn_UseNodeL2Bd conn +:+ " for vnf=" +:+ podName +:+ " bridge")
  else
    render_connection_bd k podName conn connIndex l2bdIFs ;;;
    mok tt.

End env.

(** ** A service while it renders

    The other services are [C]; the nodes may get parents of interfaces but their
    statuses [G] stay. *)
Record service_at (F : frame) (k : string) (C : gmap string (NetworkService loc))
  (G : gmap string (option (NetworkNodeStatus loc))) (N : gmap string KVType)
  (st : NetworkServiceStatus loc) (w : World) : Prop := {
  sa_level : in_level F N w;
  sa_service : exists ns, networkServiceCache w !! k = Some ns /\ ns_Status ns = Some st;
  sa_others : delete k (networkServiceCache w) = C;
  sa_nodes : nn_Status <$> networkNodeCache w = G
}.

(** The rendered map lists the keys of the level. *)
Definition service_rendering (F : frame) (k : string) C G (w : World) : Prop :=
  exists N st, service_at F k C G N st w /\ exists r, nst_Rendered st = Some r /\ dom r = dom N.

(** The messages of the service at [k]. *)
Definition messages (k : string) (w : World) : list string :=
  match networkServiceCache w !! k ≫= ns_Status with Some st => nst_Msg st | None => [] end.

(** Code that returns an error has left a message. *)
Definition reports {A} (k : string) (m : M World (result A)) : Prop :=
  forall w, wlp m (fun r w' => match r with inl _ => messages k w' <> [] | inr _ => True end) w.

(** What the renderers of service [k] keep is shown for any invariant that allows what
    they do: they change objects, allocators and the service in the cache, write and delete keys outside the
    configuration, and add well-formed entries, which the service lists. *)
Class ServiceInvariant `{E : Env} (k : string) (I : World -> Prop) : Prop := {
  si_free : interface_free I;
  si_stores : stores_status I;
  si_memif : forall a w, I w -> I (with_MemifIDAllocator a w);
  si_vrf : forall a w, I w -> I (with_VrfIDAllocator a w);
  si_vnis : forall a w, I w -> I (with_vniAllocators a w);
  si_vxlan : forall a w, I w -> I (with_vxLanAddresses a w);
  si_service : forall ns ns' w, networkServiceCache w !! k = Some ns -> ns_Metadata ns' = ns_Metadata ns ->
    nst_Rendered <$> ns_Status ns' = nst_Rendered <$> ns_Status ns -> I w ->
    I (with_networkServiceCache (<[k := ns']> (networkServiceCache w)) w);
  si_node : forall n nn nn' w, networkNodeCache w !! n = Some nn -> nn_Status nn' = nn_Status nn ->
    NetworkNode.same_node nn nn' -> I w -> I (with_networkNodeCache (<[n := nn']> (networkNodeCache w)) w);
  si_add_entries : forall kvs, Forall wf_anywhere kvs -> keeps I (add_entries k kvs);
  si_bridge_entry : forall m : M (heap BridgeDomain) KVType,
    (forall w, wlp (on_bd_heap m) (fun kv w' => exists h, w' = with_bd_heap h w /\
       dom (cells (bd_heap w)) ⊆ dom (cells h) /\ wf_entry h kv /\ foreign (VppKey kv)) w) ->
    keeps I (let! kv := on_bd_heap m in add_entry k kv);
  si_vxlan_entries : forall entity a b vrf fa ta loop routes label,
    keeps I (let! r := NetworkNode.RenderVxlanLoopbackInterfaceAndStaticRoutes entity a b vrf fa ta loop routes label in
             add_rendered k r)
}.

Section rendering.
Context {E : Env} (F : frame) (k : string) (C : gmap string (NetworkService loc))
  (G : gmap string (option (NetworkNodeStatus loc))).

Abbreviation I := (service_rendering F k C G).

(** The parts of the state a renderer of services changes freely. *)
Lemma service_at_ext N st w w' :
  service_at F k C G N st w ->
  txnLevel w' = txnLevel w -> afterMap w' = afterMap w -> beforeMap w' = beforeMap w ->
  VppEntries w' = VppEntries w -> configMutex w' = configMutex w -> bd_heap w' = bd_heap w ->
  sysParmCache w' = sysParmCache w ->
  networkServiceCache w' = networkServiceCache w -> nn_Status <$> networkNodeCache w' = nn_Status <$> networkNodeCache w ->
  service_at F k C G N st w'.
Proof.
  intros [HF Hs Ho Hn] ??????? E1 E2. split; [by eapply in_level_ext|by rewrite E1..|by rewrite E2].
Qed.

Lemma rendering_ext w w' :
  I w -> txnLevel w' = txnLevel w -> afterMap w' = afterMap w -> beforeMap w' = beforeMap w ->
  VppEntries w' = VppEntries w -> configMutex w' = configMutex w -> bd_heap w' = bd_heap w ->
  sysParmCache w' = sysParmCache w ->
  networkServiceCache w' = networkServiceCache w -> nn_Status <$> networkNodeCache w' = nn_Status <$> networkNodeCache w ->
  I w'.
Proof. intros (N & st & Hw & Hr) ?????????. exists N, st. split; [by eapply service_at_ext|done]. Qed.

Lemma rendering_interface_free : interface_free I.
Proof. split; [|split|]; intros; by eapply rendering_ext. Qed.

Lemma rendering_framed : framed I.
Proof. split; intros; by eapply rendering_ext. Qed.

Lemma get_service_wlp N st w :
  service_at F k C G N st w ->
  wlp (get_service k) (fun ns w' => w' = w /\ networkServiceCache w !! k = Some ns /\ ns_Status ns = Some st) w.
Proof. intros [_ (ns & Hn & Hst) _ _]. unfold get_service. wpw. by eapply wp_deref. Qed.

Lemma service_status_read N st w :
  service_at F k C G N st w -> wlp (get_status k) (fun st' w' => w' = w /\ st' = st) w.
Proof.
  intros Hw. unfold get_status. wpw. eapply wp_conseq; [by eapply get_service_wlp|].
  intros ns w' (-> & _ & Hst). by eapply wp_deref.
Qed.

Lemma put_service_at N st ns w :
  service_at F k C G N st w -> ns_Status ns = Some st ->
  service_at F k C G N st (with_networkServiceCache (<[k := ns]> (networkServiceCache w)) w).
Proof.
  intros [HF _ Ho Hn] Hns. split; [by eapply in_level_ext| |cbn|done].
  - exists ns. cbn. by rewrite lookup_insert_eq.
  - by rewrite delete_insert_eq.
Qed.

Lemma service_status_write N st st' w :
  service_at F k C G N st w -> wlp (put_status k st') (fun _ => service_at F k C G N st') w.
Proof.
  intros Hw. unfold put_status, put_service. wpw. eapply wp_conseq; [by eapply get_service_wlp|].
  intros ns w' (-> & Hns & Hst). wpw. destruct Hw as [HF _ Ho Hn]. split; [by eapply in_level_ext| |cbn|done].
  - eexists. cbn. by rewrite lookup_insert_eq.
  - by rewrite delete_insert_eq.
Qed.

Lemma add_entries_wlp kvs w :
  I w -> Forall (wf_entry (bd_heap w)) kvs -> wlp (add_entries k kvs) (fun _ => I) w.
Proof.
  intros (N & st & Hw & r & Hr & Hdom) Hkvs. unfold add_entries. wpw.
  eapply wp_conseq; [by eapply get_service_wlp|]. intros ns w' (-> & _ & Hst). wpw.
  eapply wp_deref; [done|]. wpw. unfold service_name. wpw. destruct (ns_Metadata ns); [|done]. wpw. rewrite Hr.
  eapply wp_conseq; [eapply (AddVppEntriesToTxn_listing F ∅ w w); [|done]|].
  { split; [by rewrite with_afterMap_id|]. exists N, r. split; [apply Hw|]. split; [done|]. set_solver. }
  intros r0 w' [Ew (N' & r' & HF & -> & Hdom')].
  assert (service_at F k C G N' st w') as Hw'.
  { destruct Hw as [_ Hs Ho Hn]. rewrite Ew. split; try done. by rewrite <- Ew. }
  eapply wp_conseq; [by eapply service_status_write|]. intros [] w2 Hw2. eexists _, _. split; [done|].
  exists r'. split; [done|]. set_solver.
Qed.

Lemma rendering_add_entries kvs : Forall wf_anywhere kvs -> keeps I (add_entries k kvs).
Proof.
  intros Hkvs w Hw. apply (add_entries_wlp kvs w Hw). eapply Forall_impl; [done|]. intros kv [Hkv _]. apply Hkv.
Qed.

(** The entries of a vxlan tunnel, merged into the rendered map. *)
Lemma rendering_vxlan_entries entity a b vrf fa ta loop routes label :
  keeps I (let! r := NetworkNode.RenderVxlanLoopbackInterfaceAndStaticRoutes entity a b vrf fa ta loop routes label in
           add_rendered k r).
Proof.
  intros w (N & st & Hw & r & Hr & Hdom).
  assert (wlp (let! r := NetworkNode.RenderVxlanLoopbackInterfaceAndStaticRoutes entity a b vrf fa ta loop routes label in
           add_rendered k r) (fun _ => I) w) as H; [|exact H].
  wpw. eapply wp_conseq; [eapply NetworkNode.RenderVxlan_listing, Hw|].
  intros re w' [Ew (N' & re' & HF & -> & Hdom')].
  assert (service_at F k C G N' st w') as Hw'.
  { destruct Hw as [_ Hs Ho Hn]. rewrite Ew. split; try done. by rewrite <- Ew. }
  unfold add_rendered. change (default ∅ (Some re')) with re'. destruct (decide (re' = ∅)) as [->|Hne].
  - wpw. exists N', st. split; [done|]. exists r. split; [done|]. set_solver.
  - wpw. eapply wp_conseq; [by eapply service_status_read|]. intros st' w2 [-> ->]. wpw. rewrite Hr. wpw.
    eapply wp_conseq; [by eapply service_status_write|]. intros [] w2 Hw2. eexists _, _. split; [done|].
    eexists. split; [done|]. rewrite dom_union_L. set_solver.
Qed.

Lemma rendering_bridge_entry (m : M (heap BridgeDomain) KVType) :
  (forall w, wlp (on_bd_heap m) (fun kv w' => exists h, w' = with_bd_heap h w /\
     dom (cells (bd_heap w)) ⊆ dom (cells h) /\ wf_entry h kv /\ foreign (VppKey kv)) w) ->
  keeps I (let! kv := on_bd_heap m in add_entry k kv).
Proof.
  intros Hm w (N & st & Hw & Hr).
  assert (wlp (let! kv := on_bd_heap m in add_entry k kv) (fun _ => I) w) as H; [|exact H].
  wpw. eapply wp_conseq; [apply Hm|]. intros kv w' (h & -> & Hh & Hkv & _).
  apply add_entries_wlp; [|by apply Forall_singleton]. exists N, st. split; [|done].
  destruct Hw as [HF Hs Ho Hn]. split; try done. by apply in_level_heap.
Qed.

(** *** The renderers keep it: what the interface asks for *)
Lemma rendering_service ns ns' w :
  networkServiceCache w !! k = Some ns -> nst_Rendered <$> ns_Status ns' = nst_Rendered <$> ns_Status ns -> I w ->
  I (with_networkServiceCache (<[k := ns']> (networkServiceCache w)) w).
Proof.
  intros Hn Hr (N & st & Hw & r & Hst & Hdom). destruct Hw as [HF (ns0 & Hn0 & Hst0) Ho Hs].
  rewrite Hn in Hn0. injection Hn0 as <-. rewrite Hst0 in Hr. destruct (ns_Status ns') as [st'|] eqn:Hst'; [|done].
  injection Hr as Hr. exists N, st'. split.
  - split; [by eapply in_level_ext| |cbn|done]; [|by rewrite delete_insert_eq].
    exists ns'. cbn. by rewrite lookup_insert_eq.
  - exists r. by rewrite Hr.
Qed.

Lemma rendering_node n nn nn' w :
  networkNodeCache w !! n = Some nn -> nn_Status nn' = nn_Status nn -> I w ->
  I (with_networkNodeCache (<[n := nn']> (networkNodeCache w)) w).
Proof.
  intros Hn Hst Hw. eapply rendering_ext; [exact Hw|done..|]. cbn. rewrite fmap_insert, Hst. apply insert_id.
  by rewrite lookup_fmap, Hn.
Qed.

#[export] Instance rendering_invariant : ServiceInvariant k I.
Proof.
  split.
  - apply rendering_interface_free.
  - apply framed_stores; [apply rendering_framed|]. intros X w Hw. by eapply rendering_ext.
  - intros a w Hw. by eapply rendering_ext.
  - intros a w Hw. by eapply rendering_ext.
  - intros a w Hw. by eapply rendering_ext.
  - intros a w Hw. by eapply rendering_ext.
  - intros ns ns' w Hn _. by apply rendering_service.
  - intros n nn nn' w Hn Hst _. by eapply rendering_node.
  - apply rendering_add_entries.
  - apply rendering_bridge_entry.
  - apply rendering_vxlan_entries.
Qed.
End rendering.

Lemma keeps_get_service I k : keeps I (get_service k).
Proof. unfold get_service. keeps_auto. Qed.

Lemma keeps_name_at I k : keeps I (name_at k).
Proof. unfold name_at, service_name. keeps_auto. all: apply keeps_get_service. Qed.

Lemma keeps_memif_entry {A} I agent ifName ips mac i id ma master (f : KVType -> M World A) :
  (forall kv, wf_anywhere kv -> keeps I (f kv)) -> keeps I (mbnd (memif_entry agent ifName ips mac i id ma master) f).
Proof.
  apply (keeps_bind_val I _ _ wf_anywhere). intros w Hw. unfold memif_entry, SysParms.ResolveMtu, SysParms.ResolveRxMode.
  wpw. split; [done|]. apply wf_memif.
Qed.

Section invariant.
Context `{Env} (k : string) (I : World -> Prop) `{!ServiceInvariant k I}.

Let Hss : stores_status I := si_stores.

Lemma invariant_clock n w : I w -> I (with_clock n w).
Proof. apply (ss_clock I Hss). Qed.

Lemma invariant_order_keys {A} (m : gmap string A) : keeps I (order_keys m).
Proof. apply clocked_order_keys, invariant_clock. Qed.

Lemma invariant_order_set X : keeps I (order_set X).
Proof. apply clocked_order_set, invariant_clock. Qed.

Lemma invariant_on_if_heap {A} (m : M (heap InterfaceStatus) A) : keeps I (on_if_heap m).
Proof. apply clocked_on_if_heap, (ss_if_heap I Hss). Qed.

Lemma invariant_update_if l g : keeps I (update_if l g).
Proof. apply invariant_on_if_heap. Qed.

(** A change of the status that keeps the rendered map. *)
Lemma keeps_put_status (st : NetworkServiceStatus loc) g :
  nst_Rendered (g st) = nst_Rendered st ->
  forall w, I w -> nst_Rendered <$> (networkServiceCache w !! k ≫= ns_Status) = Some (nst_Rendered st) ->
  wlp (put_status k (g st)) (fun _ => I) w.
Proof.
  intros Hg w Hw Hst. unfold put_status, get_service, put_service. wpw.
  destruct (networkServiceCache w !! k) as [ns|] eqn:Hn; [|done]. wpw. eapply si_service; [exact Hn|done| |done].
  cbn in Hst |- *. by rewrite Hst, Hg.
Qed.

Lemma keeps_change_status (g : NetworkServiceStatus loc -> NetworkServiceStatus loc) :
  (forall st, nst_Rendered (g st) = nst_Rendered st) ->
  keeps I (let! st := get_status k in put_status k (g st)).
Proof.
  intros Hg. apply keeps_wlp. intros w Hw. unfold get_status, get_service. wpw.
  destruct (networkServiceCache w !! k) as [ns|] eqn:Hn; [|done]. wpw. destruct (ns_Status ns) as [st|] eqn:Hst; [|done].
  wpw. apply keeps_put_status; [done|done|]. by rewrite Hn; cbn; rewrite Hst.
Qed.

Lemma keeps_AppendStatusMsg msg : keeps I (AppendStatusMsg k msg).
Proof. by apply (keeps_change_status (fun st => with_nst_Msg (nst_Msg st ++ [msg]) st)). Qed.

Lemma keeps_fail_with {A} msg : keeps I (@fail_with A k msg).
Proof. apply keeps_bind; [apply keeps_AppendStatusMsg|]. intros _. apply keeps_mfail. Qed.

Lemma keeps_add_entry kv : wf_anywhere kv -> keeps I (add_entry k kv).
Proof. intros Hkv. apply si_add_entries. by apply Forall_singleton. Qed.

(** *** The renderers of networkservice_if.go *)
Lemma keeps_change_interfaces (m : option (gmap string loc) -> M World (option (gmap string loc))) :
  (forall J i, stores_status J -> keeps J (m i)) ->
  keeps I (let! st := get_status k in let! i := m (nst_Interfaces st) in
           put_status k (with_nst_Interfaces i st)).
Proof.
  intros Hm. apply keeps_wlp. intros w Hw. unfold get_status, get_service. wpw.
  destruct (networkServiceCache w !! k) as [ns|] eqn:Hn; [|done]. wpw. destruct (ns_Status ns) as [st|] eqn:Hst; [|done]. wpw.
  set (J w := I w /\ nst_Rendered <$> (networkServiceCache w !! k ≫= ns_Status) = Some (nst_Rendered st)).
  apply (wlp_keeps J); [apply Hm|by split; [|rewrite Hn; cbn; rewrite Hst]|].
  - unfold J. destruct Hss. split; naive_solver.
  - intros i w' [Hw' Hst']. by apply (keeps_put_status st (with_nst_Interfaces i)).
Qed.

Lemma keeps_init_pod_interface agent i : keeps I (init_pod_interface k agent i).
Proof.
  unfold init_pod_interface. apply keeps_bind; [apply keeps_name_at|]. intros name.
  apply keeps_bind; [apply keeps_InitInterfaceStatus, si_free|]. intros [err|l]; [|apply keeps_mok].
  eapply keeps_bind_assoc3; [apply (keeps_change_interfaces (fun m => RemoveInterfaceStatus m (if_Parent i) (if_Name i)))|].
  - intros. by apply keeps_RemoveInterfaceStatus.
  - intros _. apply keeps_bind; [apply keeps_AppendStatusMsg|]. intros _. apply keeps_mfail.
Qed.

Lemma keeps_persist l i : keeps I (persist k l i).
Proof.
  apply (keeps_change_interfaces (fun m => PersistInterfaceStatus m l (if_Parent i) (if_Name i))).
  intros. by apply keeps_PersistInterfaceStatus.
Qed.

Lemma keeps_allocate_memif : keeps I allocate_memif.
Proof.
  apply (keeps_zoom I _ _ _ (fun _ => True)); [by intros ? _; destruct (Memif.Allocate _)|done|].
  intros t w Hw _. by apply si_memif.
Qed.

Lemma keeps_ensure_memif_id l : keeps I (ensure_memif_id l).
Proof.
  unfold ensure_memif_id. apply keeps_bind; [apply invariant_on_if_heap|]. intros s.
  destruct (_ =? _); [|apply keeps_ret]. apply keeps_bind; [apply keeps_allocate_memif|]. intros id.
  apply invariant_update_if.
Qed.
End invariant.

Lemma keeps_ResolveMtu I m : keeps I (SysParms.ResolveMtu m).
Proof. unfold SysParms.ResolveMtu. keeps_auto. Qed.

Lemma keeps_ResolveRxMode I m : keeps I (SysParms.ResolveRxMode m).
Proof. unfold SysParms.ResolveRxMode. keeps_auto. Qed.

Lemma keeps_FindL2BDTemplate I n : keeps I (SysParms.FindL2BDTemplate n).
Proof. unfold SysParms.FindL2BDTemplate. keeps_auto. Qed.

#[export] Hint Resolve invariant_on_if_heap invariant_update_if invariant_order_keys invariant_order_set keeps_ResolveMtu keeps_ResolveRxMode
  keeps_FindL2BDTemplate keeps_name_at keeps_get_service keeps_add_entry si_add_entries keeps_fail_with keeps_AppendStatusMsg
  keeps_init_pod_interface keeps_persist keeps_ensure_memif_id keeps_allocate_memif : serve.

Lemma wf_set_vrf v kv : wf_anywhere kv -> wf_anywhere (set_vrf v kv).
Proof.
  intros [H Hk]. split; [|exact Hk]. intros h. specialize (H h). unfold wf_entry in *. cbn in *. by rewrite fmap_is_Some.
Qed.

#[export] Hint Resolve wf_set_vrf : serve.

(** Walks a renderer of services. *)
Ltac serve_step :=
  lazymatch goal with
  | |- keeps _ (mbnd (deref _) _) => apply keeps_deref_val; intros ? ?
  | |- keeps _ (mbnd (memif_entry _ _ _ _ _ _ _ _) _) => apply keeps_memif_entry; intros ? ?
  | |- keeps _ (mbnd (NetworkNode.RenderVxlanLoopbackInterfaceAndStaticRoutes _ _ _ _ _ _ _ _ _) _) =>
      eapply keeps_bind_assoc; [apply si_vxlan_entries|]
  | |- keeps _ (mbnd (on_bd_heap _) _) => fail
  | |- _ => keeps_step
  end.

Ltac serve := repeat (serve_step || solve [eauto 4 with serve nocore]).

Section renderers.
Context `{Env} (k : string) (I : World -> Prop) `{!ServiceInvariant k I}.

Lemma keeps_RenderInterfaceForwarding i : keeps I (RenderInterfaceForwarding k i).
Proof. unfold RenderInterfaceForwarding. serve. Qed.

#[local] Hint Resolve keeps_RenderInterfaceForwarding : serve.

Lemma keeps_RenderConnMemifPair agent conn i t : keeps I (RenderConnMemifPair k agent conn i t).
Proof. unfold RenderConnMemifPair. serve. Qed.

Lemma keeps_RenderConnDirectInterPodMemifPair i0 i1 t : keeps I (RenderConnDirectInterPodMemifPair k i0 i1 t).
Proof. unfold RenderConnDirectInterPodMemifPair. serve. Qed.

Lemma keeps_RenderConnTapPair agent conn i t : keeps I (RenderConnTapPair k agent conn i t).
Proof. unfold RenderConnTapPair. serve. Qed.

Lemma keeps_RenderConnVethAfpPair agent conn i t : keeps I (RenderConnVethAfpPair k agent conn i t).
Proof. unfold RenderConnVethAfpPair. serve. Qed.

#[local] Hint Resolve keeps_RenderConnMemifPair keeps_RenderConnTapPair keeps_RenderConnVethAfpPair : serve.

Lemma keeps_RenderConnInterfacePair agent conn i t : keeps I (RenderConnInterfacePair k agent conn i t).
Proof. unfold RenderConnInterfacePair. serve. Qed.

(** *** Bridges *)
Lemma keeps_render_connection_bd agent conn ci ifs : keeps I (render_connection_bd k agent conn ci ifs).
Proof.
  unfold render_connection_bd, connection_bd_parms. serve.
  apply si_bridge_entry. intros. apply ConstructL2BD_wlp.
Qed.

#[local] Hint Resolve keeps_render_connection_bd : serve.

Lemma keeps_FindVppL2BDForNode n b : keeps I (NetworkNode.FindVppL2BDForNode n b).
Proof. unfold NetworkNode.FindVppL2BDForNode, NetworkNode.FindL2BDForNode, RenderTxnGetAfterMap. serve. Qed.

Lemma keeps_node_name nn : keeps I (NetworkNode.node_name nn).
Proof. unfold NetworkNode.node_name. serve. Qed.

#[local] Hint Resolve keeps_FindVppL2BDForNode keeps_node_name : serve.

Lemma keeps_RenderL2BD conn ci n ifs : keeps I (RenderL2BD k conn ci n ifs).
Proof.
  unfold RenderL2BD. serve.
  apply keeps_bind_assoc; [|serve]. apply si_bridge_entry. intros. apply AppendInterfacesToL2BD_wlp.
Qed.

Lemma keeps_RenderNetworkPodL2BD conn ci pod ifs : keeps I (RenderNetworkPodL2BD k conn ci pod ifs).
Proof. unfold RenderNetworkPodL2BD. serve. Qed.
End renderers.

#[export] Hint Resolve keeps_RenderConnDirectInterPodMemifPair keeps_RenderConnInterfacePair keeps_RenderL2BD
  keeps_RenderNetworkPodL2BD : serve.

(** ** Errors leave a message *)
Section reports.
Context {E : Env} (k : string).

Lemma reports_mok {A} (a : A) : reports k (mok a).
Proof. intros w. by wpw. Qed.

Lemma reports_bnd {A B} (m : M World A) (f : A -> M World (result B)) :
  (forall a, reports k (f a)) -> reports k (mbnd m f).
Proof.
  intros Hf w. wp_step. unfold wpp at 1. destruct (m w) as [a w'|]; [|done]. apply Hf.
Qed.

Lemma reports_rbnd {A B} (m : M World (result A)) (f : A -> M World (result B)) :
  reports k m -> (forall a, reports k (f a)) -> reports k (rbnd m f).
Proof.
  intros Hm Hf w. wp_step. eapply wp_conseq; [apply Hm|]. intros [e|a] w' Hw'; [done|apply Hf].
Qed.

Lemma reports_forR {A} (l : list A) f : (forall a, reports k (f a)) -> reports k (forR l f).
Proof.
  intros Hf. induction l as [|a l IH]; cbn; [apply reports_mok|]. by apply reports_rbnd.
Qed.

Lemma reports_foldR {A B} (l : list A) (b : B) f : (forall b a, reports k (f b a)) -> reports k (foldR l b f).
Proof.
  intros Hf. revert b. induction l as [|a l IH]; intros b; cbn; [apply reports_mok|]. by apply reports_rbnd.
Qed.

Lemma reports_panic {A} : reports k (@panic World (result A)).
Proof. done. Qed.

Lemma reports_append {A} msg e : reports k (AppendStatusMsg k msg ;;; @mfail World A e).
Proof.
  intros w. unfold AppendStatusMsg, get_status, put_status, get_service, put_service. wpw.
  destruct (networkServiceCache w !! k) as [ns|] eqn:Hn; [|done]. wpw. destruct (ns_Status ns); [|done]. wpw.
  rewrite Hn. wpw. unfold messages. cbn. rewrite lookup_insert_eq. cbn. by destruct (nst_Msg _).
Qed.

Lemma reports_fail_with {A} msg : reports k (@fail_with A k msg).
Proof. apply reports_append. Qed.
End reports.

#[export] Hint Resolve reports_mok reports_panic reports_append reports_fail_with : serve.

(** Walks a computation to its errors. *)
Ltac reports_step :=
  first [ solve [eauto 2 with serve nocore]
        | lazymatch goal with
          | |- forall _, _ => intros ?
          | |- reports _ (mbnd _ _) => apply reports_bnd
          | |- reports _ (rbnd _ _) => apply reports_rbnd
          | |- reports _ (forR _ _) => apply reports_forR
          | |- reports _ (foldR _ _ _) => apply reports_foldR
          | |- reports _ (match ?x with _ => _ end) => destruct x
          | |- reports _ (let _ := _ in _) => cbv zeta
          end ].

Ltac reports_auto := repeat reports_step.

Section reporting.
Context {E : Env} (k : string).

Lemma reports_init_pod_interface a i : reports k (init_pod_interface k a i).
Proof. unfold init_pod_interface. reports_auto. Qed.

Lemma reports_RenderInterfaceForwarding i : reports k (RenderInterfaceForwarding k i).
Proof. unfold RenderInterfaceForwarding. reports_auto. Qed.

#[local] Hint Resolve reports_init_pod_interface reports_RenderInterfaceForwarding : serve.

Lemma reports_RenderConnDirectInterPodMemifPair i0 i1 t : reports k (RenderConnDirectInterPodMemifPair k i0 i1 t).
Proof. unfold RenderConnDirectInterPodMemifPair. reports_auto. Qed.

Lemma reports_RenderConnInterfacePair a c i t : reports k (RenderConnInterfacePair k a c i t).
Proof.
  unfold RenderConnInterfacePair, RenderConnMemifPair, RenderConnTapPair, RenderConnVethAfpPair. reports_auto.
Qed.

Lemma reports_RenderL2BD c ci n ifs : reports k (RenderL2BD k c ci n ifs).
Proof. unfold RenderL2BD. reports_auto. Qed.

Lemma reports_RenderNetworkPodL2BD c ci n ifs : reports k (RenderNetworkPodL2BD k c ci n ifs).
Proof. unfold RenderNetworkPodL2BD. reports_auto. Qed.
End reporting.

#[export] Hint Resolve reports_RenderConnDirectInterPodMemifPair reports_RenderConnInterfacePair reports_RenderL2BD
  reports_RenderNetworkPodL2BD : serve.
End ServiceIf.
