(* ===== verification/HostNames.v ===== *)
(** * Names of interfaces on a host

    Module HostNames: the names that [constructBaseHostName] of networkservice_if.go makes
    for the taps and veths of a pod.  Linux takes names of at most 15 bytes. *)

From S2P Require Import Prelude GoStd ServiceIf.

Module HostNames.
Import ServiceIf.

(** Every byte is the character of its number. *)
Definition ascii_only (s : string) : Prop := Forall (fun c => (Ascii.nat_of_ascii c < 128)%nat) (bytes_of s).

Lemma fmt_c_ascii c : (Ascii.nat_of_ascii c < 128)%nat -> fmt_c c = String.String c "".
Proof.
  intros H. unfold fmt_c.
  first [by rewrite decide_True | by rewrite bool_decide_true | rewrite (proj2 (Nat.ltb_lt _ _) H)]; done.
Qed.

Lemma concat_ascii l :
  Forall (fun c => (Ascii.nat_of_ascii c < 128)%nat) l -> String.concat "" (map fmt_c l) = of_bytes l.
Proof.
  induction 1 as [|c l Hc _ IH]; [done|]. cbn [map]. rewrite fmt_c_ascii by done.
  destruct l as [|d l]; [done|]. cbn [map] in *. change (String.concat "" (String.String c "" :: fmt_c d :: map fmt_c l))
    with (String.String c "" +:+ "" +:+ String.concat "" (fmt_c d :: map fmt_c l)). by rewrite IH.
Qed.

(** The first [n] and the last [m] bytes, or all of them. *)
Lemma first_last_length n m s : ascii_only s -> slen (stringFirstNLastM n m s) = Nat.min (slen s) (n + m).
Proof.
  intros Ha. unfold stringFirstNLastM. destruct (slen s <=? n + m)%nat eqn:E; [apply Nat.leb_le in E; lia|].
  apply Nat.leb_gt in E. rewrite concat_ascii by (apply Forall_app; split; [by apply Forall_take|by apply Forall_drop]).
  rewrite <- length_bytes_of, bytes_of_of, length_app, length_take, length_drop, length_bytes_of. lia.
Qed.

Lemma first_last_all n m s : (slen s <= n + m)%nat -> stringFirstNLastM n m s = s.
Proof. intros H. unfold stringFirstNLastM. by rewrite (proj2 (Nat.leb_le _ _) H). Qed.

(** What the two parts may take. *)
Definition budget (p : nat * nat) : nat := (fst p + snd p)%nat.

Lemma container_budget_spec n :
  budget (container_budget n) = if bool_decide (1 <= n <= 6)%nat then (15 - n)%nat else 8%nat.
Proof. by do 8 (destruct n as [|n]; [done|]). Qed.

Lemma port_budget_spec n :
  budget (port_budget n) = if bool_decide (1 <= n <= 7)%nat then (15 - n)%nat else 7%nat.
Proof. by do 9 (destruct n as [|n]; [done|]). Qed.


(** With characters of two bytes they need not fit. *)
Lemma host_names_too_long : slen (constructBaseHostName (of_bytes (repeat (Ascii.ascii_of_nat 195) 20)) "eth0") = 26%nat.
Proof. reflexivity. Qed.

End HostNames.
