(* ===== verification/OverlayRender.v ===== *)
(** * Tunnels between nodes: networknodeoverlay_vxlanmesh.go, networknodeoverlay_vxlanhubandspoke.go

    Module OverlayRender: the vxlan tunnels of a connection over a mesh overlay and over a
    hub-and-spoke overlay.  The service is its key [k]; the arguments the functions do
    not use are left out; the map of bridge interfaces per node, which the caller drops
    after the call, is threaded through the loops. *)

From S2P Require Import Prelude GoStd IdAlloc Model VppAgent State RenderTxn Utils IpamPool Interfaces EntityTxn NetworkNode.
From S2P Require Import Overlay ServiceIf.

Module OverlayRender.
Import Utils Interfaces EntityTxn VppAgent ServiceIf.

Abbreviation NodeBridges := (gmap string (list BridgedInterface)).

(** [l2bdIFs[node] = append(l2bdIFs[node], i)] *)
Definition add_bridged (node : string) (i : BridgedInterface) (l2bdIFs : NodeBridges) : NodeBridges :=
  <[node := default [] (l2bdIFs !! node) ++ [i]]> l2bdIFs.

(** [nno.Spec.VxlanMeshParms], [nno.Spec.VxlanHubAndSpokeParms] *)
Definition mesh_parms (nno : NetworkNodeOverlay) : M World VxlanMeshParms :=
  let! spec := deref (nno_Spec nno) in deref (nos_VxlanMeshParms spec).

Definition hub_parms (nno : NetworkNodeOverlay) : M World VxlanHubAndSpokeParms :=
  let! spec := deref (nno_Spec nno) in deref (nos_VxlanHubAndSpokeParms spec).

(** A vni for a connection; [missing] and [exhausted] are the messages when the overlay
    has no allocator or no vni left. *)
Definition mesh_vni (k : string) (nno : NetworkNodeOverlay)
  (missing exhausted : string -> string -> M World string) : M World (result Z) :=
  let! overlay := Overlay.overlay_name nno in
  let! exists_ := get (fun w => vniAllocators w !! overlay) in
  match exists_ with
  | None => let! name := name_at k in let! msg := missing name overlay in fail_with k msg
  | Some _ =>
      let! r := Overlay.on_vni_allocator overlay Vni.AllocateVni in
      match r with
      | inl _ => let! name := name_at k in let! msg := exhausted name overlay in fail_with k msg
      | inr vni => mok vni
      end
  end.

(** The two ends of a tunnel. *)
Definition tunnel_addresses (k : string) (pool fromNode toNode label : string)
  (fromMsg toMsg : error -> M World string) : M World (result (string * string)) :=
  let! r := Overlay.AllocateVxlanAddress pool fromNode label in
  match r with
  | inl err => let! msg := fromMsg err in fail_with k msg
  | inr (vxlanIPFromAddress, _) =>
      let! r := Overlay.AllocateVxlanAddress pool toNode label in
      match r with
      | inl err => let! msg := toMsg err in fail_with k msg
      | inr (vxlanIPToAddress, _) => mok (vxlanIPFromAddress, vxlanIPToAddress)
      end
  end.

Definition ordered_nodes `{E : Env} (nodeMap : gset string) : M World (list string) := order_set nodeMap.

(** [conn.PodInterfaces[i]] *)
Definition pod_interface (conn : Connection) (i : nat) : M World string := deref (cn_PodInterfaces conn !! i).

(** *** Mesh *)

Definition mp_out_of_vnis (connIndex : Z) (name overlay : string) : M World string :=
  mret ("network-service: " +:+ name +:+ ", conn: " +:+ dec (connIndex + 1) +:+ ", node overlay: " +:+
        overlay +:+ " out of vni's").

Definition mp_address_error (k : string) (nno : NetworkNodeOverlay) (connIndex : Z) (err : error) : M World string :=
  let! name := name_at k in
  let! overlay := Overlay.overlay_name nno in
  mret ("network service: " +:+ name +:+ ", conn: " +:+ dec (connIndex + 1) +:+ ", overlay: " +:+
        overlay +:+ " " +:+ err).

Definition mesh_if_name (name : string) (connIndex : Z) (fromNode toNode : string) (vni : Z) : string :=
  "IF_VXLAN_MESH_NET_SRVC_" +:+ name +:+ "_CONN_" +:+ dec (connIndex + 1) +:+ "_FROM_" +:+ fromNode +:+
  "_TO_" +:+ toNode +:+ "_VNI_" +:+ dec vni.

(** The tunnel of a mesh from one node to another, with [vrf] given for an L3 connection,
    and the further entries [extra] of the caller. *)
Definition mesh_tunnel (k : string) (nno : NetworkNodeOverlay) (connIndex vni : Z) (fromNode toNode : string)
  (vrf : option Z) (extra : string -> M World unit) (l2bdIFs : NodeBridges) : M World (result NodeBridges) :=
  let! name := name_at k in
  let ifName := mesh_if_name name connIndex fromNode toNode vni in
  let! p := mesh_parms nno in
  let? a := tunnel_addresses k (vm_LoopbackIpamPoolName p) fromNode toNode (vm_NetworkNodeInterfaceLabel p)
              (mp_address_error k nno connIndex) (mp_address_error k nno connIndex) in
  let vppKV := ConstructVxlanInterface fromNode ifName vni (fst a) (snd a) in
  add_entry k (match vrf with Some v => set_vrf v vppKV | None => vppKV end) ;;;
  let! renderedEntries := NetworkNode.RenderVxlanLoopbackInterfaceAndStaticRoutes
    (ModelTypeNetworkService +:+ "/" +:+ name) fromNode toNode (default 0 vrf) (fst a) (snd a)
    (vm_CreateLoopbackInterface p) (vm_CreateLoopbackStaticRoutes p) (vm_NetworkNodeInterfaceLabel p) in
  add_rendered k renderedEntries ;;;
  extra ifName ;;;
  mok (add_bridged fromNode (mkBridged ifName false 1) l2bdIFs).

Section env.
Context {E : Env}.

(** A tunnel between every two nodes, both ways. *)
Definition mesh_tunnels (nodeMap : gset string)
  (tunnel : string -> string -> NodeBridges -> M World (result NodeBridges)) (l2bdIFs : NodeBridges)
  : M World (result NodeBridges) :=
  let! fromNodes := ordered_nodes nodeMap in
  foldR fromNodes l2bdIFs (fun l2bdIFs fromNode =>
    let! toNodes := ordered_nodes nodeMap in
    foldR toNodes l2bdIFs (fun l2bdIFs toNode =>
      if String.eqb fromNode toNode then mok l2bdIFs else tunnel fromNode toNode l2bdIFs)).

Definition node_bridges (k : string) (conn : Connection) (connIndex : Z) (nodeMap : gset string)
  (l2bdIFs : NodeBridges) : M World (result unit) :=
  let! nodes := ordered_nodes nodeMap in
  forR nodes (fun nodeName => RenderL2BD k conn connIndex nodeName (default [] (l2bdIFs !! nodeName))).

Definition renderConnL2MPVxlanMesh (nno : NetworkNodeOverlay) (k : string) (conn : Connection) (connIndex : Z)
  (nodeMap : gset string) (l2bdIFs : NodeBridges) : M World (result unit) :=
  let? vni := mesh_vni k nno (mp_out_of_vnis connIndex) (mp_out_of_vnis connIndex) in
  let? l2bdIFs := mesh_tunnels nodeMap (fun fromNode toNode l2bdIFs =>
    mesh_tunnel k nno connIndex vni fromNode toNode None (fun _ => mret tt) l2bdIFs) l2bdIFs in
  node_bridges k conn connIndex nodeMap l2bdIFs.

Definition renderConnL3MPVxlanMesh (nno : NetworkNodeOverlay) (k : string) (conn : Connection) (connIndex : Z)
  (nodeMap : gset string) (l3vrfs : gmap string (list L3VRFRoute)) (l2bdIFs : NodeBridges) : M World (result unit) :=
  let? vni := mesh_vni k nno (mp_out_of_vnis connIndex) (mp_out_of_vnis connIndex) in
  let? l2bdIFs := mesh_tunnels nodeMap (fun fromNode toNode l2bdIFs =>
    mesh_tunnel k nno connIndex vni fromNode toNode (Some (cn_VrfId conn)) (fun ifName =>
      forM (default [] (l3vrfs !! toNode)) (fun toNodel3Vrf =>
        let! vppKV := deref (ConstructStaticRoute fromNode
          (mkL3VRFRoute (rt_VrfId toNodel3Vrf) (rt_Description toNodel3Vrf) (rt_DstIpAddr toNodel3Vrf) "" ifName 0 0)) in
        add_entry k vppKV)) l2bdIFs) l2bdIFs in
  node_bridges k conn connIndex nodeMap l2bdIFs.

(** *** Point to point over a mesh *)

Definition pp_missing (conn : Connection) (connIndex : Z) (name overlay : string) : M World string :=
  let! p0 := pod_interface conn 0 in
  let! p1 := pod_interface conn 1 in
  mret ("network service: " +:+ name +:+ ", conn: " +:+ dec (connIndex + 1) +:+ ", " +:+ p0 +:+ " to " +:+ p1 +:+
        " node overlay: " +:+ overlay +:+ " out of vni's").

(** The format has two verbs more than arguments. *)
Definition pp_exhausted (conn : Connection) (connIndex : Z) (name overlay : string) : M World string :=
  let! p0 := pod_interface conn 0 in
  let! p1 := pod_interface conn 1 in
  mret ("network service: " +:+ name +:+ ", conn: " +:+ dec (connIndex + 1) +:+ ", " +:+ p0 +:+ "/" +:+ p1 +:+
        " to " +:+ overlay +:+ "/%!s(MISSING) overlay: %!s(MISSING) out of vni's").

Definition pp_address_error (k : string) (conn : Connection) (nno : NetworkNodeOverlay) (connIndex : Z)
  (sep : string) (err : error) : M World string :=
  let! name := name_at k in
  let! p0 := pod_interface conn 0 in
  let! p1 := pod_interface conn 1 in
  let! overlay := Overlay.overlay_name nno in
  mret ("network-service: " +:+ name +:+ ", conn: " +:+ dec (connIndex + 1) +:+ ", " +:+ p0 +:+ " to " +:+ p1 +:+
        " node overlay: " +:+ overlay +:+ sep +:+ err).

(** The tunnel from pod [from] to pod [to]; returns its name. *)
Definition pp_tunnel (k : string) (nno : NetworkNodeOverlay) (conn : Connection) (connIndex vni : Z)
  (fromNode toNode : string) (from to : nat) (vrf : option Z) : M World (result string) :=
  let! name := name_at k in
  let! pf := pod_interface conn from in
  let! pt := pod_interface conn to in
  let ifName := "IF_VXLAN_L2PP_NET_SRVC_" +:+ name +:+ "_CONN_" +:+ dec (connIndex + 1) +:+ "_FROM_" +:+ fromNode +:+
                "_" +:+ ConnPodInterfaceSlashToUScore pf +:+ "_TO_" +:+ toNode +:+ "_" +:+
                ConnPodInterfaceSlashToUScore pt +:+ "_VNI_" +:+ dec vni in
  let! p := mesh_parms nno in
  let? a := tunnel_addresses k (vm_LoopbackIpamPoolName p) fromNode toNode (vm_NetworkNodeInterfaceLabel p)
              (pp_address_error k conn nno connIndex ", ") (pp_address_error k conn nno connIndex " ") in
  let vppKV := ConstructVxlanInterface fromNode ifName vni (fst a) (snd a) in
  add_entry k (match vrf with Some v => set_vrf v vppKV | None => vppKV end) ;;;
  let! renderedEntries := NetworkNode.RenderVxlanLoopbackInterfaceAndStaticRoutes
    (ModelTypeNetworkService +:+ "/" +:+ name) fromNode toNode (default 0 vrf) (fst a) (snd a)
    (vm_CreateLoopbackInterface p) (vm_CreateLoopbackStaticRoutes p) (vm_NetworkNodeInterfaceLabel p) in
  add_rendered k renderedEntries ;;;
  mok ifName.

Definition renderConnL2PPVxlanMesh (nno : NetworkNodeOverlay) (k : string) (conn : Connection) (connIndex : Z)
  (node0 node1 : string) (xconn0 : string * string) : M World (result unit) :=
  let? vni := mesh_vni k nno (pp_missing conn connIndex) (pp_exhausted conn connIndex) in
  let? tunnel0 := pp_tunnel k nno conn connIndex vni node0 node1 0 1 None in
  let? tunnel1 := pp_tunnel k nno conn connIndex vni node1 node0 1 0 None in
  add_entries k (ConstructXConnect node0 (fst xconn0) tunnel0) ;;;
  add_entries k (ConstructXConnect node1 (snd xconn0) tunnel1) ;;;
  mok tt.

(** The route on [fromNode] to the first address of the pod at the other end. *)
Definition pp_route (k : string) (conn : Connection) (connIndex : Z) (fromNode ifName : string)
  (ifStatus : option loc) : M World unit :=
  let! l := deref ifStatus in
  let! s := on_if_heap (heap_read l) in
  match is_IpAddresses s with
  | [] => mret tt
  | a :: _ =>
      let! name := name_at k in
      let! vppKV := deref (ConstructStaticRoute fromNode
        (mkL3VRFRoute (cn_VrfId conn)
           ("L3PP NS_" +:+ name +:+ "_VRF_" +:+ dec (cn_VrfId conn) +:+ "_CONN_" +:+ dec (connIndex + 1))
           (StripSlashAndSubnetIPAddress a) "" ifName 0 0)) in
      add_entry k vppKV
  end.

Definition renderConnL3PPVxlanMesh (nno : NetworkNodeOverlay) (k : string) (conn : Connection) (connIndex : Z)
  (ifStatus0 ifStatus1 : option loc) (node0 node1 : string) : M World (result unit) :=
  let? vni := mesh_vni k nno (pp_missing conn connIndex) (pp_exhausted conn connIndex) in
  let? tunnel0 := pp_tunnel k nno conn connIndex vni node0 node1 0 1 (Some (cn_VrfId conn)) in
  pp_route k conn connIndex node0 tunnel0 ifStatus1 ;;;
  let? tunnel1 := pp_tunnel k nno conn connIndex vni node1 node0 1 0 (Some (cn_VrfId conn)) in
  pp_route k conn connIndex node1 tunnel1 ifStatus0 ;;;
  mok tt.

(** *** Hub and spoke *)

Definition hub_error (k : string) (nno : NetworkNodeOverlay) (connIndex : Z) (text : string) : M World string :=
  let! name := name_at k in
  let! overlay := Overlay.overlay_name nno in
  mret ("network-service: " +:+ name +:+ ", conn: " +:+ dec (connIndex + 1) +:+ ", network node overlay: " +:+
        overlay +:+ text).

(** One end of the tunnel between the hub and a spoke. *)
Definition hub_tunnel (k : string) (nno : NetworkNodeOverlay) (connIndex : Z) (p : VxlanHubAndSpokeParms)
  (fromNode toNode fromRole toRole : string) (l2bdIFs : NodeBridges) : M World (result NodeBridges) :=
  let! name := name_at k in
  let vni := hs_Vni p in
  let ifName := "IF_VXLAN_NET_SRVC_" +:+ name +:+ "_CONN_" +:+ dec (connIndex + 1) +:+ "_FROM_" +:+ fromRole +:+ "_" +:+
                fromNode +:+ "_TO_" +:+ toRole +:+ "_" +:+ toNode +:+ "_VNI_" +:+ dec vni in
  let? a := tunnel_addresses k (hs_LoopbackIpamPoolName p) fromNode toNode (hs_NetworkNodeInterfaceLabel p)
              (fun err => hub_error k nno connIndex (" " +:+ err)) (fun err => hub_error k nno connIndex (" " +:+ err)) in
  add_entry k (ConstructVxlanInterface fromNode ifName vni (fst a) (snd a)) ;;;
  let! renderedEntries := NetworkNode.RenderVxlanLoopbackInterfaceAndStaticRoutes
    (ModelTypeNetworkService +:+ "/" +:+ name) fromNode toNode 0 (fst a) (snd a)
    (hs_CreateLoopbackInterface p) (hs_CreateLoopbackStaticRoutes p) (hs_NetworkNodeInterfaceLabel p) in
  add_rendered k renderedEntries ;;;
  mok (add_bridged fromNode (mkBridged ifName false 0) l2bdIFs).

Definition renderConnL2MPVxlanHubAndSpoke (nno : NetworkNodeOverlay) (k : string) (conn : Connection) (connIndex : Z)
  (spokeNodeMap : gset string) (l2bdIFs : NodeBridges) : M World (result unit) :=
  let! p := hub_parms nno in
  let hubNodeName := hs_HubNodeName p in
  let! hub := NetworkNode.HandleCRUDOperationR hubNodeName in
  match hub with
  | None => let! msg := hub_error k nno connIndex (", hub_node: " +:+ hubNodeName +:+ " not found") in fail_with k msg
  | Some _ =>
      let! spokes := ordered_nodes spokeNodeMap in
      let? l2bdIFs := foldR spokes l2bdIFs (fun l2bdIFs spokeNodeName =>
        if String.eqb hubNodeName spokeNodeName then
          let! msg := hub_error k nno connIndex (" hub node same as spoke " +:+ hubNodeName) in fail_with k msg
        else
          let? l2bdIFs := hub_tunnel k nno connIndex p hubNodeName spokeNodeName "HUB" "SPOKE" l2bdIFs in
          hub_tunnel k nno connIndex p spokeNodeName hubNodeName "SPOKE" "HUB" l2bdIFs) in
      let? _ := node_bridges k conn connIndex spokeNodeMap l2bdIFs in
      RenderL2BD k conn connIndex hubNodeName (default [] (l2bdIFs !! hubNodeName))
  end.

End env.

(** ** What the tunnels of a service keep *)
Lemma keeps_get_node I n : keeps I (NetworkNode.get_node n).
Proof. unfold NetworkNode.get_node. keeps_auto. Qed.

Lemma keeps_FindVxlanIPaddress I n : keeps I (NetworkNode.FindVxlanIPaddress n).
Proof. unfold NetworkNode.FindVxlanIPaddress. keeps_auto. Qed.

Lemma keeps_FindInterfacesForThisLabelInNode I n l : keeps I (NetworkNode.FindInterfacesForThisLabelInNode n l).
Proof. unfold NetworkNode.FindInterfacesForThisLabelInNode. keeps_auto. Qed.

Lemma keeps_FindInterfaceInNode I n i : keeps I (NetworkNode.FindInterfaceInNode n i).
Proof. unfold NetworkNode.FindInterfaceInNode. keeps_auto. Qed.

Lemma keeps_node_R I n : keeps I (NetworkNode.HandleCRUDOperationR n).
Proof. apply keeps_get. Qed.

Lemma keeps_overlay_R I n : keeps I (Overlay.HandleCRUDOperationR n).
Proof. apply keeps_get. Qed.

Lemma keeps_overlay_name I nno : keeps I (Overlay.overlay_name nno).
Proof. unfold Overlay.overlay_name. keeps_auto. Qed.

Lemma keeps_mesh_parms I nno : keeps I (mesh_parms nno).
Proof. unfold mesh_parms. keeps_auto. Qed.

Lemma keeps_hub_parms I nno : keeps I (hub_parms nno).
Proof. unfold hub_parms. keeps_auto. Qed.

Lemma keeps_pod_interface I conn i : keeps I (pod_interface conn i).
Proof. unfold pod_interface. keeps_auto. Qed.

#[export] Hint Resolve keeps_get_node keeps_FindVxlanIPaddress keeps_FindInterfacesForThisLabelInNode
  keeps_FindInterfaceInNode keeps_node_R keeps_overlay_R keeps_overlay_name keeps_mesh_parms keeps_hub_parms
  keeps_pod_interface : serve.

Section renderers.
Context `{Env} (k : string) (I : World -> Prop) `{!ServiceInvariant k I}.

Lemma keeps_AllocateVxlanAddress p n l : keeps I (Overlay.AllocateVxlanAddress p n l).
Proof.
  unfold Overlay.AllocateVxlanAddress. serve;
    try (apply IpamPool.keeps_FindAllocator || apply IpamPool.keeps_on_allocator, si_free).
  all: try (apply keeps_modify; intros; by apply si_vxlan).
Qed.

Lemma keeps_on_vni_allocator {A} name (m : M Vni.VxlanVniAllocatorType A) : keeps I (Overlay.on_vni_allocator name m).
Proof.
  unfold Overlay.on_vni_allocator. serve. apply keeps_modify. intros; by apply si_vnis.
Qed.

#[local] Hint Resolve keeps_AllocateVxlanAddress keeps_on_vni_allocator : serve.

Lemma keeps_mesh_vni nno f g :
  (forall a b, keeps I (f a b)) -> (forall a b, keeps I (g a b)) -> keeps I (mesh_vni k nno f g).
Proof. intros Hf Hg. unfold mesh_vni. serve. Qed.

Lemma keeps_tunnel_addresses p a b l f g :
  (forall e, keeps I (f e)) -> (forall e, keeps I (g e)) -> keeps I (tunnel_addresses k p a b l f g).
Proof. intros Hf Hg. unfold tunnel_addresses. serve. Qed.

Lemma keeps_mp_address_error nno ci e : keeps I (mp_address_error k nno ci e).
Proof. unfold mp_address_error. serve. Qed.

Lemma keeps_pp_address_error conn nno ci s e : keeps I (pp_address_error k conn nno ci s e).
Proof. unfold pp_address_error. serve. Qed.

Lemma keeps_hub_error nno ci s : keeps I (hub_error k nno ci s).
Proof. unfold hub_error. serve. Qed.

#[local] Hint Resolve keeps_mesh_vni keeps_tunnel_addresses keeps_mp_address_error keeps_pp_address_error
  keeps_hub_error : serve.

Lemma keeps_mesh_tunnel nno ci vni a b vrf extra ifs :
  (forall i, keeps I (extra i)) -> keeps I (mesh_tunnel k nno ci vni a b vrf extra ifs).
Proof. intros Hx. unfold mesh_tunnel. serve. all: destruct vrf; eauto with serve. Qed.

Lemma keeps_ordered_nodes X : keeps I (ordered_nodes X).
Proof. apply (invariant_order_set k I). Qed.

#[local] Hint Resolve keeps_mesh_tunnel keeps_ordered_nodes : serve.

Lemma keeps_mesh_tunnels X tunnel ifs :
  (forall a b i, keeps I (tunnel a b i)) -> keeps I (mesh_tunnels X tunnel ifs).
Proof. intros Ht. unfold mesh_tunnels. serve. Qed.

Lemma keeps_node_bridges conn ci X ifs : keeps I (node_bridges k conn ci X ifs).
Proof. unfold node_bridges. serve. Qed.

Lemma keeps_mp_out_of_vnis ci a b : keeps I (mp_out_of_vnis ci a b).
Proof. unfold mp_out_of_vnis. serve. Qed.

Lemma keeps_pp_missing conn ci a b : keeps I (pp_missing conn ci a b).
Proof. unfold pp_missing. serve. Qed.

Lemma keeps_pp_exhausted conn ci a b : keeps I (pp_exhausted conn ci a b).
Proof. unfold pp_exhausted. serve. Qed.

#[local] Hint Resolve keeps_mesh_tunnels keeps_node_bridges keeps_mp_out_of_vnis keeps_pp_missing
  keeps_pp_exhausted : serve.

Lemma keeps_renderConnL2MPVxlanMesh nno conn ci X ifs : keeps I (renderConnL2MPVxlanMesh nno k conn ci X ifs).
Proof.
  unfold renderConnL2MPVxlanMesh. serve.
  apply keeps_mesh_tunnels. intros. apply keeps_mesh_tunnel. serve.
Qed.

Lemma keeps_renderConnL3MPVxlanMesh nno conn ci X r ifs : keeps I (renderConnL3MPVxlanMesh nno k conn ci X r ifs).
Proof.
  unfold renderConnL3MPVxlanMesh. serve.
  apply keeps_mesh_tunnels. intros. apply keeps_mesh_tunnel. serve.
Qed.

Lemma keeps_pp_tunnel nno conn ci vni a b i j vrf : keeps I (pp_tunnel k nno conn ci vni a b i j vrf).
Proof. unfold pp_tunnel. serve. all: destruct vrf; eauto with serve. Qed.

Lemma keeps_pp_route conn ci a n s : keeps I (pp_route k conn ci a n s).
Proof. unfold pp_route. serve. Qed.

#[local] Hint Resolve keeps_pp_tunnel keeps_pp_route : serve.

Lemma keeps_renderConnL2PPVxlanMesh nno conn ci a b x : keeps I (renderConnL2PPVxlanMesh nno k conn ci a b x).
Proof. unfold renderConnL2PPVxlanMesh. serve. Qed.

Lemma keeps_renderConnL3PPVxlanMesh nno conn ci s0 s1 a b : keeps I (renderConnL3PPVxlanMesh nno k conn ci s0 s1 a b).
Proof. unfold renderConnL3PPVxlanMesh. serve. Qed.

Lemma keeps_hub_tunnel nno ci p a b ra rb ifs : keeps I (hub_tunnel k nno ci p a b ra rb ifs).
Proof. unfold hub_tunnel. serve. Qed.

#[local] Hint Resolve keeps_hub_tunnel : serve.

Lemma keeps_renderConnL2MPVxlanHubAndSpoke nno conn ci X ifs :
  keeps I (renderConnL2MPVxlanHubAndSpoke nno k conn ci X ifs).
Proof. unfold renderConnL2MPVxlanHubAndSpoke. serve. Qed.
End renderers.

#[export] Hint Resolve keeps_renderConnL2MPVxlanMesh keeps_renderConnL3MPVxlanMesh keeps_renderConnL2PPVxlanMesh
  keeps_renderConnL3PPVxlanMesh keeps_renderConnL2MPVxlanHubAndSpoke : serve.

(** ** Errors leave a message *)
Section reporting.
Context {E : Env} (k : string).

Lemma reports_mesh_vni nno f g : reports k (mesh_vni k nno f g).
Proof. unfold mesh_vni. reports_auto. Qed.

Lemma reports_tunnel_addresses p a b l f g : reports k (tunnel_addresses k p a b l f g).
Proof. unfold tunnel_addresses. reports_auto. Qed.

#[local] Hint Resolve reports_mesh_vni reports_tunnel_addresses : serve.

Lemma reports_mesh_tunnel nno ci vni a b vrf extra ifs : reports k (mesh_tunnel k nno ci vni a b vrf extra ifs).
Proof. unfold mesh_tunnel. reports_auto. Qed.

#[local] Hint Resolve reports_mesh_tunnel : serve.

Lemma reports_mesh_tunnels X tunnel ifs :
  (forall a b i, reports k (tunnel a b i)) -> reports k (mesh_tunnels X tunnel ifs).
Proof. intros Ht. unfold mesh_tunnels. reports_auto. Qed.

Lemma reports_node_bridges c ci X ifs : reports k (node_bridges k c ci X ifs).
Proof. unfold node_bridges. reports_auto. Qed.

#[local] Hint Resolve reports_node_bridges : serve.

Lemma reports_renderConnL2MPVxlanMesh nno c ci X ifs : reports k (renderConnL2MPVxlanMesh nno k c ci X ifs).
Proof. unfold renderConnL2MPVxlanMesh. reports_auto. apply reports_mesh_tunnels. reports_auto. Qed.

Lemma reports_renderConnL3MPVxlanMesh nno c ci X r ifs : reports k (renderConnL3MPVxlanMesh nno k c ci X r ifs).
Proof. unfold renderConnL3MPVxlanMesh. reports_auto. apply reports_mesh_tunnels. reports_auto. Qed.

Lemma reports_pp_tunnel nno c ci vni a b i j vrf : reports k (pp_tunnel k nno c ci vni a b i j vrf).
Proof. unfold pp_tunnel. reports_auto. Qed.

#[local] Hint Resolve reports_pp_tunnel : serve.

Lemma reports_renderConnL2PPVxlanMesh nno c ci a b x : reports k (renderConnL2PPVxlanMesh nno k c ci a b x).
Proof. unfold renderConnL2PPVxlanMesh. reports_auto. Qed.

Lemma reports_renderConnL3PPVxlanMesh nno c ci s0 s1 a b : reports k (renderConnL3PPVxlanMesh nno k c ci s0 s1 a b).
Proof. unfold renderConnL3PPVxlanMesh. reports_auto. Qed.

Lemma reports_renderConnL2MPVxlanHubAndSpoke nno c ci X ifs :
  reports k (renderConnL2MPVxlanHubAndSpoke nno k c ci X ifs).
Proof. unfold renderConnL2MPVxlanHubAndSpoke, hub_tunnel. reports_auto. Qed.
End reporting.

#[export] Hint Resolve reports_renderConnL2MPVxlanMesh reports_renderConnL3MPVxlanMesh
  reports_renderConnL2PPVxlanMesh reports_renderConnL3PPVxlanMesh reports_renderConnL2MPVxlanHubAndSpoke : serve.

(** ** After a restart *)
Section restart.
Context {E : Env}.

Lemma keeps_no_allocators : keeps (fun w => vniAllocators w = ∅) Overlay.LoadAllFromDatastoreIntoCache.
Proof.
  assert (framed (fun w => vniAllocators w = ∅)) as Hf by by split.
  unfold Overlay.LoadAllFromDatastoreIntoCache, ReadIterate. keeps_auto; try apply keeps_tick; try done.
  apply keeps_range_map; [done|]. intros key v. unfold Overlay.load_overlay, Overlay.overlay_name. keeps_auto.
  by apply keeps_modify.
Qed.

Lemma mesh_vni_missing k nno missing exhausted w :
  vniAllocators w = ∅ -> wlp (mesh_vni k nno missing exhausted) (fun r _ => exists e, r = inl e) w.
Proof.
  intros Hv. unfold mesh_vni, Overlay.overlay_name. destruct (nno_Metadata nno) as [md|]; [|done]. wpw.
  rewrite Hv, lookup_empty. wpw. apply wlp_any. intros name w1. wpw. apply wlp_any. intros msg w2.
  unfold fail_with. wpw. apply wlp_any. intros [] w3. wpw. by exists msg.
Qed.

(** C37: a restart loses the vnis of the overlays.  After the overlays were loaded from etcd no
    overlay has an allocator, and while that is so every connection over a vxlan mesh is
    refused as if the vnis were used up, whatever the range of the overlay: multipoint or
    between two interfaces, on layer 2 or 3. *)
Theorem restart_loses_vnis w :
  wlp Overlay.Init (fun _ w' => vniAllocators w' = ∅) w /\
  (vniAllocators w = ∅ -> forall nno k conn connIndex,
    let refused m := wlp m (fun (r : result unit) (_ : World) => exists e, r = inl e) w in
    (forall nodes bridges, refused (renderConnL2MPVxlanMesh nno k conn connIndex nodes bridges)) /\
    (forall nodes vrfs bridges, refused (renderConnL3MPVxlanMesh nno k conn connIndex nodes vrfs bridges)) /\
    (forall node0 node1 xconn, refused (renderConnL2PPVxlanMesh nno k conn connIndex node0 node1 xconn)) /\
    (forall if0 if1 node0 node1, refused (renderConnL3PPVxlanMesh nno k conn connIndex if0 if1 node0 node1))).
Proof.
  split.
  - unfold Overlay.Init, Overlay.InitRAMCache, put_field. wpw.
    eapply wlp_keeps; [apply keeps_no_allocators|done|]. intros r w' H. by wpw.
  - intros Hv nno k conn connIndex refused. split_and!; intros; unfold refused, renderConnL2MPVxlanMesh, renderConnL3MPVxlanMesh,
      renderConnL2PPVxlanMesh, renderConnL3PPVxlanMesh; wpw;
      (eapply wp_conseq; [by apply mesh_vni_missing|]); intros r w' [e ->]; by exists e.
Qed.
End restart.

(** ** Witness: an overlay with vnis 5000 to 6000 is read back from etcd *)
Definition demo_mesh_overlay : NetworkNodeOverlay :=
  mkOverlay (Some (mkMeta "o" ∅))
    (Some (mkOverlaySpec NetworkNodeOverlayTypeMesh NetworkNodeOverlayConnectionTypeVxlan None
       (Some (mkMeshParms 5000 6000 "" false false "")))) None.

Definition demo_restarted : World :=
  with_networkServiceCache {["s1" := mkNetworkService (Some (mkMeta "s1" ∅)) None
      (Some (mkNetworkServiceStatus "" [] (Some ∅) (Some ∅)))]}
    (with_etcd {[Overlay.NameKey "o" := VNetworkNodeOverlay demo_mesh_overlay]} initial_world).

Definition demo_mesh_connection : Connection := mkConnection "" ConnTypeL2MP "o" [] [] [] "" None 0 "".

Lemma restart_loses_vnis_witness :
  exists w', @Overlay.Init quiet_env demo_restarted = Done tt w' /\
    networkNodeOverlayCache w' = {["o" := demo_mesh_overlay]} /\
    exists e w2, @renderConnL2MPVxlanMesh quiet_env demo_mesh_overlay "s1" demo_mesh_connection 0 {["n1"; "n2"]} ∅ w'
                 = Done (inl e) w2.
Proof.
  destruct (@Overlay.Init quiet_env demo_restarted) as [[] w'|] eqn:R; [|vm_compute in R; discriminate].
  exists w'. split; [reflexivity|]. split; [vm_compute in R; injection R as <-; vm_compute; reflexivity|].
  pose proof (proj1 (@restart_loses_vnis quiet_env demo_restarted)) as Hv. unfold wpp in Hv. rewrite R in Hv.
  destruct (proj2 (@restart_loses_vnis quiet_env w') Hv demo_mesh_overlay "s1" demo_mesh_connection 0) as [H _].
  specialize (H {["n1"; "n2"]} ∅). unfold wpp in H.
  destruct (@renderConnL2MPVxlanMesh quiet_env demo_mesh_overlay "s1" demo_mesh_connection 0 {["n1"; "n2"]} ∅ w')
    as [r w2|] eqn:R2; [|exfalso; vm_compute in R; injection R as <-; vm_compute in R2; discriminate].
  destruct H as [e ->]. by exists e, w2.
Defined.
End OverlayRender.
