(* ===== verification/ServiceL2.v ===== *)
(** * L2 connections: networkservice_l2pp.go and networkservice_l2mp.go

    Module ServiceL2: a connection's interfaces are collected ("segments": the placement, the
    interface, its type), with the parent of each interface written into the stored
    configuration, and then rendered within a pod, within a node or between nodes.
    The first part is shared with the L3 connections, whose code is the same. *)

From S2P Require Import Prelude GoStd Model VppAgent State RenderTxn Utils Interfaces EntityTxn NetworkNode.
From S2P Require Import Overlay ServiceIf OverlayRender.

Module ServiceL2.
Import Utils EntityTxn VppAgent ServiceIf OverlayRender.

(** ** Collecting the interfaces of a connection *)

Record segment : Type := mkSegment {
  sg_p2n : NetworkPodToNodeMap;
  sg_if : Interface;
  sg_type : string
}.

(** [findNetworkPodAndInterfaceInList] (networkservice.go) *)
Fixpoint findNetworkPodAndInterfaceInList (networkPodName ifName : string) (networkPods : list NetworkPod)
  : M World (option Interface * string) :=
  match networkPods with
  | [] => mret (None, "")
  | networkPod :: rest =>
      let! spec := deref (np_Spec networkPod) in
      match nps_Interfaces spec with
      | [] => findNetworkPodAndInterfaceInList networkPodName ifName rest
      | ifaces =>
          let! md := deref (np_Metadata networkPod) in
          match (if String.eqb (md_Name md) networkPodName
                 then list_find (fun i => if_Name i = ifName) ifaces else None) with
          | Some (_, iFace) => mret (Some iFace, nps_PodType spec)
          | None => findNetworkPodAndInterfaceInList networkPodName ifName rest
          end
      end
  end.

(** Writing [Parent] through a pointer to the first interface of that name. *)
Fixpoint set_parent_in (ifName parent : string) (ifaces : list Interface) : list Interface :=
  match ifaces with
  | [] => []
  | i :: rest => if String.eqb (if_Name i) ifName then with_if_Parent parent i :: rest
                 else i :: set_parent_in ifName parent rest
  end.

Definition has_interface (ifName : string) (ifaces : list Interface) : bool :=
  existsb (fun i => String.eqb (if_Name i) ifName) ifaces.

Fixpoint set_pod_parent (podName ifName parent : string) (pods : list NetworkPod) : list NetworkPod :=
  match pods with
  | [] => []
  | pod :: rest =>
      match np_Metadata pod, np_Spec pod with
      | Some md, Some spec =>
          if String.eqb (md_Name md) podName && has_interface ifName (nps_Interfaces spec)
          then with_np_Spec (Some (with_nps_Interfaces (set_parent_in ifName parent (nps_Interfaces spec)) spec)) pod :: rest
          else pod :: set_pod_parent podName ifName parent rest
      | _, _ => pod :: set_pod_parent podName ifName parent rest
      end
  end.

Definition get_spec (k : string) : M World NetworkServiceSpec :=
  let! ns := get_service k in deref (ns_Spec ns).

Definition put_spec (k : string) (spec : NetworkServiceSpec) : M World unit :=
  let! ns := get_service k in put_service k (with_ns_Spec (Some spec) ns).

(** Writing [Parent] through pointers into the interfaces of a node. *)
Definition set_node_parents (nodeName parent : string) (which : list Interface -> list Interface) : M World unit :=
  let! nn := NetworkNode.get_node nodeName in
  let! spec := deref (nn_Spec nn) in
  NetworkNode.put_node nodeName (with_nn_Spec (Some (with_nns_Interfaces (which (nns_Interfaces spec)) spec)) nn).

(** The interface of a pod of the connection: [None] when its pod has no node. *)
Definition pod_segment (k prefix mapped connPodInterface : string) : M World (option segment) :=
  let '(connPodName, connInterfaceName) := ConnPodInterfaceNames connPodInterface in
  let! o := get (fun w => ramPodToNode w !! connPodName) in
  match (match o with Some p2n => if String.eqb (pn_Node p2n) "" then None else Some p2n | None => None end) with
  | None =>
      AppendStatusMsg k (prefix +:+ ": " +:+ connPodInterface +:+
                         ", network pod not mapped to a node in " +:+ mapped) ;;;
      mret None
  | Some p2n =>
      let! nn := NetworkNode.HandleCRUDOperationR (pn_Node p2n) in
      match nn with
      | None =>
          AppendStatusMsg k (prefix +:+ ": " +:+ connPodInterface +:+
                             ", network pod references non existant host: " +:+ pn_Node p2n) ;;;
          mret None
      | Some _ =>
          let! spec := get_spec k in
          let! p := findNetworkPodAndInterfaceInList connPodName connInterfaceName (nss_NetworkPods spec) in
          let! iFace := deref (fst p) in
          put_spec k (with_nss_NetworkPods
            (set_pod_parent connPodName connInterfaceName connPodName (nss_NetworkPods spec)) spec) ;;;
          mret (Some (mkSegment p2n (with_if_Parent connPodName iFace) (snd p)))
      end
  end.

(** An interface of a node named in the connection; a missing one is dereferenced. *)
Definition node_segment (nodeInterface : string) : M World segment :=
  let '(connNodeName, connInterfaceName) := NodeInterfaceNames nodeInterface in
  let! p := NetworkNode.FindInterfaceInNode connNodeName connInterfaceName in
  let! iFace := deref (fst p) in
  set_node_parents connNodeName connNodeName (set_parent_in connInterfaceName connNodeName) ;;;
  mret (mkSegment (mkPodToNode connNodeName connNodeName) (with_if_Parent connNodeName iFace) (snd p)).

(** The interfaces of a node that carry one of the labels. *)
Definition label_segments (nodeName : string) (labels : list string) : M World (list segment) :=
  let! p := NetworkNode.FindInterfacesForThisLabelInNode nodeName labels in
  let matches i := existsb (fun l => existsb (String.eqb l) labels) (if_Labels i) in
  (match fst p with
   | [] => mret tt
   | _ => set_node_parents nodeName nodeName (map (fun i => if matches i then with_if_Parent nodeName i else i))
   end) ;;;
  mret (map (fun i => mkSegment (mkPodToNode nodeName nodeName) (with_if_Parent nodeName i) (if_IfType i)) (fst p)).

Definition seg_node (s : segment) : string := pn_Node (sg_p2n s).

(** *** Point to point: at most two interfaces *)

Definition too_many (k kind : string) {A} : M World (result A) :=
  fail_with k ("Too many connection segments specified for a " +:+ kind +:+ " connection").

(** The pods of the connection: the segments so far and whether every pod has a node. *)
Fixpoint pp_pods (k kind : string) (i : Z) (pods : list string) (segs : list segment) (assigned : bool)
  : M World (result (list segment * bool)) :=
  match pods with
  | [] => mok (segs, assigned)
  | p :: pods =>
      if (2 <=? length segs)%nat then too_many k kind
      else
        let! s := pod_segment k ("connection segment " +:+ dec i) "network_pod_to_node_map" p in
        match s with
        | None => pp_pods k kind (i + 1) pods segs false
        | Some s => pp_pods k kind (i + 1) pods (segs ++ [s]) assigned
        end
  end.

Fixpoint pp_nodes (k kind : string) (nodes : list string) (segs : list segment) : M World (result (list segment)) :=
  match nodes with
  | [] => mok segs
  | n :: nodes =>
      if (2 <=? length segs)%nat then too_many k kind
      else let! s := node_segment n in pp_nodes k kind nodes (segs ++ [s])
  end.

Definition not_all_mapped (k what : string) {A} : M World (result A) :=
  let! name := name_at k in
  fail_with k ("network-service: " +:+ name +:+ ", not all " +:+ what +:+ " in this connection are mapped to nodes").

(** The interfaces of a point-to-point connection, up to the label. *)
Definition pp_segments (k kind : string) (conn : Connection) : M World (result (list segment)) :=
  let? r := pp_pods k kind 0 (cn_PodInterfaces conn) [] true in
  let? segs := pp_nodes k kind (cn_NodeInterfaces conn) (fst r) in
  if negb (snd r) then not_all_mapped k "pods"
  else
    match cn_NodeInterfaceLabels conn with
    | [] => mok segs
    | labels =>
        if (2 <=? length segs)%nat then too_many k "l2pp"
        else
          let! name := name_at k in
          match segs with
          | [s0] =>
              if negb (length labels =? 1)%nat then
                fail_with k ("network service: " +:+ name +:+
                  ", need 1 interface in conn and  1 nodeInterface label: incorrect config")
              else
                let! found := NetworkNode.FindInterfacesForThisLabelInNode (seg_node s0) labels in
                if negb (length (fst found) =? 1)%nat then
                  fail_with k ("network service: " +:+ name +:+ ", nodeLabels " +:+ fmt_strs labels +:+
                    ": must match only 1 node interface: incorrect config")
                else let! l := label_segments (seg_node s0) labels in mok (s0 :: l)
          | _ => fail_with k ("network service: " +:+ name +:+
                   ", need 1 interface in conn and  1 nodeInterface label: incorrect config")
          end
    end.

(** The placement and interface at an index of the two-element arrays. *)
Definition pp_node (segs : list segment) (i : nat) : string :=
  match segs !! i with Some s => seg_node s | None => "" end.

Definition pp_seg (segs : list segment) (i : nat) : M World segment := deref (segs !! i).

(** The overlay of a connection between nodes. *)
Definition pp_overlay (k : string) (conn : Connection) (segs : list segment) : M World (result NetworkNodeOverlay) :=
  let ends : M World string :=
    let! name := name_at k in
    let! s0 := pp_seg segs 0 in
    let! s1 := pp_seg segs 1 in
    mret ("network-service: " +:+ name +:+ ", " +:+ if_Parent (sg_if s0) +:+ "/" +:+ if_Name (sg_if s0) +:+
          " to " +:+ if_Parent (sg_if s1) +:+ "/" +:+ if_Name (sg_if s1)) in
  if String.eqb (cn_NetworkNodeOverlayName conn) "" then
    let! m := ends in fail_with k (m +:+ " no node overlay specified")
  else
    let! o := Overlay.HandleCRUDOperationR (cn_NetworkNodeOverlayName conn) in
    match o with
    | None => let! m := ends in
              fail_with k (m +:+ " referencing a missing node overlay: " +:+ cn_NetworkNodeOverlayName conn)
    | Some nno => mok nno
    end.

(** Where a point-to-point connection is rendered. *)
Definition pp_render (k kind : string) (conn : Connection) (sameNode : string -> list segment -> M World (result unit))
  (interNode : NetworkNodeOverlay -> list segment -> M World (result unit)) : M World (result unit) :=
  let? segs := pp_segments k kind conn in
  if String.eqb (pp_node segs 0) (pp_node segs 1) then sameNode (pp_node segs 0) segs
  else if bool_decide (cn_NodeInterfaces conn <> []) then
    let! name := name_at k in
    fail_with k ("netwrok service: " +:+ name +:+ ", nodes " +:+ pp_node segs 0 +:+ "/" +:+ pp_node segs 1 +:+
                 " must be the same")
  else
    let? nno := pp_overlay k conn segs in
    interNode nno segs.

(** *** Multipoint *)

Fixpoint mp_pods (k : string) (i : Z) (pods : list string) (segs : list segment) (assigned : bool)
  : M World (list segment * bool) :=
  match pods with
  | [] => mret (segs, assigned)
  | p :: pods =>
      let! s := pod_segment k ("conn: " +:+ dec (i + 1)) "network-pod-to-node-map" p in
      match s with
      | None => mp_pods k (i + 1) pods segs false
      | Some s => mp_pods k (i + 1) pods (segs ++ [s]) assigned
      end
  end.

Fixpoint mp_nodes (nodes : list string) : M World (list segment) :=
  match nodes with
  | [] => mret []
  | n :: nodes => let! s := node_segment n in let! l := mp_nodes nodes in mret (s :: l)
  end.

(** [nodeMap], [vnfMap]: the nodes and pods of the segments. *)
Definition node_set (segs : list segment) : gset string := list_to_set (map seg_node segs).

Definition pod_set (segs : list segment) : gset string := list_to_set (map (fun s => pn_Pod (sg_p2n s)) segs).

Definition mp_overlay (k : string) (conn : Connection) (connIndex : Z) : M World (result (option NetworkNodeOverlay)) :=
  if String.eqb (cn_NetworkNodeOverlayName conn) "" then mok None
  else
    let! o := Overlay.HandleCRUDOperationR (cn_NetworkNodeOverlayName conn) in
    match o with
    | Some nno => mok (Some nno)
    | None => let! name := name_at k in
              fail_with k ("network-service: " +:+ name +:+ ", conn: " +:+ dec (connIndex + 1) +:+
                           ", referencing a missing overlay: " +:+ cn_NetworkNodeOverlayName conn)
    end.

(** The interfaces by label; all segments must be on one node. *)
Definition mp_labels (k same : string) (labels : list string) (segs : list segment) : M World (result (list segment)) :=
  match labels with
  | [] => mok []
  | _ =>
      let! name := name_at k in
      if (size (node_set segs) =? 0)%nat then
        fail_with k ("network service: " +:+ name +:+ ", no interfaces specified to connect to node interface label")
      else if negb (size (node_set segs) =? 1)%nat then
        fail_with k ("network service: " +:+ name +:+ ", all interfaces must be on " +:+ same +:+
                     " node to connect to node interface label")
      else
        let! s0 := deref (head segs) in
        let! l := label_segments (seg_node s0) labels in
        match l with
        | [] => fail_with k ("network service: " +:+ name +:+ ", nodeLabels " +:+ fmt_strs labels +:+
                  ": must match at least one node interface: incorrect config")
        | _ => mok l
        end
  end.

(** The segments of a multipoint connection: of pods, of nodes, by label; and the overlay. *)
Definition mp_segments (k same : string) (conn : Connection) (connIndex : Z)
  : M World (result (list segment * list segment * list segment * option NetworkNodeOverlay)) :=
  let! r := mp_pods k 0 (cn_PodInterfaces conn) [] true in
  let! nodes := mp_nodes (cn_NodeInterfaces conn) in
  if negb (snd r) then not_all_mapped k "network pods"
  else
    let? nno := mp_overlay k conn connIndex in
    let? labelled := mp_labels k same (cn_NodeInterfaceLabels conn) (fst r ++ nodes) in
    mok (fst r, nodes, labelled, nno).

Definition nodes_must_be_same (k : string) (segs : list segment) : M World (result unit) :=
  let! name := name_at k in
  let! s0 := pp_seg segs 0 in
  let! s1 := pp_seg segs 1 in
  fail_with k ("network service: " +:+ name +:+ ", nodes " +:+ seg_node s0 +:+ "/" +:+ seg_node s1 +:+ " must be the same").

Definition isHubVxlan (nno : NetworkNodeOverlay) : M World bool :=
  let! spec := deref (nno_Spec nno) in
  mret (String.eqb (nos_ServiceMeshType spec) NetworkNodeOverlayTypeHubAndSpoke &&
        String.eqb (nos_ConnectionType spec) NetworkNodeOverlayConnectionTypeVxlan).

Section env.
Context {E : Env}.

(** ** L2PP *)

(** The connection of two interfaces by cross connects, each made twice. *)
Definition cross_connect_twice (k agent if0 if1 : string) : M World unit :=
  add_entries k (ConstructXConnect agent if0 if1) ;;;
  add_entries k (ConstructXConnect agent if1 if0).

Definition renderConnL2PPSameVnf (k : string) (if0 if1 : Interface) : M World (result unit) :=
  cross_connect_twice k (if_Parent if0) (if_Name if0) (if_Name if1) ;;;
  mok tt.

(** Equal memif ids of interfaces that were directly connected are reset. *)
Definition reset_shared_memif_ids (if0 if1 : Interface) : M World unit :=
  let! o0 := get (fun w => InterfaceStates w !! (if_Parent if0 +:+ "/" +:+ if_Name if0)) in
  let! o1 := get (fun w => InterfaceStates w !! (if_Parent if1 +:+ "/" +:+ if_Name if1)) in
  match o0, o1 with
  | Some l0, Some l1 =>
      let! s0 := on_if_heap (heap_read l0) in
      let! s1 := on_if_heap (heap_read l1) in
      if is_MemifID s0 =? is_MemifID s1 then
        update_if l0 (with_is_MemifID 0) ;;; update_if l1 (with_is_MemifID 0)
      else mret tt
  | _, _ => mret tt
  end.

Definition both_memif (if0 if1 : Interface) : bool :=
  String.eqb (if_IfType if0) (if_IfType if1) && String.eqb (if_IfType if0) IfTypeMemif.

Definition is_direct (conn : Connection) : bool :=
  String.eqb (if String.eqb (cn_ConnMethod conn) "" then ConnMethodDirect else cn_ConnMethod conn) ConnMethodDirect.

(** Both interfaces rendered into the vswitch and cross connected there. *)
Definition vswitch_pair (k vppAgent : string) (conn : Connection) (s0 s1 : segment) : M World (result unit) :=
  let? r0 := RenderConnInterfacePair k vppAgent conn (sg_if s0) (sg_type s0) in
  let? r1 := RenderConnInterfacePair k vppAgent conn (sg_if s1) (sg_type s1) in
  cross_connect_twice k vppAgent (fst r0) (fst r1) ;;;
  mok tt.

Definition renderConnL2PPSameNode (k : string) (conn : Connection) (vppAgent : string) (segs : list segment)
  : M World (result unit) :=
  let! s0 := pp_seg segs 0 in
  let! s1 := pp_seg segs 1 in
  let if0 := sg_if s0 in
  let if1 := sg_if s1 in
  if String.eqb (if_Parent if0) (if_Parent if1) && negb (String.eqb (if_Name if0) (if_Name if1)) then
    renderConnL2PPSameVnf k if0 if1
  else if both_memif if0 if1 && is_direct conn then
    RenderConnDirectInterPodMemifPair k if0 if1 IfTypeMemif
  else
    (if both_memif if0 if1 then reset_shared_memif_ids if0 if1 else mret tt) ;;;
    vswitch_pair k vppAgent conn s0 s1.

(** [conn.PodInterfaces[0] to conn.PodInterfaces[1] node overlay: name text] *)
Definition pp_unsupported (k : string) (conn : Connection) (connIndex : Z) (nno : NetworkNodeOverlay) (text : string)
  : M World (result unit) :=
  let! name := name_at k in
  let! p0 := pod_interface conn 0 in
  let! p1 := pod_interface conn 1 in
  let! overlay := Overlay.overlay_name nno in
  fail_with k ("vnf-service: " +:+ name +:+ ", conn: " +:+ dec connIndex +:+ ", " +:+ p0 +:+ " to " +:+ p1 +:+
               " node overlay: " +:+ overlay +:+ " type " +:+ text).

(** What an overlay does with a connection, by its types. *)
Definition by_overlay (nno : NetworkNodeOverlay) (mesh hub other : M World (result unit)) : M World (result unit) :=
  let! spec := deref (nno_Spec nno) in
  if String.eqb (nos_ConnectionType spec) NetworkNodeOverlayConnectionTypeVxlan then
    if String.eqb (nos_ServiceMeshType spec) NetworkNodeOverlayTypeMesh then mesh
    else if String.eqb (nos_ServiceMeshType spec) NetworkNodeOverlayTypeHubAndSpoke then hub
    else mok tt
  else other.

Definition renderConnL2PPInterNode (k : string) (conn : Connection) (connIndex : Z) (nno : NetworkNodeOverlay)
  (segs : list segment) : M World (result unit) :=
  let! s0 := pp_seg segs 0 in
  let? r0 := RenderConnInterfacePair k (seg_node s0) conn (sg_if s0) (sg_type s0) in
  let! s1 := pp_seg segs 1 in
  let? r1 := RenderConnInterfacePair k (seg_node s1) conn (sg_if s1) (sg_type s1) in
  by_overlay nno
    (renderConnL2PPVxlanMesh nno k conn connIndex (seg_node s0) (seg_node s1) (fst r0, fst r1))
    (pp_unsupported k conn connIndex nno "not supported for L2PP")
    (pp_unsupported k conn connIndex nno "not implemented").

Definition RenderConnL2PP (k : string) (conn : Connection) (connIndex : Z) : M World (result unit) :=
  pp_render k "l2pp" conn (renderConnL2PPSameNode k conn) (renderConnL2PPInterNode k conn connIndex).

(** ** L2MP *)

Definition mp_unsupported (k : string) (connIndex : Z) (nno : NetworkNodeOverlay) : M World (result unit) :=
  let! name := name_at k in
  let! overlay := Overlay.overlay_name nno in
  fail_with k ("network-service: " +:+ name +:+ ", conn: " +:+ dec (connIndex + 1) +:+ ", node overlay: " +:+
               overlay +:+ " type not implemented").

Definition renderConnL2MPSameVnf (k : string) (conn : Connection) (connIndex : Z) (segs : list segment)
  : M World (result unit) :=
  let! s0 := pp_seg segs 0 in
  RenderNetworkPodL2BD k conn connIndex (pn_Pod (sg_p2n s0))
    (map (fun s => mkBridged (if_Name (sg_if s)) false 0) segs).

(** The interface pairs of the segments, each on the agent [agent s]; the bridge
    interfaces by node. *)
Definition mp_interfaces (k : string) (conn : Connection) (agent : segment -> string) (segs : list segment)
  : M World (result NodeBridges) :=
  foldR segs ∅ (fun l2bdIFs s =>
    let? r := RenderConnInterfacePair k (agent s) conn (sg_if s) (sg_type s) in
    mok (add_bridged (agent s) (mkBridged (fst r) false 0) l2bdIFs)).

Definition renderConnL2MPSameNode (k : string) (conn : Connection) (connIndex : Z) (nno : option NetworkNodeOverlay)
  (segs : list segment) : M World (result unit) :=
  let! s0 := pp_seg segs 0 in
  let nodeName := seg_node s0 in
  let? l2bdIFs := mp_interfaces k conn (fun _ => nodeName) segs in
  let! hub := match nno with Some n => isHubVxlan n | None => mret false end in
  match (if (hub : bool) then nno else None) with
  | Some n => renderConnL2MPVxlanHubAndSpoke n k conn connIndex {[nodeName]} l2bdIFs
  | None => RenderL2BD k conn connIndex nodeName (default [] (l2bdIFs !! nodeName))
  end.

Definition renderConnL2MPInterNode (k : string) (conn : Connection) (connIndex : Z) (nno : option NetworkNodeOverlay)
  (segs : list segment) : M World (result unit) :=
  let? l2bdIFs := mp_interfaces k conn seg_node segs in
  let! nno := deref nno in
  by_overlay nno
    (renderConnL2MPVxlanMesh nno k conn connIndex (node_set segs) l2bdIFs)
    (renderConnL2MPVxlanHubAndSpoke nno k conn connIndex (node_set segs) l2bdIFs)
    (mp_unsupported k connIndex nno).

Definition RenderConnL2MP (k : string) (conn : Connection) (connIndex : Z) : M World (result unit) :=
  let? r := mp_segments k "same" conn connIndex in
  let '(pods, nodes, labelled, nno) := r in
  let segs := pods ++ nodes ++ labelled in
  if (size (pod_set pods) =? 1)%nat && bool_decide (nodes = []) && bool_decide (labelled = []) then
    renderConnL2MPSameVnf k conn connIndex segs
  else if (size (node_set (pods ++ nodes)) =? 1)%nat then renderConnL2MPSameNode k conn connIndex nno segs
  else if bool_decide (nodes <> []) then nodes_must_be_same k segs
  else renderConnL2MPInterNode k conn connIndex nno segs.

End env.

(** ** What the renderers of connections keep *)
Lemma keeps_by_overlay (I : World -> Prop) nno a b c : keeps I a -> keeps I b -> keeps I c -> keeps I (by_overlay nno a b c).
Proof. intros Ha Hb Hc. unfold by_overlay. serve. Qed.

Section renderers.
Context `{Env} (k : string) (I : World -> Prop) `{!ServiceInvariant k I}.

Lemma keeps_find_pod_interface p i pods : keeps I (findNetworkPodAndInterfaceInList p i pods).
Proof. induction pods as [|pod pods IH]; cbn; serve. Qed.

Lemma keeps_get_spec : keeps I (get_spec k).
Proof. unfold get_spec. serve. Qed.

Lemma keeps_put_spec spec : keeps I (put_spec k spec).
Proof.
  apply keeps_wlp. intros w Hw. unfold put_spec, get_service, put_service. wpw.
  destruct (networkServiceCache w !! k) as [ns|] eqn:Hn; [|done]. wpw. by eapply si_service.
Qed.

(** Writing parents into the interfaces of a node. *)
Lemma keeps_set_node_parents n p f :
  (forall l, map (with_if_Parent "") (f l) = map (with_if_Parent "") l) -> keeps I (set_node_parents n p f).
Proof.
  intros Hf. apply keeps_wlp. intros w Hw. unfold set_node_parents, NetworkNode.get_node, NetworkNode.put_node. wpw.
  destruct (networkNodeCache w !! n) as [nn|] eqn:Hn; [|done]. wpw. destruct (nn_Spec nn) as [spec|] eqn:Hsp; [|done]. wpw.
  eapply (si_node (k := k)); [exact Hn|done| |done]. split; [done|]. cbn. rewrite Hsp. cbn. f_equal.
  unfold NetworkNode.unparented. destruct spec. cbn. by rewrite Hf.
Qed.

Lemma unparented_set_parent ifName p l : map (with_if_Parent "") (set_parent_in ifName p l) = map (with_if_Parent "") l.
Proof. induction l as [|i l IH]; [done|]. cbn. destruct (String.eqb _ _); cbn; by rewrite ?IH. Qed.

Lemma unparented_set_some (c : Interface -> bool) p l :
  map (with_if_Parent "") (map (fun i => if c i then with_if_Parent p i else i) l) = map (with_if_Parent "") l.
Proof. induction l as [|i l IH]; [done|]. cbn. rewrite IH. by destruct (c i). Qed.

#[local] Hint Resolve keeps_find_pod_interface keeps_get_spec keeps_put_spec keeps_set_node_parents
  unparented_set_parent unparented_set_some : serve.

Lemma keeps_pod_segment a b c : keeps I (pod_segment k a b c).
Proof. unfold pod_segment. serve. Qed.

Lemma keeps_node_segment n : keeps I (node_segment n).
Proof. unfold node_segment. serve. Qed.

Lemma keeps_label_segments n l : keeps I (label_segments n l).
Proof. unfold label_segments. serve. Qed.

#[local] Hint Resolve keeps_pod_segment keeps_node_segment keeps_label_segments : serve.

Lemma keeps_too_many {A} kind : keeps I (@too_many k kind A).
Proof. unfold too_many. serve. Qed.

Lemma keeps_not_all_mapped {A} what : keeps I (@not_all_mapped k what A).
Proof. unfold not_all_mapped. serve. Qed.

#[local] Hint Resolve @keeps_too_many @keeps_not_all_mapped : serve.

Lemma keeps_pp_pods kind i pods segs a : keeps I (pp_pods k kind i pods segs a).
Proof. revert i segs a. induction pods as [|p pods IH]; intros i segs a; cbn; serve. Qed.

Lemma keeps_pp_nodes kind nodes segs : keeps I (pp_nodes k kind nodes segs).
Proof. revert segs. induction nodes as [|p pods IH]; intros segs; cbn; serve. Qed.

#[local] Hint Resolve keeps_pp_pods keeps_pp_nodes : serve.

Lemma keeps_pp_segments kind conn : keeps I (pp_segments k kind conn).
Proof. unfold pp_segments. serve. Qed.

Lemma keeps_pp_seg segs i : keeps I (pp_seg segs i).
Proof. unfold pp_seg. serve. Qed.

#[local] Hint Resolve keeps_pp_segments keeps_pp_seg : serve.

Lemma keeps_pp_overlay conn segs : keeps I (pp_overlay k conn segs).
Proof. unfold pp_overlay. serve. Qed.

#[local] Hint Resolve keeps_pp_overlay : serve.

Lemma keeps_pp_render kind conn same inter :
  (forall a s, keeps I (same a s)) -> (forall a s, keeps I (inter a s)) -> keeps I (pp_render k kind conn same inter).
Proof. intros Hs Hi. unfold pp_render. serve. Qed.

Lemma keeps_mp_pods i pods segs a : keeps I (mp_pods k i pods segs a).
Proof. revert i segs a. induction pods as [|p pods IH]; intros i segs a; cbn; serve. Qed.

Lemma keeps_mp_nodes nodes : keeps I (mp_nodes nodes).
Proof. induction nodes as [|p pods IH]; cbn; serve. Qed.

Lemma keeps_mp_overlay conn ci : keeps I (mp_overlay k conn ci).
Proof. unfold mp_overlay. serve. Qed.

Lemma keeps_mp_labels same l segs : keeps I (mp_labels k same l segs).
Proof. unfold mp_labels. serve. Qed.

#[local] Hint Resolve keeps_mp_pods keeps_mp_nodes keeps_mp_overlay keeps_mp_labels : serve.

Lemma keeps_mp_segments same conn ci : keeps I (mp_segments k same conn ci).
Proof. unfold mp_segments. serve. Qed.

Lemma keeps_nodes_must_be_same segs : keeps I (nodes_must_be_same k segs).
Proof. unfold nodes_must_be_same. serve. Qed.

Lemma keeps_isHubVxlan nno : keeps I (isHubVxlan nno).
Proof. unfold isHubVxlan. serve. Qed.

Lemma keeps_pp_unsupported conn ci nno s : keeps I (pp_unsupported k conn ci nno s).
Proof. unfold pp_unsupported. serve. Qed.

Lemma keeps_mp_unsupported ci nno : keeps I (mp_unsupported k ci nno).
Proof. unfold mp_unsupported. serve. Qed.

Lemma keeps_cross_connect_twice a i j : keeps I (cross_connect_twice k a i j).
Proof. unfold cross_connect_twice. serve. Qed.

Lemma keeps_reset_shared_memif_ids i j : keeps I (reset_shared_memif_ids i j).
Proof. unfold reset_shared_memif_ids. serve. Qed.

#[local] Hint Resolve keeps_mp_segments keeps_nodes_must_be_same keeps_isHubVxlan keeps_by_overlay
  keeps_pp_unsupported keeps_mp_unsupported keeps_cross_connect_twice keeps_reset_shared_memif_ids : serve.

Lemma keeps_vswitch_pair a conn s0 s1 : keeps I (vswitch_pair k a conn s0 s1).
Proof. unfold vswitch_pair. serve. Qed.

#[local] Hint Resolve keeps_vswitch_pair : serve.

Lemma keeps_renderConnL2PPSameNode conn a segs : keeps I (renderConnL2PPSameNode k conn a segs).
Proof. unfold renderConnL2PPSameNode, renderConnL2PPSameVnf. serve. Qed.

Lemma keeps_renderConnL2PPInterNode conn ci nno segs : keeps I (renderConnL2PPInterNode k conn ci nno segs).
Proof. unfold renderConnL2PPInterNode. serve. Qed.

Lemma keeps_RenderConnL2PP conn ci : keeps I (RenderConnL2PP k conn ci).
Proof.
  apply keeps_pp_render; [apply keeps_renderConnL2PPSameNode|apply keeps_renderConnL2PPInterNode].
Qed.

Lemma keeps_mp_interfaces conn f segs : keeps I (mp_interfaces k conn f segs).
Proof. unfold mp_interfaces. serve. Qed.

#[local] Hint Resolve keeps_mp_interfaces : serve.

Lemma keeps_renderConnL2MPSameVnf conn ci segs : keeps I (renderConnL2MPSameVnf k conn ci segs).
Proof. unfold renderConnL2MPSameVnf. serve. Qed.

Lemma keeps_renderConnL2MPSameNode conn ci nno segs : keeps I (renderConnL2MPSameNode k conn ci nno segs).
Proof. unfold renderConnL2MPSameNode. serve. Qed.

Lemma keeps_renderConnL2MPInterNode conn ci nno segs : keeps I (renderConnL2MPInterNode k conn ci nno segs).
Proof. unfold renderConnL2MPInterNode. serve. Qed.

#[local] Hint Resolve keeps_renderConnL2MPSameVnf keeps_renderConnL2MPSameNode keeps_renderConnL2MPInterNode : serve.

Lemma keeps_RenderConnL2MP conn ci : keeps I (RenderConnL2MP k conn ci).
Proof. unfold RenderConnL2MP. serve. Qed.
End renderers.

#[export] Hint Resolve keeps_get_spec keeps_put_spec keeps_pp_seg keeps_mp_segments keeps_nodes_must_be_same
  keeps_isHubVxlan keeps_by_overlay keeps_pp_unsupported keeps_mp_unsupported keeps_vswitch_pair
  keeps_RenderConnL2PP keeps_RenderConnL2MP : serve.

(** ** Errors leave a message *)
Section reporting.
Context {E : Env} (k : string).

Lemma reports_too_many {A} kind : reports k (@too_many k kind A).
Proof. unfold too_many. reports_auto. Qed.

Lemma reports_not_all_mapped {A} what : reports k (@not_all_mapped k what A).
Proof. unfold not_all_mapped. reports_auto. Qed.

#[local] Hint Resolve @reports_too_many @reports_not_all_mapped : serve.

Lemma reports_pp_pods kind i pods segs a : reports k (pp_pods k kind i pods segs a).
Proof. revert i segs a. induction pods as [|p pods IH]; intros i segs a; cbn; reports_auto. Qed.

Lemma reports_pp_nodes kind nodes segs : reports k (pp_nodes k kind nodes segs).
Proof. revert segs. induction nodes as [|p nodes IH]; intros segs; cbn; reports_auto. Qed.

#[local] Hint Resolve reports_pp_pods reports_pp_nodes : serve.

Lemma reports_pp_segments kind c : reports k (pp_segments k kind c).
Proof. unfold pp_segments. reports_auto. Qed.

Lemma reports_pp_overlay c segs : reports k (pp_overlay k c segs).
Proof. unfold pp_overlay. reports_auto. Qed.

#[local] Hint Resolve reports_pp_segments reports_pp_overlay : serve.

Lemma reports_pp_render kind c same inter :
  (forall a s, reports k (same a s)) -> (forall a s, reports k (inter a s)) -> reports k (pp_render k kind c same inter).
Proof. intros Hs Hi. unfold pp_render. reports_auto. Qed.

Lemma reports_mp_overlay c ci : reports k (mp_overlay k c ci).
Proof. unfold mp_overlay. reports_auto. Qed.

Lemma reports_mp_labels same l segs : reports k (mp_labels k same l segs).
Proof. unfold mp_labels. reports_auto. Qed.

#[local] Hint Resolve reports_mp_overlay reports_mp_labels : serve.

Lemma reports_mp_segments same c ci : reports k (mp_segments k same c ci).
Proof. unfold mp_segments. reports_auto. Qed.

Lemma reports_nodes_must_be_same segs : reports k (nodes_must_be_same k segs).
Proof. unfold nodes_must_be_same. reports_auto. Qed.

Lemma reports_by_overlay nno a b c : reports k a -> reports k b -> reports k c -> reports k (by_overlay nno a b c).
Proof. intros Ha Hb Hc. unfold by_overlay. reports_auto. Qed.

Lemma reports_pp_unsupported c ci nno s : reports k (pp_unsupported k c ci nno s).
Proof. unfold pp_unsupported. reports_auto. Qed.

Lemma reports_mp_unsupported ci nno : reports k (mp_unsupported k ci nno).
Proof. unfold mp_unsupported. reports_auto. Qed.

Lemma reports_vswitch_pair a c s0 s1 : reports k (vswitch_pair k a c s0 s1).
Proof. unfold vswitch_pair. reports_auto. Qed.

#[local] Hint Resolve reports_mp_segments reports_nodes_must_be_same reports_by_overlay reports_pp_unsupported
  reports_mp_unsupported reports_vswitch_pair : serve.

Lemma reports_RenderConnL2PP c ci : reports k (RenderConnL2PP k c ci).
Proof.
  apply reports_pp_render; intros; unfold renderConnL2PPSameNode, renderConnL2PPSameVnf, renderConnL2PPInterNode;
    reports_auto; apply reports_by_overlay; reports_auto.
Qed.

Lemma reports_RenderConnL2MP c ci : reports k (RenderConnL2MP k c ci).
Proof.
  unfold RenderConnL2MP, renderConnL2MPSameVnf, renderConnL2MPSameNode, renderConnL2MPInterNode, mp_interfaces.
  reports_auto; apply reports_by_overlay; reports_auto.
Qed.
End reporting.

#[export] Hint Resolve reports_mp_segments reports_nodes_must_be_same reports_by_overlay reports_pp_unsupported
  reports_mp_unsupported reports_vswitch_pair reports_RenderConnL2PP reports_RenderConnL2MP : serve.
End ServiceL2.
