(* ===== verification/ServiceL3.v ===== *)
(** * L3 connections: networkservice_l3pp.go and networkservice_l3mp.go

    Module ServiceL3: the interfaces are collected as for the L2 connections; a
    connection without a vrf is given one, which is stored in its configuration; routes and
    ARP entries are added for the addresses of the interfaces. *)

From S2P Require Import Prelude GoStd IdAlloc Model VppAgent State RenderTxn Utils Interfaces EntityTxn NetworkNode.
From S2P Require Import Overlay ServiceIf OverlayRender ServiceL2.

Module ServiceL3.
Import Utils EntityTxn VppAgent ServiceIf OverlayRender ServiceL2.

(** [ctlrPlugin.ramCache.VrfIDAllocator.Allocate()] *)
Definition allocate_vrf : M World Z := zoom VrfIDAllocator with_VrfIDAllocator Vrf.Allocate.

(** [if conn.VrfId == 0 { conn.VrfId = Allocate() }], through the pointer into the spec. *)
Definition ensure_vrf (k : string) (conn : Connection) (connIndex : Z) : M World Connection :=
  if cn_VrfId conn =? 0 then
    let! vrf := allocate_vrf in
    let conn := with_cn_VrfId vrf conn in
    let! spec := get_spec k in
    put_spec k (with_nss_Connections (<[Z.to_nat connIndex := conn]> (nss_Connections spec)) spec) ;;;
    mret conn
  else mret conn.

(** The route to an address of the connection. *)
Definition connection_route (kind name : string) (conn : Connection) (connIndex : Z) (address ifName : string)
  : L3VRFRoute :=
  mkL3VRFRoute (cn_VrfId conn)
    (kind +:+ " NS_" +:+ name +:+ "_VRF_" +:+ dec (cn_VrfId conn) +:+ "_CONN_" +:+ dec (connIndex + 1))
    (StripSlashAndSubnetIPAddress address) "" ifName 0 0.

(** The object behind [ifStatus], nil for an ethernet interface. *)
Definition read_status (ifStatus : option loc) : M World InterfaceStatus :=
  let! l := deref ifStatus in on_if_heap (heap_read l).

Section env.
Context {E : Env}.

(** ** L3PP *)

Definition renderConnL3PPSameNode (k : string) (conn : Connection) (vppAgent : string) (segs : list segment)
  : M World (result unit) :=
  let! s0 := pp_seg segs 0 in
  let! s1 := pp_seg segs 1 in
  if both_memif (sg_if s0) (sg_if s1) && is_direct conn then
    RenderConnDirectInterPodMemifPair k (sg_if s0) (sg_if s1) IfTypeMemif
  else vswitch_pair k vppAgent conn s0 s1.

(** One end of the connection, with the route to its address. *)
Definition l3pp_end (k : string) (conn : Connection) (connIndex : Z) (s : segment)
  : M World (result (option loc)) :=
  let? r := RenderConnInterfacePair k (seg_node s) conn (sg_if s) (sg_type s) in
  let! st := read_status (snd r) in
  match is_IpAddresses st with
  | [] => mret tt
  | a :: _ =>
      let! name := name_at k in
      let! vppKV := deref (ConstructStaticRoute (seg_node s) (connection_route "L3PP" name conn connIndex a (fst r))) in
      add_entry k vppKV
  end ;;;
  mok (snd r).

Definition renderConnL3PPInterNode (k : string) (conn : Connection) (connIndex : Z) (nno : NetworkNodeOverlay)
  (segs : list segment) : M World (result unit) :=
  let! conn := ensure_vrf k conn connIndex in
  let! s0 := pp_seg segs 0 in
  let? ifStatus0 := l3pp_end k conn connIndex s0 in
  let! s1 := pp_seg segs 1 in
  let? ifStatus1 := l3pp_end k conn connIndex s1 in
  by_overlay nno
    (renderConnL3PPVxlanMesh nno k conn connIndex ifStatus0 ifStatus1 (seg_node s0) (seg_node s1))
    (pp_unsupported k conn connIndex nno "not supported for L3PP")
    (pp_unsupported k conn connIndex nno "not implemented").

Definition RenderConnL3PP (k : string) (conn : Connection) (connIndex : Z) : M World (result unit) :=
  pp_render k "l3pp" conn (renderConnL3PPSameNode k conn) (renderConnL3PPInterNode k conn connIndex).

(** ** L3MP *)

(** An interface and its ARP entry; [on_route] gets the route to its address. *)
Definition l3mp_interface (k : string) (conn : Connection) (connIndex : Z) (agent : string) (s : segment)
  (on_route : L3VRFRoute -> M World unit) : M World (result (string * option L3VRFRoute)) :=
  let? r := RenderConnInterfacePair k agent conn (sg_if s) (sg_type s) in
  let! st := read_status (snd r) in
  let! name := name_at k in
  let route := match is_IpAddresses st with
               | [] => None
               | a :: _ => Some (connection_route "L3MP" name conn connIndex a (fst r))
               end in
  (match route with Some rt => on_route rt | None => mret tt end) ;;;
  let! a := deref (head (is_IpAddresses st)) in
  add_entry k (ConstructStaticArpEntry agent
    (mkL3ArpEntry (StripSlashAndSubnetIPAddress a) (is_MacAddress st) (fst r))) ;;;
  mok (fst r, route).

Definition renderConnL3MPSameNode (k : string) (conn : Connection) (connIndex : Z) (nno : option NetworkNodeOverlay)
  (segs : list segment) : M World (result unit) :=
  let! s0 := pp_seg segs 0 in
  let nodeName := seg_node s0 in
  let! conn := ensure_vrf k conn connIndex in
  let? l2bdIFs := foldR segs ∅ (fun l2bdIFs s =>
    let? r := l3mp_interface k conn connIndex nodeName s (fun rt =>
      let! vppKV := deref (ConstructStaticRoute nodeName rt) in add_entry k vppKV) in
    mok (add_bridged nodeName (mkBridged (fst r) false 0) l2bdIFs)) in
  let! hub := match nno with Some n => isHubVxlan n | None => mret false end in
  match (if (hub : bool) then nno else None) with
  | Some n => renderConnL2MPVxlanHubAndSpoke n k conn connIndex {[nodeName]} l2bdIFs
  | None => mok tt
  end.

Definition renderConnL3MPInterNode (k : string) (conn : Connection) (connIndex : Z) (nno : option NetworkNodeOverlay)
  (segs : list segment) : M World (result unit) :=
  let! conn := ensure_vrf k conn connIndex in
  let? maps := foldR segs (∅, ∅) (fun maps s =>
    let? r := l3mp_interface k conn connIndex (seg_node s) s (fun _ => mret tt) in
    mok (add_bridged (seg_node s) (mkBridged (fst r) false 0) (fst maps),
         match snd r with
         | Some rt => <[seg_node s := default [] (snd maps !! seg_node s) ++ [rt]]> (snd maps)
         | None => snd maps
         end)) in
  let! nno := deref nno in
  by_overlay nno
    (renderConnL3MPVxlanMesh nno k conn connIndex (node_set segs) (snd maps) (fst maps))
    (renderConnL2MPVxlanHubAndSpoke nno k conn connIndex (node_set segs) (fst maps))
    (mp_unsupported k connIndex nno).

Definition RenderConnL3MP (k : string) (conn : Connection) (connIndex : Z) : M World (result unit) :=
  let? r := mp_segments k "smae" conn connIndex in
  let '(pods, nodes, labelled, nno) := r in
  let segs := pods ++ nodes ++ labelled in
  if (size (node_set (pods ++ nodes)) =? 1)%nat then renderConnL3MPSameNode k conn connIndex nno segs
  else if bool_decide (nodes <> []) then nodes_must_be_same k segs
  else renderConnL3MPInterNode k conn connIndex nno segs.

End env.

(** ** What the renderers of L3 connections keep *)
Section renderers.
Context `{Env} (k : string) (I : World -> Prop) `{!ServiceInvariant k I}.

Lemma keeps_allocate_vrf : keeps I allocate_vrf.
Proof.
  apply (keeps_zoom I _ _ _ (fun _ => True)); [by intros ? _; destruct (Vrf.Allocate _)|done|].
  intros t w Hw _. by apply si_vrf.
Qed.

#[local] Hint Resolve keeps_allocate_vrf : serve.

Lemma keeps_ensure_vrf conn ci : keeps I (ensure_vrf k conn ci).
Proof. unfold ensure_vrf. serve. Qed.

Lemma keeps_read_status s : keeps I (read_status s).
Proof. unfold read_status. serve. Qed.

#[local] Hint Resolve keeps_ensure_vrf keeps_read_status : serve.

Lemma keeps_renderConnL3PPSameNode conn a segs : keeps I (renderConnL3PPSameNode k conn a segs).
Proof. unfold renderConnL3PPSameNode. serve. Qed.

Lemma keeps_l3pp_end conn ci s : keeps I (l3pp_end k conn ci s).
Proof. unfold l3pp_end. serve. Qed.

#[local] Hint Resolve keeps_l3pp_end : serve.

Lemma keeps_renderConnL3PPInterNode conn ci nno segs : keeps I (renderConnL3PPInterNode k conn ci nno segs).
Proof. unfold renderConnL3PPInterNode. serve. apply keeps_by_overlay; serve. Qed.

Lemma keeps_RenderConnL3PP conn ci : keeps I (RenderConnL3PP k conn ci).
Proof.
  apply (keeps_pp_render k I); [apply keeps_renderConnL3PPSameNode|apply keeps_renderConnL3PPInterNode].
Qed.

Lemma keeps_l3mp_interface conn ci a s f :
  (forall r, keeps I (f r)) -> keeps I (l3mp_interface k conn ci a s f).
Proof. intros Hf. unfold l3mp_interface. serve. Qed.

Lemma keeps_renderConnL3MPSameNode conn ci nno segs : keeps I (renderConnL3MPSameNode k conn ci nno segs).
Proof. unfold renderConnL3MPSameNode. serve. apply (keeps_l3mp_interface). serve. Qed.

Lemma keeps_renderConnL3MPInterNode conn ci nno segs : keeps I (renderConnL3MPInterNode k conn ci nno segs).
Proof. unfold renderConnL3MPInterNode. serve; [by apply keeps_l3mp_interface; serve|apply keeps_by_overlay; serve]. Qed.

#[local] Hint Resolve keeps_renderConnL3MPSameNode keeps_renderConnL3MPInterNode : serve.

Lemma keeps_RenderConnL3MP conn ci : keeps I (RenderConnL3MP k conn ci).
Proof. unfold RenderConnL3MP. serve. Qed.
End renderers.

#[export] Hint Resolve keeps_RenderConnL3PP keeps_RenderConnL3MP : serve.

(** ** Errors leave a message *)
Section reporting.
Context {E : Env} (k : string).

Lemma reports_RenderConnL3PP c ci : reports k (RenderConnL3PP k c ci).
Proof.
  apply reports_pp_render; intros; unfold renderConnL3PPSameNode, renderConnL3PPInterNode, l3pp_end;
    reports_auto; apply reports_by_overlay; reports_auto.
Qed.

Lemma reports_RenderConnL3MP c ci : reports k (RenderConnL3MP k c ci).
Proof.
  unfold RenderConnL3MP, renderConnL3MPSameNode, renderConnL3MPInterNode, l3mp_interface.
  reports_auto; apply reports_by_overlay; reports_auto.
Qed.
End reporting.

#[export] Hint Resolve reports_RenderConnL3PP reports_RenderConnL3MP : serve.
End ServiceL3.
