(* ===== verification/NetworkService.v ===== *)
(** * Network services: src/plugins/controller/networkservice.go

    Module NetworkService: the manager of the [NetworkService] objects: validation, the
    renderer of all connections of a service, and the CRUD operations. *)

From S2P Require Import Prelude GoStd GoNet Model VppAgent State RenderTxn Utils SysParms IpamPool Interfaces EntityTxn.
From S2P Require Import NetworkNode Overlay ServiceIf OverlayRender ServiceL2 ServiceL3.

Module NetworkService.
Import Utils Interfaces RenderTxn EntityTxn ServiceIf ServiceL2 ServiceL3.

Definition KeyPrefix : string := SfcControllerConfigPrefix +:+ "network-service/".

Definition NameKey (name : string) : string := KeyPrefix +:+ name.

Definition InitRAMCache : M World unit := put_field with_networkServiceCache ∅.

Definition ConfigEqual (ns ns2 : NetworkService loc) : bool :=
  bool_decide (ns_Metadata ns = ns_Metadata ns2) && bool_decide (ns_Spec ns = ns_Spec ns2).

(** ** Validation *)

(** [i, err := strconv.Atoi(v); err != nil || i < 0] *)
Definition bad_number (v : string) : bool :=
  negb (String.eqb v "") && match Atoi v with Some i => i <? 0 | None => true end.

Definition validate_memif (prefix : string) (p : MemIFParms) : option error :=
  let known m := String.eqb m IfMemifModeEhernet || String.eqb m IfMemifModeIP || String.eqb m IfMemifModePuntInject in
  if negb (String.eqb (mi_Mode p) "") && negb (known (mi_Mode p)) then
    Some (prefix +:+ ", unsupported memif mode=" +:+ mi_Mode p)
  else if bad_number (mi_RingSize p) then Some (prefix +:+ ", invalid memif ring_size=" +:+ mi_RingSize p)
  else if bad_number (mi_BufferSize p) then Some (prefix +:+ ", invalid memif buffer_size=" +:+ mi_BufferSize p)
  else if bad_number (mi_RxQueues p) then Some (prefix +:+ ", invalid memif rx_queues=" +:+ mi_RxQueues p)
  else if bad_number (mi_TxQueues p) then Some (prefix +:+ ", invalid memif tx_queues=" +:+ mi_TxQueues p)
  else None.

Definition validate_tap (prefix : string) (p : TapParms) : option error :=
  if bad_number (tp_RxRingSize p) then Some (prefix +:+ ", invalid tap rx_ring_size=" +:+ tp_RxRingSize p)
  else if bad_number (tp_TxRingSize p) then Some (prefix +:+ ", invalid tap tx_ring_size=" +:+ tp_TxRingSize p)
  else None.

(** The first error of a list of checks. *)
Definition first_error (l : list (option error)) : option error := head (omap id l).

Definition validate_interface (service : string) (iFace : Interface) : option error :=
  let prefix := "network-service/if: " +:+ service +:+ "/" +:+ if_Name iFace in
  let known t := String.eqb t IfTypeMemif || String.eqb t IfTypeEthernet || String.eqb t IfTypeVeth || String.eqb t IfTypeTap in
  if negb (known (if_IfType iFace)) then
    Some ("network-service/pod: " +:+ service +:+ "/" +:+ if_Name iFace +:+ " has invalid if type '" +:+
          if_IfType iFace +:+ "'")
  else
    match omap (fun a => match Net.ParseCIDR a with inl e => Some e | inr _ => None end) (if_IpAddresses iFace) with
    | e :: _ => Some (prefix +:+ " '" +:+ e +:+ "', expected format i.p.v.4/xx, or ip::v6/xx")
    | [] => first_error [if_MemifParms iFace ≫= validate_memif prefix; if_TapParms iFace ≫= validate_tap prefix]
    end.

Definition validateNetworkPod (service : string) (networkPod : NetworkPod) : option error :=
  match np_Metadata networkPod with
  | None => Some ("ValidatePod: network-service: " +:+ service +:+ ", network-pod is missing metadata or name")
  | Some md =>
      if String.eqb (md_Name md) "" then
        Some ("ValidatePod: network-service: " +:+ service +:+ ", network-pod is missing metadata or name")
      else
        match np_Spec networkPod with
        | None => Some ("ValidatePod: network-service: " +:+ service +:+ ", network-pod: " +:+ md_Name md +:+ " is missing spec")
        | Some spec =>
            let known t := String.eqb t NetworkPodTypeExternal || String.eqb t NetworkPodTypeVPPContainer
                           || String.eqb t NetworkPodTypeNonVPPContainer in
            if negb (known (nps_PodType spec)) then
              Some ("ValidatePod: network-service: " +:+ service +:+ ", network-pod: " +:+ md_Name md +:+
                    " invalid pod-type " +:+ nps_PodType spec)
            else match nps_Interfaces spec with
                 | [] => Some ("network-service/pod: " +:+ service +:+ "/" +:+ md_Name md +:+ " no interfaces defined")
                 | ifaces => first_error (map (validate_interface service) ifaces)
                 end
        end
  end.

Definition validateNetworkPods (service : string) (pods : list NetworkPod) : option error :=
  first_error (map (validateNetworkPod service) pods).

Definition num_segments (conn : Connection) : nat :=
  length (cn_PodInterfaces conn) + length (cn_NodeInterfaces conn) + length (cn_NodeInterfaceLabels conn).

(** The checks of a point-to-point and of a multipoint connection. *)
Definition validate_pp (service kind : string) (conn : Connection) : option error :=
  if negb (num_segments conn =? 2)%nat then
    Some ("network-service: " +:+ service +:+ " conn: " +:+ kind +:+ " p2p must have 2 interfaces only")
  else None.

Definition validate_mp (service kind : string) (conn : Connection) : M World (option error) :=
  let prefix := "network-service: " +:+ service in
  if (length (cn_PodInterfaces conn) + length (cn_NodeInterfaces conn) =? 0)%nat then
    mret (Some (prefix +:+ " conn: " +:+ kind +:+ " p2mp must have at least one interface"))
  else
    match cn_L2Bd conn with
    | None => mret None
    | Some l2bd =>
        let template := negb (String.eqb (l2bd_L2BdTemplate l2bd) "") in
        if negb (String.eqb (cn_UseNodeL2Bd conn) "") then
          mret (Some (prefix +:+ " conn: cannot refer to a node bd AND provide l2bd parameters"))
        else if template && bool_decide (is_Some (l2bd_BdParms l2bd)) then
          mret (Some (prefix +:+ " conn: l2bd: " +:+ l2bd_Name l2bd +:+
                      "  cannot refer to temmplate and provide l2bd parameters"))
        else if template then
          let! t := SysParms.FindL2BDTemplate (l2bd_L2BdTemplate l2bd) in
          mret (match t with
                | None => Some (prefix +:+ ", conn: l2bd: " +:+ l2bd_Name l2bd +:+
                    "  has invalid reference to non-existant l2bd template '" +:+ l2bd_L2BdTemplate l2bd +:+ "'")
                | Some _ => None
                end)
        else
          mret (match l2bd_BdParms l2bd with
                | None => Some (prefix +:+ ", conn: l2bd: " +:+ l2bd_Name l2bd +:+ " has no DB parms nor refer to a template")
                | Some _ => None
                end)
    end.

Definition validate_pod_interface (service : string) (pods : list NetworkPod) (connPodInterface : string)
  : M World (result unit) :=
  let '(connPodName, connInterfaceName) := ConnPodInterfaceNames connPodInterface in
  if String.eqb connPodName "" || String.eqb connInterfaceName "" then
    mfail ("network-service: " +:+ service +:+ " conn: pod/port: " +:+ connPodInterface +:+
           " must be of pod/interface format")
  else
    let! p := findNetworkPodAndInterfaceInList connPodName connInterfaceName pods in
    match fst p with
    | None => mfail ("network-service: " +:+ service +:+ " conn: pod/port: " +:+ connPodInterface +:+
                     " not found in NetworkPod interfaces")
    | Some _ => mok tt
    end.

Definition validate_connection (service : string) (pods : list NetworkPod) (conn : Connection) : M World (result unit) :=
  let! err :=
    if String.eqb (cn_ConnType conn) ConnTypeL2PP then mret (validate_pp service "l2" conn)
    else if String.eqb (cn_ConnType conn) ConnTypeL2MP then validate_mp service "l2" conn
    else if String.eqb (cn_ConnType conn) ConnTypeL3PP then mret (validate_pp service "l3" conn)
    else if String.eqb (cn_ConnType conn) ConnTypeL3MP then validate_mp service "l3" conn
    else mret (Some ("network-service: " +:+ service +:+ ", connection has invalid conn type '" +:+ cn_ConnType conn +:+ "'")) in
  match err with
  | Some e => mfail e
  | None =>
      forR (cn_PodInterfaces conn) (validate_pod_interface service pods) ;;?
      if String.eqb (cn_ConnMethod conn) "" || String.eqb (cn_ConnMethod conn) ConnMethodDirect
         || String.eqb (cn_ConnMethod conn) ConnMethodVswitch
      then mok tt
      else mfail ("network-service: " +:+ service +:+ ", connection has invalid conn method '" +:+ cn_ConnMethod conn +:+ "'")
  end.

Definition validate (ns : NetworkService loc) : M World (option error) :=
  match ns_Metadata ns with
  | None => mret (Some "Validate error: network-service: missing metadata or name")
  | Some md =>
      if String.eqb (md_Name md) "" then mret (Some "Validate error: network-service: missing metadata or name")
      else
        let! spec := deref (ns_Spec ns) in
        match validateNetworkPods (md_Name md) (nss_NetworkPods spec) with
        | Some e => mret (Some e)
        | None =>
            let! r := forR (nss_Connections spec) (validate_connection (md_Name md) (nss_NetworkPods spec)) in
            mret (match r with inl e => Some e | inr _ => None end)
        end
  end.

(** ** Interface states of all services *)

Definition findInterfaceStatus (ns : NetworkService loc) (podInterfaceName : string) : option loc :=
  match ns_Status ns with
  | Some st => RetrieveInterfaceStatusFromRamCache (nst_Interfaces st) podInterfaceName
  | None => None
  end.

Section env.
Context {E : Env}.

(** [FindInterfaceStatus]: the first service that has it, in the order of the range. *)
Definition FindInterfaceStatus (podInterfaceName : string) : M World (option loc) :=
  let! m := get networkServiceCache in
  let! names := order_keys m in
  mret (head (omap (fun n => ns ← m !! n; findInterfaceStatus ns podInterfaceName) names)).

Definition writeToDatastore (ns : NetworkService loc) : M World (result unit) :=
  let! name := service_name ns in
  let! h := get if_heap in
  WriteToDatastore (NameKey name) (VNetworkService (snapshot_service h ns)).

Definition deleteFromDatastore (ns : NetworkService loc) : M World unit :=
  let! name := service_name ns in DeleteFromDatastore (NameKey name).

(** ** Rendering *)

Definition renderConnectionSegments (k : string) (conn : Connection) (i : Z) : M World (result unit) :=
  if String.eqb (cn_ConnType conn) ConnTypeL2PP then RenderConnL2PP k conn i
  else if String.eqb (cn_ConnType conn) ConnTypeL2MP then RenderConnL2MP k conn i
  else if String.eqb (cn_ConnType conn) ConnTypeL3PP then RenderConnL3PP k conn i
  else if String.eqb (cn_ConnType conn) ConnTypeL3MP then RenderConnL3MP k conn i
  else mok tt.

(** The connections in order, the first error ends the loop. *)
Fixpoint render_connections (k : string) (i : Z) (conns : list Connection) : M World (result unit) :=
  match conns with
  | [] => mok tt
  | conn :: conns =>
      renderConnectionSegments k conn i ;;?
      render_connections k (i + 1) conns
  end.

Definition renderComplete (k : string) : M World (result unit) :=
  let! st := get_status k in
  (match nst_Msg st with
   | [] => AppendStatusMsg k "OK" ;;;
           let! st := get_status k in
           put_status k (with_nst_OperStatus OperStatusUp st)
   | _ => RenderTxnConfigEntityRemoveEntries ;;;
          put_status k (with_nst_OperStatus OperStatusDown (with_nst_Rendered None st))
   end) ;;;
  let! ns := get_service k in
  writeToDatastore ns.

Definition renderConfig (k : string) : M World (result unit) :=
  RenderTxnConfigEntityStart ;;;
  let! ns := get_service k in
  let! err := validate ns in
  match err with
  | Some err => RenderTxnConfigEntityEnd ;;; mfail err
  | None =>
      put_status k (mkNetworkServiceStatus "" [] (Some ∅) (Some ∅)) ;;;
      let! r :=
        (let! spec := get_spec k in
         render_connections k 0 (nss_Connections spec)) in
      renderComplete k ;;;
      RenderTxnConfigEntityEnd ;;;
      mret r
  end.

Definition RenderAll : M World unit :=
  range_map networkServiceCache (fun k _ => renderConfig k ;;; mret tt).

Definition renderDelete (k : string) : M World unit :=
  let! st := get_status k in
  DeleteRenderedVppAgentEntries (nst_Rendered st) ;;;
  let! interfaces := DeleteInterfaceEntries (nst_Interfaces st) in
  put_status k (with_nst_Interfaces interfaces st).

(** ** CRUD *)

(** [HandleCRUDOperationCU]; the message of an invalid service goes to a nil status. *)
Definition HandleCRUDOperationCU (_ns : NetworkService loc) : M World (result unit) :=
  let ns := with_ns_Status None _ns in
  let! err := validate ns in
  match err with
  | Some _ => panic (* ns.Status is nil in AppendStatusMsg *)
  | None =>
      let! name := service_name ns in
      put_service name ns ;;;
      writeToDatastore ns ;;?
      IpamPool.EntityCreate name IPAMPoolScopeNetworkService ;;;
      mok tt
  end.

Definition HandleCRUDOperationR (name : string) : M World (option (NetworkService loc)) :=
  get (fun w => networkServiceCache w !! name).

Definition HandleCRUDOperationD (name : string) : M World (result unit) :=
  let! o := get (fun w => networkServiceCache w !! name) in
  match o with
  | None => mok tt
  | Some _ =>
      renderDelete name ;;;
      modify (fun w => with_networkServiceCache (delete name (networkServiceCache w)) w) ;;;
      DeleteFromDatastore (NameKey name) ;;;
      IpamPool.EntityDelete name IPAMPoolScopeNetworkService ;;;
      mok tt
  end.

Definition HandleCRUDOperationGetAll : M World (gmap string (NetworkService loc)) := get networkServiceCache.

(** A service as it is read from etcd: its states become objects, empty maps nil. *)
Definition load_service (v : Value) : M World unit :=
  match v with
  | VNetworkService ns =>
      let! md := deref (ns_Metadata ns) in
      let! st :=
        match ns_Status ns with
        | None => mret None
        | Some s => let! i := load_interfaces (nst_Interfaces s) in
                    mret (Some (mkNetworkServiceStatus (nst_OperStatus s) (nst_Msg s) (load_map (nst_Rendered s)) i))
        end in
      put_service (md_Name md) (mkNetworkService (ns_Metadata ns) (ns_Spec ns) st)
  | _ => panic (* log.Fatal: the value does not unmarshal *)
  end.

Definition LoadAllFromDatastoreIntoCache : M World (result unit) := ReadIterate KeyPrefix load_service.

Definition Init : M World unit := InitRAMCache ;;; LoadAllFromDatastoreIntoCache ;;; mret tt.

(** [networkServiceProcessPost] on a parsed body. *)
Definition networkServiceProcessPost (urlName : string) (ns : NetworkService loc)
  : M World (reply (NetworkService loc)) :=
  let! name := service_name ns in
  if negb (String.eqb urlName name) then mret (BadRequest "json name does not matach url name")
  else
    let! existing := HandleCRUDOperationR urlName in
    if match existing with Some e => ConfigEqual e ns | None => false end then mret (HttpOK None)
    else
      let! err := validate ns in
      match err with
      | Some err => mret (BadRequest err)
      | None => mret (HttpOK (Some ns))
      end.

End env.

(** ** Rendering a service *)

(** Validation only reads. *)
Lemma keeps_validate I ns : keeps I (validate ns).
Proof.
  unfold validate. keeps_auto. unfold validate_connection, validate_mp, SysParms.FindL2BDTemplate. keeps_auto.
  unfold validate_pod_interface. keeps_auto. generalize (nss_NetworkPods a). intros pods.
  induction pods as [|pod pods IH]; cbn; keeps_auto.
Qed.

(** How the rendering of a service ends: its entries are kept and listed, or there are none. *)
Definition service_done (ok : bool) (N : gmap string VppAgent.KVType) (st : NetworkServiceStatus loc) : Prop :=
  if ok then nst_OperStatus st = OperStatusUp /\ nst_Msg st = ["OK"] /\
             exists r, nst_Rendered st = Some r /\ dom r = dom N
  else nst_OperStatus st = OperStatusDown /\ nst_Msg st <> [] /\ nst_Rendered st = None /\ N = ∅.

(** Validation reads the system parameters only. *)
Lemma service_validate_reads `{E : Env} ns : reads sysParmCache (validate ns).
Proof.
  unfold validate. reads_auto. unfold validate_connection. reads_auto;
    try (unfold validate_mp, SysParms.FindL2BDTemplate; reads_auto; apply reads_get; by intros s1 s2 ->).
  unfold validate_pod_interface. reads_auto. generalize (nss_NetworkPods a). intros pods.
  induction pods as [|pod pods IH]; cbn; reads_auto.
Qed.

(** In the state [w], service [ns] fails validation. *)
Definition service_rejected `{E : Env} (w : World) (ns : NetworkService loc) (err : error) : Prop :=
  validate ns w = Done (Some err) w.

Lemma service_rejected_ext `{E : Env} w w' ns err :
  sysParmCache w = sysParmCache w' -> service_rejected w ns err -> service_rejected w' ns err.
Proof. intros Ew R. by eapply reads_done; [apply service_validate_reads|exact R|]. Qed.

(** What a rendering did to service [ns] in the state [w]: [r] is its result, [N] its entries. *)
Definition service_outcome `{E : Env} (w : World) (ns : NetworkService loc) (r : result unit)
  (N : gmap string VppAgent.KVType) (new : option (NetworkServiceStatus loc)) : Prop :=
  (N = ∅ /\ new = ns_Status ns /\ exists err, r = inl err /\ service_rejected w ns err) \/
  exists ok st, new = Some st /\ service_done ok N st /\ (r <> Ok tt -> ok = false).

Lemma keeps_render_connections `{Env} k (I : World -> Prop) `{!ServiceInvariant k I} i conns : keeps I (render_connections k i conns).
Proof.
  revert i. induction conns as [|conn conns IH]; intros i; cbn; [apply keeps_mok|].
  apply keeps_rbnd; [|intros _; apply IH]. unfold renderConnectionSegments. serve.
Qed.

Section render.
Context {E : Env} (F : frame) (k : string) (C : gmap string (NetworkService loc))
  (G : gmap string (option (NetworkNodeStatus loc))).

Abbreviation I := (service_rendering F k C G).

Lemma reports_render_connections i conns : reports k (render_connections k i conns).
Proof.
  revert i. induction conns as [|conn conns IH]; intros i; cbn; [apply reports_mok|].
  apply reports_rbnd; [|intros _; apply IH]. unfold renderConnectionSegments. reports_auto.
Qed.

Lemma service_at_messages N st w : service_at F k C G N st w -> messages k w = nst_Msg st.
Proof. intros [_ (ns & Hn & Hst) _ _]. unfold messages. rewrite Hn. cbn. by rewrite Hst. Qed.

Lemma service_renderComplete_wlp w :
  I w ->
  wlp (renderComplete k) (fun _ w' => exists N st, service_at F k C G N st w' /\
    service_done (bool_decide (messages k w = [])) N st) w.
Proof.
  intros (N & st & Hw & Hr). rewrite (service_at_messages _ _ _ Hw). unfold renderComplete. wpw.
  eapply wp_conseq; [by eapply service_status_read|]. intros st' w' [-> ->]. wpw.
  eapply (wp_conseq _ _ (fun _ w' => exists N st', service_at F k C G N st' w' /\
     service_done (bool_decide (nst_Msg st = [])) N st')).
  - destruct (nst_Msg st) as [|m ms] eqn:Hms; wpw.
    + unfold AppendStatusMsg. wpw. eapply wp_conseq; [by eapply service_status_read|]. intros st' w' [-> ->].
      eapply wp_conseq; [by eapply service_status_write|]. clear w Hw. intros [] w Hw. wpw.
      eapply wp_conseq; [by eapply service_status_read|]. intros st' w' [-> ->]. wpw.
      eapply wp_conseq; [by eapply service_status_write|]. intros [] w' Hw'. eexists _, _. split; [done|].
      cbn. by rewrite Hms.
    + destruct (RemoveEntries_in_level _ _ _ (sa_level _ _ _ _ _ _ _ Hw)) as (w1 & R & HF & E1).
      eapply wp_run; [exact R|].
      assert (service_at F k C G ∅ st w1) as Hw1 by (rewrite E1; split; [by rewrite <- E1|apply Hw..]).
      eapply wp_conseq; [by eapply service_status_write|]. intros [] w' Hw'. eexists _, _. split; [done|].
      cbn. by rewrite Hms.
  - intros [] w' (N' & st' & Hw' & Hd). wpw. eapply wp_conseq; [by eapply get_service_wlp|].
    intros ns w2 (-> & _ & _). unfold writeToDatastore, service_name. wpw.
    destruct (ns_Metadata ns); [|done]. wpw.
    eapply wlp_keeps; [apply (keeps_WriteToDatastore (service_at F k C G N' st'))|exact Hw'|].
    + split; intros; by eapply service_at_ext.
    + intros r w2 Hw2. eauto.
Qed.
End render.

Lemma service_renderConfig_wlp `{E : Env} k ns w M :
  networkServiceCache w !! k = Some ns -> afterMap w !! txnLevel w = Some M ->
  wlp (renderConfig k) (fun r w' =>
    exists N ns', merged_into w N w' /\ networkServiceCache w' = <[k := ns']> (networkServiceCache w) /\
      nn_Status <$> networkNodeCache w' = nn_Status <$> networkNodeCache w /\
      service_outcome w ns r N (ns_Status ns')) w.
Proof.
  intros Hk HM. unfold renderConfig. wpw. eapply wp_run; [apply entity_start_run|].
  pose proof (entity_started_in_level w) as HF. wpw.
  assert (forall C ns', delete k C = delete k (networkServiceCache w) -> C !! k = Some ns' ->
            C = <[k := ns']> (networkServiceCache w)) as Hins.
  { intros C ns' Hd Hn. rewrite <- insert_delete_eq, <- Hd. by rewrite insert_delete_id. }
  unfold get_service. wpw. change (networkServiceCache (entity_started w)) with (networkServiceCache w).
  rewrite Hk. wpw. apply (wp_conseq _ _ (fun err w' => w' = entity_started w /\ validate ns (entity_started w) = Done err (entity_started w))).
  { pose proof (keeps_validate (fun w' => w' = entity_started w) ns (entity_started w) eq_refl) as Hv.
    unfold wpp. destruct (validate ns (entity_started w)) as [err w'|]; [|done]. by rewrite Hv. }
  intros [err|] w1 (-> & Hval); wpw.
  - eapply wp_conseq; [by eapply entity_merged|]. intros [] w' (Hm & Hn & Hs). wpw.
    exists ∅, ns. split_and!; [done|by rewrite Hs, insert_id|by rewrite Hn|]. left.
    split_and!; [done|done|]. exists err. split; [done|]. by apply (service_rejected_ext (entity_started w)).
  - set (st0 := mkNetworkServiceStatus _ _ _ _).
    pose (I := service_rendering (frame_of w) k (delete k (networkServiceCache w)) (nn_Status <$> networkNodeCache w)).
    apply (wp_conseq _ _ (fun _ => I)).
    { unfold put_status, get_service, put_service. wpw.
      change (networkServiceCache (entity_started w)) with (networkServiceCache w). rewrite Hk. wpw.
      exists ∅, st0. split; [split|].
      - by eapply in_level_ext.
      - eexists. cbn. rewrite lookup_insert_eq. by split.
      - cbn. by rewrite delete_insert_eq.
      - done.
      - exists ∅. split; [done|]. by rewrite !dom_empty_L. }
    intros [] w2 Hw2. apply wp_bnd.
    apply (wp_conseq _ _ (fun r w' => (r <> Ok tt -> messages k w' <> []) /\
I w')).
    { wpw. eapply wlp_keeps; [apply (keeps_get_spec k I)|exact Hw2|]. clear w2 Hw2. intros spec w2 Hw2.
      eapply wp_keeps; [apply (keeps_render_connections k I)|exact Hw2|apply reports_render_connections|].
      intros r w' Hr Hw'. split; [|exact Hw']. by destruct r as [e|[]]. }
    intros r w3 (Hr & Hw3). wpw. eapply wp_conseq; [by eapply service_renderComplete_wlp|].
    intros _ w4 (N & st & [HF4 (ns4 & Hn4 & Hst4) Ho4 Hs4] & Hd). wpw.
    eapply wp_conseq; [by eapply entity_merged|]. intros [] w' (Hm & Hn & Hs). wpw.
    exists N, ns4. rewrite Hn, Hs, Hst4. split_and!; [done|by apply Hins|done|].
    right. eexists _, st. split; [done|]. split; [exact Hd|]. intros He. rewrite bool_decide_false by auto. done.
Qed.


(** ** Where the operations of a service end the process *)
Section panics.
Context {E : Env}.

(** A service that fails validation, which can come from a custom resource or from the
    start-up file, where nothing validates it first. *)
Lemma invalid_service_panics ns err w :
  validate (with_ns_Status None ns) w = Done (Some err) w -> HandleCRUDOperationCU ns w = Panic.
Proof. intros R. unfold HandleCRUDOperationCU, mbnd at 1. by rewrite R. Qed.

(** A service that was configured and not rendered yet. *)
Lemma unrendered_service_delete_panics name ns w :
  networkServiceCache w !! name = Some ns -> ns_Status ns = None -> HandleCRUDOperationD name w = Panic.
Proof.
  intros Hc Hst. unfold HandleCRUDOperationD, renderDelete, get_status, get_service, mbnd, get. rewrite Hc. cbn.
  rewrite Hc. cbn. by rewrite Hst.
Qed.
End panics.

(** ** Witness: two pods on a node, joined by a direct memif *)
Definition demo_pod (name : string) : NetworkPod :=
  mkNetworkPod (Some (mkMeta name ∅))
    (Some (mkNetworkPodSpec NetworkPodTypeVPPContainer
       [mkInterface "p1" false IfTypeMemif "" 0 "" [] [] "" None None [] "" "" None None None] [])).

Definition demo_service : NetworkService loc :=
  mkNetworkService (Some (mkMeta "s1" ∅))
    (Some (mkNetworkServiceSpec [demo_pod "vnf1"; demo_pod "vnf2"]
       [mkConnection "" ConnTypeL2PP "" ["vnf1/p1"; "vnf2/p1"] [] [] "" None 0 ""]))
    None.

Definition demo_rendering : World :=
  with_networkServiceCache {["s1" := demo_service]}
    (with_ramPodToNode {["vnf1" := mkPodToNode "vnf1" "n1"; "vnf2" := mkPodToNode "vnf2" "n1"]}
       NetworkNode.demo_rendering).

(** The service renders the two ends of the memif. *)
Lemma demo_service_renders :
  match @renderConfig quiet_env "s1" demo_rendering with
  | Done r w' => r = Ok tt /\ size (after_level 0 w') = 2%nat
  | Panic => False
  end.
Proof. vm_compute. split; reflexivity. Qed.

End NetworkService.
