(* ===== verification/Types.v ===== *)
(** * What validation checks

    Module Types: a type system for the objects of the configuration.  The judgements say
    which nodes, services, overlays and pools are well formed under the bridge templates
    of the system parameters, in the terms of the configuration and not of the
    code that checks it; the theorems say that the [validate] functions decide them. *)

From S2P Require Import Prelude GoStd GoNet Model State Utils SysParms IpamPool NetworkNode Overlay ServiceL2 NetworkService.

Module Types.
Import Utils ServiceL2.

(** ** The judgements *)

Definition address_ok (a : string) : Prop := exists ip net, Net.ParseCIDR a = inr (ip, net).

(** A number may be left out. *)
Definition number_ok (v : string) : Prop := v = "" \/ exists i, Atoi v = Some i /\ 0 <= i.

(** [T]: the bridge templates of the system parameters. *)
Definition template_ok (T : list BDParms) (name : string) : Prop := exists t, t ∈ T /\ bdp_Name t = name.

(** *** Nodes *)
Record node_if_ok (i : Interface) : Prop := {
  ni_type : if_IfType i ∈ [IfTypeEthernet; IfTypeVxlanTunnel];
  ni_addresses : Forall address_ok (if_IpAddresses i)
}.

(** A bridge of a node has a template, or parameters, or takes the defaults. *)
Inductive node_bd_ok (T : list BDParms) (bd : L2BD) : Prop :=
| nbd_own : l2bd_L2BdTemplate bd = "" -> node_bd_ok T bd
| nbd_template :
    l2bd_L2BdTemplate bd <> "" -> l2bd_BdParms bd = None -> template_ok T (l2bd_L2BdTemplate bd) -> node_bd_ok T bd.

Definition node_ok (T : list BDParms) (spec : NetworkNodeSpec) : Prop :=
  Forall node_if_ok (nns_Interfaces spec) /\ Forall (node_bd_ok T) (nns_L2Bds spec).

(** *** Services *)
Record memif_ok (p : MemIFParms) : Prop := {
  mo_mode : mi_Mode p ∈ [""; IfMemifModeEhernet; IfMemifModeIP; IfMemifModePuntInject];
  mo_numbers : Forall number_ok [mi_RingSize p; mi_BufferSize p; mi_RxQueues p; mi_TxQueues p]
}.

Definition tap_ok (p : TapParms) : Prop := Forall number_ok [tp_RxRingSize p; tp_TxRingSize p].

Record pod_if_ok (i : Interface) : Prop := {
  pi_type : if_IfType i ∈ [IfTypeMemif; IfTypeEthernet; IfTypeVeth; IfTypeTap];
  pi_addresses : Forall address_ok (if_IpAddresses i);
  pi_memif : forall p, if_MemifParms i = Some p -> memif_ok p;
  pi_tap : forall p, if_TapParms i = Some p -> tap_ok p
}.

Inductive pod_ok (pod : NetworkPod) : Prop :=
| pod_ok_intro md spec :
    np_Metadata pod = Some md -> md_Name md <> "" -> np_Spec pod = Some spec ->
    nps_PodType spec ∈ [NetworkPodTypeExternal; NetworkPodTypeVPPContainer; NetworkPodTypeNonVPPContainer] ->
    nps_Interfaces spec <> [] -> Forall pod_if_ok (nps_Interfaces spec) -> pod_ok pod.

(** [pod/interface] names an interface of a pod of the service. *)
Inductive pod_if_ref (pods : list NetworkPod) (s : string) : Prop :=
| pod_if_ref_intro p i pod md spec iFace :
    ConnPodInterfaceNames s = (p, i) -> p <> "" -> i <> "" ->
    pod ∈ pods -> np_Metadata pod = Some md -> md_Name md = p -> np_Spec pod = Some spec ->
    iFace ∈ nps_Interfaces spec -> if_Name iFace = i -> pod_if_ref pods s.

(** The bridge of a multipoint connection: that of a node, or one of its own with a
    template or parameters, but not both. *)
Inductive conn_bd_ok (T : list BDParms) (conn : Connection) : Prop :=
| cbd_none : cn_L2Bd conn = None -> conn_bd_ok T conn
| cbd_template bd :
    cn_L2Bd conn = Some bd -> cn_UseNodeL2Bd conn = "" -> l2bd_L2BdTemplate bd <> "" -> l2bd_BdParms bd = None ->
    template_ok T (l2bd_L2BdTemplate bd) -> conn_bd_ok T conn
| cbd_parms bd parms :
    cn_L2Bd conn = Some bd -> cn_UseNodeL2Bd conn = "" -> l2bd_L2BdTemplate bd = "" -> l2bd_BdParms bd = Some parms ->
    conn_bd_ok T conn.

Inductive conn_type_ok (T : list BDParms) (conn : Connection) : Prop :=
| ct_pp :
    cn_ConnType conn ∈ [ConnTypeL2PP; ConnTypeL3PP] ->
    length (cn_PodInterfaces conn ++ cn_NodeInterfaces conn ++ cn_NodeInterfaceLabels conn) = 2%nat ->
    conn_type_ok T conn
| ct_mp :
    cn_ConnType conn ∈ [ConnTypeL2MP; ConnTypeL3MP] -> cn_PodInterfaces conn ++ cn_NodeInterfaces conn <> [] ->
    conn_bd_ok T conn -> conn_type_ok T conn.

Record conn_ok (T : list BDParms) (pods : list NetworkPod) (conn : Connection) : Prop := {
  co_type : conn_type_ok T conn;
  co_pods : Forall (pod_if_ref pods) (cn_PodInterfaces conn);
  co_method : cn_ConnMethod conn ∈ [""; ConnMethodDirect; ConnMethodVswitch]
}.

Inductive service_ok (T : list BDParms) (ns : NetworkService loc) : Prop :=
| service_ok_intro md spec :
    ns_Metadata ns = Some md -> md_Name md <> "" -> ns_Spec ns = Some spec ->
    Forall pod_ok (nss_NetworkPods spec) ->
    Forall (conn_ok T (nss_NetworkPods spec)) (nss_Connections spec) -> service_ok T ns.

(** *** Overlays and pools *)
Inductive overlay_ok (spec : NetworkNodeOverlaySpec) : Prop :=
| overlay_mesh p :
    nos_ServiceMeshType spec = NetworkNodeOverlayTypeMesh ->
    nos_ConnectionType spec = NetworkNodeOverlayConnectionTypeVxlan -> nos_VxlanMeshParms spec = Some p ->
    vm_VniRangeStart p <> 0 -> vm_VniRangeEnd p <> 0 -> vm_VniRangeStart p <= vm_VniRangeEnd p -> overlay_ok spec
| overlay_hub p :
    nos_ServiceMeshType spec = NetworkNodeOverlayTypeHubAndSpoke ->
    nos_ConnectionType spec = NetworkNodeOverlayConnectionTypeVxlan -> nos_VxlanHubAndSpokeParms spec = Some p ->
    hs_Vni p <> 0 -> overlay_ok spec.

Inductive pool_ok (ip : IPAMPool) : Prop :=
| pool_ok_intro md spec :
    ip_Metadata ip = Some md -> ip_Spec ip = Some spec ->
    ips_Scope spec ∈ [IPAMPoolScopeSystem; IPAMPoolScopeNode; IPAMPoolScopeNetworkService] ->
    address_ok (ips_Network spec) -> pool_ok ip.

(** ** Deciding them *)

(** [m] only reads; it reports no error exactly when [P] holds. *)
Definition decides (w : World) (m : M World (result unit)) (P : Prop) : Prop :=
  exists r, m w = Done r w /\ (r = Ok tt <-> P).

Lemma decides_ok w (P : Prop) : P -> decides w (mok tt) P.
Proof. by exists (Ok tt). Qed.

Lemma decides_fail w e (P : Prop) : ~ P -> decides w (mfail e) P.
Proof. intros H. exists (inl e). by split. Qed.

Lemma decides_ext w m (P Q : Prop) : (P <-> Q) -> decides w m P -> decides w m Q.
Proof. intros H (r & R & Hr). exists r. split; [done|]. by rewrite Hr. Qed.

#[export] Instance decides_proper w m : Proper (iff ==> iff) (decides w m).
Proof. intros P Q H. split; by apply decides_ext. Qed.

Lemma decides_then w (m1 : M World (result unit)) m2 (P Q : Prop) :
  decides w m1 P -> (P -> decides w m2 Q) -> decides w (m1 ;;? m2) (P /\ Q).
Proof.
  intros ([e|[]] & R & Hr) H2; unfold decides, rbnd, mbnd; rewrite R.
  - exists (inl e). split; [done|]. split; [done|]. intros [HP _]. by apply Hr in HP.
  - assert P as HP by by apply Hr. destruct (H2 HP) as (r & R2 & Hr2). exists r. split; [done|]. rewrite Hr2. tauto.
Qed.

Lemma decides_forR {A} w (l : list A) body (P : A -> Prop) :
  (forall x, x ∈ l -> decides w (body x) (P x)) -> decides w (forR l body) (Forall P l).
Proof.
  induction l as [|x l IH]; intros H; cbn.
  - by apply decides_ok, Forall_nil.
  - eapply decides_ext; [symmetry; apply Forall_cons|]. apply decides_then; [apply H; left|].
    intros _. apply IH. intros y Hy. apply H. by right.
Qed.

(** A check that reads nothing. *)
Definition option_result (o : option error) : result unit := match o with Some e => inl e | None => Ok tt end.

Lemma first_error_none l : NetworkService.first_error l = None <-> Forall (fun o => o = None) l.
Proof.
  unfold NetworkService.first_error. induction l as [|[e|] l IH]; cbn; [done| |].
  - split; [done|]. by intros [? _]%Forall_cons.
  - rewrite Forall_cons, IH. tauto.
Qed.

Lemma eqb_in s l : existsb (String.eqb s) l = true <-> s ∈ l.
Proof.
  rewrite existsb_exists. split.
  - intros (x & Hx & ->%String.eqb_eq). by apply list_elem_of_In.
  - intros Hs. exists s. split; [by apply list_elem_of_In|]. apply String.eqb_refl.
Qed.


Lemma no_bad_addresses l :
  omap (fun a => match Net.ParseCIDR a with inl e => Some e | inr _ => None end) l = [] <-> Forall address_ok l.
Proof.
  induction l as [|a l IH]; cbn; [done|]. rewrite Forall_cons. unfold address_ok at 1.
  destruct (Net.ParseCIDR a) as [e|[ip net]]; cbn.
  - split; [done|]. by intros [(ip & net & H) _].
  - rewrite IH. split; [|tauto]. intros H. split; [by exists ip, net|done].
Qed.

(** *** Nodes *)

Lemma node_interfaces name l :
  ((NetworkNode.nodeValidateInterfaces name name l).2 = None <-> Forall node_if_ok l) /\
  (Forall node_if_ok l -> (NetworkNode.nodeValidateInterfaces name name l).1 = map (with_if_Parent name) l).
Proof.
  induction l as [|i l [IH1 IH2]]; [done|]. cbn [NetworkNode.nodeValidateInterfaces map].
  rewrite Forall_cons.
  destruct (String.eqb (if_IfType i) IfTypeEthernet || String.eqb (if_IfType i) IfTypeVxlanTunnel) eqn:Ht.
  2: { cbn. split; [|intros [[Hi _] _]]; [split; [done|intros [[Hi _] _]]|];
       exfalso; apply orb_false_iff in Ht as [H1%String.eqb_neq H2%String.eqb_neq]; set_solver. }
  assert (if_IfType i ∈ [IfTypeEthernet; IfTypeVxlanTunnel]) as Hin.
  { apply orb_true_iff in Ht as [->%String.eqb_eq| ->%String.eqb_eq]; set_solver. }
  change (if_IpAddresses (with_if_Parent name i)) with (if_IpAddresses i).
  pose proof (no_bad_addresses (if_IpAddresses i)) as Ha.
  destruct (omap _ (if_IpAddresses i)) as [|e es] eqn:Eo.
  - destruct (NetworkNode.nodeValidateInterfaces name name l) as [rest err]. cbn in *. split.
    + rewrite IH1. split; [|tauto]. intros H. split; [split; [done|by apply Ha]|done].
    + intros [_ H]. by rewrite IH2.
  - cbn. split; [split; [done|]|]; intros [[_ H] _]; by apply Ha in H.
Qed.

Lemma find_template T name :
  (exists p, list_find (fun t => bdp_Name t = name) T = Some p) <-> template_ok T name.
Proof.
  split.
  - intros [[i t] (Hi & Hn & _)%list_find_Some]. exists t. split; [by eapply list_elem_of_lookup_2|done].
  - intros (t & Ht & Hn). destruct (list_find_elem_of (fun t => bdp_Name t = name) T t Ht Hn) as [p Hp]. by exists p.
Qed.

Abbreviation templates w := (sp_L2BdTemplates (sysParmCache w)).

Lemma node_bridge w name bd : decides w (NetworkNode.validate_l2bd name bd) (node_bd_ok (templates w) bd).
Proof.
  unfold NetworkNode.validate_l2bd. destruct (String.eqb (l2bd_L2BdTemplate bd) "") eqn:Et; cbn [negb andb].
  { apply decides_ok. left. by apply String.eqb_eq. }
  apply String.eqb_neq in Et. case_bool_decide as Hp.
  { apply decides_fail. destruct Hp as [p Hp]. intros [?|_ H _]; congruence. }
  assert (l2bd_BdParms bd = None) as Hn by by apply eq_None_not_Some.
  pose proof (find_template (templates w) (l2bd_L2BdTemplate bd)) as Hf.
  unfold SysParms.FindL2BDTemplate, decides, mbnd, get.
  destruct (list_find _ _) as [[i t]|]; cbn; eexists; (split; [reflexivity|]).
  - split; [|done]. intros _. right; [done..|]. apply Hf. by eexists.
  - split; [done|]. intros [?|_ _ H]; [congruence|]. apply Hf in H as [p ?]. done.
Qed.

(** C14: the validation of a node decides the judgement.  For a node with metadata and a
    spec it ends without touching the state; it reports no error exactly when every
    interface has a type that nodes have and only addresses that parse, and every bridge
    takes its parameters from one place that exists; and the valid node is the given
    one but that its interfaces know their node. *)
Theorem node_validate_decides nn md spec w :
  nn_Metadata nn = Some md -> nn_Spec nn = Some spec ->
  exists nn' err, NetworkNode.validate nn w = Done (nn', err) w /\
    (err = None <-> node_ok (templates w) spec) /\
    (err = None -> nn' = with_nn_Spec (Some (with_nns_Interfaces (map (with_if_Parent (md_Name md)) (nns_Interfaces spec)) spec)) nn).
Proof.
  intros Hmd Hsp. unfold NetworkNode.validate, NetworkNode.node_name. rewrite Hsp, Hmd.
  destruct (node_interfaces (md_Name md) (nns_Interfaces spec)) as [H1 H2].
  destruct (decides_forR w (nns_L2Bds spec) _ _ (fun bd _ => node_bridge w (md_Name md) bd)) as (r & R & Hr).
  unfold mbnd, deref, mret. destruct (NetworkNode.nodeValidateInterfaces _ _ _) as [ifaces [e|]]; cbn in *.
  - eexists _, _. split; [reflexivity|]. split; [split; [done|]|done]. intros [H _]. by apply H1 in H.
  - rewrite R. eexists _, _. split; [reflexivity|]. rewrite H2 by by apply H1. split.
    + unfold node_ok. rewrite <- H1, <- Hr. destruct r as [e|[]]; split; [done|by intros [_ ?]|done|done].
    + done.
Qed.

(** *** Services *)

Lemma known_in t l : existsb (String.eqb t) l = true \/ ~ (t ∈ l).
Proof. rewrite <- eqb_in. destruct (existsb _ l); [by left|by right]. Qed.

Lemma number_bad v : NetworkService.bad_number v = false <-> number_ok v.
Proof.
  unfold NetworkService.bad_number, number_ok. destruct (String.eqb v "") eqn:Ev; cbn.
  - apply String.eqb_eq in Ev. tauto.
  - apply String.eqb_neq in Ev. destruct (Atoi v) as [i|].
    + rewrite Z.ltb_ge. split; [right; by exists i|]. by intros [?|(j & [= ->] & ?)].
    + split; [done|]. by intros [?|(j & ? & _)].
Qed.

Lemma memif_check prefix p : NetworkService.validate_memif prefix p = None <-> memif_ok p.
Proof.
  unfold NetworkService.validate_memif.
  assert (memif_ok p <-> mi_Mode p ∈ [""; IfMemifModeEhernet; IfMemifModeIP; IfMemifModePuntInject] /\
    number_ok (mi_RingSize p) /\ number_ok (mi_BufferSize p) /\ number_ok (mi_RxQueues p) /\ number_ok (mi_TxQueues p))
    as ->.
  { split; [intros [? H]; by rewrite !Forall_cons in H; split_and!; try apply H|].
    intros (? & ? & ? & ? & ?). split; [done|]. rewrite !Forall_cons. by split_and!. }
  rewrite <- !number_bad, <- eqb_in. cbn [existsb].
  destruct (String.eqb (mi_Mode p) ""), (String.eqb (mi_Mode p) IfMemifModeEhernet),
    (String.eqb (mi_Mode p) IfMemifModeIP), (String.eqb (mi_Mode p) IfMemifModePuntInject); cbn;
  destruct (NetworkService.bad_number (mi_RingSize p)), (NetworkService.bad_number (mi_BufferSize p)),
    (NetworkService.bad_number (mi_RxQueues p)), (NetworkService.bad_number (mi_TxQueues p)); naive_solver.
Qed.

Lemma tap_check prefix p : NetworkService.validate_tap prefix p = None <-> tap_ok p.
Proof.
  unfold NetworkService.validate_tap, tap_ok. rewrite !Forall_cons, <- !number_bad.
  destruct (NetworkService.bad_number (tp_RxRingSize p)), (NetworkService.bad_number (tp_TxRingSize p)); naive_solver.
Qed.

Lemma optional_check {A} (o : option A) (f : A -> option error) (P : A -> Prop) :
  (forall a, f a = None <-> P a) -> (o ≫= f = None <-> forall a, o = Some a -> P a).
Proof. intros H. destruct o as [a|]; cbn; [rewrite H|]; naive_solver. Qed.

Lemma pod_interface_check service i : NetworkService.validate_interface service i = None <-> pod_if_ok i.
Proof.
  unfold NetworkService.validate_interface. set (prefix := _ +:+ _).
  assert (String.eqb (if_IfType i) IfTypeMemif || String.eqb (if_IfType i) IfTypeEthernet
          || String.eqb (if_IfType i) IfTypeVeth || String.eqb (if_IfType i) IfTypeTap =
          existsb (String.eqb (if_IfType i)) [IfTypeMemif; IfTypeEthernet; IfTypeVeth; IfTypeTap]) as ->.
  { cbn. by rewrite orb_false_r, !orb_assoc. }
  pose proof (eqb_in (if_IfType i) [IfTypeMemif; IfTypeEthernet; IfTypeVeth; IfTypeTap]) as Ht.
  destruct (existsb _ _); cbn [negb]; [|split; [done|intros [H _ _ _]; by apply Ht in H]].
  pose proof (no_bad_addresses (if_IpAddresses i)) as Ha.
  destruct (omap _ _) as [|e es]; [|split; [done|intros [_ H _ _]; by apply Ha in H]].
  rewrite first_error_none, !Forall_cons.
  rewrite (optional_check _ _ memif_ok) by (intros; apply memif_check).
  rewrite (optional_check _ _ tap_ok) by (intros; apply tap_check).
  split; [|intros [_ _ ? ?]; by split_and!].
  intros (? & ? & _). split; [by apply Ht|by apply Ha|done|done].
Qed.

Lemma pod_check service pod : NetworkService.validateNetworkPod service pod = None <-> pod_ok pod.
Proof.
  unfold NetworkService.validateNetworkPod.
  destruct (np_Metadata pod) as [md|] eqn:Emd; [|split; [done|intros []; congruence]].
  destruct (String.eqb (md_Name md) "") eqn:En.
  { apply String.eqb_eq in En. split; [done|intros []; congruence]. }
  apply String.eqb_neq in En. destruct (np_Spec pod) as [spec|] eqn:Esp; [|split; [done|intros []; congruence]].
  cbv zeta.
  assert (String.eqb (nps_PodType spec) NetworkPodTypeExternal || String.eqb (nps_PodType spec) NetworkPodTypeVPPContainer
          || String.eqb (nps_PodType spec) NetworkPodTypeNonVPPContainer =
          existsb (String.eqb (nps_PodType spec)) [NetworkPodTypeExternal; NetworkPodTypeVPPContainer; NetworkPodTypeNonVPPContainer])
    as -> by (cbn; by rewrite orb_false_r, !orb_assoc).
  pose proof (eqb_in (nps_PodType spec)
    [NetworkPodTypeExternal; NetworkPodTypeVPPContainer; NetworkPodTypeNonVPPContainer]) as Ht.
  destruct (existsb _ _); cbn [negb].
  2: { split; [done|]. intros [md' spec' H1 _ H2 H _ _]. assert (spec' = spec) as -> by congruence. by apply Ht in H. }
  destruct (nps_Interfaces spec) as [|i is_] eqn:Ei.
  { split; [done|]. intros [md' spec' H1 _ H2 _ H _]. assert (spec' = spec) as -> by congruence. done. }
  rewrite first_error_none, Forall_map.
  rewrite (Forall_iff _ (i :: is_) pod_if_ok) by (intros; apply pod_interface_check).
  split.
  - intros H. apply (pod_ok_intro _ md spec); [done..|by apply Ht|by rewrite Ei|by rewrite Ei].
  - intros [md' spec' H1 _ H2 _ _ H]. assert (spec' = spec) as -> by congruence. by rewrite Ei in H.
Qed.

Lemma find_pod_interface w p i pods :
  Forall pod_ok pods ->
  exists o t, findNetworkPodAndInterfaceInList p i pods w = Done (o, t) w /\
    (is_Some o <-> exists pod md spec iFace, pod ∈ pods /\ np_Metadata pod = Some md /\ md_Name md = p /\
       np_Spec pod = Some spec /\ iFace ∈ nps_Interfaces spec /\ if_Name iFace = i).
Proof.
  induction 1 as [|pod pods [md spec Hmd _ Hsp _ Hne _] _ IH].
  { exists None, "". split; [done|]. split; [by intros []|]. intros (pod & _ & _ & _ & H & _). by apply not_elem_of_nil in H. }
  destruct IH as (o & t & R & Ho). cbn [findNetworkPodAndInterfaceInList]. unfold mbnd, deref, mret. rewrite Hsp.
  destruct (nps_Interfaces spec) as [|i0 is_] eqn:Ei; [done|]. rewrite Hmd, <- Ei.
  assert (forall iFace, iFace ∈ nps_Interfaces spec -> md_Name md = p -> if_Name iFace = i ->
    exists pod' md' spec' iFace', pod' ∈ pod :: pods /\ np_Metadata pod' = Some md' /\ md_Name md' = p /\
       np_Spec pod' = Some spec' /\ iFace' ∈ nps_Interfaces spec' /\ if_Name iFace' = i) as Hhere.
  { intros iFace H1 H2 H3. exists pod, md, spec, iFace. split_and!; [left|done..]. }
  destruct (String.eqb (md_Name md) p) eqn:Ep.
  - apply String.eqb_eq in Ep. destruct (list_find _ (nps_Interfaces spec)) as [[k iFace]|] eqn:Ef.
    + apply list_find_Some in Ef as (Hk & Hn & _). eexists _, _. split; [reflexivity|]. split; [|by eexists].
      intros _. eapply Hhere; [by eapply list_elem_of_lookup_2|done..].
    + exists o, t. split; [done|]. rewrite Ho. split.
      * intros (pod' & md' & spec' & iFace & H0 & H1). exists pod', md', spec', iFace. split; [by right|done].
      * intros (pod' & md' & spec' & iFace & [->|Hin]%elem_of_cons & H1 & H2 & H3 & H4 & H5); [|by exists pod', md', spec', iFace].
        assert (spec' = spec) as -> by congruence. apply list_find_None in Ef. rewrite Forall_forall in Ef. by apply Ef in H4.
  - apply String.eqb_neq in Ep. exists o, t. split; [done|]. rewrite Ho. split.
    + intros (pod' & md' & spec' & iFace & H0 & H1). exists pod', md', spec', iFace. split; [by right|done].
    + intros (pod' & md' & spec' & iFace & [->|Hin]%elem_of_cons & H1 & H2 & H3 & H4 & H5); [congruence|by exists pod', md', spec', iFace].
Qed.

Lemma pod_interface_ref w service pods s :
  Forall pod_ok pods -> decides w (NetworkService.validate_pod_interface service pods s) (pod_if_ref pods s).
Proof.
  intros Hp. unfold NetworkService.validate_pod_interface. destruct (ConnPodInterfaceNames s) as [p i] eqn:Es.
  destruct (String.eqb p "" || String.eqb i "") eqn:Ee.
  { apply decides_fail. intros [p' i' ? ? ? ? Es']. rewrite Es in Es'. injection Es' as <- <-.
    by apply orb_true_iff in Ee as [->%String.eqb_eq| ->%String.eqb_eq]. }
  apply orb_false_iff in Ee as [H1%String.eqb_neq H2%String.eqb_neq].
  destruct (find_pod_interface w p i pods Hp) as (o & t & R & Ho). unfold decides, mbnd. rewrite R. cbn.
  destruct o as [iFace|]; eexists; (split; [reflexivity|]); split; try done.
  - intros _. destruct Ho as [(pod & md & spec & i' & ? & ? & ? & ? & ? & ?) _]; [by eexists|]. by econstructor.
  - intros [p' i' pod md spec iFace Es' _ _ ? ? ? ? ? ?]. rewrite Es in Es'. injection Es' as <- <-.
    destruct Ho as [_ Ho]. destruct Ho as [? ?]; [by repeat eexists|done].
Qed.

(** A check with an optional error instead of a result. *)
Definition decides_opt (w : World) (m : M World (option error)) (P : Prop) : Prop :=
  exists err, m w = Done err w /\ (err = None <-> P).

Lemma decides_opt_ret w err (P : Prop) : (err = None <-> P) -> decides_opt w (mret err) P.
Proof. by exists err. Qed.

Lemma decides_opt_fail w e (P : Prop) : ~ P -> decides_opt w (mret (Some e)) P.
Proof. intros H. apply decides_opt_ret. by split. Qed.

Lemma pp_check service kind conn :
  NetworkService.validate_pp service kind conn = None <->
  length (cn_PodInterfaces conn ++ cn_NodeInterfaces conn ++ cn_NodeInterfaceLabels conn) = 2%nat.
Proof.
  unfold NetworkService.validate_pp, NetworkService.num_segments. rewrite !length_app, Nat.add_assoc.
  destruct (_ =? 2)%nat eqn:E; cbn; [apply Nat.eqb_eq in E|apply Nat.eqb_neq in E]; by split.
Qed.

Lemma mp_check w service kind conn :
  decides_opt w (NetworkService.validate_mp service kind conn)
    (cn_PodInterfaces conn ++ cn_NodeInterfaces conn <> [] /\ conn_bd_ok (templates w) conn).
Proof.
  unfold NetworkService.validate_mp. rewrite <- length_app.
  destruct (_ =? 0)%nat eqn:E.
  { apply decides_opt_fail. intros [H _]. apply Nat.eqb_eq, length_zero_iff_nil in E. done. }
  assert (cn_PodInterfaces conn ++ cn_NodeInterfaces conn <> []) as Hne by (intros H; by rewrite H in E).
  destruct (cn_L2Bd conn) as [bd|] eqn:Ebd; [|apply decides_opt_ret; split; [split; [done|by apply cbd_none]|done]].
  cbv zeta. destruct (String.eqb (cn_UseNodeL2Bd conn) "") eqn:Eu; cbn [negb].
  2: { apply String.eqb_neq in Eu. apply decides_opt_fail. intros [_ H]. destruct H; congruence. }
  apply String.eqb_eq in Eu. destruct (String.eqb (l2bd_L2BdTemplate bd) "") eqn:Et; cbn [negb andb].
  - apply String.eqb_eq in Et. apply decides_opt_ret. destruct (l2bd_BdParms bd) as [parms|] eqn:Ep.
    + split; [|done]. intros _. split; [done|]. by eapply cbd_parms.
    + split; [done|]. intros [_ H]. destruct H; congruence.
  - apply String.eqb_neq in Et. case_bool_decide as Hp.
    { apply decides_opt_fail. destruct Hp as [parms Hp]. intros [_ H]. destruct H; congruence. }
    apply eq_None_not_Some in Hp. pose proof (find_template (templates w) (l2bd_L2BdTemplate bd)) as Hf.
    unfold SysParms.FindL2BDTemplate, decides_opt, mbnd, get, mret.
    destruct (list_find _ _) as [[i t]|]; cbn; eexists; (split; [reflexivity|]).
    + split; [|done]. intros _. split; [done|]. eapply cbd_template; try done. apply Hf. by eexists.
    + split; [done|]. intros [_ [?|bd' Hbd _ _ _ H|bd' ? Hbd _ H]]; try congruence.
      assert (bd' = bd) as -> by congruence. apply Hf in H as [p ?]. done.
Qed.

Lemma type_check w service conn :
  decides_opt w
    (if String.eqb (cn_ConnType conn) ConnTypeL2PP then mret (NetworkService.validate_pp service "l2" conn)
     else if String.eqb (cn_ConnType conn) ConnTypeL2MP then NetworkService.validate_mp service "l2" conn
     else if String.eqb (cn_ConnType conn) ConnTypeL3PP then mret (NetworkService.validate_pp service "l3" conn)
     else if String.eqb (cn_ConnType conn) ConnTypeL3MP then NetworkService.validate_mp service "l3" conn
     else mret (Some ("network-service: " +:+ service +:+ ", connection has invalid conn type '" +:+ cn_ConnType conn +:+ "'")))
    (conn_type_ok (templates w) conn).
Proof.
  set (t := cn_ConnType conn).
  assert (forall kind, t ∈ [ConnTypeL2PP; ConnTypeL3PP] ->
            decides_opt w (mret (NetworkService.validate_pp service kind conn)) (conn_type_ok (templates w) conn)) as Hpp.
  { intros kind Ht. apply decides_opt_ret. rewrite pp_check. split; [by apply ct_pp|]. intros [_ H|Ht' _ _]; [done|].
    fold t in Ht'. exfalso. rewrite !elem_of_cons in Ht, Ht'. clear -Ht Ht'.
    destruct Ht as [->|[->|Ht]]; [| |by apply not_elem_of_nil in Ht];
      destruct Ht' as [?|[?|Ht']]; try discriminate; by apply not_elem_of_nil in Ht'. }
  assert (forall kind, t ∈ [ConnTypeL2MP; ConnTypeL3MP] ->
            decides_opt w (NetworkService.validate_mp service kind conn) (conn_type_ok (templates w) conn)) as Hmp.
  { intros kind Ht. destruct (mp_check w service kind conn) as (err & R & He). exists err. split; [done|]. rewrite He.
    split; [intros [? ?]; by apply ct_mp|]. intros [Ht' _|_ ? ?]; [|done].
    fold t in Ht'. exfalso. rewrite !elem_of_cons in Ht, Ht'. clear -Ht Ht'.
    destruct Ht as [->|[->|Ht]]; [| |by apply not_elem_of_nil in Ht];
      destruct Ht' as [?|[?|Ht']]; try discriminate; by apply not_elem_of_nil in Ht'. }
  destruct (String.eqb t ConnTypeL2PP) eqn:E1; [apply String.eqb_eq in E1; apply Hpp; set_solver|].
  destruct (String.eqb t ConnTypeL2MP) eqn:E2; [apply String.eqb_eq in E2; apply Hmp; set_solver|].
  destruct (String.eqb t ConnTypeL3PP) eqn:E3; [apply String.eqb_eq in E3; apply Hpp; set_solver|].
  destruct (String.eqb t ConnTypeL3MP) eqn:E4; [apply String.eqb_eq in E4; apply Hmp; set_solver|].
  apply String.eqb_neq in E1, E2, E3, E4. apply decides_opt_fail. intros [Ht _|Ht _ _]; fold t in Ht; set_solver.
Qed.

Lemma connection_check w service pods conn :
  Forall pod_ok pods -> decides w (NetworkService.validate_connection service pods conn) (conn_ok (templates w) pods conn).
Proof.
  intros Hp. apply (decides_ext _ _ (conn_type_ok (templates w) conn /\ Forall (pod_if_ref pods) (cn_PodInterfaces conn) /\
    cn_ConnMethod conn ∈ [""; ConnMethodDirect; ConnMethodVswitch])).
  { split; [intros (? & ? & ?); by split|by intros []]. }
  unfold NetworkService.validate_connection. destruct (type_check w service conn) as (err & R & He).
  assert (decides w (match err with Some e => mfail e | None =>
      forR (cn_PodInterfaces conn) (NetworkService.validate_pod_interface service pods) ;;?
      if String.eqb (cn_ConnMethod conn) "" || String.eqb (cn_ConnMethod conn) ConnMethodDirect
         || String.eqb (cn_ConnMethod conn) ConnMethodVswitch
      then mok tt
      else mfail ("network-service: " +:+ service +:+ ", connection has invalid conn method '" +:+ cn_ConnMethod conn +:+ "'")
    end) (conn_type_ok (templates w) conn /\ Forall (pod_if_ref pods) (cn_PodInterfaces conn) /\
      cn_ConnMethod conn ∈ [""; ConnMethodDirect; ConnMethodVswitch])) as (r & R2 & Hr).
  - destruct err as [e|].
    + apply decides_fail. intros [H _]. by apply He in H.
    + apply (decides_ext _ _ (Forall (pod_if_ref pods) (cn_PodInterfaces conn) /\
        cn_ConnMethod conn ∈ [""; ConnMethodDirect; ConnMethodVswitch])); [tauto|].
      apply decides_then; [apply decides_forR; intros s _; by apply pod_interface_ref|]. intros _.
      rewrite <- eqb_in. cbn [existsb]. rewrite orb_false_r, <- orb_assoc.
      destruct (_ || _); [by apply decides_ok|by apply decides_fail].
  - exists r. split; [|done]. unfold mbnd at 1. by rewrite R.
Qed.

Lemma service_validation ns w :
  (service_ok (templates w) ns <-> NetworkService.validate ns w = Done None w) /\
  (NetworkService.validate ns w = Panic <->
     (exists md, ns_Metadata ns = Some md /\ md_Name md <> "") /\ ns_Spec ns = None) /\
  (forall err w', NetworkService.validate ns w = Done err w' -> w' = w).
Proof.
  unfold NetworkService.validate.
  destruct (ns_Metadata ns) as [md|] eqn:Emd.
  2: { split_and!; [split; [intros []; congruence|done]|split; [done|by intros [(md & ? & _) _]]|by intros err w' [= _ ->]]. }
  destruct (String.eqb (md_Name md) "") eqn:En.
  { apply String.eqb_eq in En. split_and!; [split; [intros []; congruence|done]| |by intros err w' [= _ ->]].
    split; [done|]. intros [(md' & [= <-] & H) _]. done. }
  apply String.eqb_neq in En. destruct (ns_Spec ns) as [spec|] eqn:Esp; cbn.
  2: { split_and!; [split; [intros []; congruence|done]|split; [intros _; split; [by exists md|done]|done]|done]. }
  set (pods_check := NetworkService.validateNetworkPods _ _).
  assert (pods_check = None <-> Forall pod_ok (nss_NetworkPods spec)) as Hpods.
  { unfold pods_check, NetworkService.validateNetworkPods. rewrite first_error_none, Forall_map.
    apply Forall_iff. intros pod. apply pod_check. }
  assert (service_ok (templates w) ns <-> Forall pod_ok (nss_NetworkPods spec) /\
    Forall (conn_ok (templates w) (nss_NetworkPods spec)) (nss_Connections spec)) as ->.
  { split; [|intros [? ?]; by econstructor]. intros [md' spec' _ _ H ? ?]. assert (spec' = spec) as -> by congruence. done. }
  destruct pods_check as [e|].
  { split_and!; [|split; [done|by intros [_ ?]]|by intros err w' [= _ ->]].
    split; [intros [H _]; by apply Hpods in H|done]. }
  assert (Forall pod_ok (nss_NetworkPods spec)) as Hok by by apply Hpods.
  destruct (decides_forR w (nss_Connections spec) _ _
    (fun conn _ => connection_check w (md_Name md) (nss_NetworkPods spec) conn Hok)) as (r & R & Hr).
  unfold mbnd, mret. rewrite R. split_and!; [|split; [done|by intros [_ ?]]|by intros err w' [= _ ->]].
  rewrite <- Hr. destruct r as [e|[]]; (split; [|done]); by intros [].
Qed.


(** *** Overlays and pools *)

Lemma pool_check `{E : Env} ip : IpamPool.validate ip = None <-> pool_ok ip.
Proof.
  unfold IpamPool.validate.
  destruct (ip_Metadata ip) as [md|] eqn:Emd; [|split; [done|intros []; congruence]].
  destruct (ip_Spec ip) as [spec|] eqn:Esp; [|split; [done|intros []; congruence]].
  rewrite <- orb_assoc.
  assert (forall b, (b || false) = b) as Hf by (by intros []).
  rewrite <- (Hf (String.eqb (ips_Scope spec) IPAMPoolScopeNetworkService)).
  change (String.eqb (ips_Scope spec) IPAMPoolScopeSystem || (String.eqb (ips_Scope spec) IPAMPoolScopeNode
          || (String.eqb (ips_Scope spec) IPAMPoolScopeNetworkService || false)))
    with (existsb (String.eqb (ips_Scope spec)) [IPAMPoolScopeSystem; IPAMPoolScopeNode; IPAMPoolScopeNetworkService]).
  pose proof (eqb_in (ips_Scope spec) [IPAMPoolScopeSystem; IPAMPoolScopeNode; IPAMPoolScopeNetworkService]) as Ht.
  assert (pool_ok ip <-> ips_Scope spec ∈ [IPAMPoolScopeSystem; IPAMPoolScopeNode; IPAMPoolScopeNetworkService] /\
    address_ok (ips_Network spec)) as ->.
  { split; [|intros [? ?]; by econstructor]. intros [md' spec' _ ? ? ?]. assert (spec' = spec) as -> by congruence. done. }
  unfold address_ok. rewrite <- Ht. destruct (existsb _ _); [|by split; [|intros [? _]]].
  destruct (Net.ParseCIDR (ips_Network spec)) as [e|[ip' net]]; [split; [done|]; by intros [_ (? & ? & ?)]|].
  split; [|done]. intros _. split; [done|]. by eexists _, _.
Qed.

(** The validation of an overlay decides the judgement.  For an overlay with metadata
    and a spec it ends without touching the state, and reports no error exactly when
    the overlay is a vxlan mesh with a range of vnis whose ends are in order and not 0,
    or a vxlan hub and spoke with a vni that is not 0. *)
Theorem overlay_validate_decides nno md spec w :
  nno_Metadata nno = Some md -> nno_Spec nno = Some spec ->
  exists err, Overlay.validate nno w = Done err w /\ (err = None <-> overlay_ok spec).
Proof.
  intros Hmd Hsp. unfold Overlay.validate, Overlay.overlay_name, mbnd, deref, mret. rewrite Hsp, Hmd.
  destruct (String.eqb (nos_ServiceMeshType spec) NetworkNodeOverlayTypeMesh) eqn:Em,
    (String.eqb (nos_ServiceMeshType spec) NetworkNodeOverlayTypeHubAndSpoke) eqn:Eh,
    (String.eqb (nos_ConnectionType spec) NetworkNodeOverlayConnectionTypeVxlan) eqn:Ec; cbn;
    repeat match goal with
    | H : String.eqb _ _ = true |- _ => apply String.eqb_eq in H
    | H : String.eqb _ _ = false |- _ => apply String.eqb_neq in H
    end;
    try (by rewrite Em in Eh);
    try (eexists; split; [reflexivity|]; split; [done|]; intros []; congruence).
  - destruct (nos_VxlanMeshParms spec) as [p|] eqn:Ep;
      [|eexists; split; [reflexivity|]; split; [done|]; intros []; congruence].
    destruct ((vm_VniRangeEnd p <? vm_VniRangeStart p) || (vm_VniRangeStart p =? 0) || (vm_VniRangeEnd p =? 0)) eqn:Er;
      eexists; (split; [reflexivity|]); split; try done.
    + intros [p' _ _ Hp H1 H2 H3|]; [|congruence]. assert (p' = p) as -> by congruence. lia.
    + intros _. by eapply (overlay_mesh _ p); [..|lia|lia|lia].
  - destruct (nos_VxlanHubAndSpokeParms spec) as [p|] eqn:Ep;
      [|eexists; split; [reflexivity|]; split; [done|]; intros []; congruence].
    destruct (hs_Vni p =? 0) eqn:Er; eexists; (split; [reflexivity|]); split; try done.
    + intros [|p' _ _ Hp H1]; [congruence|]. assert (p' = p) as -> by congruence. lia.
    + intros _. by eapply (overlay_hub _ p); [..|lia].
Qed.

(** ** Witnesses *)

Definition demo_mesh (first last : Z) : NetworkNodeOverlaySpec :=
  mkOverlaySpec NetworkNodeOverlayTypeMesh NetworkNodeOverlayConnectionTypeVxlan None
    (Some (mkMeshParms first last "" false false "")).

Lemma overlay_validate_decides_witness : overlay_ok (demo_mesh 5000 6000) /\ ~ overlay_ok (demo_mesh 6000 5000).
Proof.
  split.
  - destruct (overlay_validate_decides (mkOverlay (Some (mkMeta "o" ∅)) (Some (demo_mesh 5000 6000)) None)
      (mkMeta "o" ∅) (demo_mesh 5000 6000) initial_world eq_refl eq_refl) as (err & R & H).
    vm_compute in R. injection R as <-. by apply H.
  - destruct (overlay_validate_decides (mkOverlay (Some (mkMeta "o" ∅)) (Some (demo_mesh 6000 5000)) None)
      (mkMeta "o" ∅) (demo_mesh 6000 5000) initial_world eq_refl eq_refl) as (err & R & H).
    vm_compute in R. injection R as <-. intros Hok. by apply H in Hok.
Defined.

Lemma node_validate_decides_witness :
  exists spec, nn_Spec NetworkNode.demo_node = Some spec /\ node_ok [] spec.
Proof.
  destruct (nn_Spec NetworkNode.demo_node) as [spec|] eqn:Es; [|discriminate]. exists spec. split; [reflexivity|].
  destruct (nn_Metadata NetworkNode.demo_node) as [md|] eqn:Em; [|discriminate].
  destruct (node_validate_decides NetworkNode.demo_node md spec initial_world Em Es) as (nn' & err & R & H & _).
  vm_compute in R. injection R as _ <-. by apply H.
Defined.

End Types.
