(* ===== verification/Controller.v ===== *)
(** * The plugin: plugin_impl_controller.go, model_mgrs.go, sfc_config_yaml.go

    Module Controller: start-up (load, post-process, optional clean-up, configuration
    file), the rendering of everything in one transaction, and the goroutine that
    handles one message after the other.

    [OperationalMsgChannel] has no buffer, so its [len] is 0 at every receive: the branches
    of [ProcessOperationalMessages] for a non-empty queue are never taken and the time
    of the last rendering is not looked at. *)

From S2P Require Import Prelude GoStd IdAlloc Ipam Model VppAgent State RenderTxn SysParms IpamPool PodNodeMap.
From S2P Require Import Interfaces EntityTxn NetworkNode Overlay ServiceIf NetworkService.

Module Controller.
Import RenderTxn Interfaces EntityTxn.

(** ** model_mgrs.go *)

Definition ModelTypeSysParameters : string := "system-parameters".

Definition ModelTypeIPAMPool : string := "ipam-pool".

Definition ModelTypeNetworkPodNodeMap : string := "network-pod-to-node-map".

Definition ModelTypeNetworkNodeOverlay : string := "network-node-overlay".

Definition ModelTypeNetworkNode : string := "network-node".

Definition ModelTypeNetworkService : string := "network-service".

Inductive OpCode : Type :=
| OperationalMsgOpCodeRender
| OperationalMsgOpCodeEnableRenderer
| OperationalMsgOpCodeDisableRenderer
| OperationalMsgOpCodeCreateUpdate
| OperationalMsgOpCodeDelete
| OperationalMsgOpCodeResyncContivNetworkPodMap.

Record OperationalMsg : Type := mkMsg { msg_model : string; msg_opCode : OpCode; msg_data : MsgData }.

(** The two flags of [ProcessOperationalMessages]. *)
Record flags : Type := mkFlags { isRenderingEnabled : bool; isRenderingPending : bool }.

(** The file of the start-up configuration, parsed. *)
Record SfcConfigYaml : Type := mkYaml {
  y_Version : Z;
  y_SysParms : option SystemParameters;
  y_IPAMPools : list IPAMPool;
  y_NetworkPodToNodeMap : list NetworkPodToNodeMap;
  y_NetworkNodeOverlays : list NetworkNodeOverlay;
  y_NetworkNodes : list (NetworkNode loc);
  y_NetworkServices : list (NetworkService loc)
}.

Definition sfcYamlVersion : Z := 2.

Section env.
Context {E : Env}.

(** The registered managers. *)
Inductive manager : Type := MgrSysParms | MgrIpamPool | MgrPodNodeMap | MgrOverlay | MgrNode | MgrService.

Definition RegisteredManagers : list (string * manager) :=
  [(ModelTypeSysParameters, MgrSysParms); (ModelTypeIPAMPool, MgrIpamPool);
   (ModelTypeNetworkPodNodeMap, MgrPodNodeMap); (ModelTypeNetworkNodeOverlay, MgrOverlay);
   (ModelTypeNetworkNode, MgrNode); (ModelTypeNetworkService, MgrService)].

(** [findModelManager]: nil for an unknown name. *)
Definition findModelManager (modelName : string) : option manager :=
  snd <$> find (fun e => String.eqb (fst e) modelName) RegisteredManagers.

Definition mgr_InitRAMCache (m : manager) : M World unit :=
  match m with
  | MgrSysParms => SysParms.InitRAMCache
  | MgrIpamPool => IpamPool.InitRAMCache
  | MgrPodNodeMap => PodNodeMap.InitRAMCache
  | MgrOverlay => Overlay.InitRAMCache
  | MgrNode => NetworkNode.InitRAMCache
  | MgrService => NetworkService.InitRAMCache
  end.

Definition mgr_Init (m : manager) : M World unit :=
  match m with
  | MgrSysParms => SysParms.Init
  | MgrIpamPool => IpamPool.Init
  | MgrPodNodeMap => PodNodeMap.Init
  | MgrOverlay => Overlay.Init
  | MgrNode => NetworkNode.Init
  | MgrService => NetworkService.Init
  end.

(** [mgr.HandleCRUDOperationCU(data)]: the type assertion on [data] panics. *)
Definition mgr_CU (m : manager) (data : MsgData) : M World (result unit) :=
  match m, data with
  | MgrSysParms, MsgSysParms sp => SysParms.HandleCRUDOperationCU sp
  | MgrIpamPool, MsgIPAMPool p => IpamPool.HandleCRUDOperationCU p
  | MgrPodNodeMap, MsgPodToNode p2n => PodNodeMap.HandleCRUDOperationCU p2n
  | MgrOverlay, MsgOverlay nno => Overlay.HandleCRUDOperationCU nno
  | MgrNode, MsgNode nn => NetworkNode.HandleCRUDOperationCU nn
  | MgrService, MsgService ns => NetworkService.HandleCRUDOperationCU ns
  | _, _ => panic
  end.

Definition mgr_D (m : manager) (data : MsgData) : M World (result unit) :=
  match m, data with
  | MgrSysParms, _ => SysParms.HandleCRUDOperationD
  | MgrIpamPool, MsgName n => IpamPool.HandleCRUDOperationD n
  | MgrPodNodeMap, MsgName n => PodNodeMap.HandleCRUDOperationD n
  | MgrOverlay, MsgName n => Overlay.HandleCRUDOperationD n
  | MgrNode, MsgName n => NetworkNode.HandleCRUDOperationD n
  | MgrService, MsgName n => NetworkService.HandleCRUDOperationD n
  | _, _ => panic
  end.

(** ** Rendering and messages *)

(** [RenderAll]: the nodes, then the services. *)
Definition RenderAll : M World unit := NetworkNode.RenderAll ;;; NetworkService.RenderAll.

(** One rendering of everything. *)
Definition render_transaction : M World (result unit) :=
  RenderTxnConfigStart ;;; RenderAll ;;; RenderTxnConfigEnd.

(** The switch on the code of a message. *)
Definition handle_msg (msg : OperationalMsg) (f : flags) : M World flags :=
  match msg_opCode msg with
  | OperationalMsgOpCodeRender => mret (mkFlags (isRenderingEnabled f) true)
  | OperationalMsgOpCodeDisableRenderer => mret (mkFlags false (isRenderingPending f))
  | OperationalMsgOpCodeEnableRenderer => mret (mkFlags true (isRenderingPending f))
  | OperationalMsgOpCodeCreateUpdate =>
      let! m := deref (findModelManager (msg_model msg)) in
      mgr_CU m (msg_data msg) ;;;
      mret (mkFlags (isRenderingEnabled f) true)
  | OperationalMsgOpCodeDelete =>
      let! m := deref (findModelManager (msg_model msg)) in
      mgr_D m (msg_data msg) ;;;
      mret (mkFlags (isRenderingEnabled f) true)
  | OperationalMsgOpCodeResyncContivNetworkPodMap =>
      let! required := PodNodeMap.SyncNetworkPodToNodeMap in
      mret (mkFlags (isRenderingEnabled f) (required || isRenderingPending f))
  end.

(** One round of the loop. *)
Definition process_msg (f : flags) (msg : OperationalMsg) : M World flags :=
  let! f := handle_msg msg f in
  if isRenderingEnabled f && isRenderingPending f then
    render_transaction ;;;
    mret (mkFlags (isRenderingEnabled f) false)
  else mret f.

(** The loop over the messages received. *)
Definition ProcessOperationalMessages (msgs : list OperationalMsg) : M World flags :=
  foldM msgs (mkFlags false false) process_msg.

(** ** Start-up *)

Definition InitRAMCache : M World unit :=
  put_field with_IPAMPoolAllocators ∅ ;;;
  put_field with_VppEntries ∅ ;;;
  put_field with_MacAddrAllocator MacAddr.NewMacAddrAllocator ;;;
  put_field with_MemifIDAllocator Memif.NewMemifAllocator ;;;
  put_field with_VrfIDAllocator Vrf.NewVrfAllocator ;;;
  put_field with_InterfaceStates ∅ ;;;
  forM (map snd RegisteredManagers) mgr_InitRAMCache ;;;
  put_field with_ramPodToNode ∅.

Definition initMgrs : M World unit := forM (map snd RegisteredManagers) mgr_Init.

Definition LoadVppAgentEntriesFromRenderedVppAgentEntries (entityName : string) (vppAgentEntries : option Rendered)
  : M World (result unit) :=
  let entries := default ∅ vppAgentEntries in
  let! keys := order_keys entries in
  forR keys (fun k =>
    match entries !! k with
    | None => mok tt
    | Some e =>
        let? found := ReadFromEtcd (VppAgent.NewKVEntry (re_VppAgentKey e) (re_VppAgentType e)) in
        match found with
        | Some kv => modify (fun w => with_VppEntries (<[VppAgent.VppKey kv := kv]> (VppEntries w)) w) ;;; mok tt
        | None => mok tt
        end
    end).

Definition CleanVppAgentEntriesFromEtcd : M World unit :=
  range_map VppEntries (fun _ kvEntry => DeleteFromDatastore (VppAgent.VppKey kvEntry)).

(** One interface state of a loaded node or service: it is indexed, and the allocators
    move past what it holds. *)
Definition post_process_interface (entityName : string) (l : loc) : M World unit :=
  let! s := on_if_heap (heap_read l) in
  modify (fun w => with_InterfaceStates (<[is_Name s := l]> (InterfaceStates w)) w) ;;;
  modify (fun w => if Memif.MemifID (MemifIDAllocator w) <? is_MemifID s
                   then with_MemifIDAllocator (Memif.mkMemifAllocator (is_MemifID s)) w else w) ;;;
  modify (fun w => if MacAddr.MacAddrID (MacAddrAllocator w) <? is_MacAddrID s
                   then with_MacAddrAllocator (MacAddr.mkMacAddrAllocator (is_MacAddrID s)) w else w) ;;;
  UpdateRamCacheAllocatorsForInterfaceStatus l entityName ;;;
  mret tt.

(** What is loaded of a node or service: its allocators, its rendered entries and the
    states of its interfaces. *)
Definition post_process_entity (model scope name : string) (rendered : option Rendered)
  (interfaces : option (gmap string loc)) : M World (result unit) :=
  IpamPool.EntityCreate name scope ;;;
  (if decide (default ∅ rendered = ∅) then mok tt
   else LoadVppAgentEntriesFromRenderedVppAgentEntries (model +:+ "/" +:+ name) rendered) ;;?
  let m := default ∅ interfaces in
  let! keys := order_keys m in
  forM keys (fun k => match m !! k with Some l => post_process_interface name l | None => mret tt end) ;;;
  mok tt.

(** [PostProcessLoadedDatastore] *)
Definition post_process_pool (key : string) (p : IPAMPool) : M World unit :=
  modify (fun w => with_ipamPoolCache
    (<[key := with_ip_Status (Some (Some (default ∅ (default None (ip_Status p))))) p]> (ipamPoolCache w)) w).

Definition PostProcessLoadedDatastore : M World (result unit) :=
  range_map ipamPoolCache post_process_pool ;;;
  IpamPool.EntityCreate "" IPAMPoolScopeSystem ;;;
  range_mapR networkNodeCache (fun _ nn =>
    let! name := NetworkNode.node_name nn in
    post_process_entity ModelTypeNetworkNode IPAMPoolScopeNode name
      (nn_Status nn ≫= nnt_Rendered) (nn_Status nn ≫= nnt_Interfaces)) ;;?
  range_mapR networkServiceCache (fun _ ns =>
    let! name := ServiceIf.service_name ns in
    post_process_entity ModelTypeNetworkService IPAMPoolScopeNetworkService name
      (ns_Status ns ≫= nst_Rendered) (ns_Status ns ≫= nst_Interfaces)).

(** [SfcConfigYamlProcessConfig] *)
Definition SfcConfigYamlProcessConfig (y : SfcConfigYaml) : M World (result unit) :=
  if negb (y_Version y =? sfcYamlVersion) then
    mfail ("SfcConfigYamlProcessConfig: incorrect yaml version, expecting " +:+ dec sfcYamlVersion +:+
           ", got: " +:+ dec (y_Version y))
  else
    match y_SysParms y with Some sp => SysParms.HandleCRUDOperationCU sp | None => mok tt end ;;?
    forR (y_IPAMPools y) IpamPool.HandleCRUDOperationCU ;;?
    forR (y_NetworkNodes y) NetworkNode.HandleCRUDOperationCU ;;?
    forR (y_NetworkServices y) NetworkService.HandleCRUDOperationCU ;;?
    forR (y_NetworkPodToNodeMap y) PodNodeMap.HandleCRUDOperationCU ;;?
    forR (y_NetworkNodeOverlays y) Overlay.HandleCRUDOperationCU.

(** [Init]; [os.Exit] ends the process.  [config] is the parsed file, if one is given. *)
Definition or_exit (m : M World (result unit)) : M World unit :=
  let! r := m in match r with inl _ => panic | inr _ => mret tt end.

Definition Init (cleanDatastore : bool) (config : option SfcConfigYaml) : M World unit :=
  InitRAMCache ;;;
  initMgrs ;;;
  or_exit PostProcessLoadedDatastore ;;;
  (if cleanDatastore then
     CleanDatastore SfcControllerConfigPrefix ;;; CleanVppAgentEntriesFromEtcd ;;; InitRAMCache
   else mret tt) ;;;
  match config with Some y => or_exit (SfcConfigYamlProcessConfig y) | None => mret tt end.

End env.

(** ** The entries that a set of entities accounts for

    [lists s key]: an entity with status [s] lists [key]; [skip k]: entity [k] is invalid
    and need not be rendered.  The entities [d] were dealt with; their statuses were
    [G0] and are [G]; [K] are the keys rendered, of which [K0] were there before. *)
Section account.
Context {X : Type} (lists : option X -> string -> Prop) (skip : string -> Prop).

Record account (K0 : gset string) (G0 G : gmap string (option X)) (d : list string) (K : gset string) : Prop := {
  ac_old : K0 ⊆ K;
  ac_source : forall key, key ∈ K -> key ∈ K0 \/ exists k s, G !! k = Some s /\ lists s key /\ k ∈ d;
  ac_complete : forall k s, k ∈ d -> G !! k = Some s ->
    (skip k /\ G0 !! k = Some s) \/ forall key, lists s key -> key ∈ K;
  ac_rest : forall k, ~ (k ∈ d) -> G !! k = G0 !! k
}.

(** What a rendering did: nothing, if it may, or its entries are the keys listed. *)
Definition accounted (may : Prop) (old : option X) (N : gset string) (new : option X) : Prop :=
  (N = ∅ /\ new = old /\ may) \/ (forall key, lists new key <-> key ∈ N).

Lemma account_nil K0 G : account K0 G G [] K0.
Proof. split; [done|by left|by intros ?? ?%not_elem_of_nil|done]. Qed.

Lemma account_step K0 G0 G d K k old N new :
  ~ (k ∈ d) -> G !! k = Some old -> accounted (skip k) old N new ->
  account K0 G0 G d K -> account K0 G0 (<[k := new]> G) (d ++ [k]) (N ∪ K).
Proof.
  intros Hk Hold Hacc [Ho Hs Hc Hr]. split.
  - set_solver.
  - assert (forall key, key ∈ K -> key ∈ K0 \/ exists k' s, <[k := new]> G !! k' = Some s /\ lists s key /\ k' ∈ d ++ [k])
      as Hkeep.
    { intros key [Hin|(k' & s & Hk' & Hl & Hd)]%Hs; [by left|right]. exists k', s.
      rewrite lookup_insert_ne by (by intros ->). split_and!; [done|done|]. apply elem_of_app. by left. }
    intros key [HN|HK]%elem_of_union; [|by apply Hkeep].
    destruct Hacc as [[-> _]|Hiff]; [set_solver|]. right. exists k, new. rewrite lookup_insert_eq.
    split_and!; [done|by apply Hiff|]. apply elem_of_app. right; left.
  - intros k' s Hin. destruct (decide (k' = k)) as [->|Hne].
    + rewrite lookup_insert_eq. intros [= <-]. destruct Hacc as [(_ & -> & Hskip)|Hiff].
      * left. split; [done|]. rewrite <- Hold. symmetry. by apply Hr.
      * right. intros key Hl%Hiff. set_solver.
    + rewrite lookup_insert_ne by done. intros Hk'.
      assert (k' ∈ d) as Hd by (apply elem_of_app in Hin as [|Hin%list_elem_of_singleton]; done).
      destruct (Hc k' s Hd Hk') as [H|H]; [by left|right]. intros key Hl%H. set_solver.
  - intros k' Hk'. rewrite lookup_insert_ne by (intros ->; apply Hk', elem_of_app; right; left).
    apply Hr. intros Hin. apply Hk', elem_of_app. by left.
Qed.

(** An entity that is gone: nothing to account for. *)
Lemma account_skip K0 G0 G d K k : G !! k = None -> account K0 G0 G d K -> account K0 G0 G (d ++ [k]) K.
Proof.
  intros Hk [Ho Hs Hc Hr]. split; [done| | |].
  - intros key [Hin|(k' & s & Hk' & Hl & Hd)]%Hs; [by left|right]. exists k', s.
    split_and!; [done|done|]. apply elem_of_app. by left.
  - intros k' s [Hd|Hd%list_elem_of_singleton]%elem_of_app Hk'; [by apply Hc|congruence].
  - intros k' Hk'. apply Hr. intros Hin. apply Hk', elem_of_app. by left.
Qed.

(** When everything was dealt with. *)
Lemma account_all K0 G0 G ks K :
  (forall k, is_Some (G0 !! k) -> k ∈ ks) -> account K0 G0 G ks K ->
  forall k s, G !! k = Some s -> (skip k /\ G0 !! k = Some s) \/ forall key, lists s key -> key ∈ K.
Proof.
  intros Hks Ha k s Hk. destruct (decide (k ∈ ks)) as [Hin|Hni]; [exact (ac_complete _ _ _ _ _ Ha k s Hin Hk)|].
  exfalso. apply Hni, Hks. exists s. by rewrite <- (ac_rest _ _ _ _ _ Ha k Hni).
Qed.
End account.

Lemma visited {X Y} (f : X -> Y) (m : gmap string X) (ks : list string) :
  (forall k, k ∈ ks <-> is_Some (m !! k)) -> forall k, is_Some ((f <$> m) !! k) -> k ∈ ks.
Proof. intros H k Hk. apply H. by rewrite lookup_fmap, fmap_is_Some in Hk. Qed.

(** ** The state between the renderings of two entities

    [V] are the known entries, [N] those rendered so far, [P] the system parameters. *)
Record between (P : SystemParameters) (V N : gmap string VppAgent.KVType) (w : World) : Prop := {
  bt_level : txnLevel w = 0;
  bt_after : afterMap w !! 0 = Some N;
  bt_before : before_level 0 w = V;
  bt_known : VppEntries w = V;
  bt_sysparms : sysParmCache w = P;
  bt_wf : wf_entries (bd_heap w) N;
  bt_wf_known : wf_entries (bd_heap w) V
}.

Lemma between_clock P V N n w : between P V N w -> between P V N (with_clock n w).
Proof. intros []. by split. Qed.

Lemma between_merged P V N N' w w' : between P V N w -> merged_into w N' w' -> between P V (N' ∪ N) w'.
Proof.
  intros [Hl Ha Hb Hk Hp Hw Hwk] Hm. pose proof Hm as [Ml Ma Mb Mk _ Mp Mo Mw]. split.
  - by rewrite Ml.
  - rewrite (Ma N) by (by rewrite Hl). rewrite Hl. by rewrite lookup_insert_eq.
  - unfold before_level in *. rewrite Mb, Hl, lookup_delete_ne by lia. done.
  - by rewrite Mk.
  - by rewrite Mp.
  - by eapply merged_into_wf.
  - by eapply wf_entries_mono.
Qed.

(** The keys a node and a service list. *)
Definition node_lists (s : option (NetworkNodeStatus loc)) (key : string) : Prop :=
  exists st r, s = Some st /\ nnt_Rendered st = Some r /\ key ∈ dom r.

Definition service_lists (s : option (NetworkServiceStatus loc)) (key : string) : Prop :=
  exists st r, s = Some st /\ nst_Rendered st = Some r /\ key ∈ dom r.

Lemma node_accounted w nn r N new :
  NetworkNode.node_outcome w nn r N new ->
  accounted node_lists (exists err, NetworkNode.node_rejected w nn err) (nn_Status nn) (dom N) new.
Proof.
  assert (forall ok st, NetworkNode.node_done ok N st ->
    accounted node_lists (exists err, NetworkNode.node_rejected w nn err) (nn_Status nn) (dom N) (Some st)) as H.
  { intros ok st Hd. right. intros key. destruct ok; cbn in Hd.
    - destruct Hd as (_ & _ & r' & Hr & Hdom). split.
      + intros (st' & r2 & [= <-] & Hr2 & Hk). rewrite Hr in Hr2. injection Hr2 as <-. by rewrite <- Hdom.
      + intros Hk. exists st, r'. split_and!; [done|done|by rewrite Hdom].
    - destruct Hd as (_ & _ & Hr & ->). split; [|set_solver].
      intros (st' & r2 & [= <-] & Hr2 & Hk). congruence. }
  destruct r as [e|[]]; cbn.
  - intros [(-> & -> & Hrej)|(st & -> & Hd)]; [left|by apply (H false)].
    split_and!; [by rewrite dom_empty_L|done|by exists e].
  - intros (st & -> & Hd). by apply (H true).
Qed.

Section rendering.
Context {E : Env}.

Lemma service_accounted w ns r N new :
  NetworkService.service_outcome w ns r N new ->
  accounted service_lists (exists err, NetworkService.service_rejected w ns err) (ns_Status ns) (dom N) new.
Proof.
  intros [(-> & -> & err & _ & Hrej)|(ok & st & -> & Hd & _)].
  { left. split_and!; [by rewrite dom_empty_L|done|by exists err]. }
  right. intros key. destruct ok; cbn in Hd.
  - destruct Hd as (_ & _ & r' & Hr & Hdom). split.
    + intros (st' & r2 & [= <-] & Hr2 & Hk). rewrite Hr in Hr2. injection Hr2 as <-. by rewrite <- Hdom.
    + intros Hk. exists st, r'. split_and!; [done|done|by rewrite Hdom].
  - destruct Hd as (_ & _ & Hr & ->). split; [|set_solver].
    intros (st' & r2 & [= <-] & Hr2 & Hk). congruence.
Qed.

(** The node, or the service, of the state [w] that fails validation there. *)
Definition bad_node (w : World) (k : string) : Prop :=
  exists nn err, networkNodeCache w !! k = Some nn /\ NetworkNode.node_rejected w nn err.

Definition bad_service (w : World) (k : string) : Prop :=
  exists ns err, networkServiceCache w !! k = Some ns /\ NetworkService.service_rejected w ns err.

Lemma bad_node_ext w w' k :
  networkNodeCache w = networkNodeCache w' -> sysParmCache w = sysParmCache w' -> bad_node w k -> bad_node w' k.
Proof.
  intros En Ep (nn & err & Hk & Hr). exists nn, err. rewrite <- En. split; [done|]. by eapply NetworkNode.node_rejected_ext.
Qed.

Lemma bad_service_ext w w' k :
  networkServiceCache w = networkServiceCache w' -> sysParmCache w = sysParmCache w' -> bad_service w k -> bad_service w' k.
Proof.
  intros Es Ep (ns & err & Hk & Hr). exists ns, err. rewrite <- Es. split; [done|]. by eapply NetworkService.service_rejected_ext.
Qed.

(** The nodes. *)
Lemma NodeRenderAll_wlp V N0 w :
  between (sysParmCache w) V N0 w ->
  wlp NetworkNode.RenderAll (fun _ w' => exists N ks, between (sysParmCache w) V N w' /\
    networkServiceCache w' = networkServiceCache w /\ (forall k, k ∈ ks <-> is_Some (networkNodeCache w !! k)) /\
    account node_lists (bad_node w) (dom N0) (nn_Status <$> networkNodeCache w) (nn_Status <$> networkNodeCache w')
      ks (dom N)) w.
Proof.
  intros Hw. unfold NetworkNode.RenderAll.
  apply (wp_range_map _ _ _ (fun d w' => exists N, between (sysParmCache w) V N w' /\
    networkServiceCache w' = networkServiceCache w /\
    (forall k, ~ (k ∈ d) -> networkNodeCache w' !! k = networkNodeCache w !! k) /\
    account node_lists (bad_node w) (dom N0) (nn_Status <$> networkNodeCache w) (nn_Status <$> networkNodeCache w')
      d (dom N))).
  - intros n. exists N0. split_and!; [by apply between_clock|done|done|apply account_nil].
  - intros d k w' Hnd _ (N & Hb & Hs & Hrest & Ha).
    assert (~ (k ∈ d)) as Hd.
    { apply NoDup_app in Hnd as (_ & Hnd & _). intros Hd. by apply (Hnd k Hd); left. }
    destruct (networkNodeCache w' !! k) as [nn|] eqn:Hk.
    2:{ exists N. split_and!; [done|done| |by apply account_skip; [rewrite lookup_fmap, Hk|]].
        intros k' Hk'. apply Hrest. intros Hin. apply Hk', elem_of_app. by left. }
    wpw. eapply wp_conseq; [apply (NetworkNode.node_renderConfig_wlp k nn w' N); [done|]|].
    { rewrite (bt_level _ _ _ _ Hb). apply Hb. }
    intros r w2 (N' & nn' & Hm & Hn & Hs2 & Ho). wpw. exists (N' ∪ N).
    split_and!; [by eapply between_merged|by rewrite Hs2| |].
    { intros k' Hk'. rewrite Hn, lookup_insert_ne by (intros ->; apply Hk', elem_of_app; right; left).
      apply Hrest. intros Hin. apply Hk', elem_of_app. by left. }
    rewrite Hn, fmap_insert, dom_union_L. eapply account_step; [done|by rewrite lookup_fmap, Hk| |done].
    destruct (node_accounted _ _ _ _ _ Ho) as [(HN & Hst & err & Hrej)|H]; [left|by right].
    split_and!; [done|done|]. exists nn, err. split; [by rewrite <- Hrest|].
    eapply NetworkNode.node_rejected_ext; [|exact Hrej]. apply Hb.
  - intros ks w' _ Hks (N & ? & ? & _ & ?). exists N, ks. by split_and!.
Qed.

(** The services. *)
Lemma ServiceRenderAll_wlp V N0 w :
  between (sysParmCache w) V N0 w ->
  wlp NetworkService.RenderAll (fun _ w' => exists N ks, between (sysParmCache w) V N w' /\
    nn_Status <$> networkNodeCache w' = nn_Status <$> networkNodeCache w /\
    (forall k, k ∈ ks <-> is_Some (networkServiceCache w !! k)) /\
    account service_lists (bad_service w) (dom N0) (ns_Status <$> networkServiceCache w)
      (ns_Status <$> networkServiceCache w') ks (dom N)) w.
Proof.
  intros Hw. unfold NetworkService.RenderAll.
  apply (wp_range_map _ _ _ (fun d w' => exists N, between (sysParmCache w) V N w' /\
    nn_Status <$> networkNodeCache w' = nn_Status <$> networkNodeCache w /\
    (forall k, ~ (k ∈ d) -> networkServiceCache w' !! k = networkServiceCache w !! k) /\
    account service_lists (bad_service w) (dom N0) (ns_Status <$> networkServiceCache w)
      (ns_Status <$> networkServiceCache w') d (dom N))).
  - intros n. exists N0. split_and!; [by apply between_clock|done|done|apply account_nil].
  - intros d k w' Hnd _ (N & Hb & Hs & Hrest & Ha).
    assert (~ (k ∈ d)) as Hd.
    { apply NoDup_app in Hnd as (_ & Hnd & _). intros Hd. by apply (Hnd k Hd); left. }
    destruct (networkServiceCache w' !! k) as [ns|] eqn:Hk.
    2:{ exists N. split_and!; [done|done| |by apply account_skip; [rewrite lookup_fmap, Hk|]].
        intros k' Hk'. apply Hrest. intros Hin. apply Hk', elem_of_app. by left. }
    wpw. eapply wp_conseq; [apply (NetworkService.service_renderConfig_wlp k ns w' N); [done|]|].
    { rewrite (bt_level _ _ _ _ Hb). apply Hb. }
    intros r w2 (N' & ns' & Hm & Hn & Hs2 & Ho). wpw. exists (N' ∪ N).
    split_and!; [by eapply between_merged|by rewrite Hs2| |].
    { intros k' Hk'. rewrite Hn, lookup_insert_ne by (intros ->; apply Hk', elem_of_app; right; left).
      apply Hrest. intros Hin. apply Hk', elem_of_app. by left. }
    rewrite Hn, fmap_insert, dom_union_L. eapply account_step; [done|by rewrite lookup_fmap, Hk| |done].
    destruct (service_accounted _ _ _ _ _ Ho) as [(HN & Hst & err & Hrej)|H]; [left|by right].
    split_and!; [done|done|]. exists ns, err. split; [by rewrite <- Hrest|].
    eapply NetworkService.service_rejected_ext; [|exact Hrej]. apply Hb.
  - intros ks w' _ Hks (N & ? & ? & _ & ?). exists N, ks. by split_and!.
Qed.

(** The end of the transaction leaves the nodes and services alone. *)
Lemma keeps_ConfigEnd C S : keeps (fun w => networkNodeCache w = C /\ networkServiceCache w = S) RenderTxnConfigEnd.
Proof.
  assert (framed (fun w => networkNodeCache w = C /\ networkServiceCache w = S)) as Hf by by split.
  unfold RenderTxnConfigEnd. apply keeps_bind.
  { apply keeps_range_map; [done|]. intros k b. unfold reconcile_before, before_delete, after_delete.
    keeps_auto; try (by apply keeps_modify); try (by apply keeps_DeleteFromDatastore); by apply keeps_on_bd_heap. }
  intros _. apply keeps_bind.
  { apply keeps_range_mapR; [done|]. intros k a. by apply keeps_WriteToEtcd. }
  intros [e|[]].
  - apply keeps_bind; [by apply keeps_modify|]. intros _. apply keeps_mfail.
  - apply keeps_bind; [|intros _; apply keeps_bind; [by apply keeps_modify|intros _; apply keeps_mok]].
    apply keeps_range_map; [done|]. intros k a. by apply keeps_modify.
Qed.

(** What the end of the transaction makes of the known entries [V] and the rendered ones [N]. *)
Record reconciled (V N : gmap string VppAgent.KVType) (w w' : World) : Prop := {
  rc_dom : dom (VppEntries w') = dom N;
  rc_wf : wf_entries (bd_heap w') (VppEntries w');
  rc_gone : forall key, key ∈ dom V -> ~ (key ∈ dom (VppEntries w')) -> etcd w' !! key = None;
  rc_written : forall key kv, VppEntries w' !! key = Some kv ->
    V !! key = Some kv \/ etcd w' !! key = entry_datum (bd_heap w') kv
}.

Lemma entry_after_cases eq (V N : gmap string VppAgent.KVType) key kv :
  entry_after eq V N key = Some kv ->
  is_Some (N !! key) /\
  ((V !! key = Some kv) \/ (N !! key = Some kv /\ forall b, V !! key = Some b -> eq b kv = false)).
Proof.
  unfold entry_after. destruct (N !! key) as [a|], (V !! key) as [b|]; try done.
  - intros [= H]. split; [by eexists|]. destruct (eq b a) eqn:Eq; subst kv; [by left|right].
    split; [done|]. by intros ? [= <-].
  - intros [= <-]. split; [by eexists|]. by right.
Qed.

Lemma ConfigEnd_between P V N w :
  (forall n key, put_error n key = None) -> between P V N w ->
  exists w', RenderTxnConfigEnd w = Done (Ok tt) w' /\ configMutex w' = false /\ reconciled V N w w' /\
    networkNodeCache w' = networkNodeCache w /\ networkServiceCache w' = networkServiceCache w.
Proof.
  intros Hno [Hl Ha Hb Hk _ Hw Hwk].
  assert (after_level 0 w = N) as HA by (unfold after_level; by rewrite Ha).
  destruct (config_end_run w) as (w' & ops & R & Hm & Hh & HV & HE & _);
    [done|by rewrite Hb|by rewrite HA|by rewrite Hb|].
  rewrite HA, Hb in HV, HE. pose proof (keeps_ConfigEnd _ _ w (conj eq_refl eq_refl)) as Hc. rewrite R in Hc.
  exists w'. split_and!; [done|done| |apply Hc|apply Hc]. split.
  - apply set_eq. intros key. rewrite !elem_of_dom, HV. unfold entry_after.
    destruct (N !! key), (V !! key); split; intros [? ?]; try done; by eexists.
  - intros key kv Hkv. rewrite HV in Hkv. rewrite Hh.
    apply entry_after_cases in Hkv as [_ [Hkv|[Hkv _]]]; [by apply Hwk|by apply Hw].
  - intros key HVk Hn. apply elem_of_dom in HVk as [b Hbk]. rewrite HE. unfold value_after. rewrite Hbk.
    destruct (N !! key) as [a|] eqn:Hak; [|done]. exfalso. apply Hn. apply elem_of_dom. rewrite HV.
    unfold entry_after. rewrite Hak, Hbk. by eexists.
  - intros key kv Hkv. rewrite HV in Hkv. apply entry_after_cases in Hkv as [_ [Hkv|[Hkv Hne]]]; [by left|right].
    rewrite HE, Hh. unfold value_after. rewrite Hkv. destruct (V !! key) as [b|]; [|done]. by rewrite Hne.
Qed.

(** Some node or service of the state lists the key. *)
Definition listed (w : World) (key : string) : Prop :=
  (exists k s, (nn_Status <$> networkNodeCache w) !! k = Some s /\ node_lists s key) \/
  (exists k s, (ns_Status <$> networkServiceCache w) !! k = Some s /\ service_lists s key).

(** [rendered w w']: everything was rendered in the state [w], which gave [w'].  The known
    entries are those that the statuses of the nodes and services list, but for the
    statuses of those that fail validation, which the rendering left as they were. *)
Record rendered (w w' : World) : Prop := {
  rd_unlocked : configMutex w' = false;
  rd_wf : wf_entries (bd_heap w') (VppEntries w');
  rd_sound : forall key, key ∈ dom (VppEntries w') -> listed w' key;
  rd_nodes : forall k s, (nn_Status <$> networkNodeCache w') !! k = Some s ->
    (bad_node w k /\ (nn_Status <$> networkNodeCache w) !! k = Some s) \/
    forall key, node_lists s key -> key ∈ dom (VppEntries w');
  rd_services : forall k s, (ns_Status <$> networkServiceCache w') !! k = Some s ->
    (bad_service w k /\ (ns_Status <$> networkServiceCache w) !! k = Some s) \/
    forall key, service_lists s key -> key ∈ dom (VppEntries w');
  rd_gone : forall key, key ∈ dom (VppEntries w) -> ~ (key ∈ dom (VppEntries w')) -> etcd w' !! key = None;
  rd_written : forall key kv, VppEntries w' !! key = Some kv ->
    VppEntries w !! key = Some kv \/ etcd w' !! key = entry_datum (bd_heap w') kv;
  rd_no_node : forall k, networkNodeCache w !! k = None -> networkNodeCache w' !! k = None;
  rd_no_service : forall k, networkServiceCache w !! k = None -> networkServiceCache w' !! k = None
}.

(** What was not visited has no status that is new. *)
Lemma account_absent {X Y} (f : Y -> option X) lists skip K0 (C0 C : gmap string Y) ks K k :
  account lists skip K0 (f <$> C0) (f <$> C) ks K -> (forall k, k ∈ ks <-> is_Some (C0 !! k)) ->
  C0 !! k = None -> C !! k = None.
Proof.
  intros Hac Hks Hk. assert ((f <$> C) !! k = (f <$> C0) !! k) as H.
  { apply (ac_rest _ _ _ _ _ _ _ Hac). intros [y Hy]%Hks. congruence. }
  rewrite !lookup_fmap, Hk in H. by destruct (C !! k).
Qed.

Lemma render_transaction_wlp w :
  (forall n key, put_error n key = None) -> configMutex w = false -> wf_entries (bd_heap w) (VppEntries w) ->
  wlp render_transaction (fun r w' => r = Ok tt /\ rendered w w') w.
Proof.
  intros Hno Hmut Hwf. unfold render_transaction, RenderAll.
  pose proof (config_start_run w) as Hs. rewrite Hmut in Hs.
  destruct Hs as (w1 & R1 & _ & Hl1 & Hb1 & _ & Ha1 & Hk1 & _ & Hh1 & Hn1 & Hs1 & Hp1); [intros; by apply Hwf|].
  wpw. eapply wp_run; [exact R1|]. wpw.
  assert (between (sysParmCache w1) (VppEntries w) ∅ w1) as Hbt.
  { split; try done. by rewrite Hh1. }
  eapply wp_conseq; [by apply NodeRenderAll_wlp|]. intros [] w2 (N2 & ks2 & Hbt2 & Hs2 & Hks2 & Hac2).
  pose proof (bt_sysparms _ _ _ _ Hbt2) as Hp2. rewrite <- Hp2 in Hbt2.
  eapply wp_conseq; [by apply ServiceRenderAll_wlp|]. intros [] w3 (N3 & ks3 & Hbt3 & Hn3 & Hks3 & Hac3).
  destruct (ConfigEnd_between _ _ _ _ Hno Hbt3) as (w' & R & Hmut' & [Hdom Hwf' Hgone Hwr] & Hn' & Hs').
  eapply wp_run; [exact R|]. split; [done|].
  assert (forall k, networkNodeCache w !! k = None -> networkNodeCache w' !! k = None) as Hnon.
  { intros k Hk. rewrite <- Hn1 in Hk. apply (account_absent _ _ _ _ _ _ _ _ k Hac2 Hks2) in Hk.
    assert ((nn_Status <$> networkNodeCache w') !! k = None) as H by by rewrite Hn', Hn3, lookup_fmap, Hk.
    rewrite lookup_fmap in H. by destruct (networkNodeCache w' !! k). }
  assert (forall k, networkServiceCache w !! k = None -> networkServiceCache w' !! k = None) as Hnos.
  { intros k Hk. rewrite <- Hs1, <- Hs2 in Hk. apply (account_absent _ _ _ _ _ _ _ _ k Hac3 Hks3) in Hk.
    assert ((ns_Status <$> networkServiceCache w') !! k = None) as H by by rewrite Hs', lookup_fmap, Hk.
    rewrite lookup_fmap in H. by destruct (networkServiceCache w' !! k). }
  split; [done|done| | | |done|done|exact Hnon|exact Hnos]; rewrite Hdom; unfold listed; rewrite ?Hn', ?Hs', ?Hn3.
  - intros key [Hin|(k & s & Hk & Hl & _)]%(ac_source _ _ _ _ _ _ _ Hac3); [left|right; by eauto].
    apply (ac_source _ _ _ _ _ _ _ Hac2) in Hin as [Hin|(k & s & Hk & Hl & _)]; [by set_solver|by eauto].
  - intros k s Hk. destruct (account_all _ _ _ _ _ _ _ (visited _ _ _ Hks2) Hac2 k s Hk) as [[Hb Hst]|H]; [left|right].
    + split; [by apply (bad_node_ext w1 w)|by rewrite <- Hn1].
    + intros key Hl%H. by apply (ac_old _ _ _ _ _ _ _ Hac3).
  - intros k s Hk. destruct (account_all _ _ _ _ _ _ _ (visited _ _ _ Hks3) Hac3 k s Hk) as [[Hb Hst]|H]; [left|by right].
    rewrite Hs2, Hs1 in Hst. split; [|done]. apply (bad_service_ext w2 w); [by rewrite Hs2|by rewrite Hp2|done].
Qed.

End rendering.

(** ** What a create or an update leaves in the cache *)
Section cached.
Context {E : Env}.

Lemma pool_CU_cached md sp st w :
  wlp (IpamPool.HandleCRUDOperationCU (mkIPAMPool (Some md) (Some sp) st)) (fun _ w' =>
    exists st', ipamPoolCache w' !! md_Name md = Some (mkIPAMPool (Some md) (Some sp) st')) w.
Proof.
  unfold IpamPool.HandleCRUDOperationCU, IpamPool.writeToDatastore.
  cbn [ip_Metadata ip_Spec with_ip_Status]. wpw. apply wlp_any. intros [] w'. wpw.
  apply (wlp_keeps (fun w' => exists st', ipamPoolCache w' !! md_Name md = Some (mkIPAMPool (Some md) (Some sp) st')));
    [by apply keeps_WriteToDatastore| |done].
  eexists. apply lookup_insert_eq.
Qed.

Lemma overlay_CU_cached md sp st w :
  wlp (Overlay.HandleCRUDOperationCU (mkOverlay (Some md) (Some sp) st)) (fun _ w' =>
    exists st', networkNodeOverlayCache w' !! md_Name md = Some (mkOverlay (Some md) (Some sp) st')) w.
Proof.
  unfold Overlay.HandleCRUDOperationCU, Overlay.overlay_name. cbn [nno_Metadata]. wpw. apply wlp_any. intros err w'. wpw.
  set (nno := match err with Some e => _ | None => _ end).
  assert (exists st', nno = mkOverlay (Some md) (Some sp) st') as [st' ->] by (destruct err; by eexists).
  cbn [nno_Spec]. wpw.
  set (I := fun w => exists st', networkNodeOverlayCache w !! md_Name md = Some (mkOverlay (Some md) (Some sp) st')).
  apply (wlp_keeps I).
  - keeps_auto. apply keeps_modify. intros w2 H. by destruct (vniAllocators w2 !! _).
  - eexists. apply lookup_insert_eq.
  - intros [] w2 H. unfold Overlay.writeToDatastore, Overlay.overlay_name. cbn [nno_Metadata]. wpw.
    apply (wlp_keeps I); [by apply keeps_WriteToDatastore|exact H|by intros].
Qed.

Lemma service_CU_cached md sp st w :
  wlp (NetworkService.HandleCRUDOperationCU (mkNetworkService (Some md) (Some sp) st)) (fun _ w' =>
    networkServiceCache w' !! md_Name md = Some (mkNetworkService (Some md) (Some sp) None)) w.
Proof.
  unfold NetworkService.HandleCRUDOperationCU, ServiceIf.service_name, ServiceIf.put_service.
  cbn [ns_Metadata with_ns_Status]. wpw.
  apply wlp_any. intros [err|] w'; [done|]. wpw.
  set (I := fun w => networkServiceCache w !! md_Name md = Some (mkNetworkService (Some md) (Some sp) None)).
  apply (wlp_keeps I).
  - unfold NetworkService.writeToDatastore, ServiceIf.service_name. keeps_auto. by apply keeps_WriteToDatastore.
  - apply lookup_insert_eq.
  - intros [e|[]] w2 H; wpw; [done|]. apply (wlp_keeps I); [by apply IpamPool.keeps_EntityCreate|exact H|].
    intros [] w3 H3. by wpw.
Qed.

Lemma pod_CU_cached p2n w :
  wlp (PodNodeMap.HandleCRUDOperationCU p2n) (fun _ w' => networkPodNodeCache w' !! pn_Pod p2n = Some p2n) w.
Proof.
  unfold PodNodeMap.HandleCRUDOperationCU, PodNodeMap.writeToDatastore. cbn. wpw.
  apply (wlp_keeps (fun w' => networkPodNodeCache w' !! pn_Pod p2n = Some p2n));
    [by apply keeps_WriteToDatastore| |done].
  apply lookup_insert_eq.
Qed.

(** A node is kept as its validation leaves it. *)
Lemma node_CU_cached nn md w :
  nn_Metadata nn = Some md ->
  wlp (NetworkNode.HandleCRUDOperationCU nn) (fun _ w' => exists nn' err st,
    NetworkNode.validate (with_nn_Status None nn) w = Done (nn', err) w /\
    networkNodeCache w' !! md_Name md = Some (with_nn_Status st nn')) w.
Proof.
  intros Hmd. unfold NetworkNode.HandleCRUDOperationCU, NetworkNode.node_name, NetworkNode.put_node. wpw.
  eapply wp_conseq; [apply NetworkNode.validate_status|]. intros [nn' err] w1 (-> & Hst & Hval). cbn [fst snd] in *.
  rewrite Hmd. wpw.
  set (I := fun w' => exists nn' err st,
    NetworkNode.validate (with_nn_Status None nn) w = Done (nn', err) w /\
    networkNodeCache w' !! md_Name md = Some (with_nn_Status st nn')).
  apply (wlp_keeps I).
  - unfold NetworkNode.writeToDatastore, NetworkNode.node_name. keeps_auto. by apply keeps_WriteToDatastore.
  - exists nn', err, (match err with Some e => Some (mkNetworkNodeStatus "" [e] None None) | None => nn_Status nn' end).
    split; [done|]. cbn. rewrite lookup_insert_eq. destruct err; [done|]. by destruct nn'.
  - intros [e|[]] w2 H; wpw; [done|]. apply (wlp_keeps I); [by apply IpamPool.keeps_EntityCreate|exact H|].
    intros [] w3 H3. by wpw.
Qed.
End cached.

(** ** Witness: a node, a service and an entry of an earlier configuration *)
Definition stale_entry : VppAgent.KVType := RenderTxn.xc "p/old/if" "p/other/if".

Definition demo_state : World :=
  with_VppEntries {[VppAgent.VppKey stale_entry := stale_entry]}
    (with_etcd (default ∅ ((fun v => {[VppAgent.VppKey stale_entry := v]}) <$> RenderTxn.entry_datum empty_heap stale_entry))
       (with_afterMap ∅ NetworkService.demo_rendering)).

(** The rendering returns, knows four entries, and the stale one is gone from etcd. *)
Lemma demo_state_renders :
  match @render_transaction quiet_env demo_state with
  | Done r w' => r = Ok tt /\ size (VppEntries w') = 4%nat /\ VppEntries w' !! VppAgent.VppKey stale_entry = None
  | Panic => False
  end.
Proof. vm_compute. split_and!; reflexivity. Qed.

End Controller.
