(* ===== verification/Frontend.v ===== *)
(** * Requests, watchers and start-up messages

    Module Frontend: what the goroutines around the message loop do.  The REST handlers of
    the six managers answer from the caches and turn POST and DELETE into messages; the
    etcd watchers turn deleted keys into messages; [AfterInit] registers and starts them
    and sends the first messages; [SfcSystemCacheToYaml] is the dump of everything.

    The body of a request is what [ioutil.ReadAll] and [json.Unmarshal] make of it, an
    error or an object; an answer is what [formatter.JSON] is given.  A handler that sends
    a message answers once the message loop has received it, because the channel has no buffer. *)

From S2P Require Import Prelude GoStd IdAlloc Ipam Model VppAgent State RenderTxn SysParms IpamPool PodNodeMap.
From S2P Require Import Interfaces EntityTxn NetworkNode Overlay ServiceIf NetworkService Types Controller.

Module Frontend.
Import Controller.

(** ** Requests and answers *)

Inductive method : Type := GET | POST | DELETE.

Inductive response : Type :=
| RespOK (* 200 "OK" *)
| RespObject (v : Value) (* 200 *)
| RespArray (vs : list Value) (* 200 *)
| RespNotFound (text : string) (* 404 *)
| RespBadRequest (e : error) (* 400 *)
| RespEmpty.

(** An answer, and the message that is sent before it. *)
Definition answer : Type := response * option OperationalMsg.

(** The GET branch of the handlers. *)
Definition get_answer (name : string) (o : option Value) : answer :=
  match o with
  | Some v => (RespObject v, None)
  | None => (RespNotFound ("not found: " +:+ name), None)
  end.

(** The end of the POST functions. *)
Definition post_answer {A} (model : string) (data : A -> MsgData) (r : reply A) : answer :=
  match r with
  | BadRequest e => (RespBadRequest e, None)
  | HttpOK None => (RespOK, None)
  | HttpOK (Some a) => (RespOK, Some (mkMsg model OperationalMsgOpCodeCreateUpdate (data a)))
  end.

(** The body is read and parsed first. *)
Definition with_body {A} (body : result A) (post : A -> M World answer) : M World answer :=
  match body with
  | inl err => mret (RespBadRequest err, None)
  | inr a => post a
  end.

(** The DELETE functions. *)
Definition delete_answer (model name : string) : answer :=
  (RespOK, Some (mkMsg model OperationalMsgOpCodeDelete (MsgName name))).

Section env.
Context {E : Env}.

(** The values of a map, in the order of an iteration. *)
Definition values_of {A} (getAll : M World (gmap string A)) : M World (list A) :=
  let! m := getAll in
  let! keys := order_keys m in
  mret (omap (fun k => m !! k) keys).

(** ** ipampool.go *)

Definition processDelete (entityName : string) : answer := delete_answer ModelTypeIPAMPool entityName.

Definition entityHandler (req : method) (entityName : string) (body : result IPAMPool) : M World answer :=
  match req with
  | GET =>
      let! ip := IpamPool.HandleCRUDOperationR entityName in
      mret (get_answer entityName (VIPAMPool <$> ip))
  | POST =>
      with_body body (fun ipamPool =>
        let! r := IpamPool.processPost entityName ipamPool in
        mret (post_answer ModelTypeIPAMPool MsgIPAMPool r))
  | DELETE => mret (processDelete entityName)
  end.

Definition IPAMPool_ToArray : M World (list IPAMPool) := values_of (get ipamPoolCache).

Definition getAllHandler : M World answer :=
  let! array := values_of IpamPool.HandleCRUDOperationGetAll in
  mret (RespArray (VIPAMPool <$> array), None).

(** ** networkpodnodemap.go *)

Definition networkPodNodeMapProcessDelete (networkPodName : string) : answer :=
  delete_answer ModelTypeNetworkPodNodeMap networkPodName.

Definition networkPodNodeMapHandler (req : method) (networkPodName : string) (body : result NetworkPodToNodeMap)
  : M World answer :=
  match req with
  | GET =>
      let! p2n := PodNodeMap.HandleCRUDOperationR networkPodName in
      mret (get_answer networkPodName (VPodToNode <$> p2n))
  | POST =>
      with_body body (fun p2n =>
        let! r := PodNodeMap.networkPodNodeMapProcessPost networkPodName p2n in
        mret (post_answer ModelTypeNetworkPodNodeMap MsgPodToNode r))
  | DELETE => mret (networkPodNodeMapProcessDelete networkPodName)
  end.

Definition NetworkPodToNodeMap_ToArray : M World (list NetworkPodToNodeMap) := values_of (get networkPodNodeCache).

Definition networkPodNodeMapGetAllHandler : M World answer :=
  let! array := values_of PodNodeMap.HandleCRUDOperationGetAll in
  mret (RespArray (VPodToNode <$> array), None).

(** ** networknodeoverlay.go *)

Definition networkNodeOverlayProcessDelete (networkNodeOverlayName : string) : answer :=
  delete_answer ModelTypeNetworkNodeOverlay networkNodeOverlayName.

Definition networkNodeOverlayHandler (req : method) (networkNodeOverlayName : string) (body : result NetworkNodeOverlay)
  : M World answer :=
  match req with
  | GET =>
      let! nno := Overlay.HandleCRUDOperationR networkNodeOverlayName in
      mret (get_answer networkNodeOverlayName (VNetworkNodeOverlay <$> nno))
  | POST =>
      with_body body (fun nno =>
        let! r := Overlay.networkNodeOverlayProcessPost networkNodeOverlayName nno in
        mret (post_answer ModelTypeNetworkNodeOverlay MsgOverlay r))
  | DELETE => mret (networkNodeOverlayProcessDelete networkNodeOverlayName)
  end.

Definition NetworkNodeOverlay_ToArray : M World (list NetworkNodeOverlay) := values_of (get networkNodeOverlayCache).

Definition networkNodeOverlayGetAllHandler : M World answer :=
  let! array := values_of Overlay.HandleCRUDOperationGetAll in
  mret (RespArray (VNetworkNodeOverlay <$> array), None).

(** ** networknode.go: the answer shows the states of the interfaces as they are *)

Definition httpNetworkNodeProcessDelete (networkNodeName : string) : answer :=
  delete_answer ModelTypeNetworkNode networkNodeName.

Definition httpNetworkNodeHandler (req : method) (networkNodeName : string) (body : result (NetworkNode loc))
  : M World answer :=
  match req with
  | GET =>
      let! n := NetworkNode.HandleCRUDOperationR networkNodeName in
      let! h := get if_heap in
      mret (get_answer networkNodeName ((fun n => VNetworkNode (snapshot_node h n)) <$> n))
  | POST =>
      with_body body (fun nn =>
        let! r := NetworkNode.httpNetworkNodeProcessPost networkNodeName nn in
        mret (post_answer ModelTypeNetworkNode MsgNode r))
  | DELETE => mret (httpNetworkNodeProcessDelete networkNodeName)
  end.

Definition NetworkNode_ToArray : M World (list (NetworkNode loc)) := values_of (get networkNodeCache).

Definition httpNetworkNodeGetAllHandler : M World answer :=
  let! array := values_of NetworkNode.HandleCRUDOperationGetAll in
  let! h := get if_heap in
  mret (RespArray ((fun n => VNetworkNode (snapshot_node h n)) <$> array), None).

(** ** networkservice.go *)

Definition networkServiceProcessDelete (networkServiceName : string) : answer :=
  delete_answer ModelTypeNetworkService networkServiceName.

Definition networkServiceHandler (req : method) (networkServiceName : string) (body : result (NetworkService loc))
  : M World answer :=
  match req with
  | GET =>
      let! n := NetworkService.HandleCRUDOperationR networkServiceName in
      let! h := get if_heap in
      mret (get_answer networkServiceName ((fun n => VNetworkService (snapshot_service h n)) <$> n))
  | POST =>
      with_body body (fun ns =>
        let! r := NetworkService.networkServiceProcessPost networkServiceName ns in
        mret (post_answer ModelTypeNetworkService MsgService r))
  | DELETE => mret (networkServiceProcessDelete networkServiceName)
  end.

Definition NetworkService_ToArray : M World (list (NetworkService loc)) := values_of (get networkServiceCache).

Definition networkServiceGetAllHandler : M World answer :=
  let! array := values_of NetworkService.HandleCRUDOperationGetAll in
  let! h := get if_heap in
  mret (RespArray ((fun n => VNetworkService (snapshot_service h n)) <$> array), None).

(** ** sysparms.go: there is no DELETE, and no name *)

Definition systemParametersHandler (req : method) (body : result SystemParameters) : M World answer :=
  match req with
  | GET => let! sp := SysParms.HandleCRUDOperationR in mret (RespObject (VSystemParameters sp), None)
  | POST =>
      with_body body (fun sp =>
        let! r := SysParms.systemParametersProcessPost sp in
        mret (post_answer ModelTypeSysParameters MsgSysParms r))
  | DELETE => mret (RespEmpty, None) (* not registered for this method *)
  end.

(** ** plugin_impl_controller.go, sfc_config_yaml.go: the dump of everything *)

(** What [SfcSystemCacheToYaml] hands to the YAML library, but for the time of the dump
    and the allocators. *)
Definition SfcSystemCacheToYaml : M World SfcConfigYaml :=
  let! nodes := NetworkNode_ToArray in
  let! pods := NetworkPodToNodeMap_ToArray in
  let! services := NetworkService_ToArray in
  let! overlays := NetworkNodeOverlay_ToArray in
  let! pools := IPAMPool_ToArray in
  let! sp := get sysParmCache in
  mret (mkYaml sfcYamlVersion (Some sp) pools pods overlays nodes services).

(** [httpSystemGetAllYamlHandler]: [yaml] is the YAML library.  An error is answered, and
    then the bytes that there are not. *)
Definition httpSystemGetAllYamlHandler (yaml : SfcConfigYaml -> result string) (req : method)
  : M World (list (Z * string)) :=
  match req with
  | GET =>
      let! y := SfcSystemCacheToYaml in
      match yaml y with
      | inl err => mret [(500, err); (200, "")]
      | inr bytes => mret [(200, bytes)]
      end
  | _ => mret []
  end.
End env.

(** ** Routes: [InitHTTPHandlers] *)

Record route : Type := mkRoute { rt_url : string; rt_methods : list method; rt_manager : option manager; rt_all : bool }.

Definition IPAMPool_GetAllURL : string := SfcControllerConfigPrefix +:+ "ipam-pools".

Definition NetworkPodToNodeMap_GetAllURL : string := SfcControllerConfigPrefix +:+ "network-pod-to-node-map".

Definition NetworkNodeOverlay_GetAllURL : string := SfcControllerConfigPrefix +:+ "network-node-overlays".

Definition NetworkNode_GetAllURL : string := SfcControllerConfigPrefix +:+ "network-nodes".

Definition NetworkService_GetAllURL : string := SfcControllerConfigPrefix +:+ "network-services".

(** An object, under a variable part of the URL, and all of them. *)
Definition routes (m : manager) (prefix var getAllURL : string) : list route :=
  [mkRoute (prefix +:+ "{" +:+ var +:+ "}") [GET; POST; DELETE] (Some m) false;
   mkRoute getAllURL [GET] (Some m) true].

Definition InitHTTPHandlers_IPAMPool : list route :=
  routes MgrIpamPool IpamPool.KeyPrefix "entityName" IPAMPool_GetAllURL.

Definition InitHTTPHandlers_NetworkPodToNodeMap : list route :=
  routes MgrPodNodeMap PodNodeMap.KeyPrefix "networkPodName" NetworkPodToNodeMap_GetAllURL.

Definition InitHTTPHandlers_NetworkNodeOverlay : list route :=
  routes MgrOverlay Overlay.KeyPrefix "networkNodeOverlayName" NetworkNodeOverlay_GetAllURL.

Definition InitHTTPHandlers_NetworkNode : list route :=
  routes MgrNode NetworkNode.KeyPrefix "networkNodeName" NetworkNode_GetAllURL.

Definition InitHTTPHandlers_NetworkService : list route :=
  routes MgrService NetworkService.KeyPrefix "networkServiceName" NetworkService_GetAllURL.

Definition InitHTTPHandlers_SystemParameters : list route :=
  [mkRoute SysParms.KeyPrefix [GET; POST] (Some MgrSysParms) false].

Definition InitSystemHTTPHandler : list route := [mkRoute SfcControllerPrefix [GET] None true].

Definition InitHTTPHandlers (m : manager) : list route :=
  match m with
  | MgrSysParms => InitHTTPHandlers_SystemParameters
  | MgrIpamPool => InitHTTPHandlers_IPAMPool
  | MgrPodNodeMap => InitHTTPHandlers_NetworkPodToNodeMap
  | MgrOverlay => InitHTTPHandlers_NetworkNodeOverlay
  | MgrNode => InitHTTPHandlers_NetworkNode
  | MgrService => InitHTTPHandlers_NetworkService
  end.

(** [AfterInit] of the managers; the watcher is started in any case. *)
Definition mgr_AfterInit (bypass : bool) (m : manager) : list route :=
  if bypass then [] else InitHTTPHandlers m.

Definition afterInitMgrs (bypass : bool) : list route :=
  InitSystemHTTPHandler ++ (snd <$> RegisteredManagers) ≫= mgr_AfterInit bypass.

(** The messages of [AfterInit] of the plugin. *)
Definition AfterInit : list OperationalMsg :=
  [mkMsg "" OperationalMsgOpCodeEnableRenderer MsgNil;
   mkMsg "" OperationalMsgOpCodeResyncContivNetworkPodMap MsgNil;
   mkMsg "" OperationalMsgOpCodeRender MsgNil].

(** ** Watchers

    The watcher of the etcd library for a prefix gives the keys without the prefix. *)
Inductive watch_resp : Type :=
| WPut (key : string)
| WDelete (key : string).

(** A round of the loop of [InitAndRunWatcher]. *)
Definition delete_watcher (model : string) (resp : watch_resp) : option OperationalMsg :=
  match resp with
  | WDelete key => Some (mkMsg model OperationalMsgOpCodeDelete (MsgName key))
  | WPut _ => None
  end.

Definition InitAndRunWatcher_SystemParameters : watch_resp -> option OperationalMsg := delete_watcher ModelTypeSysParameters.

Definition InitAndRunWatcher_IPAMPool : watch_resp -> option OperationalMsg := delete_watcher ModelTypeIPAMPool.

Definition InitAndRunWatcher_NetworkPodToNodeMap : watch_resp -> option OperationalMsg :=
  delete_watcher ModelTypeNetworkPodNodeMap.

Definition InitAndRunWatcher_NetworkNodeOverlay : watch_resp -> option OperationalMsg :=
  delete_watcher ModelTypeNetworkNodeOverlay.

Definition InitAndRunWatcher_NetworkNode : watch_resp -> option OperationalMsg := delete_watcher ModelTypeNetworkNode.

Definition InitAndRunWatcher_NetworkService : watch_resp -> option OperationalMsg := delete_watcher ModelTypeNetworkService.

Definition InitAndRunWatcher (m : manager) : watch_resp -> option OperationalMsg :=
  match m with
  | MgrSysParms => InitAndRunWatcher_SystemParameters
  | MgrIpamPool => InitAndRunWatcher_IPAMPool
  | MgrPodNodeMap => InitAndRunWatcher_NetworkPodToNodeMap
  | MgrOverlay => InitAndRunWatcher_NetworkNodeOverlay
  | MgrNode => InitAndRunWatcher_NetworkNode
  | MgrService => InitAndRunWatcher_NetworkService
  end.

(** The prefix that is watched. *)
Definition KeyPrefix (m : manager) : string :=
  match m with
  | MgrSysParms => SysParms.KeyPrefix
  | MgrIpamPool => IpamPool.KeyPrefix
  | MgrPodNodeMap => PodNodeMap.KeyPrefix
  | MgrOverlay => Overlay.KeyPrefix
  | MgrNode => NetworkNode.KeyPrefix
  | MgrService => NetworkService.KeyPrefix
  end.

(** [RunContivKSRNetworkPodToNodeMappingWatcher]: any change, and every minute. *)
Definition RunContivKSRNetworkPodToNodeMappingWatcher : OperationalMsg :=
  mkMsg "" OperationalMsgOpCodeResyncContivNetworkPodMap MsgNil.

(** ** Requests only read *)

(** Iterating takes a tick of the clock that stands for the order of the iteration. *)
Definition ticked (w w' : World) : Prop := exists n, w' = with_clock n w.

Lemma ticked_refl w : ticked w w.
Proof. exists (clock w). by destruct w. Qed.

Section thms.
Context {E : Env}.

Lemma wp_values {A} (prj : World -> gmap string A) (Q : list A -> World -> Prop) w :
  (forall l w', ticked w w' -> Q l w') -> wlp (values_of (get prj)) Q w.
Proof.
  intros H. unfold values_of. wpw. apply wp_order_keys. intros ks n _ _. wpw. apply H. by exists n.
Qed.

Lemma dump_reads w : wlp SfcSystemCacheToYaml (fun _ w' => ticked w w') w.
Proof.
  unfold SfcSystemCacheToYaml.
  repeat (wpw; unfold NetworkNode_ToArray, NetworkPodToNodeMap_ToArray, NetworkService_ToArray,
    NetworkNodeOverlay_ToArray, IPAMPool_ToArray; apply wp_values; intros ? ? [? ->]).
  wpw. by eexists.
Qed.

(** ** What was posted is what is got *)

(** A client: it posts, and when that is accepted, the message sent is handled, and it gets. *)
Definition post_then_get (post get : M World answer) : M World (option response) :=
  let! a := post in
  match fst a with
  | RespOK =>
      match snd a with Some msg => handle_msg msg (mkFlags false false) ;;; mret tt | None => mret tt end ;;;
      let! g := get in mret (Some (fst g))
  | _ => mret None
  end.

Ltac answered := wpw; unfold post_answer, get_answer; cbv beta iota; cbn [fst snd]; wpw.

(** The message goes to its manager. *)
Definition model_name (m : manager) : string :=
  match m with
  | MgrSysParms => ModelTypeSysParameters
  | MgrIpamPool => ModelTypeIPAMPool
  | MgrPodNodeMap => ModelTypeNetworkPodNodeMap
  | MgrOverlay => ModelTypeNetworkNodeOverlay
  | MgrNode => ModelTypeNetworkNode
  | MgrService => ModelTypeNetworkService
  end.

Lemma find_model_name m : findModelManager (model_name m) = Some m.
Proof. by destruct m. Qed.

Lemma handle_CU m data f (Q : flags -> World -> Prop) w :
  wlp (mgr_CU m data) (fun _ => Q (mkFlags (isRenderingEnabled f) true)) w ->
  wlp (handle_msg (mkMsg (model_name m) OperationalMsgOpCodeCreateUpdate data) f) Q w.
Proof.
  intros H. unfold handle_msg. cbn [msg_opCode msg_model msg_data]. rewrite find_model_name. wpw.
  eapply wp_conseq; [exact H|]. intros r w' HQ. by wpw.
Qed.

Lemma handle_D m data f (Q : flags -> World -> Prop) w :
  wlp (mgr_D m data) (fun _ => Q (mkFlags (isRenderingEnabled f) true)) w ->
  wlp (handle_msg (mkMsg (model_name m) OperationalMsgOpCodeDelete data) f) Q w.
Proof.
  intros H. unfold handle_msg. cbn [msg_opCode msg_model msg_data]. rewrite find_model_name. wpw.
  eapply wp_conseq; [exact H|]. intros r w' HQ. by wpw.
Qed.

Lemma pool_post_get name ip b w :
  wlp (post_then_get (entityHandler POST name (inr ip)) (entityHandler GET name b)) (fun r _ =>
    forall resp, r = Some resp -> exists st, resp = RespObject (VIPAMPool (with_ip_Status st ip))) w.
Proof.
  unfold post_then_get, entityHandler, with_body, IpamPool.processPost, IpamPool.HandleCRUDOperationR. answered.
  destruct ip as [[md|] sp st]; [|done]. cbn [ip_Metadata]. answered.
  destruct (String.eqb name (md_Name md)) eqn:En; cbn [negb]; [apply String.eqb_eq in En as ->|by answered]. wpw.
  destruct (match ipamPoolCache w !! md_Name md with Some p => _ | None => _ end) eqn:Eq.
  - answered. destruct (ipamPoolCache w !! md_Name md) as [p|]; [|done]. intros resp [= <-].
    unfold IpamPool.ConfigEqual in Eq. apply andb_true_iff in Eq as [H1%bool_decide_eq_true H2%bool_decide_eq_true].
    exists (ip_Status p). destruct p. cbn in *. by subst.
  - destruct (IpamPool.validate _) as [err|] eqn:Ev; [by answered|]. apply Types.pool_check in Ev as [md' sp' _ Hsp _ _].
    cbn in Hsp. subst sp. answered.
    apply (handle_CU MgrIpamPool). cbn [mgr_CU].
    eapply wp_conseq; [apply pool_CU_cached|]. intros r w' [st' Hc]. wpw. rewrite Hc. wpw.
    intros resp [= <-]. by exists st'.
Qed.

Lemma pod_post_get name p2n b w :
  wlp (post_then_get (networkPodNodeMapHandler POST name (inr p2n)) (networkPodNodeMapHandler GET name b)) (fun r _ =>
    forall resp, r = Some resp -> resp = RespObject (VPodToNode p2n)) w.
Proof.
  unfold post_then_get, networkPodNodeMapHandler, with_body, PodNodeMap.networkPodNodeMapProcessPost,
    PodNodeMap.HandleCRUDOperationR. answered.
  destruct (String.eqb name (pn_Pod p2n)) eqn:En; cbn [negb]; [apply String.eqb_eq in En as ->|by answered]. answered.
  destruct (match networkPodNodeCache w !! pn_Pod p2n with Some p => _ | None => _ end) eqn:Eq.
  - answered. destruct (networkPodNodeCache w !! pn_Pod p2n) as [p|]; [|done]. intros resp [= <-].
    by apply bool_decide_eq_true in Eq as ->.
  - cbn [PodNodeMap.validate]. answered. apply (handle_CU MgrPodNodeMap). cbn [mgr_CU].
    eapply wp_conseq; [apply pod_CU_cached|]. intros r w' Hc. wpw. rewrite Hc. wpw. by intros resp [= <-].
Qed.

Lemma overlay_post_get name nno b w :
  wlp (post_then_get (networkNodeOverlayHandler POST name (inr nno)) (networkNodeOverlayHandler GET name b)) (fun r _ =>
    forall resp, r = Some resp -> exists st, resp = RespObject (VNetworkNodeOverlay (with_nno_Status st nno))) w.
Proof.
  unfold post_then_get, networkNodeOverlayHandler, with_body, Overlay.networkNodeOverlayProcessPost,
    Overlay.HandleCRUDOperationR, Overlay.overlay_name. answered.
  destruct nno as [[md|] sp st]; [|done]. cbn [nno_Metadata]. answered.
  destruct (String.eqb name (md_Name md)) eqn:En; cbn [negb]; [apply String.eqb_eq in En as ->|by answered]. answered.
  destruct (match networkNodeOverlayCache w !! md_Name md with Some p => _ | None => _ end) eqn:Eq.
  - answered. destruct (networkNodeOverlayCache w !! md_Name md) as [p|]; [|done]. intros resp [= <-].
    unfold Overlay.ConfigEqual in Eq. apply andb_true_iff in Eq as [H1%bool_decide_eq_true H2%bool_decide_eq_true].
    exists (nno_Status p). destruct p. cbn in *. by subst.
  - destruct sp as [sp|]; [|done].
    destruct (Types.overlay_validate_decides (mkOverlay (Some md) (Some sp) st) md sp w eq_refl eq_refl) as (err & R & _).
    wpw. eapply wp_run; [exact R|]. destruct err as [e|]; [by answered|]. answered.
    apply (handle_CU MgrOverlay). cbn [mgr_CU].
    eapply wp_conseq; [apply overlay_CU_cached|]. intros r w' [st' Hc]. wpw. rewrite Hc. wpw.
    intros resp [= <-]. by exists st'.
Qed.

Lemma service_post_get name ns b w :
  wlp (post_then_get (networkServiceHandler POST name (inr ns)) (networkServiceHandler GET name b)) (fun r _ =>
    forall resp, r = Some resp -> exists st, resp = RespObject (VNetworkService (mkNetworkService (ns_Metadata ns) (ns_Spec ns) st))) w.
Proof.
  unfold post_then_get, networkServiceHandler, with_body, NetworkService.networkServiceProcessPost,
    NetworkService.HandleCRUDOperationR, ServiceIf.service_name. answered.
  destruct ns as [[md|] sp st]; [|done]. cbn [ns_Metadata]. answered.
  destruct (String.eqb name (md_Name md)) eqn:En; cbn [negb]; [apply String.eqb_eq in En as ->|by answered]. answered.
  destruct (match networkServiceCache w !! md_Name md with Some p => _ | None => _ end) eqn:Eq.
  - answered. destruct (networkServiceCache w !! md_Name md) as [p|]; [|done]. intros resp [= <-].
    unfold NetworkService.ConfigEqual in Eq. apply andb_true_iff in Eq as [H1%bool_decide_eq_true H2%bool_decide_eq_true].
    cbn in H1, H2. unfold snapshot_service. rewrite H1, H2. by eexists.
  - destruct (Types.service_validation (mkNetworkService (Some md) sp st) w) as (Hok & _ & Hreads).
    destruct (NetworkService.validate _ w) as [err w'|] eqn:R; [|unfold wpp, mbnd; by rewrite R].
    rewrite (Hreads err w' eq_refl) in R. wpw. eapply wp_run; [exact R|]. destruct err as [e|]; [by answered|].
    assert (exists sp', sp = Some sp') as [sp' ->] by (destruct Hok as [_ Hok]; destruct Hok as [md' sp' ? ? H ? ?]; [by rewrite (Hreads None w' eq_refl)|by exists sp']).
    answered. apply (handle_CU MgrService). cbn [mgr_CU].
    eapply wp_conseq; [apply service_CU_cached|]. intros r w2 Hc. wpw. rewrite Hc. wpw.
    intros resp [= <-]. by eexists.
Qed.

Lemma unparented_validated name l :
  map (with_if_Parent "") (NetworkNode.nodeValidateInterfaces name name l).1 = map (with_if_Parent "") l.
Proof.
  induction l as [|i l IH]; [done|]. cbn [NetworkNode.nodeValidateInterfaces].
  destruct (_ || _); [|done]. destruct (omap _ _); [|done].
  destruct (NetworkNode.nodeValidateInterfaces name name l). cbn in *. by rewrite IH.
Qed.

Lemma node_validate_same nn w :
  wlp (NetworkNode.validate nn) (fun v w' => w' = w /\ NetworkNode.same_node nn (fst v) /\ (snd v = None -> is_Some (nn_Spec nn))) w.
Proof.
  unfold NetworkNode.validate, NetworkNode.node_name.
  destruct (nn_Spec nn) as [spec|] eqn:Esp; [|done]. destruct (nn_Metadata nn) as [md|] eqn:Emd; [|done]. wpw.
  pose proof (unparented_validated (md_Name md) (nns_Interfaces spec)) as Hu.
  destruct (NetworkNode.nodeValidateInterfaces _ _ _) as [ifaces err]. cbn in Hu.
  assert (NetworkNode.same_node nn (with_nn_Spec (Some (with_nns_Interfaces ifaces spec)) nn)) as Hs.
  { split; [done|]. cbn. rewrite Esp. cbn. f_equal. unfold NetworkNode.unparented. destruct spec. cbn in *. by rewrite Hu. }
  destruct err as [e|]; [by wpw|]. wpw.
  destruct (Types.decides_forR w (nns_L2Bds spec) _ _ (fun bd _ => Types.node_bridge w (md_Name md) bd)) as (r & R & _).
  eapply wp_run; [exact R|]. wpw. split_and!; [done|done|]. intros _. by eexists.
Qed.

Lemma same_node_trans {R1 R2 R3} (a : NetworkNode R1) (b : NetworkNode R2) (c : NetworkNode R3) :
  NetworkNode.same_node a b -> NetworkNode.same_node b c -> NetworkNode.same_node a c.
Proof. intros [H1 H2] [H3 H4]. split; congruence. Qed.

Lemma same_node_status {R} st (a b : NetworkNode R) : NetworkNode.same_node a b -> NetworkNode.same_node a (with_nn_Status st b).
Proof. by intros [? ?]. Qed.

Lemma node_post_get name nn b w :
  wlp (post_then_get (httpNetworkNodeHandler POST name (inr nn)) (httpNetworkNodeHandler GET name b)) (fun r _ =>
    forall resp, r = Some resp -> exists n, NetworkNode.same_node nn n /\ resp = RespObject (VNetworkNode n)) w.
Proof.
  unfold post_then_get, httpNetworkNodeHandler, with_body, NetworkNode.httpNetworkNodeProcessPost,
    NetworkNode.HandleCRUDOperationR. answered. unfold NetworkNode.node_name at 1.
  destruct (nn_Metadata nn) as [md|] eqn:Emd; [|done]. answered.
  destruct (String.eqb name (md_Name md)) eqn:En; cbn [negb]; [apply String.eqb_eq in En as ->|by answered]. answered.
  apply (wp_conseq _ _ (fun v w' => w' = w /\ NetworkNode.same_node nn (fst v) /\ (snd v = true ->
    exists e, networkNodeCache w !! md_Name md = Some e /\ NetworkNode.ConfigEqual e (fst v) = true))).
  { destruct (networkNodeCache w !! md_Name md) as [e|] eqn:Ee; [|by wpw]. wpw.
    eapply wp_conseq; [apply node_validate_same|]. intros v w' (-> & Hs & _). wpw. split_and!; [done|done|].
    intros [_ H]%andb_true_iff. by exists e. }
  intros [nn1 eq] w' (-> & Hs1 & Heq). cbn [fst snd] in *. destruct eq.
  - destruct Heq as (e & He & Heq); [done|]. answered. rewrite He. wpw. intros resp [= <-].
    unfold NetworkNode.ConfigEqual in Heq. apply andb_true_iff in Heq as [H1%bool_decide_eq_true H2%bool_decide_eq_true].
    eexists. split; [|reflexivity]. eapply same_node_trans; [exact Hs1|]. split; cbn; [done|]. by rewrite H2.
  - wpw. eapply wp_conseq; [apply node_validate_same|]. intros [nn2 err] w' (-> & Hs2 & _). cbn [fst snd] in *.
    destruct err as [err|]; [by answered|]. answered. apply (handle_CU MgrNode). cbn [mgr_CU].
    assert (NetworkNode.same_node nn nn2) as Hs by (by eapply same_node_trans).
    eapply wp_conseq; [apply (node_CU_cached nn2 md)|]; [by destruct Hs as [-> _]|].
    intros r w2 (nn3 & err & st & R3 & Hc). wpw. rewrite Hc. wpw. intros resp [= <-].
    pose proof (node_validate_same (with_nn_Status None nn2) w) as Hv. unfold wpp in Hv. rewrite R3 in Hv.
    destruct Hv as (_ & Hs3 & _). eexists. split; [|reflexivity].
    eapply same_node_trans; [exact Hs|]. destruct Hs3 as [H1 H2]. by split.
Qed.

Lemma with_defaults_twice sp : SysParms.with_defaults (SysParms.with_defaults sp) = SysParms.with_defaults sp.
Proof.
  unfold SysParms.with_defaults. destruct sp as [mtu dir w pref ts rx vrf]. cbn -[Z.eqb].
  destruct (mtu =? 0) eqn:E1, (pref =? 0) eqn:E2; unfold with_sp_Mtu, with_sp_DefaultStaticRoutePreference; cbn -[Z.eqb];
    repeat (rewrite ?E1, ?E2; change (1500 =? 0) with false; change (5 =? 0) with false; cbn -[Z.eqb]); done.
Qed.

Lemma sysparms_post_get sp b w :
  wlp (post_then_get (systemParametersHandler POST (inr sp)) (systemParametersHandler GET b)) (fun r _ =>
    forall resp, r = Some resp -> exists sp', (sp' = sp \/ sp' = SysParms.with_defaults sp) /\ resp = RespObject (VSystemParameters sp')) w.
Proof.
  unfold post_then_get, systemParametersHandler, with_body, SysParms.systemParametersProcessPost,
    SysParms.HandleCRUDOperationR. answered.
  destruct (SysParms.ConfigEqual (sysParmCache w) sp) eqn:Eq.
  - answered. intros resp [= <-]. apply bool_decide_eq_true in Eq. exists sp. by rewrite Eq; auto.
  - unfold SysParms.validate. destruct (SysParms.valid_rx_mode _) eqn:Ev; [|by answered]. answered.
    apply (handle_CU MgrSysParms). cbn [mgr_CU].
    unfold SysParms.HandleCRUDOperationCU, SysParms.validate, SysParms.writeToDatastore, put_field.
    rewrite with_defaults_twice, Ev. wpw.
    apply (wlp_keeps (fun w => sysParmCache w = SysParms.with_defaults sp)); [by apply keeps_WriteToDatastore|done|].
    intros r w' Hc. wpw. rewrite Hc. cbn [fst]. intros resp [= <-]. exists (SysParms.with_defaults sp). split; [by right|reflexivity].
Qed.

(** C10: what was posted is what is got.  When a POST to any of the six managers is
    accepted, and the message it sent, if any, was handled, a GET of the same name finds
    the object that was posted: its metadata and spec, whatever the status; for a node, but
    for the parents of its interfaces, and for the system parameters, but for the defaults,
    both of which the controller fills in.  A POST that changes nothing sends no message, and
    the object was there already. *)
Theorem post_is_got name b w :
  (forall ip, wlp (post_then_get (entityHandler POST name (inr ip)) (entityHandler GET name b)) (fun r _ =>
     forall resp, r = Some resp -> exists st, resp = RespObject (VIPAMPool (with_ip_Status st ip))) w) /\
  (forall p2n b, wlp (post_then_get (networkPodNodeMapHandler POST name (inr p2n)) (networkPodNodeMapHandler GET name b))
     (fun r _ => forall resp, r = Some resp -> resp = RespObject (VPodToNode p2n)) w) /\
  (forall nno b, wlp (post_then_get (networkNodeOverlayHandler POST name (inr nno)) (networkNodeOverlayHandler GET name b))
     (fun r _ => forall resp, r = Some resp -> exists st, resp = RespObject (VNetworkNodeOverlay (with_nno_Status st nno))) w) /\
  (forall ns b, wlp (post_then_get (networkServiceHandler POST name (inr ns)) (networkServiceHandler GET name b)) (fun r _ =>
     forall resp, r = Some resp -> exists st,
       resp = RespObject (VNetworkService (mkNetworkService (ns_Metadata ns) (ns_Spec ns) st))) w) /\
  (forall nn b, wlp (post_then_get (httpNetworkNodeHandler POST name (inr nn)) (httpNetworkNodeHandler GET name b))
     (fun r _ => forall resp, r = Some resp -> exists n, NetworkNode.same_node nn n /\ resp = RespObject (VNetworkNode n)) w) /\
  (forall sp b, wlp (post_then_get (systemParametersHandler POST (inr sp)) (systemParametersHandler GET b)) (fun r _ =>
     forall resp, r = Some resp -> exists sp', (sp' = sp \/ sp' = SysParms.with_defaults sp) /\
       resp = RespObject (VSystemParameters sp')) w).
Proof.
  split_and!; intros; [apply pool_post_get|apply pod_post_get|apply overlay_post_get|apply service_post_get|
    apply node_post_get|apply sysparms_post_get].
Qed.

(** ** What was deleted is gone, and the echo of the deletion does nothing *)

(** Pools are changed in place, and allocators go. *)
Definition pools_edited (w w' : World) : Prop :=
  exists C A n, w' = with_clock n (with_IPAMPoolAllocators A (with_ipamPoolCache C w)) /\ dom C = dom (ipamPoolCache w).

Lemma pools_edited_refl w : pools_edited w w.
Proof. exists (ipamPoolCache w), (IPAMPoolAllocators w), (clock w). by destruct w. Qed.

Lemma pools_edited_trans w1 w2 w3 : pools_edited w1 w2 -> pools_edited w2 w3 -> pools_edited w1 w3.
Proof.
  intros (C & A & n & -> & H1) (C' & A' & n' & -> & H2). exists C', A', n'. split; [done|]. cbn in H2. congruence.
Qed.

Lemma EntityDelete_edits e scope w : wlp (IpamPool.EntityDelete e scope) (fun _ w' => pools_edited w w') w.
Proof.
  apply (wp_range_map _ _ _ (fun _ w' => pools_edited w w')); [| |done].
  { intros n. exists (ipamPoolCache w), (IPAMPoolAllocators w), n. by destruct w. }
  intros d k w' _ _ H. destruct (ipamPoolCache w' !! k) as [p|] eqn:Hk; [|done].
  unfold IpamPool.entity_delete_pool. destruct (ip_Spec p) as [spec|]; [|done]. wpw.
  destruct (_ || _); [|by wpw]. destruct (ip_Metadata p) as [md|]; [|done]. wpw.
  apply (wlp_keeps (fun w2 => w2 = w')); [apply IpamPool.keeps_FindAllocator|done|]. intros r ? ->. wpw.
  eapply (wp_conseq _ _ (fun _ w2 => w2 = w')); [destruct r; by wpw|].
  intros [a|] ? ->; [|by wpw]. wpw.
  apply (wlp_keeps (fun w2 => w2 = w')); [apply IpamPool.keeps_contructAllocatorName|done|]. intros name ? ->. wpw.
  destruct (ip_Status p) as [st|]; [|done]. wpw. eapply pools_edited_trans; [exact H|].
    exists (<[k := with_ip_Status (Some (delete name <$> st)) p]> (ipamPoolCache w')), (delete name (IPAMPoolAllocators w')), (clock w').
    split; [by destruct w'|]. cbn. rewrite dom_insert_L.
  apply elem_of_dom_2 in Hk. set_solver.
Qed.

(** Manager [m] has an object of that name. *)
Definition cached (m : manager) (name : string) (w : World) : Prop :=
  match m with
  | MgrSysParms => False
  | MgrIpamPool => is_Some (ipamPoolCache w !! name)
  | MgrPodNodeMap => is_Some (networkPodNodeCache w !! name)
  | MgrOverlay => is_Some (networkNodeOverlayCache w !! name)
  | MgrNode => is_Some (networkNodeCache w !! name)
  | MgrService => is_Some (networkServiceCache w !! name)
  end.

(** Neither the cache nor etcd has it. *)
Definition gone (m : manager) (name : string) (w : World) : Prop :=
  ~ cached m name w /\ etcd w !! (KeyPrefix m +:+ name) = None.

Lemma gone_edited m name w w' : pools_edited w w' -> gone m name w -> gone m name w'.
Proof.
  intros (C & A & n & -> & Hd) [Hc He]. split; [|done]. destruct m; cbn in *; try done.
  by rewrite <- elem_of_dom, Hd, elem_of_dom.
Qed.

(** The last steps of a deletion: out of the cache and out of etcd. *)
Lemma drop_gone m name (f : World -> World) w :
  (forall w, ~ cached m name (f w)) -> gone m name (with_etcd_log (Delete (KeyPrefix m +:+ name) :: etcd_log (f w))
    (with_etcd (delete (KeyPrefix m +:+ name) (etcd (f w))) (f w))).
Proof. intros H. split; [|by apply lookup_delete_eq]. specialize (H w). by destruct m. Qed.

Ltac deleting m :=
  unfold DeleteFromDatastore; wpw;
  match goal with |- context [with_etcd_log _ (with_etcd _ ?w1)] =>
    lazymatch w1 with
    | ?f (delete ?name ?c) ?w0 =>
        assert (gone m name (with_etcd_log (Delete (KeyPrefix m +:+ name) :: etcd_log w1)
          (with_etcd (delete (KeyPrefix m +:+ name) (etcd w1)) w1))) as Hg
          by (apply (drop_gone m name (fun w => f (delete name c) w)); intros w2 [x Hx]; cbn in Hx; by rewrite lookup_delete_eq in Hx)
    end
  end.

Lemma D_gone m name w :
  m <> MgrSysParms -> cached m name w -> wlp (mgr_D m (MsgName name)) (fun r w' => r = Ok tt /\ gone m name w') w.
Proof.
  intros Hm Hc. destruct m; [done| | | | |]; cbn [mgr_D].
  - unfold IpamPool.HandleCRUDOperationD. wpw. destruct Hc as [p Hp]. rewrite Hp. wpw. deleting MgrIpamPool.
    destruct (ip_Spec p) as [spec|]; [|done]. wpw.
    eapply wp_conseq; [apply EntityDelete_edits|]. intros [] w' He. wpw. split; [done|]. by eapply gone_edited.
  - unfold PodNodeMap.HandleCRUDOperationD. wpw. deleting MgrPodNodeMap. done.
  - unfold Overlay.HandleCRUDOperationD. wpw. destruct Hc as [p Hp]. rewrite Hp. wpw. deleting MgrOverlay. done.
  - unfold NetworkNode.HandleCRUDOperationD. wpw. destruct Hc as [p Hp]. rewrite Hp. wpw.
    apply wlp_any. intros [] w1. wpw. deleting MgrNode.
    eapply wp_conseq; [apply EntityDelete_edits|]. intros [] w' He. wpw. split; [done|]. by eapply gone_edited.
  - unfold NetworkService.HandleCRUDOperationD. wpw. destruct Hc as [p Hp]. rewrite Hp. wpw.
    apply wlp_any. intros [] w1. wpw. deleting MgrService.
    eapply wp_conseq; [apply EntityDelete_edits|]. intros [] w' He. wpw. split; [done|]. by eapply gone_edited.
Qed.

(** A deletion of what is gone. *)
Lemma D_echo m name w :
  m <> MgrSysParms -> gone m name w -> exists l, mgr_D m (MsgName name) w = Done (Ok tt) (with_etcd_log l w).
Proof.
  intros Hm [Hc He]. destruct m; [done| | | | |]; cbn [mgr_D cached] in *; try apply eq_None_not_Some in Hc.
  - exists (etcd_log w). unfold IpamPool.HandleCRUDOperationD, mbnd, get. rewrite Hc. by destruct w.
  - exists (Delete (PodNodeMap.NameKey name) :: etcd_log w).
    unfold PodNodeMap.HandleCRUDOperationD, DeleteFromDatastore, mbnd, modify, mok, mret. cbn.
    rewrite (delete_id (networkPodNodeCache w) name) by done. rewrite delete_id by exact He. by destruct w.
  - exists (etcd_log w). unfold Overlay.HandleCRUDOperationD, mbnd, get. rewrite Hc. by destruct w.
  - exists (etcd_log w). unfold NetworkNode.HandleCRUDOperationD, mbnd, get. rewrite Hc. by destruct w.
  - exists (etcd_log w). unfold NetworkService.HandleCRUDOperationD, mbnd, get. rewrite Hc. by destruct w.
Qed.

Lemma deletion_handled m name f w :
  m <> MgrSysParms -> cached m name w ->
  let msg := mkMsg (model_name m) OperationalMsgOpCodeDelete (MsgName name) in
  delete_answer (model_name m) name = (RespOK, Some msg) /\ InitAndRunWatcher m (WDelete name) = Some msg /\
  wlp (handle_msg msg f) (fun f' w' => isRenderingPending f' = true /\ gone m name w' /\
    exists l, handle_msg msg f' w' = Done f' (with_etcd_log l w')) w.
Proof.
  intros Hm Hc msg. split_and!; [done|by destruct m|]. apply handle_D.
  eapply wp_conseq; [by apply D_gone|]. intros r w' [-> Hg]. split_and!; [done|done|].
  destruct (D_echo m name w' Hm Hg) as [l R]. exists l. unfold handle_msg, msg. cbn [msg_opCode msg_model msg_data].
  rewrite find_model_name. unfold mbnd at 1, deref, mret. cbn. unfold mbnd. rewrite R. by destruct f.
Qed.


End thms.

(** ** Witness *)
Definition demo_pool : IPAMPool :=
  mkIPAMPool (Some (mkMeta "p" ∅)) (Some (mkIPAMPoolSpec IPAMPoolScopeNode "10.1.0.0/24" 0 0)) None.

Definition demo_pool_world : World :=
  with_etcd {[IpamPool.KeyPrefix +:+ "p" := VIPAMPool demo_pool]} (with_ipamPoolCache {["p" := demo_pool]} initial_world).


End Frontend.
