(* ===== verification/MessageLoop.v ===== *)
(** * The message loop: model_mgrs.go, ProcessOperationalMessages

    Module MessageLoop: what the flags of the loop and the state are after any sequence
    of messages.  The operations of the managers are treated through the invariants they keep. *)

From S2P Require Import Prelude GoStd IdAlloc Ipam Model VppAgent State RenderTxn SysParms IpamPool PodNodeMap.
From S2P Require Import Interfaces EntityTxn NetworkNode Overlay ServiceIf NetworkService Controller.

Module MessageLoop.
Import RenderTxn Interfaces EntityTxn Controller.

(** The last message that enables or disables the renderer decides. *)
Fixpoint gate (b : bool) (msgs : list OperationalMsg) : bool :=
  match msgs with
  | [] => b
  | msg :: msgs =>
      gate (match msg_opCode msg with
            | OperationalMsgOpCodeEnableRenderer => true
            | OperationalMsgOpCodeDisableRenderer => false
            | _ => b
            end) msgs
  end.

(** The messages that ask for a rendering. *)
Definition is_change (msg : OperationalMsg) : bool :=
  match msg_opCode msg with
  | OperationalMsgOpCodeRender | OperationalMsgOpCodeCreateUpdate | OperationalMsgOpCodeDelete => true
  | _ => false
  end.

(** A state in which a transaction can start. *)
Definition ready (w : World) : Prop :=
  configMutex w = false /\ wf_entries (bd_heap w) (VppEntries w).

Lemma gate_app b l1 l2 : gate b (l1 ++ l2) = gate (gate b l1) l2.
Proof. revert b. induction l1 as [|m l1 IH]; intros b; [done|]. cbn. apply IH. Qed.

Section loop.
Context {E : Env}.

(** ** The operations of the managers keep the state ready *)

Lemma framed_ready : framed ready.
Proof. by split. Qed.

Lemma ipam_free_ready : IpamPool.ipam_free ready.
Proof. by split. Qed.

Local Hint Resolve framed_ready ipam_free_ready : keeps.

(** An assignment that leaves the lock, the bridges and the known entries alone. *)
Lemma keeps_other (f : World -> World) :
  (forall w, configMutex (f w) = configMutex w /\ bd_heap (f w) = bd_heap w /\ VppEntries (f w) = VppEntries w) ->
  keeps ready (modify f).
Proof. intros H. apply keeps_modify. intros w [Hm Hw]. unfold ready. by destruct (H w) as (-> & -> & ->). Qed.

Lemma ready_forget key w : ready w -> ready (with_VppEntries (delete key (VppEntries w)) w).
Proof. intros [Hm Hw]. split; [done|]. cbn. by apply wf_entries_delete. Qed.

Lemma keeps_DeleteRendered r : keeps ready (DeleteRenderedVppAgentEntries r).
Proof.
  unfold DeleteRenderedVppAgentEntries. keeps_auto; try apply framed_ready.
  apply keeps_modify. intros w. apply ready_forget.
Qed.

Lemma stores_ready : stores_status ready.
Proof. apply framed_stores; [apply framed_ready|by intros ? ? []]. Qed.

Local Hint Extern 1 (keeps ready (DeleteInterfaceEntries _)) => exact (keeps_DeleteInterfaceEntries _ stores_ready _) : keeps.

Local Hint Resolve keeps_DeleteRendered : keeps.

Lemma keeps_Create e s : keeps ready (IpamPool.EntityCreate e s).
Proof. apply IpamPool.keeps_EntityCreate, ipam_free_ready. Qed.

Lemma keeps_Delete e s : keeps ready (IpamPool.EntityDelete e s).
Proof. apply IpamPool.keeps_EntityDelete, ipam_free_ready. Qed.

Local Hint Resolve keeps_Create keeps_Delete : keeps.

Ltac handler :=
  keeps_auto; try apply framed_ready; try (by apply keeps_other);
  try (apply keeps_range_map; [apply framed_ready|]; intros; keeps_auto).

Lemma keeps_SysParms_CU sp : keeps ready (SysParms.HandleCRUDOperationCU sp).
Proof. unfold SysParms.HandleCRUDOperationCU, SysParms.writeToDatastore, put_field. handler. Qed.

Lemma keeps_SysParms_D : keeps ready SysParms.HandleCRUDOperationD.
Proof. unfold SysParms.HandleCRUDOperationD, put_field. handler. apply keeps_SysParms_CU. Qed.

Lemma keeps_mgr_CU m data : keeps ready (mgr_CU m data).
Proof.
  destruct m, data; cbn [mgr_CU]; try apply keeps_panic; [apply keeps_SysParms_CU| | | | |].
  - unfold IpamPool.HandleCRUDOperationCU, IpamPool.writeToDatastore. handler.
  - unfold PodNodeMap.HandleCRUDOperationCU, PodNodeMap.writeToDatastore. handler.
  - unfold Overlay.HandleCRUDOperationCU, Overlay.writeToDatastore, Overlay.validate, Overlay.overlay_name. handler.
    apply keeps_other. intros w. by destruct (vniAllocators w !! _).
  - unfold NetworkNode.HandleCRUDOperationCU, NetworkNode.writeToDatastore, NetworkNode.validate,
      NetworkNode.validate_l2bd, NetworkNode.node_name, NetworkNode.put_node. handler.
  - unfold NetworkService.HandleCRUDOperationCU, NetworkService.writeToDatastore,
      ServiceIf.service_name, ServiceIf.put_service. handler. apply NetworkService.keeps_validate.
Qed.

Lemma keeps_mgr_D m data : keeps ready (mgr_D m data).
Proof.
  destruct m, data; cbn [mgr_D]; try apply keeps_panic; try (apply keeps_SysParms_D).
  - unfold IpamPool.HandleCRUDOperationD. handler.
  - unfold PodNodeMap.HandleCRUDOperationD. handler.
  - unfold Overlay.HandleCRUDOperationD. handler.
  - unfold NetworkNode.HandleCRUDOperationD, NetworkNode.renderDelete, NetworkNode.get_status,
      NetworkNode.put_status, NetworkNode.get_node. handler.
  - unfold NetworkService.HandleCRUDOperationD, NetworkService.renderDelete, ServiceIf.get_status,
      ServiceIf.put_status. handler.
Qed.

(** ** A resync touches the placements only *)

Definition placements (w w' : World) : Prop := exists n r, w' = with_clock n (with_ramPodToNode r w).

Lemma placements_refl w : placements w w.
Proof. exists (clock w), (ramPodToNode w). by destruct w. Qed.

Lemma placements_trans w1 w2 w3 : placements w1 w2 -> placements w2 w3 -> placements w1 w3.
Proof. intros (n & r & ->) (n' & r' & ->). by exists n', r'. Qed.

Lemma placements_ram r w : placements w (with_ramPodToNode r w).
Proof. exists (clock w), r. by destruct w. Qed.

Lemma load_into_same vs m w : wlp (PodNodeMap.load_into vs m) (fun _ w' => w' = w) w.
Proof. revert m. induction vs as [|v vs IH]; intros m; cbn; [by wpw|]. by destruct v. Qed.

Lemma copied_placements (src : World -> gmap string NetworkPodToNodeMap) w :
  wlp (range_map src (fun pod entry => modify (fun w => with_ramPodToNode (<[pod := entry]> (ramPodToNode w)) w)))
      (fun _ w' => placements w w') w.
Proof.
  apply (wp_range_map _ _ _ (fun _ w' => placements w w')); [| |done].
  - intros n. by exists n, (ramPodToNode w); destruct w.
  - intros d k w' _ _ H. destruct (src w' !! k); [|done]. apply wp_modify.
    eapply placements_trans; [exact H|]. apply placements_ram.
Qed.

Lemma Sync_placements w : wlp PodNodeMap.SyncNetworkPodToNodeMap (fun _ w' => placements w w') w.
Proof.
  unfold PodNodeMap.SyncNetworkPodToNodeMap, PodNodeMap.loadAllFromDatastore, ReadAll, tick. wpw.
  destruct (get_error _ _); [done|]. wpw. apply wp_order_keys. intros ks n _ _. wpw.
  eapply wp_conseq; [apply load_into_same|]. intros m ? ->. wpw.
  eapply wp_conseq; [apply copied_placements|]. intros [] w1 H1. wpw.
  eapply wp_conseq; [apply copied_placements|]. intros [] w2 H2. wpw.
  assert (placements w w2) as H.
  { eapply placements_trans; [|exact H2]. eapply placements_trans; [|exact H1]. by eexists _, _. }
  destruct (negb _); [by wpw|]. wpw. apply wp_order_keys. intros ks' n' _ _. wpw.
  eapply placements_trans; [exact H|]. exists n', (ramPodToNode w2). by destruct w2.
Qed.

Lemma ready_placements w w' : placements w w' -> ready w -> ready w'.
Proof. by intros (n & r & ->). Qed.

Lemma rendered_placements w0 w w' : placements w w' -> rendered w0 w -> rendered w0 w'.
Proof. intros (n & r & ->) []. by split. Qed.

(** ** The invariant of the loop

    After the messages [d], which leave the flags [f] and the state [w]. *)
Record looped (d : list OperationalMsg) (f : flags) (w : World) : Prop := {
  lp_ready : ready w;
  lp_enabled : isRenderingEnabled f = gate false d;
  lp_pending : isRenderingPending f = true -> isRenderingEnabled f = false;
  lp_rendered : existsb is_change d = true -> isRenderingPending f = true \/ exists w0, rendered w0 w
}.

(** What the switch on a message leaves to the test that follows it. *)
Record switched (d : list OperationalMsg) (f : flags) (w : World) : Prop := {
  sw_ready : ready w;
  sw_enabled : isRenderingEnabled f = gate false d;
  sw_rendered : existsb is_change d = true -> isRenderingPending f = true \/ exists w0, rendered w0 w
}.

Lemma existsb_snoc d msg : existsb is_change (d ++ [msg]) = existsb is_change d || is_change msg.
Proof. rewrite existsb_app. cbn. by rewrite orb_false_r. Qed.

(** A change: the rendering is due. *)
Lemma switched_due d msg f w w' :
  looped d f w -> ready w' -> gate (gate false d) [msg] = gate false d ->
  switched (d ++ [msg]) (mkFlags (isRenderingEnabled f) true) w'.
Proof. intros [_ He _ _] Hr Hg. split; [done| |by left]. by rewrite gate_app, Hg, <- He. Qed.

(** A message that is no change. *)
Lemma switched_other d msg f f' w :
  looped d f w -> is_change msg = false -> isRenderingEnabled f' = gate (gate false d) [msg] ->
  isRenderingPending f' = isRenderingPending f -> switched (d ++ [msg]) f' w.
Proof.
  intros [Hr _ _ Hc] Hm He Hp. split; [done|by rewrite gate_app|]. by rewrite existsb_snoc, Hm, orb_false_r, Hp.
Qed.

Lemma handle_msg_wlp d msg f w : looped d f w -> wlp (handle_msg msg f) (switched (d ++ [msg])) w.
Proof.
  intros Hl. pose proof (lp_ready _ _ _ Hl) as Hr. unfold handle_msg.
  destruct (msg_opCode msg) eqn:Hop.
  - wpw. eapply switched_due; [exact Hl|done|]. cbn. by rewrite Hop.
  - wpw. eapply switched_other; [exact Hl| | |done]; [unfold is_change|cbn]; by rewrite Hop.
  - wpw. eapply switched_other; [exact Hl| | |done]; [unfold is_change|cbn]; by rewrite Hop.
  - destruct (findModelManager (msg_model msg)) as [m|]; [|done]. wpw.
    eapply wlp_keeps; [apply (keeps_mgr_CU m)|done|]. intros r w' Hr'. wpw.
    eapply switched_due; [exact Hl|done|]. cbn. by rewrite Hop.
  - destruct (findModelManager (msg_model msg)) as [m|]; [|done]. wpw.
    eapply wlp_keeps; [apply (keeps_mgr_D m)|done|]. intros r w' Hr'. wpw.
    eapply switched_due; [exact Hl|done|]. cbn. by rewrite Hop.
  - wpw. eapply wp_conseq; [apply Sync_placements|]. intros required w' Hp. wpw.
    pose proof (ready_placements _ _ Hp Hr) as Hr'. destruct Hl as [_ He _ Hc]. split; [done| |].
    + by rewrite gate_app; cbn; rewrite Hop.
    + rewrite existsb_snoc. unfold is_change at 2. rewrite Hop, orb_false_r. intros Hd.
      destruct (Hc Hd) as [Hpend|(w0 & H0)]; [left; cbn; by rewrite Hpend, orb_true_r|right].
      exists w0. by apply (rendered_placements _ w).
Qed.

Lemma process_msg_wlp d msg f w :
  (forall n key, put_error n key = None) -> looped d f w -> wlp (process_msg f msg) (looped (d ++ [msg])) w.
Proof.
  intros Hno Hl. unfold process_msg. wpw. eapply wp_conseq; [by apply handle_msg_wlp|].
  intros f' w' [[Hm Hw] He Hc]. destruct (isRenderingEnabled f') eqn:Een, (isRenderingPending f') eqn:Epe; cbn [andb].
  - wpw. eapply wp_conseq; [by apply render_transaction_wlp|]. intros r w2 [-> Hr]. wpw.
    split; [split; apply Hr|done|done|]. intros _. right. by exists w'.
  - wpw. split; [done|by rewrite Een|by rewrite Epe|by rewrite Epe].
  - wpw. split; [done|by rewrite Een|done|by rewrite Epe].
  - wpw. split; [done|by rewrite Een|done|by rewrite Epe].
Qed.

Lemma message_loop_wlp msgs w :
  (forall n key, put_error n key = None) -> ready w -> wlp (ProcessOperationalMessages msgs) (looped msgs) w.
Proof.
  intros Hno Hr. unfold ProcessOperationalMessages. apply (wp_foldM_done _ _ _ _ looped); [by split| |done].
  intros d msg r f w' -> Hl. by apply process_msg_wlp.
Qed.

End loop.

(** ** Witness: a service is configured while the renderer is disabled *)
Definition demo_messages : list OperationalMsg :=
  [mkMsg ModelTypeNetworkPodNodeMap OperationalMsgOpCodeCreateUpdate (MsgPodToNode (mkPodToNode "vnf1" "n1"));
   mkMsg ModelTypeNetworkPodNodeMap OperationalMsgOpCodeCreateUpdate (MsgPodToNode (mkPodToNode "vnf2" "n1"));
   mkMsg ModelTypeNetworkNode OperationalMsgOpCodeCreateUpdate (MsgNode NetworkNode.demo_node);
   mkMsg ModelTypeNetworkService OperationalMsgOpCodeCreateUpdate (MsgService NetworkService.demo_service);
   mkMsg "" OperationalMsgOpCodeEnableRenderer (MsgName "");
   mkMsg ModelTypeNetworkService OperationalMsgOpCodeDelete (MsgName "s1")].

(** The four entries of the node and the service are rendered when it is enabled, the
    two of the service go when it is deleted. *)
Lemma demo_messages_render :
  match @ProcessOperationalMessages quiet_env demo_messages initial_world with
  | Done f w' => f = mkFlags true false /\ size (VppEntries w') = 2%nat
  | Panic => False
  end.
Proof. vm_compute. split; reflexivity. Qed.

End MessageLoop.
