(* ===== verification/Mirror.v ===== *)
(** * The configuration in etcd

    Module Mirror: that etcd holds the configuration that the managers hold, and that nothing rendered has a key
    of the configuration.  Of the status of an object only the entries that it lists are compared. *)

From S2P Require Import Prelude GoStd IdAlloc Ipam Model VppAgent State RenderTxn SysParms IpamPool PodNodeMap.
From S2P Require Import Interfaces EntityTxn NetworkNode Overlay ServiceIf NetworkService.

Module Mirror.
Import VppAgent RenderTxn Interfaces EntityTxn.

(** ** What is compared *)

Definition pool_conf (p : IPAMPool) := (ip_Metadata p, ip_Spec p).

Definition overlay_conf (nno : NetworkNodeOverlay) := (nno_Metadata nno, nno_Spec nno).

(** Of the status the entries it lists.  The parents of the interfaces of a node are filled in by its
    validation. *)
Definition node_conf {R} (nn : NetworkNode R) :=
  (nn_Metadata nn, NetworkNode.unparented <$> nn_Spec nn, default ∅ (nn_Status nn ≫= nnt_Rendered)).

Definition service_conf {R} (ns : NetworkService R) :=
  (ns_Metadata ns, ns_Spec ns, default ∅ (ns_Status ns ≫= nst_Rendered)).

(** The name and the configuration in a value of etcd; [None] when it has no name or
    is of another type. *)
Definition named {C} (md : option MetaDataType) (c : C) : option (string * C) := (fun md => (md_Name md, c)) <$> md.

Definition parse_pool (v : Value) :=
  match v with VIPAMPool p => named (ip_Metadata p) (pool_conf p) | _ => None end.

Definition parse_overlay (v : Value) :=
  match v with VNetworkNodeOverlay nno => named (nno_Metadata nno) (overlay_conf nno) | _ => None end.

Definition parse_node (v : Value) :=
  match v with VNetworkNode nn => named (nn_Metadata nn) (node_conf nn) | _ => None end.

Definition parse_service (v : Value) :=
  match v with VNetworkService ns => named (ns_Metadata ns) (service_conf ns) | _ => None end.

Definition parse_placement (v : Value) :=
  match v with VPodToNode p2n => Some (pn_Pod p2n, p2n) | _ => None end.

(** The configuration of the managers. *)
Record Config : Type := mkConfig {
  cf_params : SystemParameters;
  cf_pools : gmap string (option MetaDataType * option IPAMPoolSpec);
  cf_placements : gmap string NetworkPodToNodeMap;
  cf_overlays : gmap string (option MetaDataType * option NetworkNodeOverlaySpec);
  cf_nodes : gmap string (option MetaDataType * option NetworkNodeSpec * Rendered);
  cf_services : gmap string (option MetaDataType * option NetworkServiceSpec * Rendered)
}.

Definition with_cf_params x c := mkConfig x (cf_pools c) (cf_placements c) (cf_overlays c) (cf_nodes c) (cf_services c).

Definition with_cf_pools x c := mkConfig (cf_params c) x (cf_placements c) (cf_overlays c) (cf_nodes c) (cf_services c).

Definition with_cf_placements x c := mkConfig (cf_params c) (cf_pools c) x (cf_overlays c) (cf_nodes c) (cf_services c).

Definition with_cf_overlays x c := mkConfig (cf_params c) (cf_pools c) (cf_placements c) x (cf_nodes c) (cf_services c).

Definition with_cf_nodes x c := mkConfig (cf_params c) (cf_pools c) (cf_placements c) (cf_overlays c) x (cf_services c).

Definition with_cf_services x c := mkConfig (cf_params c) (cf_pools c) (cf_placements c) (cf_overlays c) (cf_nodes c) x.

Definition config (w : World) : Config :=
  mkConfig (sysParmCache w) (pool_conf <$> ipamPoolCache w) (networkPodNodeCache w)
    (overlay_conf <$> networkNodeOverlayCache w) (node_conf <$> networkNodeCache w)
    (service_conf <$> networkServiceCache w).

(** ** Etcd mirrors the configuration *)

(** Under the prefix etcd holds a value for each object of the map, under its name, and
    nothing else. *)
Definition mirrors {C} (prefix : string) (parse : Value -> option (string * C)) (m : gmap string Value)
  (c : gmap string C) : Prop :=
  forall name, parse <$> m !! (prefix +:+ name) = (fun a => Some (name, a)) <$> c !! name.

Record mirrored (m : gmap string Value) (c : Config) : Prop := {
  mr_params : m !! SysParms.KeyPrefix = Some (VSystemParameters (cf_params c))
              \/ (m !! SysParms.KeyPrefix = None /\ cf_params c = zero_SysParms);
  mr_pools : mirrors IpamPool.KeyPrefix parse_pool m (cf_pools c);
  mr_placements : mirrors PodNodeMap.KeyPrefix parse_placement m (cf_placements c);
  mr_overlays : mirrors Overlay.KeyPrefix parse_overlay m (cf_overlays c);
  mr_nodes : mirrors NetworkNode.KeyPrefix parse_node m (cf_nodes c);
  mr_services : mirrors NetworkService.KeyPrefix parse_service m (cf_services c)
}.

Section mirrors.
Context {C : Type} (prefix : string) (parse : Value -> option (string * C)).

Lemma mirrors_put m c name v a :
  parse v = Some (name, a) -> mirrors prefix parse m c -> mirrors prefix parse (<[prefix +:+ name := v]> m) (<[name := a]> c).
Proof.
  intros Hv Hm name'. destruct (decide (name' = name)) as [->|Hne]; [by rewrite !lookup_insert_eq; cbn; rewrite Hv|].
  rewrite !lookup_insert_ne; [apply Hm|done|]. by intros ?%sapp_inj_l.
Qed.

Lemma mirrors_delete m c name :
  mirrors prefix parse m c -> mirrors prefix parse (delete (prefix +:+ name) m) (delete name c).
Proof.
  intros Hm name'. destruct (decide (name' = name)) as [->|Hne]; [by rewrite !lookup_delete_eq|].
  rewrite !lookup_delete_ne; [apply Hm|done|]. by intros ?%sapp_inj_l.
Qed.

Lemma mirrors_ext m m' c :
  (forall name, m' !! (prefix +:+ name) = m !! (prefix +:+ name)) -> mirrors prefix parse m c -> mirrors prefix parse m' c.
Proof. intros Hm' Hm name. rewrite Hm'. apply Hm. Qed.
End mirrors.

(** A change of one key: the prefixes of the managers differ. *)
Ltac other_keys :=
  intros; first [apply lookup_insert_ne | apply lookup_delete_ne]; discriminate.

Ltac mirror :=
  intros []; split; cbn [cf_params cf_pools cf_placements cf_overlays cf_nodes cf_services config];
  first [ by apply mirrors_put | by apply mirrors_delete
        | by eapply mirrors_ext; [other_keys|]
        | by rewrite lookup_insert_ne by discriminate | by rewrite lookup_delete_ne by discriminate | idtac ].

Lemma mirrored_put_pool m P a b c d e name v x :
  parse_pool v = Some (name, x) -> mirrored m (mkConfig P a b c d e) ->
  mirrored (<[IpamPool.NameKey name := v]> m) (mkConfig P (<[name := x]> a) b c d e).
Proof. intros Hv. mirror. Qed.

Lemma mirrored_delete_pool m P a b c d e name :
  mirrored m (mkConfig P a b c d e) -> mirrored (delete (IpamPool.NameKey name) m) (mkConfig P (delete name a) b c d e).
Proof. mirror. Qed.

Lemma mirrored_put_placement m P a b c d e p2n :
  mirrored m (mkConfig P a b c d e) ->
  mirrored (<[PodNodeMap.NameKey (pn_Pod p2n) := VPodToNode p2n]> m) (mkConfig P a (<[pn_Pod p2n := p2n]> b) c d e).
Proof. mirror. Qed.

Lemma mirrored_delete_placement m P a b c d e name :
  mirrored m (mkConfig P a b c d e) ->
  mirrored (delete (PodNodeMap.NameKey name) m) (mkConfig P a (delete name b) c d e).
Proof. mirror. Qed.

Lemma mirrored_put_overlay m P a b c d e name v x :
  parse_overlay v = Some (name, x) -> mirrored m (mkConfig P a b c d e) ->
  mirrored (<[Overlay.NameKey name := v]> m) (mkConfig P a b (<[name := x]> c) d e).
Proof. intros Hv. mirror. Qed.

Lemma mirrored_delete_overlay m P a b c d e name :
  mirrored m (mkConfig P a b c d e) ->
  mirrored (delete (Overlay.NameKey name) m) (mkConfig P a b (delete name c) d e).
Proof. mirror. Qed.

Lemma mirrored_put_node m P a b c d e name v x :
  parse_node v = Some (name, x) -> mirrored m (mkConfig P a b c d e) ->
  mirrored (<[NetworkNode.NameKey name := v]> m) (mkConfig P a b c (<[name := x]> d) e).
Proof. intros Hv. mirror. Qed.

Lemma mirrored_delete_node m P a b c d e name :
  mirrored m (mkConfig P a b c d e) ->
  mirrored (delete (NetworkNode.NameKey name) m) (mkConfig P a b c (delete name d) e).
Proof. mirror. Qed.

Lemma mirrored_put_service m P a b c d e name v x :
  parse_service v = Some (name, x) -> mirrored m (mkConfig P a b c d e) ->
  mirrored (<[NetworkService.NameKey name := v]> m) (mkConfig P a b c d (<[name := x]> e)).
Proof. intros Hv. mirror. Qed.

Lemma mirrored_delete_service m P a b c d e name :
  mirrored m (mkConfig P a b c d e) ->
  mirrored (delete (NetworkService.NameKey name) m) (mkConfig P a b c d (delete name e)).
Proof. mirror. Qed.

Lemma mirrored_put_params m P a b c d e P' :
  mirrored m (mkConfig P a b c d e) ->
  mirrored (<[SysParms.KeyPrefix := VSystemParameters P']> m) (mkConfig P' a b c d e).
Proof. mirror. left. apply lookup_insert_eq. Qed.

(** ** Nothing rendered has a key of the configuration

    Such an entry would overwrite an object of the configuration, or be deleted with it. *)
Definition listed_off (r : option Rendered) : Prop :=
  forall key e, default ∅ r !! key = Some e -> re_VppAgentKey e = key /\ foreign key.

Definition entries_off (m : gmap string KVType) : Prop :=
  forall key kv, m !! key = Some kv -> foreign key /\ foreign (VppKey kv).

(** What a stored object lists. *)
Definition value_off (v : Value) : Prop :=
  match v with
  | VNetworkNode nn => listed_off (nn_Status nn ≫= nnt_Rendered)
  | VNetworkService ns => listed_off (ns_Status ns ≫= nst_Rendered)
  | _ => True
  end.

Record harmless (w : World) : Prop := {
  ha_etcd : forall key v, ~ foreign key -> etcd w !! key = Some v -> value_off v;
  ha_nodes : forall k nn, networkNodeCache w !! k = Some nn -> listed_off (nn_Status nn ≫= nnt_Rendered);
  ha_services : forall k ns, networkServiceCache w !! k = Some ns -> listed_off (ns_Status ns ≫= nst_Rendered);
  ha_after : forall l m, afterMap w !! l = Some m -> entries_off m;
  ha_before : forall l m, beforeMap w !! l = Some m -> entries_off m;
  ha_known : entries_off (VppEntries w)
}.

Lemma listed_off_none : listed_off None.
Proof. intros key e H. cbn in H. by rewrite lookup_empty in H. Qed.

Lemma listed_off_empty : listed_off (Some ∅).
Proof. apply listed_off_none. Qed.

Lemma listed_off_insert r key e :
  re_VppAgentKey e = key -> foreign key -> listed_off (Some r) -> listed_off (Some (<[key := e]> r)).
Proof. intros He Hf Hr key' e'. cbn. intros [[<- <-]|[_ Hk]]%lookup_insert_Some; [done|by eapply Hr]. Qed.

Lemma listed_off_union r r' : listed_off (Some r) -> listed_off r' -> listed_off (Some (r ∪ default ∅ r')).
Proof. intros H1 H2 key e [Hk|[_ Hk]]%lookup_union_Some_raw; [by eapply H1|by eapply H2]. Qed.

Lemma entries_off_empty : entries_off ∅.
Proof. intros key e H. cbn in H. by rewrite lookup_empty in H. Qed.

Lemma entries_off_insert m key kv : foreign key -> foreign (VppKey kv) -> entries_off m -> entries_off (<[key := kv]> m).
Proof. intros H1 H2 Hm key' kv' [[<- <-]|[_ Hk]]%lookup_insert_Some; [done|by apply Hm]. Qed.

Lemma entries_off_delete m key : entries_off m -> entries_off (delete key m).
Proof. intros Hm key' kv' [_ Hk]%lookup_delete_Some. by apply Hm. Qed.

(** The maps of the levels. *)
Lemma levels_insert (X : gmap Z (gmap string KVType)) l m :
  entries_off m -> (forall l m, X !! l = Some m -> entries_off m) -> forall l' m', <[l := m]> X !! l' = Some m' -> entries_off m'.
Proof. intros Hm HX l' m' [[<- <-]|[_ Hl]]%lookup_insert_Some; [done|by eapply HX]. Qed.

Lemma levels_delete (X : gmap Z (gmap string KVType)) l :
  (forall l m, X !! l = Some m -> entries_off m) -> forall l' m', delete l X !! l' = Some m' -> entries_off m'.
Proof. intros HX l' m' [_ Hl]%lookup_delete_Some. by eapply HX. Qed.

Lemma levels_forget (X : gmap Z (gmap string KVType)) l key :
  (forall l m, X !! l = Some m -> entries_off m) -> forall l' m', alter (delete key) l X !! l' = Some m' -> entries_off m'.
Proof.
  intros HX l' m' [(<- & m & Hm & ->)|[_ Hl]]%lookup_alter_Some; [apply entries_off_delete|]; by eapply HX.
Qed.

Lemma harmless_put key v w : value_off v -> harmless w -> harmless (with_etcd (<[key := v]> (etcd w)) w).
Proof. intros Hv []. split; try done; cbn. intros key' v' Hk [[<- <-]|[_ H]]%lookup_insert_Some; [done|by eauto]. Qed.

Lemma harmless_put_foreign key v w : foreign key -> harmless w -> harmless (with_etcd (<[key := v]> (etcd w)) w).
Proof. intros Hv []. split; try done; cbn. intros key' v' Hk [[<- <-]|[_ H]]%lookup_insert_Some; [done|by eauto]. Qed.

Lemma harmless_delete key w : harmless w -> harmless (with_etcd (delete key (etcd w)) w).
Proof. intros []; split; try done; cbn. intros key' v' Hk [_ H]%lookup_delete_Some. by eauto. Qed.

Lemma harmless_node k nn w :
  listed_off (nn_Status nn ≫= nnt_Rendered) -> harmless w ->
  harmless (with_networkNodeCache (<[k := nn]> (networkNodeCache w)) w).
Proof. intros Hn []. split; try done; cbn. intros k' nn' [[<- <-]|[_ H]]%lookup_insert_Some; [done|by eauto]. Qed.

Lemma harmless_node_gone k w : harmless w -> harmless (with_networkNodeCache (delete k (networkNodeCache w)) w).
Proof. intros []; split; try done; cbn. intros k' nn' [_ H]%lookup_delete_Some. by eauto. Qed.

Lemma harmless_service k ns w :
  listed_off (ns_Status ns ≫= nst_Rendered) -> harmless w ->
  harmless (with_networkServiceCache (<[k := ns]> (networkServiceCache w)) w).
Proof. intros Hn []. split; try done; cbn. intros k' nn' [[<- <-]|[_ H]]%lookup_insert_Some; [done|by eauto]. Qed.

Lemma harmless_service_gone k w : harmless w -> harmless (with_networkServiceCache (delete k (networkServiceCache w)) w).
Proof. intros []; split; try done; cbn. intros k' ns' [_ H]%lookup_delete_Some. by eauto. Qed.

(** ** A relation between etcd and the configuration, which keys outside of it do not matter to *)
Class Configured (R : gmap string Value -> Config -> Prop) : Prop := {
  co_put : forall key v m c, foreign key -> R m c -> R (<[key := v]> m) c;
  co_delete : forall key m c, foreign key -> R m c -> R (delete key m) c
}.

Record held (R : gmap string Value -> Config -> Prop) (w : World) : Prop := {
  he_config : R (etcd w) (config w);
  he_harmless : harmless w
}.

(** What etcd holds is what the managers hold. *)
Abbreviation stored := (held mirrored).

Lemma not_foreign sub name : ~ foreign (SfcControllerConfigPrefix +:+ sub +:+ name).
Proof. unfold foreign. by rewrite prefix_app. Qed.

Lemma mirrors_foreign {C} sub (parse : Value -> option (string * C)) m m' c key :
  foreign key -> (forall key', key' <> key -> m' !! key' = m !! key') ->
  mirrors (SfcControllerConfigPrefix +:+ sub) parse m c -> mirrors (SfcControllerConfigPrefix +:+ sub) parse m' c.
Proof.
  intros Hk Hm. apply mirrors_ext. intros name. apply Hm. intros <-. rewrite sapp_assoc in Hk. by eapply not_foreign.
Qed.

Lemma mirrored_foreign m m' c key :
  foreign key -> (forall key', key' <> key -> m' !! key' = m !! key') -> mirrored m c -> mirrored m' c.
Proof.
  intros Hk Hm []. split; try by eapply mirrors_foreign.
  rewrite Hm; [done|]. intros <-. done.
Qed.

#[export] Instance mirrored_configured : Configured mirrored.
Proof.
  split; intros; (eapply mirrored_foreign; [done| |done]); intros; [by apply lookup_insert_ne|by apply lookup_delete_ne].
Qed.

(** *** One object is in another state than etcd has it *)
Definition mirrored_upto {X} (write : X -> Config -> Config) (P : Config -> Prop) (m : gmap string Value) (c : Config) : Prop :=
  (exists x, mirrored m (write x c)) /\ P c.

#[export] Instance mirrored_upto_configured {X} (write : X -> Config -> Config) P : Configured (mirrored_upto write P).
Proof.
  split; [intros key v m c Hk [[s Hs] Hn]|intros key m c Hk [[s Hs] Hn]]; (split; [exists s|done]);
    [by apply (co_put key)|by apply (co_delete key)].
Qed.

Definition mirrored_but_node (k : string) :=
  mirrored_upto (fun x c => with_cf_nodes (<[k := x]> (cf_nodes c)) c)
    (fun c => forall x, cf_nodes c !! k = Some x -> md_Name <$> fst (fst x) = Some k).

Definition mirrored_but_service (k : string) :=
  mirrored_upto (fun x c => with_cf_services (<[k := x]> (cf_services c)) c)
    (fun c => forall x, cf_services c !! k = Some x -> md_Name <$> fst (fst x) = Some k).

#[export] Instance mirrored_but_node_configured k : Configured (mirrored_but_node k).
Proof. apply mirrored_upto_configured. Qed.

#[export] Instance mirrored_but_service_configured k : Configured (mirrored_but_service k).
Proof. apply mirrored_upto_configured. Qed.

(** *** What does not touch etcd and the configuration *)
Lemma pool_status_config w k p st :
  ipamPoolCache w !! k = Some p ->
  config (with_ipamPoolCache (<[k := with_ip_Status st p]> (ipamPoolCache w)) w) = config w.
Proof.
  intros Hk. unfold config. cbn. f_equal. rewrite fmap_insert. apply insert_id. by rewrite lookup_fmap, Hk.
Qed.

Lemma node_config w k nn nn' :
  networkNodeCache w !! k = Some nn -> node_conf nn' = node_conf nn ->
  config (with_networkNodeCache (<[k := nn']> (networkNodeCache w)) w) = config w.
Proof.
  intros Hk Hc. unfold config. cbn. f_equal. rewrite fmap_insert, Hc. apply insert_id. by rewrite lookup_fmap, Hk.
Qed.

Lemma service_config w k ns ns' :
  networkServiceCache w !! k = Some ns -> service_conf ns' = service_conf ns ->
  config (with_networkServiceCache (<[k := ns']> (networkServiceCache w)) w) = config w.
Proof.
  intros Hk Hc. unfold config. cbn. f_equal. rewrite fmap_insert, Hc. apply insert_id. by rewrite lookup_fmap, Hk.
Qed.

Ltac same :=
  intros; lazymatch goal with H : held _ _ |- _ => destruct H as [? []] end; split; [done|by split].

Section held.
Context {E : Env} (R : gmap string Value -> Config -> Prop) `{!Configured R}.

Abbreviation I := (held R).

Lemma held_clock n w : I w -> I (with_clock n w).
Proof. same. Qed.

Lemma held_pool_status k p st w :
  ipamPoolCache w !! k = Some p -> I w -> I (with_ipamPoolCache (<[k := with_ip_Status st p]> (ipamPoolCache w)) w).
Proof.
  intros Hk [HR []]. split; [|by split].
  change (R (etcd w) (config (with_ipamPoolCache (<[k := with_ip_Status st p]> (ipamPoolCache w)) w))).
  by rewrite pool_status_config.
Qed.

Lemma held_ipam_free : IpamPool.ipam_free I.
Proof. split; [same|same|apply held_pool_status]. Qed.

Lemma held_interface_free : interface_free I.
Proof. split; [same|apply held_ipam_free|same]. Qed.

Lemma held_put_foreign key v w :
  foreign key -> I w -> I (with_etcd_log (Put key :: etcd_log w) (with_etcd (<[key := v]> (etcd w)) w)).
Proof.
  intros Hk [HR Hh]. split; [by apply (co_put key)|]. destruct (harmless_put_foreign key v w Hk Hh). by split.
Qed.

Lemma held_delete_foreign key w :
  foreign key -> I w -> I (with_etcd_log (Delete key :: etcd_log w) (with_etcd (delete key (etcd w)) w)).
Proof.
  intros Hk [HR Hh]. split; [by apply (co_delete key)|]. destruct (harmless_delete key w Hh). by split.
Qed.

Lemma held_stores : stores_status I.
Proof. split; [same|same|same|apply held_put_foreign|apply held_delete_foreign]. Qed.

Lemma held_order_keys {A} (m : gmap string A) : keeps I (order_keys m).
Proof. apply clocked_order_keys, held_clock. Qed.

Lemma held_on_if_heap {A} (m : M (heap InterfaceStatus) A) : keeps I (on_if_heap m).
Proof. apply clocked_on_if_heap. same. Qed.

Lemma held_on_bd_heap {A} (m : M (heap BridgeDomain) A) : keeps I (on_bd_heap m).
Proof. apply keeps_on_bd_heap. same. Qed.

(** *** Entries of a transaction *)
Lemma held_after level m w : entries_off m -> I w -> I (with_afterMap (<[level := m]> (afterMap w)) w).
Proof. intros Hm [HR []]. split; [done|]. split; try done. cbn. by apply levels_insert. Qed.

Lemma held_before level m w : entries_off m -> I w -> I (with_beforeMap (<[level := m]> (beforeMap w)) w).
Proof. intros Hm [HR []]. split; [done|]. split; try done. cbn. by apply levels_insert. Qed.

Lemma held_after_put level key kv : foreign key -> foreign (VppKey kv) -> keeps I (after_put level key kv).
Proof.
  intros H1 H2. apply keeps_wlp. intros w Hw. unfold after_put. wpw.
  destruct (afterMap w !! level) as [l|] eqn:Hl; [|done]. wpw. apply held_after; [|done].
  apply entries_off_insert; [done..|]. by eapply ha_after; [apply Hw|].
Qed.

Lemma held_before_put level key kv : foreign key -> foreign (VppKey kv) -> keeps I (before_put level key kv).
Proof.
  intros H1 H2. apply keeps_wlp. intros w Hw. unfold before_put. wpw.
  destruct (beforeMap w !! level) as [l|] eqn:Hl; [|done]. wpw. apply held_before; [|done].
  apply entries_off_insert; [done..|]. by eapply ha_before; [apply Hw|].
Qed.

Lemma held_initLevelMap l : keeps I (initLevelMap l).
Proof.
  apply keeps_modify. intros w Hw. apply (held_after l ∅ (with_beforeMap (<[l := ∅]> (beforeMap w)) w)); [apply entries_off_empty|].
  by apply held_before; [apply entries_off_empty|].
Qed.

(** The entry is listed. *)
Lemma held_AddEntry r entity kv w :
  foreign (VppKey kv) -> listed_off r -> I w ->
  wlp (RenderTxnAddVppEntryToTxn r entity kv) (fun r' w' => I w' /\ listed_off r') w.
Proof.
  intros Hkv Hr Hw. unfold RenderTxnAddVppEntryToTxn. wpw.
  apply (wp_conseq _ _ (fun r' w' => w' = w /\ listed_off r')).
  { destruct (after_level _ w !! _); [by wpw|]. destruct r as [r|]; [|done]. wpw. split; [done|]. by apply listed_off_insert. }
  intros r' w' [-> Hr']. wpw. apply (wlp_keeps I); [by apply held_after_put|done|]. intros [] w2 Hw2. by wpw.
Qed.

Lemma held_AddEntries r entity kvs w :
  Forall (fun kv => foreign (VppKey kv)) kvs -> listed_off r -> I w ->
  wlp (RenderTxnAddVppEntriesToTxn r entity kvs) (fun r' w' => I w' /\ listed_off r') w.
Proof.
  intros Hkvs. revert r w. induction Hkvs as [|kv kvs Hkv _ IH]; intros r w Hr Hw; cbn; [by wpw|].
  wpw. eapply wp_conseq; [by apply held_AddEntry|]. intros r' w' [Hw' Hr']. by apply IH.
Qed.

Lemma held_RenderVxlan entity a b vrf fa ta loop routes label w :
  I w -> wlp (NetworkNode.RenderVxlanLoopbackInterfaceAndStaticRoutes entity a b vrf fa ta loop routes label)
           (fun r w' => I w' /\ listed_off r) w.
Proof.
  intros Hw. unfold NetworkNode.RenderVxlanLoopbackInterfaceAndStaticRoutes, NetworkNode.node_name, NetworkNode.first_address. wpw.
  apply (wp_conseq _ _ (fun r w' => I w' /\ listed_off r)).
  { destruct loop; [|wpw; by split; [|apply listed_off_empty]]. destruct (networkNodeCache w !! a) as [n1|]; [|done]. wpw.
    destruct (nn_Metadata n1); [|done]. wpw. by apply held_AddEntry; [|apply listed_off_empty|]. }
  intros r w1 [Hw1 Hr1]. wpw. destruct routes; [|by wpw]. generalize (networkNodeCache w1 !! b). intros o2.
  destruct (networkNodeCache w !! a) as [n1|]; [|done]. wpw. destruct (nn_Spec n1) as [s1|]; [|done]. wpw.
  apply (wp_foldM _ _ _ _ (fun r w' => I w' /\ listed_off r)); [done| |by intros].
  intros r2 i1 w2 _ [Hw2 Hr2]. destruct (NetworkNode.route_interface _ _ i1); [|by wpw].
  destruct o2 as [n2|]; [|done]. wpw. destruct (nn_Spec n2) as [s2|]; [|done]. wpw.
  apply (wp_foldM _ _ _ _ (fun r w' => I w' /\ listed_off r)); [done| |by intros].
  intros r3 i2 w3 _ [Hw3 Hr3]. destruct (NetworkNode.route_interface _ _ i2); [|by wpw]. wpw.
  destruct (head (if_IpAddresses i2)); [|done]. wpw. destruct (nn_Metadata n1); [|done]. wpw.
  destruct (ConstructStaticRoute _ _) as [kv|] eqn:Ekv; [|done]. wpw.
  apply held_AddEntry; [|done|done]. by eapply wf_anywhere_route.
Qed.

(** *** The end of a transaction *)
Lemma held_WriteToEtcd kv : foreign (VppKey kv) -> keeps I (WriteToEtcd kv).
Proof.
  intros Hk. unfold WriteToEtcd, entry_data. keeps_auto; try apply held_on_bd_heap;
    by apply keeps_write_foreign; [apply held_stores|].
Qed.

Lemma held_EntityStart : keeps I RenderTxnConfigEntityStart.
Proof. unfold RenderTxnConfigEntityStart. keeps_auto; [apply keeps_modify; same|apply held_initLevelMap]. Qed.

Lemma held_EntityEnd : keeps I RenderTxnConfigEntityEnd.
Proof.
  apply keeps_bind; [apply keeps_get|]. intros l. apply keeps_bind.
  { apply keeps_range_map_at; [apply held_clock|]. intros k kv w Hk Hw. unfold after_level in Hk.
    destruct (afterMap w !! l) as [m|] eqn:Hm; [|cbn in Hk; by rewrite lookup_empty in Hk].
    destruct (ha_after w (he_harmless _ _ Hw) l m Hm k kv Hk). by apply (held_after_put (l - 1) k kv). }
  intros _. apply keeps_bind; [|intros _; apply keeps_modify; same]. apply keeps_modify.
  intros w [HR []]. split; [done|]. split; try done; by apply levels_delete.
Qed.

Lemma held_RemoveEntries : keeps I RenderTxnConfigEntityRemoveEntries.
Proof. unfold RenderTxnConfigEntityRemoveEntries. keeps_auto. apply keeps_modify. intros w. apply held_after, entries_off_empty. Qed.

Lemma held_put_known key kv w : foreign key -> foreign (VppKey kv) -> I w -> I (with_VppEntries (<[key := kv]> (VppEntries w)) w).
Proof. intros H1 H2 [HR []]. split; [done|]. split; try done. cbn. by apply entries_off_insert. Qed.

Lemma held_forget key w : I w -> I (with_VppEntries (delete key (VppEntries w)) w).
Proof. intros [HR []]. split; [done|]. split; try done. cbn. by apply entries_off_delete. Qed.

Lemma held_known k kv w : I w -> VppEntries w !! k = Some kv -> foreign k /\ foreign (VppKey kv).
Proof. intros [_ []] Hk. by eauto. Qed.

Lemma held_after_level l k kv w : I w -> after_level l w !! k = Some kv -> foreign k /\ foreign (VppKey kv).
Proof.
  intros [_ []] Hk. unfold after_level in Hk. destruct (afterMap w !! l) as [m|] eqn:Hm; [|cbn in Hk; by rewrite lookup_empty in Hk].
  by eapply ha_after0.
Qed.

Lemma held_before_level l k kv w : I w -> before_level l w !! k = Some kv -> foreign k /\ foreign (VppKey kv).
Proof.
  intros [_ []] Hk. unfold before_level in Hk. destruct (beforeMap w !! l) as [m|] eqn:Hm; [|cbn in Hk; by rewrite lookup_empty in Hk].
  by eapply ha_before0.
Qed.

Lemma held_ConfigStart : keeps I RenderTxnConfigStart.
Proof.
  unfold RenderTxnConfigStart, lock. keeps_auto; try (apply keeps_modify; same); try apply held_initLevelMap.
  apply keeps_range_map_at; [apply held_clock|]. intros k kv w Hk Hw. destruct (String.eqb k (VppKey kv)); [|done].
  destruct (held_known _ _ _ Hw Hk). by apply (held_before_put 0 (VppKey kv) kv).
Qed.

Lemma held_reconcile_before k before : foreign k -> keeps I (reconcile_before k before).
Proof.
  intros Hk. unfold reconcile_before. keeps_auto; try apply held_on_bd_heap.
  - apply keeps_modify. intros w [HR []]. split; [done|]. split; try done. cbn. by apply levels_forget.
  - intros w. by apply held_delete_foreign.
  - apply keeps_modify. intros w. apply held_forget.
  - apply keeps_modify. intros w [HR []]. split; [done|]. split; try done. cbn. by apply levels_forget.
Qed.

Lemma held_ConfigEnd : keeps I RenderTxnConfigEnd.
Proof.
  apply keeps_bind.
  { apply keeps_range_map_at; [apply held_clock|]. intros k kv w Hk Hw. destruct (held_before_level _ _ _ _ Hw Hk).
    by apply (held_reconcile_before k kv). }
  intros _. apply keeps_bind.
  { apply keeps_range_mapR_at; [apply held_clock|]. intros k kv w Hk Hw. destruct (held_after_level _ _ _ _ Hw Hk).
    by apply (held_WriteToEtcd kv). }
  intros [e|_]; keeps_auto; try (apply keeps_modify; same).
  apply keeps_range_map_at; [apply held_clock|]. intros k kv w Hk Hw. destruct (held_after_level _ _ _ _ Hw Hk). wpw.
  by apply held_put_known.
Qed.
End held.

End Mirror.
