(* ===== verification/Stored.v ===== *)
(** * What the controller does keeps etcd and the caches together

    Module Stored: whatever messages are handled and whatever is rendered, etcd holds the configuration that the
    managers hold, as long as it takes every write. *)

From S2P Require Import Prelude GoStd IdAlloc Ipam Model VppAgent State RenderTxn SysParms IpamPool PodNodeMap Interfaces EntityTxn.
From S2P Require Import NetworkNode Overlay ServiceIf ServiceL2 ServiceL3 NetworkService Controller Frontend MessageLoop Mirror.

Module Stored.
Import VppAgent RenderTxn Interfaces EntityTxn Controller Mirror.

(** ** Rendering a node

    While node [k] renders, its status lists other entries than etcd says. *)
Abbreviation node_exempt k := (held (mirrored_but_node k)).

Lemma snapshot_node_conf h nn : node_conf (snapshot_node h nn) = node_conf nn.
Proof. unfold node_conf. cbn. by destruct (nn_Status nn). Qed.

Lemma snapshot_service_conf h ns : service_conf (snapshot_service h ns) = service_conf ns.
Proof. unfold service_conf. cbn. by destruct (ns_Status ns). Qed.

(** The name in a value of etcd is the last part of its key. *)
Lemma mirrors_named {C R} prefix (parse : Value -> option (string * C)) m (c : gmap string C) k x (md : C -> option R) name :
  (forall v, parse v = Some (k, x) -> name <$> md x = Some k) ->
  mirrors prefix parse m c -> c !! k = Some x -> name <$> md x = Some k.
Proof.
  intros Hp Hm Hx. specialize (Hm k). rewrite Hx in Hm. destruct (m !! _) as [v|]; [|done]. injection Hm as Hv. by eapply Hp.
Qed.

Section nodes.
Context {E : Env} (Hput : forall n key, put_error n key = None) (k : string).

Lemma wp_written pan key v (Q : result unit -> World -> Prop) w :
  Q (Ok tt) (with_etcd_log (Put key :: etcd_log w) (with_etcd (<[key := v]> (etcd w)) (with_clock (clock w + 1) w))) ->
  wpp pan (WriteToDatastore key v) Q w.
Proof using Hput. intros H. unfold WriteToDatastore, tick. wpw. rewrite Hput. by wpw. Qed.

Lemma exempt_put_node nn nn' w :
  networkNodeCache w !! k = Some nn -> nn_Metadata nn' = nn_Metadata nn -> listed_off (nn_Status nn' ≫= nnt_Rendered) ->
  node_exempt k w -> node_exempt k (with_networkNodeCache (<[k := nn']> (networkNodeCache w)) w).
Proof.
  intros Hk Hmd Hl [[[s HR] Hn] Hh]. split; [|by apply harmless_node]. split.
  - exists s. unfold config, with_cf_nodes in *. cbn in *. by rewrite fmap_insert, insert_insert_eq.
  - intros x. cbn. rewrite fmap_insert, lookup_insert_eq. intros [= <-]. cbn. rewrite Hmd.
    apply (Hn (node_conf nn)). cbn. by rewrite lookup_fmap, Hk.
Qed.

(** The object in the cache lists no key of the configuration. *)
Lemma exempt_get_node {A} (f : NetworkNode loc -> M World A) :
  (forall nn, listed_off (nn_Status nn ≫= nnt_Rendered) -> keeps (node_exempt k) (f nn)) ->
  keeps (node_exempt k) (mbnd (NetworkNode.get_node k) f).
Proof.
  apply keeps_bind_val. intros w Hw. unfold NetworkNode.get_node. wpw.
  destruct (networkNodeCache w !! k) as [nn|] eqn:Hn; [|done]. wpw. split; [done|]. by eapply ha_nodes; [apply Hw|].
Qed.

Lemma node_status_listed I w :
  harmless w -> I w -> wlp (NetworkNode.get_status k) (fun st w' => I w' /\ listed_off (nnt_Rendered st)) w.
Proof.
  intros Hh Hw. unfold NetworkNode.get_status, NetworkNode.get_node. wpw.
  destruct (networkNodeCache w !! k) as [nn|] eqn:Hn; [|done]. wpw. destruct (nn_Status nn) as [st|] eqn:Hst; [|done]. wpw.
  split; [done|]. pose proof (ha_nodes _ Hh _ _ Hn) as H. by rewrite Hst in H.
Qed.

Lemma exempt_get_node_status {A} (f : NetworkNodeStatus loc -> M World A) :
  (forall st, listed_off (nnt_Rendered st) -> keeps (node_exempt k) (f st)) ->
  keeps (node_exempt k) (mbnd (NetworkNode.get_status k) f).
Proof. apply keeps_bind_val. intros w Hw. by apply node_status_listed; [apply Hw|]. Qed.

Lemma exempt_put_node_status st : listed_off (nnt_Rendered st) -> keeps (node_exempt k) (NetworkNode.put_status k st).
Proof.
  intros Hl. apply keeps_wlp. intros w Hw. unfold NetworkNode.put_status, NetworkNode.get_node, NetworkNode.put_node. wpw.
  destruct (networkNodeCache w !! k) as [nn|] eqn:Hn; [|done]. wpw. by eapply exempt_put_node.
Qed.

(** Walks a renderer of nodes. *)
Ltac noding_step :=
  lazymatch goal with
  | |- keeps _ (mbnd (NetworkNode.get_node _) _) => apply exempt_get_node
  | |- keeps _ (mbnd (NetworkNode.get_status _) _) => apply exempt_get_node_status
  | |- keeps _ (NetworkNode.put_status _ _) => apply exempt_put_node_status
  | |- keeps _ (mbnd (RenderTxnAddVppEntryToTxn _ _ _) _) =>
      eapply (keeps_bind_val _ _ _ listed_off); [intros ? ?; apply held_AddEntry|]
  | |- _ => keeps_step
  end.

Ltac noding := repeat noding_step; try done.

Lemma exempt_add_node_entry kv : foreign (VppKey kv) -> keeps (node_exempt k) (NetworkNode.add_entry k kv).
Proof.
  intros Hk. unfold NetworkNode.add_entry. apply exempt_get_node. intros nn Hn. apply keeps_deref_val. intros st Hst.
  rewrite Hst in Hn. unfold NetworkNode.node_name. noding.
Qed.

Lemma exempt_render_l2bd bd : keeps (node_exempt k) (NetworkNode.render_l2bd k bd).
Proof.
  unfold NetworkNode.render_l2bd. apply keeps_bind; [unfold SysParms.FindL2BDTemplate; noding|]. intros p.
  apply exempt_get_node. intros nn Hn. apply keeps_bind; [unfold NetworkNode.node_name; noding|]. intros name.
  apply keeps_bind; [noding|]. intros q.
  eapply (keeps_bind_val _ _ _ (fun kv => foreign (VppKey kv))); [|intros; by apply exempt_add_node_entry].
  intros w Hw; eapply wp_conseq; [apply ConstructL2BD_wlp|]; intros kv w' (h & -> & _ & _ & Hf); split; [|exact Hf];
    by destruct Hw as [? []]; split; [|split].
Qed.

Lemma exempt_render_interface i : keeps (node_exempt k) (NetworkNode.render_interface k i).
Proof.
  pose proof (held_interface_free (mirrored_but_node k)) as Hi. pose proof (held_stores (mirrored_but_node k)) as Hs.
  unfold NetworkNode.render_interface, NetworkNode.AppendStatusMsg, NetworkNode.node_name, SysParms.ResolveMtu, SysParms.ResolveRxMode.
  noding; solve [by apply keeps_InitInterfaceStatus | by apply keeps_RemoveInterfaceStatus | by apply keeps_PersistInterfaceStatus
    | apply (held_on_if_heap (mirrored_but_node k)) | apply exempt_add_node_entry, wf_ethernet].
Qed.

(** The name of an object of the cache is its key. *)
Lemma stored_node_name x w : stored w -> node_conf <$> networkNodeCache w !! k = Some x -> md_Name <$> fst (fst x) = Some k.
Proof.
  intros [HR _] Hx. rewrite <- lookup_fmap in Hx. eapply (mirrors_named _ _ _ _ _ _ (fun x => fst (fst x))); [|apply (mr_nodes _ _ HR)|exact Hx].
  intros v Hv. destruct v as [| | | | | | |nn| | | | |]; try done. cbn in Hv.
  destruct (nn_Metadata nn) as [md|] eqn:Hmd; [|done]. cbn in Hv. injection Hv as E1 <-. cbn. by rewrite Hmd, <- E1.
Qed.

Lemma stored_node_exempt nn w : networkNodeCache w !! k = Some nn -> stored w -> node_exempt k w.
Proof.
  intros Hn Hw. split; [|apply Hw]. split.
  - exists (node_conf nn). unfold with_cf_nodes, config. cbn. rewrite insert_id; [apply Hw|]. by rewrite lookup_fmap, Hn.
  - intros x. cbn. rewrite lookup_fmap. by apply stored_node_name.
Qed.

(** At its end the node is written to etcd. *)
Lemma exempt_write_node w :
  node_exempt k w -> wlp (let! nn := NetworkNode.get_node k in NetworkNode.writeToDatastore nn) (fun _ => stored) w.
Proof using Hput.
  intros [[[s HR] Hname] Hh]. unfold NetworkNode.get_node, NetworkNode.writeToDatastore, NetworkNode.node_name. wpw.
  destruct (networkNodeCache w !! k) as [nn|] eqn:Hn; [|done]. wpw.
  assert (md_Name <$> nn_Metadata nn = Some k) as Hmd by (apply (Hname (node_conf nn)); cbn; by rewrite lookup_fmap, Hn).
  destruct (nn_Metadata nn) as [md|] eqn:Emd; [|done]. injection Hmd as Hmd. wpw. apply wp_written. rewrite Hmd. split.
  - unfold config, with_cf_nodes in *. cbn in *.
    rewrite <- (insert_id (node_conf <$> networkNodeCache w) k (node_conf nn)) by (by rewrite lookup_fmap, Hn).
    rewrite <- (insert_insert_eq _ k (node_conf nn) s). apply mirrored_put_node; [|done].
    cbn. by rewrite snapshot_node_conf, Emd, <- Hmd.
  - pose proof (ha_nodes _ Hh _ _ Hn) as Hl.
    destruct (harmless_put (NetworkNode.NameKey k) (VNetworkNode (snapshot_node (if_heap w) nn)) w); [|done|by split].
    cbn. by destruct (nn_Status nn).
Qed.

Lemma exempt_node_renderComplete w : node_exempt k w -> wlp (NetworkNode.renderComplete k) (fun _ => stored) w.
Proof using Hput.
  intros Hw. unfold NetworkNode.renderComplete, NetworkNode.AppendStatusMsg. wpw.
  eapply wp_conseq; [by apply (node_status_listed (node_exempt k)); [apply Hw|]|]. intros st w1 [Hw1 Hst]. wpw.
  apply (wlp_keeps (node_exempt k)); [|exact Hw1|intros _ w2 Hw2; by apply exempt_write_node].
  noding. apply (held_RemoveEntries (mirrored_but_node k)).
Qed.

Lemma stored_node_renderConfig : keeps stored (NetworkNode.renderConfig k).
Proof using Hput.
  unfold NetworkNode.renderConfig. apply keeps_bind; [apply (held_EntityStart mirrored)|]. intros _. apply keeps_wlp. intros w Hw.
  unfold NetworkNode.get_node at 1, NetworkNode.put_node. wpw. destruct (networkNodeCache w !! k) as [nn|] eqn:Hn; [|done]. wpw.
  eapply wp_conseq; [apply NetworkNode.validate_status|]. intros v ? (-> & Est & R). wpw.
  pose proof (Frontend.node_validate_same nn w) as Hv. unfold wpp in Hv. rewrite R in Hv. destruct Hv as (_ & [Hmd Hsp] & _).
  assert (listed_off (nn_Status (fst v) ≫= nnt_Rendered)) as Hl by (rewrite Est; by eapply ha_nodes; [apply Hw|]).
  set (w1 := with_networkNodeCache _ w). destruct (snd v).
  - apply (wlp_keeps stored); [noding; apply (held_EntityEnd mirrored)| |done]. split; [|by apply harmless_node, Hw].
    unfold w1. erewrite node_config; [apply Hw|done|]. unfold node_conf. by rewrite Hmd, Hsp, Est.
  - wpw. apply (wlp_keeps (node_exempt k)); [apply exempt_put_node_status, listed_off_empty| |].
    { eapply exempt_put_node; [done..|]. by eapply stored_node_exempt. }
    intros _ w2 H2. apply wp_bnd, (wlp_keeps (node_exempt k)); [|done|].
    { unfold NetworkNode.renderNodeInterfaces, NetworkNode.renderNodeL2BDs.
      noding; [apply exempt_render_interface|apply exempt_render_l2bd]. }
    intros r w3 H3. wpw. eapply wp_conseq; [by apply exempt_node_renderComplete|]. cbv beta. intros _ w4 H4. wpw.
    apply (wlp_keeps stored); [apply (held_EntityEnd mirrored)|done|]. intros _ w5 H5. by wpw.
Qed.
End nodes.

(** ** Rendering a service

    While service [k] renders, its connections may get vrfs, and its status entries, that etcd does not have yet. *)
Abbreviation exempt k := (held (mirrored_but_service k)).

Section services.
Context {E : Env} (Hput : forall n key, put_error n key = None) (k : string).

Lemma exempt_service ns ns' w :
  networkServiceCache w !! k = Some ns -> ns_Metadata ns' = ns_Metadata ns -> listed_off (ns_Status ns' ≫= nst_Rendered) ->
  exempt k w -> exempt k (with_networkServiceCache (<[k := ns']> (networkServiceCache w)) w).
Proof.
  intros Hk Hmd Hl [[[s HR] Hn] Hh]. split; [|by apply harmless_service]. split.
  - exists s. unfold config, with_cf_services in *. cbn in *. by rewrite fmap_insert, insert_insert_eq.
  - intros x. cbn. rewrite fmap_insert, lookup_insert_eq. intros [= <-]. cbn. rewrite Hmd.
    apply (Hn (service_conf ns)). cbn. by rewrite lookup_fmap, Hk.
Qed.

Lemma exempt_node n nn nn' w :
  networkNodeCache w !! n = Some nn -> nn_Status nn' = nn_Status nn -> NetworkNode.same_node nn nn' ->
  exempt k w -> exempt k (with_networkNodeCache (<[n := nn']> (networkNodeCache w)) w).
Proof.
  intros Hk Hst Hs [HR Hh]. split.
  - change (mirrored_but_service k (etcd w) (config (with_networkNodeCache (<[n := nn']> (networkNodeCache w)) w))).
    erewrite node_config; [done|done|]. destruct Hs as [H1 H2]. unfold node_conf. by rewrite H1, H2, Hst.
  - apply harmless_node; [|done]. rewrite Hst. by eapply ha_nodes.
Qed.

Lemma exempt_get_service {A} (f : NetworkService loc -> M World A) :
  (forall ns, listed_off (ns_Status ns ≫= nst_Rendered) -> keeps (exempt k) (f ns)) ->
  keeps (exempt k) (mbnd (ServiceIf.get_service k) f).
Proof.
  apply keeps_bind_val. intros w Hw. unfold ServiceIf.get_service. wpw.
  destruct (networkServiceCache w !! k) as [ns|] eqn:Hn; [|done]. wpw. split; [done|]. by eapply ha_services; [apply Hw|].
Qed.

Lemma service_status_listed I w :
  harmless w -> I w -> wlp (ServiceIf.get_status k) (fun st w' => I w' /\ listed_off (nst_Rendered st)) w.
Proof.
  intros Hh Hw. unfold ServiceIf.get_status, ServiceIf.get_service. wpw.
  destruct (networkServiceCache w !! k) as [ns|] eqn:Hn; [|done]. wpw. destruct (ns_Status ns) as [st|] eqn:Hst; [|done]. wpw.
  split; [done|]. pose proof (ha_services _ Hh _ _ Hn) as H. by rewrite Hst in H.
Qed.

Lemma exempt_get_status {A} (f : NetworkServiceStatus loc -> M World A) :
  (forall st, listed_off (nst_Rendered st) -> keeps (exempt k) (f st)) -> keeps (exempt k) (mbnd (ServiceIf.get_status k) f).
Proof. apply keeps_bind_val. intros w Hw. by apply service_status_listed; [apply Hw|]. Qed.

Lemma exempt_put_status st : listed_off (nst_Rendered st) -> keeps (exempt k) (ServiceIf.put_status k st).
Proof.
  intros Hl. apply keeps_wlp. intros w Hw. unfold ServiceIf.put_status, ServiceIf.get_service, ServiceIf.put_service. wpw.
  destruct (networkServiceCache w !! k) as [ns|] eqn:Hn; [|done]. wpw. by eapply exempt_service.
Qed.

Lemma exempt_add_entries kvs : Forall (fun kv => foreign (VppKey kv)) kvs -> keeps (exempt k) (ServiceIf.add_entries k kvs).
Proof.
  intros Hk. unfold ServiceIf.add_entries. apply exempt_get_service. intros ns Hn. apply keeps_deref_val. intros st Hst.
  rewrite Hst in Hn. apply keeps_bind; [unfold ServiceIf.service_name; keeps_auto|]. intros name.
  eapply (keeps_bind_val _ _ _ listed_off); [intros w Hw; by apply held_AddEntries|]. intros r Hr. by apply exempt_put_status.
Qed.

#[export] Instance exempt_invariant : ServiceIf.ServiceInvariant k (exempt k).
Proof.
  split; [apply (held_interface_free (mirrored_but_service k))|apply (held_stores (mirrored_but_service k))|same|same|same|same| | | | |].
  - intros ns ns' w Hn Hmd Hst Hw. eapply exempt_service; [done|done| |done].
    pose proof (ha_services _ (he_harmless _ _ Hw) _ _ Hn) as Hl.
    destruct (ns_Status ns) as [st|], (ns_Status ns') as [st'|]; try done. injection Hst as Hst. cbn. by rewrite Hst.
  - apply exempt_node.
  - intros kvs Hkvs. apply exempt_add_entries. eapply Forall_impl; [done|]. by intros kv [].
  - intros m Hm. eapply (keeps_bind_val _ _ _ (fun kv => foreign (VppKey kv))).
    + intros w Hw. eapply wp_conseq; [apply Hm|]. intros kv w' (h & -> & _ & _ & Hf). split; [|exact Hf].
      by destruct Hw as [? []]; split; [|split].
    + intros kv Hkv. apply exempt_add_entries. by apply Forall_singleton.
  - intros entity a b vrf fa ta loop routes label. eapply (keeps_bind_val _ _ _ listed_off).
    { intros w Hw. by apply held_RenderVxlan. }
    intros r Hr. unfold ServiceIf.add_rendered. destruct (decide _); [apply keeps_ret|].
    apply exempt_get_status. intros st Hst. apply keeps_deref_val. intros r' Hr'. apply exempt_put_status.
    rewrite Hr' in Hst. destruct r as [r|]; cbn; [by apply (listed_off_union r (Some r'))|by rewrite (left_id_L ∅ (∪))].
Qed.

(** The name of an object of the cache is its key. *)
Lemma stored_service_name x w : stored w -> service_conf <$> networkServiceCache w !! k = Some x -> md_Name <$> fst (fst x) = Some k.
Proof.
  intros [HR _] Hx. rewrite <- lookup_fmap in Hx. eapply (mirrors_named _ _ _ _ _ _ (fun x => fst (fst x))); [|apply (mr_services _ _ HR)|exact Hx].
  intros v Hv. destruct v as [| | | | | | | |ns| | | |]; try done. cbn in Hv.
  destruct (ns_Metadata ns) as [md|] eqn:Hmd; [|done]. cbn in Hv. injection Hv as E1 <-. cbn. by rewrite Hmd, <- E1.
Qed.

Lemma stored_exempt ns w : networkServiceCache w !! k = Some ns -> stored w -> exempt k w.
Proof.
  intros Hn Hw. split; [|apply Hw]. split.
  - exists (service_conf ns). unfold with_cf_services, config. cbn. rewrite insert_id; [apply Hw|]. by rewrite lookup_fmap, Hn.
  - intros x. cbn. rewrite lookup_fmap. by apply stored_service_name.
Qed.

(** At its end the service is written to etcd. *)
Lemma exempt_write w :
  exempt k w -> wlp (let! ns := ServiceIf.get_service k in NetworkService.writeToDatastore ns) (fun _ => stored) w.
Proof using Hput.
  intros [[[s HR] Hname] Hh]. unfold ServiceIf.get_service, NetworkService.writeToDatastore, ServiceIf.service_name. wpw.
  destruct (networkServiceCache w !! k) as [ns|] eqn:Hn; [|done]. wpw.
  assert (md_Name <$> ns_Metadata ns = Some k) as Hmd by (apply (Hname (service_conf ns)); cbn; by rewrite lookup_fmap, Hn).
  destruct (ns_Metadata ns) as [md|] eqn:Emd; [|done]. injection Hmd as Hmd. wpw. apply (wp_written Hput). rewrite Hmd. split.
  - unfold config, with_cf_services in *. cbn in *.
    rewrite <- (insert_id (service_conf <$> networkServiceCache w) k (service_conf ns)) by (by rewrite lookup_fmap, Hn).
    rewrite <- (insert_insert_eq _ k (service_conf ns) s). apply mirrored_put_service; [|done].
    cbn. by rewrite snapshot_service_conf, Emd, <- Hmd.
  - pose proof (ha_services _ Hh _ _ Hn) as Hl.
    destruct (harmless_put (NetworkService.NameKey k) (VNetworkService (snapshot_service (if_heap w) ns)) w); [|done|by split].
    cbn. by destruct (ns_Status ns).
Qed.

Lemma exempt_renderComplete w : exempt k w -> wlp (NetworkService.renderComplete k) (fun _ => stored) w.
Proof using Hput.
  intros Hw. unfold NetworkService.renderComplete. wpw. wpw.
  eapply wp_conseq; [by apply (service_status_listed (exempt k)); [apply Hw|]|]. intros st w1 [Hw1 Hst]. wpw.
  apply (wlp_keeps (exempt k)); [|exact Hw1|intros _ w2 Hw2; by apply exempt_write].
  destruct (nst_Msg st).
  - apply keeps_bind; [apply (ServiceIf.keeps_AppendStatusMsg k (exempt k))|]. intros _.
    apply exempt_get_status. intros st' Hst'. by apply exempt_put_status.
  - apply keeps_bind; [apply held_RemoveEntries|]. intros _. apply exempt_put_status, listed_off_none.
Qed.

Lemma stored_service_renderConfig : keeps stored (NetworkService.renderConfig k).
Proof using Hput.
  unfold NetworkService.renderConfig. apply keeps_bind; [apply held_EntityStart|]. intros _. apply keeps_wlp. intros w Hw.
  unfold ServiceIf.get_service. wpw. destruct (networkServiceCache w !! k) as [ns|] eqn:Hn; [|done]. wpw.
  apply (wlp_keeps (eq w)); [apply NetworkService.keeps_validate|done|]. intros [e|] ? <-; wpw.
  { apply (wlp_keeps stored); [apply (held_EntityEnd mirrored)|done|]. intros _ w1 H1. by wpw. }
  apply (wlp_keeps (exempt k)); [apply exempt_put_status, listed_off_empty|by eapply stored_exempt|]. intros _ w1 H1. wpw.
  apply (wlp_keeps (exempt k)); [apply (ServiceL2.keeps_get_spec k (exempt k))|done|]. intros spec w2 H2.
  apply (wlp_keeps (exempt k)); [apply (NetworkService.keeps_render_connections k (exempt k))|done|]. intros r w3 H3. wpw.
  eapply wp_conseq; [by apply exempt_renderComplete|]. cbv beta. intros _ w4 H4. wpw.
  apply (wlp_keeps stored); [apply (held_EntityEnd mirrored)|done|]. intros _ w5 H5. by wpw.
Qed.
End services.

(** ** One rendering of everything *)
Section rendering.
Context {E : Env} (Hput : forall n key, put_error n key = None).

Lemma stored_render_transaction : keeps stored render_transaction.
Proof using Hput.
  apply keeps_bind; [apply (held_ConfigStart mirrored)|intros _]. apply keeps_bind; [|intros _; apply (held_ConfigEnd mirrored)].
  apply keeps_bind; [|intros _]; (apply clocked_range_map; [apply held_clock|]); intros k x.
  { apply keeps_bind; [by apply stored_node_renderConfig|]. intros _. apply keeps_ret. }
  apply keeps_bind; [by apply stored_service_renderConfig|]. intros _. apply keeps_ret.
Qed.
End rendering.

(** ** The operations of the managers *)
Section crud.
Context {E : Env} (Hput : forall n key, put_error n key = None).

Lemma stored_EntityCreate e s : keeps stored (IpamPool.EntityCreate e s).
Proof. apply IpamPool.keeps_EntityCreate, (held_ipam_free mirrored). Qed.

Lemma stored_EntityDelete e s : keeps stored (IpamPool.EntityDelete e s).
Proof. apply IpamPool.keeps_EntityDelete, (held_ipam_free mirrored). Qed.

Lemma stored_DeleteRendered r : listed_off r -> keeps stored (DeleteRenderedVppAgentEntries r).
Proof.
  intros Hr. unfold DeleteRenderedVppAgentEntries. keeps_auto; [apply (held_order_keys mirrored)| |].
  - apply keeps_modify. intros w. apply held_forget.
  - intros w Hw. eapply held_delete_foreign; [apply _| |done]. edestruct Hr as [-> Hf]; [eassumption|exact Hf].
Qed.

(** The state of the caches and etcd after an object was put or deleted. *)
Ltac settle := intros [HR Hh]; split; [unfold config in *; cbn in *|].

(** The object goes. *)
Lemma exempt_node_gone name w :
  node_exempt name w ->
  wlp (modify (fun w => with_networkNodeCache (delete name (networkNodeCache w)) w) ;;; DeleteFromDatastore (NetworkNode.NameKey name))
    (fun _ => stored) w.
Proof.
  intros [[[s HR] _] Hh]. wpw. split.
  - unfold config, with_cf_nodes in *. cbn in *. rewrite fmap_delete. apply (mirrored_delete_node _ _ _ _ _ _ _ name) in HR.
    by rewrite delete_insert_eq in HR.
  - by destruct (harmless_delete (NetworkNode.NameKey name) _ (harmless_node_gone name w Hh)).
Qed.

Lemma exempt_service_gone name w :
  exempt name w ->
  wlp (modify (fun w => with_networkServiceCache (delete name (networkServiceCache w)) w) ;;; DeleteFromDatastore (NetworkService.NameKey name))
    (fun _ => stored) w.
Proof.
  intros [[[s HR] _] Hh]. wpw. split.
  - unfold config, with_cf_services in *. cbn in *. rewrite fmap_delete. apply (mirrored_delete_service _ _ _ _ _ _ _ name) in HR.
    by rewrite delete_insert_eq in HR.
  - by destruct (harmless_delete (NetworkService.NameKey name) _ (harmless_service_gone name w Hh)).
Qed.

Lemma stored_node_D name : keeps stored (NetworkNode.HandleCRUDOperationD name).
Proof.
  unfold NetworkNode.HandleCRUDOperationD, NetworkNode.renderDelete. apply keeps_bind; [apply keeps_get|]. intros [nn|]; [|apply keeps_mok].
  apply keeps_wlp. intros w Hw. wpw. eapply wp_conseq; [by apply (node_status_listed name stored); [apply Hw|]|]. intros st w1 [H1 Hst]. wpw.
  apply (wlp_keeps stored); [by apply stored_DeleteRendered|done|]. intros _ w2 H2. wpw.
  apply (wlp_keeps stored); [apply keeps_DeleteInterfaceEntries, (held_stores mirrored)|done|]. intros i w3 H3.
  apply (wp_conseq _ _ (fun _ => node_exempt name)).
  { unfold NetworkNode.put_status, NetworkNode.get_node. wpw. destruct (networkNodeCache w3 !! name) as [nn3|] eqn:Hn; [|done].
    wpw. unfold NetworkNode.put_node. wpw. eapply exempt_put_node; [done..|]. by eapply stored_node_exempt. }
  intros _ w4 H4. cbv beta in *. eapply (wlp_assoc _ _ _ stored); [by apply exempt_node_gone|]. intros w5 H5. wpw.
  apply (wlp_keeps stored); [apply stored_EntityDelete|done|]. intros _ w6 H6. by wpw.
Qed.

Lemma stored_service_D name : keeps stored (NetworkService.HandleCRUDOperationD name).
Proof.
  unfold NetworkService.HandleCRUDOperationD, NetworkService.renderDelete. apply keeps_bind; [apply keeps_get|]. intros [ns|]; [|apply keeps_mok].
  apply keeps_wlp. intros w Hw. wpw. eapply wp_conseq; [by apply (service_status_listed name stored); [apply Hw|]|]. intros st w1 [H1 Hst]. wpw.
  apply (wlp_keeps stored); [by apply stored_DeleteRendered|done|]. intros _ w2 H2. wpw.
  apply (wlp_keeps stored); [apply keeps_DeleteInterfaceEntries, (held_stores mirrored)|done|]. intros i w3 H3.
  apply (wp_conseq _ _ (fun _ => exempt name)).
  { unfold ServiceIf.put_status, ServiceIf.get_service. wpw. destruct (networkServiceCache w3 !! name) as [ns3|] eqn:Hn; [|done].
    wpw. unfold ServiceIf.put_service. wpw. eapply exempt_service; [done..|]. by eapply stored_exempt. }
  intros _ w4 H4. cbv beta in *. eapply (wlp_assoc _ _ _ stored); [by apply exempt_service_gone|]. intros w5 H5. wpw.
  apply (wlp_keeps stored); [apply stored_EntityDelete|done|]. intros _ w6 H6. by wpw.
Qed.

Lemma stored_pool_D name : keeps stored (IpamPool.HandleCRUDOperationD name).
Proof.
  apply keeps_wlp. intros w Hw. unfold IpamPool.HandleCRUDOperationD. wpw. destruct (ipamPoolCache w !! name) as [p|] eqn:Hp; [|by wpw].
  wpw. destruct (ip_Spec p) as [spec|]; [|done]. wpw.
  apply (wlp_keeps stored); [apply stored_EntityDelete| |by intros [] w4 H4; wpw]. revert Hw. settle.
  - rewrite fmap_delete. by apply mirrored_delete_pool.
  - by destruct (harmless_delete (IpamPool.NameKey name) w Hh).
Qed.

Lemma stored_overlay_D name : keeps stored (Overlay.HandleCRUDOperationD name).
Proof.
  apply keeps_wlp. intros w Hw. unfold Overlay.HandleCRUDOperationD. wpw. destruct (networkNodeOverlayCache w !! name); [|by wpw].
  wpw. revert Hw. settle.
  - rewrite fmap_delete. by apply mirrored_delete_overlay.
  - by destruct (harmless_delete (Overlay.NameKey name) w Hh).
Qed.

Lemma stored_placement_D name : keeps stored (PodNodeMap.HandleCRUDOperationD name).
Proof.
  apply keeps_wlp. intros w Hw. unfold PodNodeMap.HandleCRUDOperationD. wpw. revert Hw. settle.
  - by apply mirrored_delete_placement.
  - by destruct (harmless_delete (PodNodeMap.NameKey name) w Hh).
Qed.

(** *** Objects are put *)
Lemma stored_params_CU sp : keeps stored (SysParms.HandleCRUDOperationCU sp).
Proof using Hput.
  apply keeps_wlp. intros w Hw. unfold SysParms.HandleCRUDOperationCU. destruct (SysParms.validate sp) as [sp' [e|]]; [by wpw|]. wpw.
  apply (wp_written Hput). revert Hw. settle.
  - by eapply mirrored_put_params.
  - by destruct (harmless_put SysParms.KeyPrefix (VSystemParameters sp') w I Hh).
Qed.

Lemma stored_params_D : keeps stored SysParms.HandleCRUDOperationD.
Proof using Hput.
  apply keeps_wlp. intros w Hw. unfold SysParms.HandleCRUDOperationD, SysParms.HandleCRUDOperationCU.
  destruct (SysParms.validate zero_SysParms) as [sp' [e|]] eqn:Ev; [by vm_compute in Ev|]. wpw.
  apply (wp_written Hput). wpw. revert Hw. settle.
  - by eapply mirrored_put_params.
  - by destruct (harmless_put SysParms.KeyPrefix (VSystemParameters sp') w I Hh).
Qed.

Lemma stored_placement_CU p2n : keeps stored (PodNodeMap.HandleCRUDOperationCU p2n).
Proof using Hput.
  apply keeps_wlp. intros w Hw. unfold PodNodeMap.HandleCRUDOperationCU. cbn. unfold PodNodeMap.writeToDatastore. wpw.
  apply (wp_written Hput). revert Hw. settle.
  - by apply mirrored_put_placement.
  - by destruct (harmless_put (PodNodeMap.NameKey (pn_Pod p2n)) (VPodToNode p2n) w I Hh).
Qed.

Lemma stored_overlay_CU nno : keeps stored (Overlay.HandleCRUDOperationCU nno).
Proof using Hput.
  apply keeps_wlp. intros w Hw. unfold Overlay.HandleCRUDOperationCU, Overlay.writeToDatastore, Overlay.overlay_name. wpw.
  apply (wlp_keeps (eq w)); [unfold Overlay.validate; keeps_auto|done|]. intros err ? <-. wpw.
  set (nno' := match err with Some e => _ | None => _ end).
  assert (nno_Metadata nno' = nno_Metadata nno /\ overlay_conf nno' = overlay_conf nno) as [Emd Ec] by by destruct err.
  destruct (nno_Metadata nno) as [md|] eqn:Hmd; [|done]. wpw. destruct (nno_Spec nno') as [spec|]; [|done]. wpw.
  assert (parse_overlay (VNetworkNodeOverlay nno') = Some (md_Name md, overlay_conf nno')) as Hp by (cbn; by rewrite Emd).
  set (put w' := with_networkNodeOverlayCache (<[md_Name md := nno']> (networkNodeOverlayCache w')) w').
  apply (wlp_keeps (fun w' => mirrored (<[Overlay.NameKey (md_Name md) := VNetworkNodeOverlay nno']> (etcd w')) (config w') /\ harmless w')).
  { destruct (nos_VxlanMeshParms spec); [|apply keeps_ret]. apply keeps_modify. intros w' [HR []]. by destruct (vniAllocators w' !! _). }
  { split; [|by destruct Hw as [_ []]]. unfold config. cbn. rewrite fmap_insert. apply mirrored_put_overlay; [done|apply Hw]. }
  intros _ w' [HR Hh]. rewrite Emd. wpw. apply (wp_written Hput). split; [exact HR|].
  by destruct (harmless_put (Overlay.NameKey (md_Name md)) (VNetworkNodeOverlay nno') w' I Hh).
Qed.

(** After the object was put in the cache and in etcd the pools are told of it. *)
Lemma stored_node_CU nn : keeps stored (NetworkNode.HandleCRUDOperationCU nn).
Proof using Hput.
  apply keeps_wlp. intros w Hw.
  unfold NetworkNode.HandleCRUDOperationCU, NetworkNode.writeToDatastore, NetworkNode.put_node, NetworkNode.node_name. wpw.
  eapply wp_conseq; [apply NetworkNode.validate_status|]. intros v ? (-> & Est & R). wpw.
  pose proof (Frontend.node_validate_same (with_nn_Status None nn) w) as H. unfold wpp in H. rewrite R in H.
  destruct H as (_ & [Emd _] & _). cbn in Est, Emd.
  set (nn' := match snd v with Some e => _ | None => _ end).
  assert (nn_Metadata nn' = nn_Metadata nn /\ nn_Status nn' ≫= nnt_Rendered = None) as [Emd' Er].
  { unfold nn'. destruct v as [n [e|]]; cbn in *; [done|]. by rewrite Est. }
  destruct (nn_Metadata nn) as [md|] eqn:Hmd; [|done]. wpw. rewrite Emd'. wpw. apply (wp_written Hput). wpw.
  apply wp_bnd, (wlp_keeps stored); [apply stored_EntityCreate| |by intros [] w' H; wpw]. revert Hw. settle.
  - rewrite fmap_insert. apply mirrored_put_node; [|done]. cbn. by rewrite snapshot_node_conf, Emd'.
  - assert (listed_off (nn_Status nn' ≫= nnt_Rendered)) as Hl by (rewrite Er; apply listed_off_none).
    edestruct (harmless_put (NetworkNode.NameKey (md_Name md)) (VNetworkNode (snapshot_node (if_heap w) nn')) _
      ltac:(cbn; by destruct (nn_Status nn')) (harmless_node (md_Name md) nn' w Hl Hh)). by split.
Qed.

Lemma stored_service_CU ns : keeps stored (NetworkService.HandleCRUDOperationCU ns).
Proof using Hput.
  apply keeps_wlp. intros w Hw.
  unfold NetworkService.HandleCRUDOperationCU, NetworkService.writeToDatastore, ServiceIf.put_service, ServiceIf.service_name. wpw.
  apply (wlp_keeps (eq w)); [apply NetworkService.keeps_validate|done|]. intros [e|] ? <-; [done|]. wpw. cbn [ns_Metadata with_ns_Status].
  destruct (ns_Metadata ns) as [md|] eqn:Hmd; [|done]. wpw. apply (wp_written Hput). wpw. set (ns' := with_ns_Status None ns).
  apply wp_bnd, (wlp_keeps stored); [apply stored_EntityCreate| |by intros [] w' H; wpw]. revert Hw. settle.
  - rewrite fmap_insert. apply mirrored_put_service; [|done]. cbn. by rewrite Hmd.
  - edestruct (harmless_put (NetworkService.NameKey (md_Name md)) (VNetworkService (snapshot_service (if_heap w) ns')) _
      listed_off_none (harmless_service (md_Name md) ns' w listed_off_none Hh)). by split.
Qed.

Lemma pool_put_config w k p :
  config (with_ipamPoolCache (<[k := p]> (ipamPoolCache w)) w) = with_cf_pools (<[k := pool_conf p]> (cf_pools (config w))) (config w).
Proof. unfold config, with_cf_pools. cbn. by rewrite fmap_insert. Qed.

Lemma stored_pool_CU p : keeps stored (IpamPool.HandleCRUDOperationCU p).
Proof using Hput.
  apply keeps_wlp. intros w Hw. unfold IpamPool.HandleCRUDOperationCU, IpamPool.writeToDatastore. wpw.
  destruct (ip_Metadata p) as [md|] eqn:Hmd; [|done]. wpw. destruct (ip_Spec (with_ip_Status None p)) as [spec|]; [|done]. wpw.
  set (J w' := (forall v, parse_pool v = Some (md_Name md, pool_conf p) ->
                  mirrored (<[IpamPool.NameKey (md_Name md) := v]> (etcd w'))
                    (with_cf_pools (<[md_Name md := pool_conf p]> (cf_pools (config w'))) (config w'))) /\ harmless w').
  assert (IpamPool.ipam_free J) as HJ.
  { split; [by intros ? ? [? []]|by intros ? ? [? []]|]. intros k q st w' Hk [HR []]. split; [|by split].
    intros v Hv. rewrite pool_status_config by done. by apply HR. }
  apply (wlp_keeps J).
  { keeps_auto; try (by apply IpamPool.keeps_EntityCreate);
      apply clocked_range_map; try apply HJ; intros k n; keeps_auto; by apply IpamPool.keeps_EntityCreate. }
  { split; [|by destruct Hw as [_ []]]. intros v Hv. unfold config, with_cf_pools. cbn.
    rewrite fmap_insert, insert_insert_eq. apply mirrored_put_pool; [done|apply Hw]. }
  intros _ w' [HR Hh]. cbn [ip_Metadata with_ip_Status]. rewrite Hmd. wpw. apply (wp_written Hput).
  pose proof (pool_put_config w' (md_Name md) (with_ip_Status (Some (Some ∅)) (with_ip_Status None p))) as Ec.
  split; [eapply eq_ind_r; [apply HR; cbn; by rewrite Hmd|exact Ec]|].
  by destruct (harmless_put (IpamPool.NameKey (md_Name md)) (VIPAMPool (with_ip_Status (Some (Some ∅)) (with_ip_Status None p))) w' I Hh).
Qed.

Lemma stored_mgr_CU m data : keeps stored (mgr_CU m data).
Proof using Hput.
  destruct m, data; try apply keeps_panic; cbn [mgr_CU];
    auto using stored_params_CU, stored_pool_CU, stored_placement_CU, stored_overlay_CU, stored_node_CU, stored_service_CU.
Qed.

Lemma stored_mgr_D m data : keeps stored (mgr_D m data).
Proof using Hput.
  destruct m; [apply stored_params_D| | | | |]; destruct data; try apply keeps_panic; cbn [mgr_D];
    auto using stored_pool_D, stored_placement_D, stored_overlay_D, stored_node_D, stored_service_D.
Qed.

(** One message, whatever it is, and what is rendered after it. *)
Lemma stored_handle_msg msg f : keeps stored (handle_msg msg f).
Proof using Hput.
  unfold handle_msg. destruct (msg_opCode msg); keeps_auto; [apply stored_mgr_CU|apply stored_mgr_D|].
  apply keeps_wlp. intros w Hw. eapply wp_conseq; [apply MessageLoop.Sync_placements|]. intros r w' (n & ram & ->). revert Hw. same.
Qed.

Lemma stored_process_msg f msg : keeps stored (process_msg f msg).
Proof using Hput.
  unfold process_msg. keeps_auto; [apply stored_handle_msg|by apply stored_render_transaction].
Qed.
End crud.

End Stored.
