(* ===== verification/Loaded.v ===== *)
(** * What a start-up loads

    Module Loaded: a controller that is started on an etcd that holds the configuration has this configuration again, its
    counters are past the identifiers in use, and it knows the entries that the loaded objects list. *)

From S2P Require Import Prelude GoStd IdAlloc Ipam Model VppAgent State RenderTxn SysParms IpamPool PodNodeMap.
From S2P Require Import Interfaces EntityTxn NetworkNode Overlay ServiceIf ServiceL3 NetworkService Controller MessageLoop Mirror Stored.

Module Loaded.
Import VppAgent RenderTxn Interfaces EntityTxn Controller Mirror Stored.

Section env.
Context {E : Env}.

(** ** Loading *)
Section load.
Context (Hget : forall n key, get_error n key = None).
Context {C : Type} (prefix : string) (parse : Value -> option (string * C)) (load : Value -> M World unit).
Context (read : Config -> gmap string C) (change : gmap string C -> Config -> Config).
Context (Hrc : forall x c, read (change x c) = x) (Hcc : forall x y c, change x (change y c) = change x c).
Context (Hload : forall v name a w, parse v = Some (name, a) ->
  wpp False (load v) (fun _ w' => etcd w' = etcd w /\ config w' = change (<[name := a]> (read (config w))) (config w)) w).

Lemma prefix_split p k : String.prefix p k = true -> exists s, k = p +:+ s.
Proof.
  revert k. induction p as [|x p IH]; intros k H; [by exists k|].
  destruct k as [|y k]; [done|]. cbn in H. destruct (Ascii.ascii_dec x y) as [->|]; [|done].
  destruct (IH k H) as [s ->]. by exists s.
Qed.

Lemma load_restores c w :
  mirrors prefix parse (etcd w) c -> change ∅ (config w) = config w ->
  wpp False (ReadIterate prefix load) (fun _ w' => etcd w' = etcd w /\ config w' = change c (config w)) w.
Proof.
  intros Hm H0. unfold ReadIterate, tick. wpw. rewrite Hget. wpw.
  apply (wp_range_map False _ _ (fun d w' => etcd w' = etcd w /\ exists x, config w' = change x (config w) /\
    forall name, x !! name = if decide (prefix +:+ name ∈ d) then c !! name else None)).
  - intros n. split; [done|]. exists ∅. split; [by rewrite H0|]. intros name.
    by rewrite decide_False by apply not_elem_of_nil.
  - intros d k w' Hnd Hin (Ee & x & Ec & Hx). rewrite Ee.
    destruct (Hin k) as [v Hv]; [apply elem_of_app; right; by apply list_elem_of_singleton|]. cbn in Hv. rewrite Hv.
    unfold keys_under in Hv. apply map_lookup_filter_Some in Hv as [Hv Hp]. destruct (prefix_split prefix k Hp) as [name ->].
    pose proof (Hm name) as Hn. rewrite Hv in Hn. destruct (c !! name) as [a|] eqn:Ha; [|done]. injection Hn as Hn.
    eapply wp_conseq; [by apply Hload|]. intros _ w2 (Ee2 & Ec2). split; [by rewrite Ee2|].
    rewrite Ec, Hrc, Hcc in Ec2. eexists. split; [exact Ec2|]. intros name'.
    destruct (decide (name' = name)) as [->|Hne].
    + rewrite lookup_insert_eq, decide_True; [done|]. apply elem_of_app. right. by apply list_elem_of_singleton.
    + rewrite lookup_insert_ne, Hx by done. apply decide_ext. rewrite elem_of_app, list_elem_of_singleton.
      split; [by left|]. by intros [?|?%sapp_inj_l].
  - intros ks w' _ Hks (Ee & x & Ec & Hx). wpw. split; [done|]. rewrite Ec. f_equal. apply map_eq. intros name.
    rewrite Hx. destruct (decide _) as [|Hn]; [done|]. symmetry. pose proof (Hm name) as Hc.
    destruct (etcd w !! (prefix +:+ name)) as [v|] eqn:Hv; [|by destruct (c !! name)].
    exfalso. apply Hn, Hks. exists v. apply map_lookup_filter_Some. split; [done|]. apply prefix_app.
Qed.
End load.

(** What a manager has in its cache when it is initialized. *)
Section init.
Context (Hget : forall n key, get_error n key = None).

Lemma load_interfaces_heap m w :
  wpp False (load_interfaces m) (fun _ w' => exists h, w' = with_if_heap h w) w.
Proof.
  enough (forall l w, wpp False (load_states l) (fun _ w' => exists h, w' = with_if_heap h w) w) as Hl.
  { destruct m as [m|]; cbn; wpw; [|exists (if_heap w); by destruct w].
    eapply wp_conseq; [apply Hl|]. intros r w' H. by wpw. }
  clear. induction l as [|[k s] l IH]; intros w; cbn; wpw; [exists (if_heap w); by destruct w|].
  apply wp_heap_new. wpw. eapply wp_conseq; [apply IH|]. intros m w' [h ->]. wpw. by exists h.
Qed.

Lemma load_map_default {A} (r : option (gmap string A)) : default ∅ (load_map r) = default ∅ r.
Proof. destruct r as [r|]; cbn; [|done]. by destruct (decide (r = ∅)) as [->|]. Qed.

Lemma params_Init c w :
  mirrored (etcd w) c ->
  wpp False SysParms.Init (fun _ w' => etcd w' = etcd w /\ config w' = with_cf_params (cf_params c) (config w)) w.
Proof.
  intros [Hp _ _ _ _ _]. unfold SysParms.Init, SysParms.InitRAMCache, SysParms.LoadAllFromDatastoreIntoCache, ReadFromDatastore, tick.
  wpw. rewrite Hget. wpw. cbn. destruct Hp as [->|[-> ->]]; by wpw.
Qed.

Lemma pools_Init c w :
  mirrored (etcd w) c ->
  wpp False IpamPool.Init (fun _ w' => etcd w' = etcd w /\ config w' = with_cf_pools (cf_pools c) (config w)) w.
Proof.
  intros [_ Hm _ _ _ _]. unfold IpamPool.Init, IpamPool.InitRAMCache. wpw.
  eapply wp_conseq; [eapply (load_restores Hget _ parse_pool _ cf_pools with_cf_pools); [done|done| |exact Hm|done]|].
  - intros v name a w0 Hv. destruct v as [| | | | | | | | | |p| |]; try done. cbn in Hv. destruct (ip_Metadata p) as [md|] eqn:Hmd; [|done].
    injection Hv as <- <-. unfold IpamPool.load_pool. cbn [ip_Metadata with_ip_Status]. rewrite Hmd. wpw. split; [done|].
    unfold config, with_cf_pools. cbn. by rewrite fmap_insert.
  - intros _ w' [H1 H2]. by wpw.
Qed.

(** Loading placements into any map reads them and changes nothing else. *)
Lemma load_runs prefix w m m0 :
  PodNodeMap.held_under prefix w m ->
  wpp False (PodNodeMap.loadAllFromDatastore prefix m0) (fun _ w' => exists n, w' = with_clock n w) w.
Proof.
  intros (_ & Hv & _). unfold PodNodeMap.loadAllFromDatastore, ReadAll, tick. wpw. rewrite Hget. wpw.
  apply wp_order_keys. intros ks n _ _. wpw.
  destruct (PodNodeMap.load_into_keyed (omap (fun k => keys_under prefix (etcd w) !! k) ks) m0 (with_clock n (with_clock (clock w + 1) w)))
    as (m' & R & _); [|eapply wp_run; [exact R|]; by exists n].
  apply Forall_forall. intros v (k & _ & Hk)%list_elem_of_omap. apply map_lookup_filter_Some in Hk as [Hk Hp].
  destruct (Hv k v Hk Hp) as (p & -> & _). by exists p.
Qed.

Lemma placements_Init c w :
  mirrored (etcd w) c ->
  wpp False PodNodeMap.Init (fun _ w' => etcd w' = etcd w /\ config w' = with_cf_placements (cf_placements c) (config w)) w.
Proof.
  intros [_ _ Hm _ _ _]. unfold PodNodeMap.Init, PodNodeMap.InitRAMCache, PodNodeMap.LoadAllFromDatastoreIntoCache. wpw.
  assert (forall w', etcd w' = etcd w -> PodNodeMap.held_under PodNodeMap.KeyPrefix w' (cf_placements c)) as Hh.
  { intros w' Ee. split_and!.
    - intros k p Hk. pose proof (Hm k) as H. rewrite Hk in H. destruct (etcd w !! _) as [[]|]; try done. by injection H as <- <-.
    - intros k v Hk Hp. destruct (prefix_split _ _ Hp) as [name ->]. rewrite Ee in Hk. pose proof (Hm name) as H. rewrite Hk in H.
      destruct (cf_placements c !! name) as [p|]; [|done]. injection H as H. destruct v; try done. injection H as <- <-. by eexists.
    - intros pod p. rewrite Ee. pose proof (Hm pod) as H. destruct (etcd w !! _) as [v|] eqn:Ev, (cf_placements c !! pod) as [q|]; try done.
      injection H as H. destruct v; try done. injection H as <- <-. split; by intros [= ->]. }
  eapply wp_conseq; [by eapply load_runs, Hh|]. intros ? w1 [n ->]. wpw. cbn.
  eapply wp_conseq; [by apply PodNodeMap.load_held; [apply Hh|]|]. intros ? w1 [-> [n1 ->]]. by wpw.
Qed.

Lemma overlays_Init c w :
  mirrored (etcd w) c ->
  wpp False Overlay.Init (fun _ w' => etcd w' = etcd w /\ config w' = with_cf_overlays (cf_overlays c) (config w)) w.
Proof.
  intros [_ _ _ Hm _ _]. unfold Overlay.Init, Overlay.InitRAMCache. wpw.
  eapply wp_conseq; [eapply (load_restores Hget _ parse_overlay _ cf_overlays with_cf_overlays); [done|done| |exact Hm|done]|].
  - intros v name a w0 Hv. destruct v as [| | | | | | | | |nno| | |]; try done. cbn in Hv. destruct (nno_Metadata nno) as [md|] eqn:Hmd; [|done].
    injection Hv as <- <-. unfold Overlay.load_overlay, Overlay.overlay_name. cbn [nno_Metadata with_nno_Status]. rewrite Hmd. wpw. split; [done|].
    unfold config, with_cf_overlays. cbn. by rewrite fmap_insert.
  - intros _ w' [H1 H2]. by wpw.
Qed.

Lemma nodes_Init c w :
  mirrored (etcd w) c ->
  wpp False NetworkNode.Init (fun _ w' => etcd w' = etcd w /\ config w' = with_cf_nodes (cf_nodes c) (config w)) w.
Proof.
  intros [_ _ _ _ Hm _]. unfold NetworkNode.Init, NetworkNode.InitRAMCache. wpw.
  eapply wp_conseq; [eapply (load_restores Hget _ parse_node _ cf_nodes with_cf_nodes); [done|done| |exact Hm|done]|].
  - intros v name a w0 Hv. destruct v as [| | | | | | |nn| | | | |]; try done. cbn in Hv. destruct (nn_Metadata nn) as [md|] eqn:Hmd; [|done].
    injection Hv as <- <-. unfold NetworkNode.load_node, NetworkNode.put_node. rewrite Hmd. wpw.
    set (put st h := with_networkNodeCache (<[md_Name md := mkNetworkNode (Some md) (nn_Spec nn) st]> (networkNodeCache w0)) (with_if_heap h w0)).
    assert (forall st h, default ∅ (st ≫= nnt_Rendered) = default ∅ (nn_Status nn ≫= nnt_Rendered) ->
      etcd (put st h) = etcd w0 /\ config (put st h)
      = with_cf_nodes (<[md_Name md := node_conf nn]> (cf_nodes (config w0))) (config w0)) as H.
    { intros st h Hst. split; [done|]. unfold put, config, with_cf_nodes, node_conf. cbn. by rewrite fmap_insert, Hmd, <- Hst. }
    destruct (nn_Status nn) as [st|]; wpw; [|by destruct w0; apply H].
    eapply wp_conseq; [apply load_interfaces_heap|]. intros i w1 [h ->]. wpw. apply H. apply load_map_default.
  - intros _ w' [H1 H2]. by wpw.
Qed.

Lemma services_Init c w :
  mirrored (etcd w) c ->
  wpp False NetworkService.Init (fun _ w' => etcd w' = etcd w /\ config w' = with_cf_services (cf_services c) (config w)) w.
Proof.
  intros [_ _ _ _ _ Hm]. unfold NetworkService.Init, NetworkService.InitRAMCache. wpw.
  eapply wp_conseq; [eapply (load_restores Hget _ parse_service _ cf_services with_cf_services); [done|done| |exact Hm|done]|].
  - intros v name a w0 Hv. destruct v as [| | | | | | | |ns| | | |]; try done. cbn in Hv. destruct (ns_Metadata ns) as [md|] eqn:Hmd; [|done].
    injection Hv as <- <-. unfold NetworkService.load_service, ServiceIf.put_service. rewrite Hmd. wpw.
    set (put st h := with_networkServiceCache (<[md_Name md := mkNetworkService (Some md) (ns_Spec ns) st]> (networkServiceCache w0)) (with_if_heap h w0)).
    assert (forall st h, default ∅ (st ≫= nst_Rendered) = default ∅ (ns_Status ns ≫= nst_Rendered) ->
      etcd (put st h) = etcd w0 /\ config (put st h)
      = with_cf_services (<[md_Name md := service_conf ns]> (cf_services (config w0))) (config w0)) as H.
    { intros st h Hst. split; [done|]. unfold put, config, with_cf_services, service_conf. cbn. by rewrite fmap_insert, Hmd, <- Hst. }
    destruct (ns_Status ns) as [st|]; wpw; [|by destruct w0; apply H].
    eapply wp_conseq; [apply load_interfaces_heap|]. intros i w1 [h ->]. wpw. apply H. apply load_map_default.
  - intros _ w' [H1 H2]. by wpw.
Qed.

(** The managers are initialized one after the other, from empty caches. *)
Lemma initMgrs_restores c w :
  mirrored (etcd w) c ->
  wpp False (InitRAMCache ;;; initMgrs) (fun _ w' => etcd w' = etcd w /\ config w' = c) w.
Proof.
  intros Hm. unfold InitRAMCache, initMgrs. cbn [forM map snd RegisteredManagers mgr_InitRAMCache mgr_Init].
  unfold SysParms.InitRAMCache, IpamPool.InitRAMCache, PodNodeMap.InitRAMCache, Overlay.InitRAMCache, NetworkNode.InitRAMCache, NetworkService.InitRAMCache.
  wpw. eapply wp_conseq; [by apply (params_Init c)|]. intros _ w1 [E1 C1]. wpw. 
  eapply wp_conseq; [apply (pools_Init c); by rewrite E1|]. intros _ w2 [E2 C2]. wpw.
  eapply wp_conseq; [apply (placements_Init c); by rewrite E2, E1|]. intros _ w3 [E3 C3]. wpw.
  eapply wp_conseq; [apply (overlays_Init c); by rewrite E3, E2, E1|]. intros _ w4 [E4 C4]. wpw.
  eapply wp_conseq; [apply (nodes_Init c); by rewrite E4, E3, E2, E1|]. intros _ w5 [E5 C5]. wpw.
  eapply wp_conseq; [apply (services_Init c); by rewrite E5, E4, E3, E2, E1|]. intros _ w6 [E6 C6]. wpw.
  split; [by rewrite E6, E5, E4, E3, E2, E1|]. rewrite C6, C5, C4, C3, C2, C1. by destruct c.
Qed.

(** *** What the loaded objects are used for leaves the configuration alone *)
Lemma config_framed c : framed (fun w => config w = c).
Proof. by split. Qed.

Lemma config_free c : IpamPool.ipam_free (fun w => config w = c).
Proof. split; [done|done|]. intros k p st w Hk <-. by apply pool_status_config. Qed.

Lemma config_post_process_interface c n l : keeps (fun w => config w = c) (post_process_interface n l).
Proof.
  unfold post_process_interface, UpdateRamCacheAllocatorsForInterfaceStatus, offer_addresses.
  keeps_auto; try apply (keeps_on_if_heap _ (config_framed c)); try apply (keeps_order_keys _ (config_framed c));
    try (apply (keeps_range_map _ (config_framed c)); keeps_auto);
    try apply (IpamPool.keeps_SetAddress _ (config_free c)); try apply (IpamPool.keeps_SetAddressIfInPool _ (config_free c));
    apply keeps_modify; intros w Hw; repeat case_match; done.
Qed.

Lemma config_post_process_entity c model scope name r i :
  keeps (fun w => config w = c) (post_process_entity model scope name r i).
Proof.
  unfold post_process_entity, LoadVppAgentEntriesFromRenderedVppAgentEntries.
  keeps_auto; try apply (keeps_order_keys _ (config_framed c)); try apply (IpamPool.keeps_EntityCreate _ (config_free c));
    try apply config_post_process_interface; try (apply keeps_modify; done);
    apply keeps_ReadFromEtcd; by try apply config_framed.
Qed.

Lemma config_PostProcess c : keeps (fun w => config w = c) PostProcessLoadedDatastore.
Proof.
  unfold PostProcessLoadedDatastore. apply keeps_bind; [|intros _; apply keeps_bind; [apply (IpamPool.keeps_EntityCreate _ (config_free c))|]].
  - apply keeps_wlp. intros w Hw. apply (wp_range_map True _ _ (fun _ w => config w = c) (fun _ w => config w = c)); [done| |done].
    intros d k w' _ _ Hw'. destruct (ipamPoolCache w' !! k) as [p|] eqn:Hk; [|done]. unfold post_process_pool. wpw.
    by rewrite pool_status_config.
  - intros _. apply keeps_rbnd; [|intros _]; apply (keeps_range_mapR _ (config_framed c)); intros k o;
      apply keeps_bind; try (intros; apply config_post_process_entity);
      unfold NetworkNode.node_name, ServiceIf.service_name; keeps_auto.
Qed.
End init.

Section startup.
Context (Hget : forall n key, get_error n key = None) (Hput : forall n key, put_error n key = None).

(** ** The start-up makes a state in which etcd holds the configuration *)

(** Etcd holds a configuration, and what the objects list is elsewhere. *)
Definition coherent (m : gmap string Value) : Prop :=
  (exists c, mirrored m c) /\ forall key v, ~ foreign key -> m !! key = Some v -> value_off v.

Lemma stored_coherent w : stored w -> coherent (etcd w).
Proof. intros [HR []]. split; [by eexists|done]. Qed.

(** The process is gone; what is left is etcd. *)
Definition restarted (w : World) : World := with_clock (clock w) (with_etcd (etcd w) initial_world).

Lemma restarted_harmless w : coherent (etcd w) -> harmless (restarted w).
Proof. intros [_ H]. split; [done|..]; intros ? ? Hk; cbn in Hk; by rewrite lookup_empty in Hk. Qed.

Ltac alone := apply keeps_modify; intros ? []; by split.

Lemma listed_off_load r : listed_off r -> listed_off (load_map r).
Proof. destruct r as [r|]; cbn; [|done]. destruct (decide (r = ∅)) as [->|]; [|done]. intros _. apply listed_off_none. Qed.

Lemma harmless_load_interfaces m : keeps harmless (load_interfaces m).
Proof.
  apply keeps_wlp. intros w Hw. pose proof (load_interfaces_heap m w) as H. unfold wpp in *.
  destruct (load_interfaces m w) as [r w'|]; [|done]. destruct H as [h ->]. by destruct Hw.
Qed.

Lemma harmless_load_node v : value_off v -> keeps harmless (NetworkNode.load_node v).
Proof.
  intros Hv. destruct v as [| | | | | | |nn| | | | |]; try apply keeps_panic. cbn in Hv. unfold NetworkNode.load_node, NetworkNode.put_node.
  apply keeps_bind; [apply keeps_deref|]. intros md.
  eapply (keeps_bind_val _ _ _ (fun st => listed_off (st ≫= nnt_Rendered))).
  - intros w Hw. destruct (nn_Status nn) as [st|]; wpw; [|by split; [|apply listed_off_none]].
    apply (wlp_keeps harmless); [apply harmless_load_interfaces|done|]. intros i w1 H1. wpw. split; [done|]. by apply listed_off_load.
  - intros st Hst. apply keeps_modify. intros w. by apply harmless_node.
Qed.

Lemma harmless_load_service v : value_off v -> keeps harmless (NetworkService.load_service v).
Proof.
  intros Hv. destruct v as [| | | | | | | |ns| | | |]; try apply keeps_panic. cbn in Hv. unfold NetworkService.load_service, ServiceIf.put_service.
  apply keeps_bind; [apply keeps_deref|]. intros md.
  eapply (keeps_bind_val _ _ _ (fun st => listed_off (st ≫= nst_Rendered))).
  - intros w Hw. destruct (ns_Status ns) as [st|]; wpw; [|by split; [|apply listed_off_none]].
    apply (wlp_keeps harmless); [apply harmless_load_interfaces|done|]. intros i w1 H1. wpw. split; [done|]. by apply listed_off_load.
  - intros st Hst. apply keeps_modify. intros w. by apply harmless_service.
Qed.

(** Loading the objects under a prefix of the configuration. *)
Lemma harmless_ReadIterate sub action :
  (forall v, value_off v -> keeps harmless (action v)) -> keeps harmless (ReadIterate (SfcControllerConfigPrefix +:+ sub) action).
Proof.
  intros Ha. unfold ReadIterate. apply keeps_bind; [apply clocked_tick; by intros ? ? []|]. intros n.
  destruct (get_error _ _); [apply keeps_panic|]. apply keeps_bind; [|intros; apply keeps_mok].
  apply keeps_range_map_at; [by intros ? ? []|]. intros k v w Hk Hw. apply map_lookup_filter_Some in Hk as [Hk Hp].
  apply (Ha v); [|done]. eapply ha_etcd; [done| |exact Hk]. cbn in Hp. destruct (prefix_split _ _ Hp) as [s ->].
  rewrite sapp_assoc. apply not_foreign.
Qed.

Lemma harmless_clock n w : harmless w -> harmless (with_clock n w).
Proof. by intros []. Qed.

Lemma harmless_placements prefix m : keeps harmless (PodNodeMap.loadAllFromDatastore prefix m).
Proof.
  apply keeps_bind.
  - unfold ReadAll. apply keeps_bind; [apply clocked_tick, harmless_clock|]. intros n.
    destruct (get_error _ _); [apply keeps_panic|]. apply keeps_bind; [apply keeps_get|]. intros vs.
    apply keeps_bind; [apply clocked_order_keys, harmless_clock|]. intros. apply keeps_ret.
  - intros vs w Hw. pose proof (MessageLoop.load_into_same vs m w) as H.
    unfold wpp in H. destruct (PodNodeMap.load_into vs m w); [by rewrite H|done].
Qed.

Lemma harmless_mgr_InitRAMCache m : keeps harmless (mgr_InitRAMCache m).
Proof.
  destruct m; cbn [mgr_InitRAMCache]; unfold SysParms.InitRAMCache, IpamPool.InitRAMCache, PodNodeMap.InitRAMCache,
    Overlay.InitRAMCache, NetworkNode.InitRAMCache, NetworkService.InitRAMCache; keeps_auto; try alone;
    apply keeps_modify; intros w []; split; try done; intros ? ? Hk; cbn in Hk; by rewrite lookup_empty in Hk.
Qed.

Lemma harmless_InitRAMCache : keeps harmless InitRAMCache.
Proof. unfold InitRAMCache. keeps_auto; try alone. apply harmless_mgr_InitRAMCache. Qed.

Lemma harmless_mgr_Init m : keeps harmless (mgr_Init m).
Proof.
  pose proof (harmless_mgr_InitRAMCache m) as Hr. destruct m; cbn [mgr_Init mgr_InitRAMCache] in *; unfold SysParms.Init, IpamPool.Init, PodNodeMap.Init,
    Overlay.Init, NetworkNode.Init, NetworkService.Init; (apply keeps_bind; [exact Hr|intros _; apply keeps_bind; [|intros; apply keeps_ret]]).
  - unfold SysParms.LoadAllFromDatastoreIntoCache, ReadFromDatastore. keeps_auto; first [alone | apply clocked_tick, harmless_clock].
  - apply harmless_ReadIterate. intros v _. unfold IpamPool.load_pool. keeps_auto; alone.
  - unfold PodNodeMap.LoadAllFromDatastoreIntoCache. keeps_auto; try alone; apply harmless_placements.
  - apply harmless_ReadIterate. intros v _. unfold Overlay.load_overlay, Overlay.overlay_name. keeps_auto; alone.
  - apply harmless_ReadIterate, harmless_load_node.
  - apply harmless_ReadIterate, harmless_load_service.
Qed.

(** After the managers are initialized, etcd holds what they have. *)
Lemma initMgrs_stored w : coherent (etcd w) -> harmless w -> wlp (InitRAMCache ;;; initMgrs) (fun _ => stored) w.
Proof using Hget.
  intros [[c Hc] _] Hw.
  assert (wlp (InitRAMCache ;;; initMgrs) (fun _ => harmless) w) as H1.
  { apply (wlp_keeps harmless); [|done|done]. apply keeps_bind; [apply harmless_InitRAMCache|]. intros _.
    apply keeps_forM. intros m _. apply harmless_mgr_Init. }
  pose proof (initMgrs_restores Hget c w Hc) as H2. unfold wpp in *.
  destruct ((InitRAMCache ;;; initMgrs) w) as [u w'|]; [|done]. destruct H2 as [E1 E2]. split; [by rewrite E1, E2|done].
Qed.

(** *** The loaded objects are indexed *)
Lemma set_data_key kv v w : wlp (set_data kv v) (fun r _ => forall kv', r = Some kv' -> VppKey kv' = VppKey kv) w.
Proof.
  unfold set_data. repeat (destruct (String.eqb _ _); [destruct v; try (wpw; by intros ? [= <-])|]); try (wpw; by intros ? [= <-]).
Qed.

Lemma stored_ReadFromEtcd kv w :
  stored w -> wlp (ReadFromEtcd kv) (fun r w' => stored w' /\ forall kv', r = Ok (Some kv') -> VppKey kv' = VppKey kv) w.
Proof.
  intros Hw. unfold ReadFromEtcd, ReadFromDatastore, tick. destruct (known_type _); [|by wpw]. wpw.
  assert (stored (with_clock (clock w + 1) w)) as Hw1 by by apply held_clock.
  destruct (get_error _ _); wpw; [done|]. change (etcd (with_clock (clock w + 1) w)) with (etcd w). destruct (etcd w !! VppKey kv) as [v|]; wpw; [|done].
  apply wp_bnd. eapply wp_conseq.
  { apply wlp_and; [apply set_data_key|]. apply (wlp_keeps stored); [|exact Hw1|intros a w' H; exact H].
    unfold set_data. keeps_auto. apply held_on_bd_heap. }
  intros r w' [Hk H']. cbv beta in *. destruct r as [kv'|]; wpw; split; try done. intros kv2 [= <-]. by apply Hk.
Qed.

Lemma stored_load_entries n r : listed_off r -> keeps stored (LoadVppAgentEntriesFromRenderedVppAgentEntries n r).
Proof.
  intros Hr. unfold LoadVppAgentEntriesFromRenderedVppAgentEntries. apply keeps_bind; [apply (held_order_keys mirrored)|]. intros ks.
  apply keeps_forR. intros key _. destruct (default ∅ r !! key) as [e|] eqn:He; [|apply keeps_mok].
  apply keeps_wlp. intros w Hw. apply wp_rbnd. eapply wp_conseq; [by apply stored_ReadFromEtcd|].
  intros [err|[kv|]] w' [Hw' Hkv]; [done| |by wpw]. wpw. pose proof (Hkv kv eq_refl) as Ek.
  assert (foreign (VppKey kv)) as Hf by (rewrite Ek; cbn; destruct (Hr key e He) as [-> Hf]; exact Hf). by apply held_put_known.
Qed.

Lemma stored_post_process_interface n l : keeps stored (post_process_interface n l).
Proof.
  unfold post_process_interface, UpdateRamCacheAllocatorsForInterfaceStatus.
  keeps_auto; try apply (held_on_if_heap mirrored); try apply (held_order_keys mirrored);
    try apply (keeps_offer_addresses _ (held_interface_free mirrored)); try apply (IpamPool.keeps_SetAddress _ (held_ipam_free mirrored));
    apply keeps_modify; intros w Hw; repeat case_match; revert Hw; same.
Qed.

Lemma stored_post_process_entity model scope name r i : listed_off r -> keeps stored (post_process_entity model scope name r i).
Proof.
  intros Hr. unfold post_process_entity. apply keeps_bind; [apply stored_EntityCreate|]. intros _.
  apply keeps_rbnd; [destruct (decide _); [apply keeps_mok|by apply stored_load_entries]|]. intros _.
  keeps_auto; [apply (held_order_keys mirrored)|apply stored_post_process_interface].
Qed.

Lemma stored_PostProcess : keeps stored PostProcessLoadedDatastore.
Proof.
  unfold PostProcessLoadedDatastore. apply keeps_bind; [|intros _; apply keeps_bind; [apply stored_EntityCreate|intros _]].
  { apply keeps_range_map_at; [apply held_clock|]. intros k p w Hk Hw. unfold post_process_pool. wpw. by apply held_pool_status. }
  apply keeps_rbnd; [|intros _]; (apply keeps_range_mapR_at; [apply held_clock|]); intros k x w Hk Hw.
  - unfold NetworkNode.node_name. wpw. destruct (nn_Metadata x); [|done]. wpw. apply stored_post_process_entity; [|done].
    by eapply ha_nodes; [apply Hw|].
  - unfold ServiceIf.service_name. wpw. destruct (ns_Metadata x); [|done]. wpw. apply stored_post_process_entity; [|done].
    by eapply ha_services; [apply Hw|].
Qed.

(** *** The clean-up *)
Definition cleaned (w : World) : Prop := (forall key, ~ foreign key -> etcd w !! key = None) /\ harmless w.

Lemma cleaned_stored w : cleaned w -> wlp InitRAMCache (fun _ => stored) w.
Proof.
  intros [He Hh].
  assert (wlp InitRAMCache (fun _ w' => etcd w' = etcd w /\ config w' = config initial_world) w) as H.
  { unfold InitRAMCache. cbn [forM map snd RegisteredManagers mgr_InitRAMCache].
    unfold SysParms.InitRAMCache, IpamPool.InitRAMCache, PodNodeMap.InitRAMCache, Overlay.InitRAMCache, NetworkNode.InitRAMCache,
      NetworkService.InitRAMCache. by wpw. }
  pose proof (harmless_InitRAMCache w Hh) as H2. unfold wpp in *. destruct (InitRAMCache w) as [u w'|]; [|done].
  destruct H as [E1 E2]. split; [|exact H2]. rewrite E1, E2.
  split; try (intros name; cbn; rewrite ?fmap_empty, lookup_empty, He; [done|apply not_foreign]).
  right. split; [|done]. by apply He.
Qed.

Lemma stored_clean :
  keeps stored (CleanDatastore SfcControllerConfigPrefix ;;; CleanVppAgentEntriesFromEtcd ;;; InitRAMCache).
Proof.
  apply keeps_wlp. intros w [_ Hh]. unfold CleanDatastore. wpw.
  apply (wlp_keeps cleaned); [| |intros _ w1 H1; by apply cleaned_stored].
  - unfold CleanVppAgentEntriesFromEtcd. apply keeps_range_map_at; [by intros ? ? [? []]|]. intros k kv w1 Hk [He H1]. wpw. split.
    + intros key Hkey. cbn. destruct (decide (key = VppKey kv)) as [->|Hne]; [apply lookup_delete_eq|]. rewrite lookup_delete_ne by done. by apply He.
    + by destruct (harmless_delete (VppKey kv) w1 H1).
  - split.
    + intros key Hkey. cbn. apply map_lookup_filter_None. right. intros v _. unfold foreign in Hkey. cbn. by intros ?.
    + destruct Hh. split; try done. intros key v Hkey Hv. cbn in Hv. apply map_lookup_filter_Some in Hv as [_ Hp]. done.
Qed.

(** The whole start-up, with a clean-up and a file or without. *)
Lemma Init_stored clean y w :
  coherent (etcd w) -> wlp (Init clean y) (fun _ => stored) (restarted w).
Proof.
  intros Hc. unfold Init. eapply wlp_assoc; [apply initMgrs_stored; [done|by apply restarted_harmless]|]. intros w2 H2. wpw.
  assert (forall m, keeps stored m -> keeps stored (or_exit m)) as Hexit.
  { intros m Hm. apply keeps_bind; [exact Hm|]. intros [e|[]]; [apply keeps_panic|apply keeps_ret]. }
  apply (wlp_keeps stored); [apply Hexit, stored_PostProcess|done|]. intros _ w3 H3. wpw.
  apply (wlp_keeps stored); [destruct clean; [apply stored_clean|apply keeps_ret]|done|]. intros _ w4 H4.
  apply (wlp_keeps stored); [|done|done]. destruct y as [y|]; [|apply keeps_ret]. apply Hexit.
  unfold SfcConfigYamlProcessConfig. keeps_auto.
  - by apply stored_params_CU.
  - by apply stored_pool_CU.
  - by apply stored_node_CU.
  - by apply stored_service_CU.
  - by apply stored_placement_CU.
  - by apply stored_overlay_CU.
Qed.
End startup.

(** ** The identifiers and the entries of the loaded objects *)

(** An interface state of a loaded node or service. *)
Inductive in_use (w : World) (l : loc) : Prop :=
| in_use_node k nn m i : networkNodeCache w !! k = Some nn -> nn_Status nn ≫= nnt_Interfaces = Some m ->
    m !! i = Some l -> in_use w l
| in_use_service k ns m i : networkServiceCache w !! k = Some ns -> ns_Status ns ≫= nst_Interfaces = Some m ->
    m !! i = Some l -> in_use w l.

(** A node or a service lists an entry for the key. *)
Inductive lists (N : gmap string (NetworkNode loc)) (S : gmap string (NetworkService loc)) (key : string) : Prop :=
| lists_node k nn x e : N !! k = Some nn -> default ∅ (nn_Status nn ≫= nnt_Rendered) !! x = Some e ->
    re_VppAgentKey e = key -> lists N S key
| lists_service k ns x e : S !! k = Some ns -> default ∅ (ns_Status ns ≫= nst_Rendered) !! x = Some e ->
    re_VppAgentKey e = key -> lists N S key.

(** The known entries are listed, and etcd has them. *)
Definition sound (w : World) : Prop :=
  forall key, key ∈ dom (VppEntries w) ->
    lists (networkNodeCache w) (networkServiceCache w) key /\ is_Some (etcd w !! key).

(** What is listed is part of the configuration. *)
Lemma lists_config w w' key :
  config w' = config w -> lists (networkNodeCache w) (networkServiceCache w) key ->
  lists (networkNodeCache w') (networkServiceCache w') key.
Proof.
  intros Hc. destruct 1 as [k nn x e Hk Hx He|k ns x e Hk Hx He].
  - pose proof (f_equal (fun c => cf_nodes c !! k) Hc) as H. cbn in H. rewrite !lookup_fmap, Hk in H.
    destruct (networkNodeCache w' !! k) as [nn'|] eqn:Hk'; [|done]. injection H as _ _ H. eapply lists_node; [exact Hk'| |exact He].
    by rewrite H.
  - pose proof (f_equal (fun c => cf_services c !! k) Hc) as H. cbn in H. rewrite !lookup_fmap, Hk in H.
    destruct (networkServiceCache w' !! k) as [ns'|] eqn:Hk'; [|done]. injection H as _ _ H. eapply lists_service; [exact Hk'| |exact He].
    by rewrite H.
Qed.

(** The counters are past the identifiers of the state at [l]. *)
Definition passed (w : World) (l : loc) : Prop :=
  forall s, cells (if_heap w) !! l = Some s ->
    is_MacAddrID s <= MacAddr.MacAddrID (MacAddrAllocator w) /\ is_MemifID s <= Memif.MemifID (MemifIDAllocator w).

(** The entries listed in [r] that etcd has are known. *)
Definition knows (w : World) (r : option Rendered) : Prop :=
  forall x e, default ∅ r !! x = Some e -> is_Some (etcd w !! re_VppAgentKey e) -> re_VppAgentKey e ∈ dom (VppEntries w).

(** While the loaded objects are indexed: etcd, the objects and the vrf counter stay, the other counters do not go back,
    and entries become known. *)
Record counting (w0 w : World) : Prop := {
  co_etcd : etcd w = etcd w0;
  co_heap : if_heap w = if_heap w0;
  co_nodes : networkNodeCache w = networkNodeCache w0;
  co_services : networkServiceCache w = networkServiceCache w0;
  co_vrf : VrfIDAllocator w = VrfIDAllocator w0;
  co_mac : MacAddr.MacAddrID (MacAddrAllocator w0) <= MacAddr.MacAddrID (MacAddrAllocator w);
  co_memif : Memif.MemifID (MemifIDAllocator w0) <= Memif.MemifID (MemifIDAllocator w);
  co_known : dom (VppEntries w0) ⊆ dom (VppEntries w);
  co_ready : MessageLoop.ready w0 -> MessageLoop.ready w;
  co_sound : sound w0 -> sound w
}.

Lemma counting_refl w : counting w w.
Proof. by split. Qed.

Lemma counting_trans w1 w2 w3 : counting w1 w2 -> counting w2 w3 -> counting w1 w3.
Proof. intros [] []. split; try congruence; try lia; [by etrans|auto|auto]. Qed.

Lemma passed_counting w w' l : counting w w' -> passed w l -> passed w' l.
Proof. intros H Hp s Hs. rewrite (co_heap _ _ H) in Hs. destruct (Hp s Hs). destruct H. lia. Qed.

Lemma knows_counting w w' r : counting w w' -> knows w r -> knows w' r.
Proof. intros H Hp x e Hx He. rewrite (co_etcd _ _ H) in He. apply (co_known _ _ H). by eapply Hp. Qed.

Ltac counted :=
  intros; lazymatch goal with
  | H : counting _ _ |- _ => destruct H as [? ? ? ? ? ? ? ? Hr Hs]; split; [done..|exact Hr|exact Hs]
  end.

Lemma counting_free w0 : IpamPool.ipam_free (counting w0).
Proof. split; counted. Qed.

Lemma counting_order_keys {A} w0 (m : gmap string A) : keeps (counting w0) (order_keys m).
Proof. apply clocked_order_keys, (IpamPool.if_clock _ (counting_free w0)). Qed.

Lemma counting_read w0 l : keeps (counting w0) (on_if_heap (heap_read l)).
Proof.
  apply keeps_wlp. intros w Hw. destruct (cells (if_heap w) !! l) as [s|] eqn:Hs.
  - eapply wp_heap_read; [exact Hs|done].
  - unfold wpp, on_if_heap, zoom, heap_read. by rewrite Hs.
Qed.

Lemma counting_Update w0 n l : keeps (counting w0) (UpdateRamCacheAllocatorsForInterfaceStatus l n).
Proof.
  unfold UpdateRamCacheAllocatorsForInterfaceStatus, offer_addresses.
  keeps_auto; try apply counting_read; try apply counting_order_keys;
    try (apply (clocked_range_map _ (IpamPool.if_clock _ (counting_free w0))); keeps_auto);
    try apply (IpamPool.keeps_SetAddress _ (counting_free w0)); apply (IpamPool.keeps_SetAddressIfInPool _ (counting_free w0)).
Qed.

Lemma post_process_interface_passes w0 n l w :
  counting w0 w -> wlp (post_process_interface n l) (fun _ w' => counting w0 w' /\ passed w' l) w.
Proof.
  intros Hw. unfold post_process_interface. wpw. destruct (cells (if_heap w) !! l) as [s|] eqn:Hs.
  2:{ unfold wpp, on_if_heap, zoom, heap_read. by rewrite Hs. }
  eapply wp_heap_read; [exact Hs|]. wpw. cbn [if_heap with_InterfaceStates].
  match goal with |- wpp _ _ _ ?x => set (w2 := x) end.
  assert (counting w w2 /\ passed w2 l) as [H2 Hp].
  { unfold w2. cbn [MemifIDAllocator with_InterfaceStates]. destruct (Z.ltb_spec (Memif.MemifID (MemifIDAllocator w)) (is_MemifID s)); cbn;
      destruct (Z.ltb_spec (MacAddr.MacAddrID (MacAddrAllocator w)) (is_MacAddrID s)); (split; [split; cbn; done || lia|]);
      intros s' Hs'; cbn in *; rewrite Hs in Hs'; injection Hs' as <-; lia. }
  apply (wlp_keeps (counting w2)); [apply counting_Update|apply counting_refl|]. intros _ w3 H3. wpw.
  split; [eapply counting_trans, counting_trans; done|by eapply passed_counting].
Qed.

(** An entry that is read has its key and a value of its type. *)
Lemma set_data_loads kv v w :
  wlp (set_data kv v) (fun r w' => counting w w' /\
    forall kv', r = Some kv' -> VppKey kv' = VppKey kv /\ wf_entry (bd_heap w') kv') w.
Proof.
  pose proof (counting_refl w) as Hw.
  unfold set_data, wf_entry.
  repeat match goal with |- context [if String.eqb ?a ?b then _ else _] => destruct (String.eqb_spec a b) as [Ht|_] end;
    [| |destruct v as [| |b| | | | | | | | | |]; try (wpw; by split)|..];
    try (destruct v; wpw; (split; [done|]); intros o Ho; first [discriminate Ho|injection Ho as <-]; (split; [done|]); cbn; rewrite Ht;
         repeat (first [left; solve [split; [done|by eexists]]|right]); (split; [done|by eexists])).
  wpw. unfold on_bd_heap, zoom, heap_new, wpp. cbn. split.
  - split; try done. intros [Hm Hwf]. split; [done|]. eapply wf_entries_mono; [|exact Hwf]. cbn. rewrite dom_insert_L. set_solver.
  - intros o [= <-]. split; [done|]. cbn. rewrite Ht. right; left. split; [done|]. eexists _, _. split; [done|]. by rewrite lookup_insert_eq.
Qed.

Lemma ReadFromEtcd_loads kv w :
  wlp (ReadFromEtcd kv) (fun r w' => counting w w' /\
    (forall o, r = Ok o -> match o with
       | Some kv' => VppKey kv' = VppKey kv /\ wf_entry (bd_heap w') kv' /\ is_Some (etcd w !! VppKey kv)
       | None => etcd w !! VppKey kv = None
       end)) w.
Proof.
  assert (counting w (with_clock (clock w + 1) w)) as Hc by by apply (IpamPool.if_clock _ (counting_free w)), counting_refl.
  unfold ReadFromEtcd, ReadFromDatastore, tick. destruct (known_type _); [|wpw; by split; [apply counting_refl|]]. wpw.
  destruct (get_error _ _); wpw; [by split|]. change (etcd (with_clock (clock w + 1) w)) with (etcd w).
  destruct (etcd w !! VppKey kv) as [v|] eqn:Hv; wpw; [|by split; [|intros o [= <-]]].
  apply wp_bnd. eapply wp_conseq; [apply set_data_loads|]. intros [kv'|] w' [H1 H2]; wpw;
    (split; [by eapply counting_trans|]); [|done]. intros o [= <-]. destruct (H2 kv' eq_refl). split_and!; [done|done|by eexists].
Qed.

Lemma load_entries_known n r w :
  (forall x e, default ∅ r !! x = Some e -> lists (networkNodeCache w) (networkServiceCache w) (re_VppAgentKey e)) ->
  wlp (LoadVppAgentEntriesFromRenderedVppAgentEntries n r) (fun res w' => counting w w' /\ (res = Ok tt -> knows w' r)) w.
Proof.
  intros Hr. unfold LoadVppAgentEntriesFromRenderedVppAgentEntries. wpw. apply wp_order_keys. intros ks t _ Hks.
  apply (wp_forR True _ _ (fun d w' => counting w w' /\ forall x e, x ∈ d -> default ∅ r !! x = Some e ->
    is_Some (etcd w' !! re_VppAgentKey e) -> re_VppAgentKey e ∈ dom (VppEntries w'))).
  - split; [by apply (IpamPool.if_clock _ (counting_free w)), counting_refl|]. by intros x e ?%not_elem_of_nil.
  - intros d x rest w1 _ [H1 Hd]. destruct (default ∅ r !! x) as [e|] eqn:He.
    2:{ wpw. split; [done|]. intros x' e [Hx|Hx%list_elem_of_singleton]%elem_of_app Hl; [by eapply Hd|by rewrite Hx, He in Hl]. }
    apply wp_rbnd. eapply wp_conseq; [apply ReadFromEtcd_loads|]. intros [err|o] w2 [H2 Ho].
    { split; [by eapply counting_trans|done]. }
    specialize (Ho o eq_refl). destruct o as [kv|]; wpw.
    + destruct Ho as (Hk & Hwf & Hsome). cbn in Hk, Hsome.
      assert (counting w2 (with_VppEntries (<[VppKey kv := kv]> (VppEntries w2)) w2)) as H3.
      { split; try done; cbn.
        - rewrite dom_insert_L. set_solver.
        - intros [Hm Hall]. split; [done|]. cbn. by apply wf_entries_insert.
        - intros Hs key. cbn. rewrite dom_insert_L. intros [->%elem_of_singleton|Hin]%elem_of_union; [|by apply Hs].
          rewrite Hk. split; [|by rewrite (co_etcd _ _ H2)]. pose proof (Hr x e He) as Hl.
          by rewrite <- (co_nodes _ _ H1), <- (co_services _ _ H1), <- (co_nodes _ _ H2), <- (co_services _ _ H2) in Hl. }
      split; [by eapply counting_trans, counting_trans|]. intros x' e' [Hx|Hx%list_elem_of_singleton]%elem_of_app Hl Hs.
      * apply (co_known _ _ H3), (co_known _ _ H2). eapply Hd; [done|done|]. cbn in Hs. by rewrite (co_etcd _ _ H2) in Hs.
      * rewrite Hx, He in Hl. injection Hl as <-. cbn. rewrite dom_insert_L, Hk. set_solver.
    + split; [by eapply counting_trans|]. intros x' e' [Hx|Hx%list_elem_of_singleton]%elem_of_app Hl Hs.
      * apply (co_known _ _ H2). eapply Hd; [done|done|]. by rewrite (co_etcd _ _ H2) in Hs.
      * rewrite Hx, He in Hl. injection Hl as <-. cbn in Ho. rewrite (co_etcd _ _ H2), Ho in Hs. by destruct Hs.
  - intros w' [Hc Hd]. split; [done|]. intros _ x e Hx. eapply Hd; [|done]. apply Hks. by exists e.
Qed.

(** What is done with one object that is loaded. *)
Definition indexed (r : option Rendered) (m : option (gmap string loc)) (w : World) : Prop :=
  knows w r /\ forall i l, default ∅ m !! i = Some l -> passed w l.

Lemma indexed_counting r m w w' : counting w w' -> indexed r m w -> indexed r m w'.
Proof. intros H [H1 H2]. split; [by eapply knows_counting|]. intros i l Hl. eapply passed_counting; [done|by eapply H2]. Qed.

Lemma post_process_entity_passes model scope name r m w :
  (forall x e, default ∅ r !! x = Some e -> lists (networkNodeCache w) (networkServiceCache w) (re_VppAgentKey e)) ->
  wlp (post_process_entity model scope name r m) (fun res w' => counting w w' /\ (res = Ok tt -> indexed r m w')) w.
Proof.
  intros Hr. unfold post_process_entity. wpw.
  apply (wlp_keeps (counting w)); [apply IpamPool.keeps_EntityCreate, counting_free|apply counting_refl|]. intros _ w1 H1.
  apply wp_rbnd, (wp_conseq _ _ (fun res w' => counting w w' /\ (res = Ok tt -> knows w' r))).
  { destruct (decide (default ∅ r = ∅)) as [E0|_].
    - wpw. split; [done|]. intros _ x e Hx. by rewrite E0, lookup_empty in Hx.
    - eapply wp_conseq; [apply load_entries_known|].
      + intros x e Hx. rewrite (co_nodes _ _ H1), (co_services _ _ H1). by eapply Hr.
      + intros res w2 [H2 Hk]. split; [by eapply counting_trans|done]. }
  intros [e|[]] w2 [H2 Hk]; [by split|]. wpw. apply wp_order_keys. intros ks n Hnd Hks. wpw. specialize (Hk eq_refl).
  apply (wp_forM True _ _ (fun d w' => counting w2 w' /\ forall i l, i ∈ d -> default ∅ m !! i = Some l -> passed w' l)).
  - split; [by apply (IpamPool.if_clock _ (counting_free w2)), counting_refl|]. by intros i l ?%not_elem_of_nil.
  - intros d k t w' _ [Hc Hd]. destruct (default ∅ m !! k) as [l|] eqn:Hl.
    + eapply wp_conseq; [apply post_process_interface_passes, counting_refl|]. intros _ w3 [Hc3 Hp3].
      split; [by eapply counting_trans|]. intros i l' [Hi|Hi%list_elem_of_singleton]%elem_of_app Hl'; [by eapply passed_counting, Hd|].
      rewrite Hi, Hl in Hl'. by injection Hl' as <-.
    + wpw. split; [done|]. intros i l' [Hi|Hi%list_elem_of_singleton]%elem_of_app Hl'; [by eapply Hd|by rewrite Hi, Hl in Hl'].
  - intros w' [Hc Hd]. wpw. split; [by eapply counting_trans|]. intros _. split; [by eapply knows_counting|].
    intros i l Hl. eapply Hd; [|exact Hl]. apply Hks. by eexists.
Qed.

(** All entities of one kind. *)
Lemma entities_pass {X} (cache : World -> gmap string X) (rendered : X -> option Rendered) (ifs : X -> option (gmap string loc)) body w0 :
  (forall w', counting w0 w' -> cache w' = cache w0) ->
  (forall k x w', counting w0 w' -> cache w0 !! k = Some x ->
     wlp (body k x) (fun r w'' => counting w' w'' /\ (r = Ok tt -> indexed (rendered x) (ifs x) w'')) w') ->
  wlp (range_mapR cache body) (fun r w' => counting w0 w' /\
     (r = Ok tt -> forall k x, cache w0 !! k = Some x -> indexed (rendered x) (ifs x) w')) w0.
Proof.
  intros Hc Hb.
  apply (wp_range_mapR True _ _ (fun d w' => counting w0 w' /\ forall k x, k ∈ d -> cache w0 !! k = Some x -> indexed (rendered x) (ifs x) w')).
  - intros n. split; [by apply (IpamPool.if_clock _ (counting_free w0)), counting_refl|]. by intros k x ?%not_elem_of_nil.
  - intros d k w' _ _ [H Hd]. rewrite (Hc w' H). destruct (cache w0 !! k) as [x|] eqn:Hk.
    + eapply wp_conseq; [by apply Hb|]. intros [e|[]] w2 [H2 Hp]; (split; [by eapply counting_trans|]); [done|].
      intros k' x' [Hi|Hi%list_elem_of_singleton]%elem_of_app Hx; [by eapply indexed_counting, Hd|].
      rewrite Hi, Hk in Hx. injection Hx as <-. by apply Hp.
    + split; [done|]. intros k' x' [Hi|Hi%list_elem_of_singleton]%elem_of_app Hx; [by eapply Hd|by rewrite Hi, Hk in Hx].
  - intros ks w' _ Hks [H Hd]. split; [done|]. intros _ k x Hx. eapply Hd; [|exact Hx]. apply Hks. by exists x.
Qed.

Lemma PostProcess_indexes w :
  wlp PostProcessLoadedDatastore (fun r w' => counting w w' /\ (r = Ok tt ->
    (forall k nn, networkNodeCache w !! k = Some nn -> indexed (nn_Status nn ≫= nnt_Rendered) (nn_Status nn ≫= nnt_Interfaces) w') /\
    (forall k ns, networkServiceCache w !! k = Some ns -> indexed (ns_Status ns ≫= nst_Rendered) (ns_Status ns ≫= nst_Interfaces) w'))) w.
Proof.
  unfold PostProcessLoadedDatastore. wpw.
  apply (wlp_keeps (counting w)); [|apply counting_refl|].
  { apply keeps_range_map_at; [apply (IpamPool.if_clock _ (counting_free w))|]. intros k p w' Hk H.
    unfold post_process_pool. wpw. by apply (IpamPool.if_status _ (counting_free w)). }
  intros _ w1 H1. wpw. apply (wlp_keeps (counting w)); [apply IpamPool.keeps_EntityCreate, counting_free|done|]. intros _ w2 H2.
  rewrite <- (co_nodes _ _ H2), <- (co_services _ _ H2).
  apply wp_rbnd. eapply wp_conseq; [apply (entities_pass _ (fun nn => nn_Status nn ≫= nnt_Rendered) (fun nn => nn_Status nn ≫= nnt_Interfaces))|].
  { intros w' H. apply H. }
  { intros k nn w' H Hk. unfold NetworkNode.node_name. wpw. destruct (nn_Metadata nn); [|done]. wpw. apply post_process_entity_passes.
    intros x e Hx. rewrite <- (co_nodes _ _ H) in Hk. by eapply lists_node. }
  intros [e|[]] w3 [H3 Hn]; [split; [by eapply counting_trans|done]|].
  eapply wp_conseq; [apply (entities_pass _ (fun ns => ns_Status ns ≫= nst_Rendered) (fun ns => ns_Status ns ≫= nst_Interfaces))|].
  { intros w' H. apply H. }
  { intros k ns w' H Hk. unfold ServiceIf.service_name. wpw. destruct (ns_Metadata ns); [|done]. wpw. apply post_process_entity_passes.
    intros x e Hx. rewrite <- (co_services _ _ H) in Hk. by eapply lists_service. }
  intros r w4 [H4 Hs]. split; [by eapply counting_trans, counting_trans|]. intros Hr. split.
  - intros k nn Hk. eapply indexed_counting; [exact H4|]. by eapply Hn.
  - intros k ns Hk. rewrite <- (co_services _ _ H3) in Hk. by eapply Hs.
Qed.

Lemma PostProcess_passes w :
  wlp PostProcessLoadedDatastore (fun r w' => counting w w' /\ (r = Ok tt -> forall l, in_use w' l -> passed w' l)) w.
Proof.
  eapply wp_conseq; [apply PostProcess_indexes|]. intros r w' [Hc H]. split; [done|]. intros Hr l. destruct (H Hr) as [Hn Hs].
  intros [k nn m i Hk Hm Hl|k ns m i Hk Hm Hl].
  - rewrite (co_nodes _ _ Hc) in Hk. apply (Hn k nn Hk) with i. by rewrite Hm.
  - rewrite (co_services _ _ Hc) in Hk. apply (Hs k ns Hk) with i. by rewrite Hm.
Qed.

(** The counters and the known entries as [InitRAMCache] makes them; [b]: the lock. *)
Definition fresh (b : bool) (w : World) : Prop :=
  VrfIDAllocator w = Vrf.NewVrfAllocator /\ MacAddrAllocator w = MacAddr.NewMacAddrAllocator /\
  MemifIDAllocator w = Memif.NewMemifAllocator /\ VppEntries w = ∅ /\ configMutex w = b.

Lemma fresh_framed b : framed (fresh b).
Proof. by split. Qed.

Lemma fresh_load_interfaces b m : keeps (fresh b) (load_interfaces m).
Proof.
  apply keeps_wlp. intros w Hw. pose proof (load_interfaces_heap m w) as H. unfold wpp in *.
  destruct (load_interfaces m w) as [r w'|]; [|done]. by destruct H as [h ->].
Qed.

Lemma fresh_placements b prefix m : keeps (fresh b) (PodNodeMap.loadAllFromDatastore prefix m).
Proof.
  apply keeps_bind; [apply (keeps_ReadAll _ (fresh_framed b))|]. intros vs w Hw. pose proof (MessageLoop.load_into_same vs m w) as H.
  unfold wpp in H. destruct (PodNodeMap.load_into vs m w); [by rewrite H|done].
Qed.

Lemma fresh_initMgrs w : wlp (InitRAMCache ;;; initMgrs) (fun _ => fresh (configMutex w)) w.
Proof.
  unfold InitRAMCache. wpw. apply (wlp_keeps (fresh (configMutex w))).
  { apply keeps_forM. intros m _. by destruct m; apply keeps_modify. }
  { done. }
  intros _ w1 H1. wpw. apply (wlp_keeps (fresh (configMutex w))); [|done|done]. apply keeps_forM. intros m _.
  destruct m; cbn [mgr_Init]; unfold SysParms.Init, IpamPool.Init, PodNodeMap.Init, Overlay.Init, NetworkNode.Init, NetworkService.Init,
    SysParms.LoadAllFromDatastoreIntoCache, IpamPool.LoadAllFromDatastoreIntoCache, PodNodeMap.LoadAllFromDatastoreIntoCache,
    Overlay.LoadAllFromDatastoreIntoCache, NetworkNode.LoadAllFromDatastoreIntoCache, NetworkService.LoadAllFromDatastoreIntoCache;
    keeps_auto; try by apply keeps_modify.
  all: try by apply (keeps_ReadFromDatastore _ (fresh_framed _)).
  all: try (apply (keeps_ReadIterate _ (fresh_framed _)); intros v).
  all: try apply fresh_placements.
  all: unfold IpamPool.load_pool, Overlay.InitRAMCache, Overlay.load_overlay, Overlay.overlay_name, NetworkNode.load_node,
    NetworkNode.put_node, NetworkService.load_service, ServiceIf.put_service; keeps_auto;
    first [apply fresh_load_interfaces | by apply keeps_modify].
Qed.

Lemma fresh_sound b w : fresh b w -> sound w.
Proof. intros (_ & _ & _ & E1 & _) key. rewrite E1. set_solver. Qed.

Lemma fresh_ready w : fresh false w -> MessageLoop.ready w.
Proof. intros (_ & _ & _ & E1 & E2). split; [done|]. rewrite E1. intros k kv H. by rewrite lookup_empty in H. Qed.

(** The start-up without a file and without a clean-up. *)
Lemma Init_wlp (Q : World -> Prop) w :
  wlp (InitRAMCache ;;; initMgrs) (fun _ w1 => wlp PostProcessLoadedDatastore (fun r w2 => r = Ok tt -> Q w2) w1) w ->
  wlp (Init false None) (fun _ => Q) w.
Proof.
  unfold Init, or_exit, wpp, mbnd, mret. destruct (InitRAMCache w) as [_u w1|]; [|done].
  destruct (initMgrs w1) as [u w2|]; [|done]. destruct (PostProcessLoadedDatastore w2) as [[e|[]] w3|]; [done| |done].
  intros H. by apply H.
Qed.

(** What such a start-up leaves: the configuration, and the entries that the loaded objects list, as far as etcd
    has them, as the known ones. *)
Lemma Init_knows c w :
  (forall n key, get_error n key = None) -> mirrored (etcd w) c -> configMutex w = false ->
  wlp (Init false None) (fun _ w1 => etcd w1 = etcd w /\ config w1 = c /\ MessageLoop.ready w1 /\
    forall key, key ∈ dom (VppEntries w1) <->
      lists (networkNodeCache w1) (networkServiceCache w1) key /\ is_Some (etcd w !! key)) w.
Proof.
  intros Hget Hm Hmut. apply Init_wlp.
  assert (wlp (InitRAMCache ;;; initMgrs) (fun _ w1 => (etcd w1 = etcd w /\ config w1 = c) /\ fresh false w1) w) as H1.
  { apply wlp_and; [|rewrite <- Hmut; apply fresh_initMgrs].
    pose proof (initMgrs_restores Hget c w Hm) as H. unfold wpp in *. by destruct ((InitRAMCache ;;; initMgrs) w). }
  eapply wp_conseq; [exact H1|]. intros _ w1 [[He Hc] Hf].
  eapply wp_conseq.
  { apply wlp_and; [apply PostProcess_indexes|].
    apply (wlp_keeps (fun w2 => config w2 = c)); [apply config_PostProcess|exact Hc|]. intros r w2 H. exact H. }
  intros r w2 [[Hcount Hi] Hc2] Hr. destruct (Hi Hr) as [Hn Hs].
  pose proof (co_sound _ _ Hcount (fresh_sound _ _ Hf)) as Hsound.
  rewrite <- (co_nodes _ _ Hcount) in Hn. rewrite <- (co_services _ _ Hcount) in Hs.
  assert (etcd w2 = etcd w) as He2 by (rewrite <- He; apply Hcount).
  split_and!; [done|done|by apply (co_ready _ _ Hcount), fresh_ready|]. intros key. split.
  - intros [H ?]%Hsound. by rewrite <- He2.
  - intros [[k nn x e Hk Hx <-|k ns x e Hk Hx <-] Hin]; rewrite <- He2 in Hin.
    + by apply (proj1 (Hn k nn Hk) x e).
    + by apply (proj1 (Hs k ns Hk) x e).
Qed.
End env.
End Loaded.
