(* ===== verification/System.v ===== *)
(** * The goroutines of the controller together

    Module System: the message loop, the goroutines of the REST requests, the watchers of
    etcd, the ticker and the start-up as one state machine.  A goroutine that sends a
    message is blocked until the loop receives it; which one is received first is
    left open, as is when a watcher hears of a key that was deleted.  Requests are
    handled in one step each, as if the caches were locked.

    The deletions that etcd tells the watchers of are read off the log of the operations:
    etcd tells of a deletion when the key was there. *)

From S2P Require Import Prelude GoStd IdAlloc Ipam Model VppAgent State RenderTxn SysParms IpamPool PodNodeMap.
From S2P Require Import Interfaces EntityTxn NetworkNode Overlay ServiceIf NetworkService Controller Frontend MessageLoop.

Module System.
Import RenderTxn Controller Frontend MessageLoop.

Inductive sender : Type :=
| FromMain
| FromHttp
| FromWatcher (m : manager)
| FromContiv
| FromTicker.

#[export] Instance manager_eq_dec : EqDecision manager.
Proof. solve_decision. Defined.

#[export] Instance sender_eq_dec : EqDecision sender.
Proof. solve_decision. Defined.

Record system : Type := mkSystem {
  s_world : World;
  s_flags : flags;
  s_main : list OperationalMsg; (* what [AfterInit] has not sent yet *)
  s_blocked : list (sender * OperationalMsg);
  s_events : list (manager * watch_resp); (* what the watchers have not heard of yet *)
  s_received : list OperationalMsg; (* the messages received so far *)
  s_answers : list response (* the answers so far, the last one first *)
}.

(** The requests; the body counts for POST only. *)
Inductive request : Type :=
| ReqSysParms (req : method) (body : result SystemParameters)
| ReqIPAMPool (req : method) (name : string) (body : result IPAMPool)
| ReqPodToNode (req : method) (name : string) (body : result NetworkPodToNodeMap)
| ReqOverlay (req : method) (name : string) (body : result NetworkNodeOverlay)
| ReqNode (req : method) (name : string) (body : result (NetworkNode loc))
| ReqService (req : method) (name : string) (body : result (NetworkService loc))
| ReqAll (m : manager).

Inductive action : Type :=
| Start (* [AfterInit] sends its next message *)
| Http (r : request)
| Watch (m : manager) (* the watcher of [m] hears of the next deletion *)
| Tick (* a minute is over *)
| Contiv (op : etcd_op) (v : Value) (* Contiv changes a placement *)
| EtcdDelete (key : string) (* someone else deletes a key *)
| Receive (i : nat). (* the loop receives the message of the i-th blocked goroutine *)

(** The part of a key after a prefix. *)
Fixpoint strip_prefix (prefix key : string) : option string :=
  match prefix, key with
  | String.EmptyString, _ => Some key
  | String.String a p, String.String b k => if Ascii.eqb a b then strip_prefix p k else None
  | _, _ => None
  end.

(** The watchers that hear of the deletion of a key. *)
Definition heard_by (key : string) : list (manager * watch_resp) :=
  omap (fun m => (fun name => (m, WDelete name)) <$> strip_prefix (KeyPrefix m) key) (snd <$> RegisteredManagers).

(** The keys that disappear, of those that are there. *)
Fixpoint disappear (present : gset string) (ops : list etcd_op) : list string :=
  match ops with
  | [] => []
  | Put k :: ops => disappear ({[k]} ∪ present) ops
  | Delete k :: ops =>
      if decide (k ∈ present) then k :: disappear (present ∖ {[k]}) ops else disappear present ops
  end.

(** What etcd was asked between two states, in order. *)
Definition asked (w w' : World) : list etcd_op :=
  rev (take (length (etcd_log w') - length (etcd_log w)) (etcd_log w')).

Definition news (w w' : World) : list (manager * watch_resp) :=
  disappear (dom (etcd w)) (asked w w') ≫= heard_by.

(** The next deletion for a watcher, and what is left. *)
Fixpoint take_event (m : manager) (evs : list (manager * watch_resp)) : option (watch_resp * list (manager * watch_resp)) :=
  match evs with
  | [] => None
  | (m', e) :: evs =>
      if decide (m' = m) then Some (e, evs)
      else '(e', rest) ← take_event m evs; Some (e', (m', e) :: rest)
  end.

(** How often a goroutine is blocked: once, but that the ticker keeps one tick, and that
    the messages of the watcher of Contiv, which are all the same, stand for the changes
    it has not heard of yet. *)
Definition pending (from : sender) (s : system) : nat := length (filter (fun b => fst b = from) (s_blocked s)).

Definition busy (from : sender) (s : system) : bool := (1 <=? pending from s)%nat.

(** A goroutine starts to send. *)
Definition block (from : sender) (msg : OperationalMsg) (s : system) : system :=
  mkSystem (s_world s) (s_flags s) (s_main s) (s_blocked s ++ [(from, msg)]) (s_events s) (s_received s) (s_answers s).

Definition with_s_main (v : list OperationalMsg) (s : system) : system :=
  mkSystem (s_world s) (s_flags s) v (s_blocked s) (s_events s) (s_received s) (s_answers s).

Definition with_s_events (v : list (manager * watch_resp)) (s : system) : system :=
  mkSystem (s_world s) (s_flags s) (s_main s) (s_blocked s) v (s_received s) (s_answers s).

Definition with_s_world (v : World) (s : system) : system :=
  mkSystem v (s_flags s) (s_main s) (s_blocked s) (s_events s) (s_received s) (s_answers s).

Definition reply_with (r : response) (s : system) : system :=
  mkSystem (s_world s) (s_flags s) (s_main s) (s_blocked s) (s_events s) (s_received s) (r :: s_answers s).

Inductive outcome : Type :=
| NotEnabled
| Exits (* a panic of the message loop ends the process *)
| Goes (s : system).

Section env.
Context {E : Env}.

Definition handle_request (r : request) : M World answer :=
  match r with
  | ReqSysParms req body => systemParametersHandler req body
  | ReqIPAMPool req name body => entityHandler req name body
  | ReqPodToNode req name body => networkPodNodeMapHandler req name body
  | ReqOverlay req name body => networkNodeOverlayHandler req name body
  | ReqNode req name body => httpNetworkNodeHandler req name body
  | ReqService req name body => networkServiceHandler req name body
  | ReqAll MgrIpamPool => getAllHandler
  | ReqAll MgrPodNodeMap => networkPodNodeMapGetAllHandler
  | ReqAll MgrOverlay => networkNodeOverlayGetAllHandler
  | ReqAll MgrNode => httpNetworkNodeGetAllHandler
  | ReqAll MgrService => networkServiceGetAllHandler
  | ReqAll MgrSysParms => systemParametersHandler GET (inl "")
  end.

Definition sys_step (a : action) (s : system) : outcome :=
  match a with
  | Start =>
      match s_main s with
      | [] => NotEnabled
      | msg :: rest => if busy FromMain s then NotEnabled else Goes (block FromMain msg (with_s_main rest s))
      end
  | Http r =>
      match handle_request r (s_world s) with
      | Panic => Goes s (* the server recovers from the panic of a handler *)
      | Done (resp, omsg) w' =>
          let s := reply_with resp (with_s_world w' s) in
          Goes (match omsg with Some msg => block FromHttp msg s | None => s end)
      end
  | Watch m =>
      if busy (FromWatcher m) s then NotEnabled
      else match take_event m (s_events s) with
           | None => NotEnabled
           | Some (e, rest) =>
               let s := with_s_events rest s in
               Goes (match InitAndRunWatcher m e with Some msg => block (FromWatcher m) msg s | None => s end)
           end
  | Tick => if (2 <=? pending FromTicker s)%nat then Goes s
            else Goes (block FromTicker RunContivKSRNetworkPodToNodeMappingWatcher s)
  | Contiv op v =>
      let w := s_world s in
      Goes (block FromContiv RunContivKSRNetworkPodToNodeMappingWatcher (with_s_world (with_etcd (match op with
                 | Put key => <[PodNodeMap.ContivKsrNetworkPodToNodePrefix +:+ key := v]> (etcd w)
                 | Delete key => delete (PodNodeMap.ContivKsrNetworkPodToNodePrefix +:+ key) (etcd w)
                 end) w) s))
  | EtcdDelete key =>
      let w := s_world s in
      Goes (with_s_events (s_events s ++ (disappear (dom (etcd w)) [Delete key] ≫= heard_by))
              (with_s_world (with_etcd (delete key (etcd w)) w) s))
  | Receive i =>
      match s_blocked s !! i with
      | None => NotEnabled
      | Some (_, msg) =>
          match process_msg (s_flags s) msg (s_world s) with
          | Panic => Exits
          | Done f w' =>
              Goes (mkSystem w' f (s_main s) (delete i (s_blocked s)) (s_events s ++ news (s_world s) w')
                      (s_received s ++ [msg]) (s_answers s))
          end
      end
  end.

(** The state after [Init]. *)
Definition started (w : World) : system := mkSystem w (mkFlags false false) AfterInit [] [] [] [].

Fixpoint sys_run (acts : list action) (s : system) : outcome :=
  match acts with
  | [] => Goes s
  | a :: acts => match sys_step a s with Goes s' => sys_run acts s' | o => o end
  end.

(** The actions of the controller and its clients, and not of others on etcd. *)
Definition own (a : action) : Prop :=
  match a with Contiv _ _ | EtcdDelete _ => False | _ => True end.

(** What is reached from the state [w] after [Init] when only the controller changes etcd. *)
Inductive sys_reached (w : World) : system -> Prop :=
| sr_started : sys_reached w (started w)
| sr_step a s s' : sys_reached w s -> own a -> sys_step a s = Goes s' -> sys_reached w s'.

(** ** The state is always one of the message loop *)

Lemma wlp_same {A} (m : M World A) (Q : A -> World -> Prop) w :
  keeps (eq w) m -> (forall a, Q a w) -> wlp m Q w.
Proof. intros Hk HQ. eapply wlp_keeps; [exact Hk|done|]. by intros a w' <-. Qed.

Lemma request_reads r w : wlp (handle_request r) (fun _ w' => ticked w w') w.
Proof.
  assert (forall A (m : M World A), keeps (eq w) m -> wlp m (fun _ w' => ticked w w') w) as Hsame.
  { intros A m Hk. apply wlp_same; [exact Hk|]. intros _. apply ticked_refl. }
  destruct r as [req body|req name body|req name body|req name body|req name body|req name body|m]; cbn [handle_request].
  7: { destruct m; [apply Hsame; unfold systemParametersHandler, SysParms.HandleCRUDOperationR; keeps_auto|..].
    all: unfold getAllHandler, networkPodNodeMapGetAllHandler, networkNodeOverlayGetAllHandler, httpNetworkNodeGetAllHandler,
      networkServiceGetAllHandler; wpw; apply wp_values; intros l w' H; by wpw. }
  all: apply Hsame.
  - unfold systemParametersHandler, with_body, SysParms.systemParametersProcessPost, SysParms.HandleCRUDOperationR. keeps_auto.
  - unfold entityHandler, with_body, IpamPool.processPost, IpamPool.HandleCRUDOperationR. keeps_auto.
  - unfold networkPodNodeMapHandler, with_body, PodNodeMap.networkPodNodeMapProcessPost,
      PodNodeMap.HandleCRUDOperationR. keeps_auto.
  - unfold networkNodeOverlayHandler, with_body, Overlay.networkNodeOverlayProcessPost, Overlay.validate,
      Overlay.overlay_name, Overlay.HandleCRUDOperationR. keeps_auto.
  - unfold httpNetworkNodeHandler, with_body, NetworkNode.httpNetworkNodeProcessPost, NetworkNode.HandleCRUDOperationR,
      NetworkNode.validate, NetworkNode.validate_l2bd, SysParms.FindL2BDTemplate, NetworkNode.node_name. keeps_auto.
  - unfold networkServiceHandler, with_body, NetworkService.networkServiceProcessPost, ServiceIf.service_name,
      NetworkService.HandleCRUDOperationR. keeps_auto; apply NetworkService.keeps_validate.
Qed.

Lemma rendered_ticked w0 w w' : ticked w w' -> rendered w0 w -> rendered w0 w'.
Proof. intros [n ->] []. by split. Qed.

Lemma looped_ticked d f w w' : ticked w w' -> looped d f w -> looped d f w'.
Proof.
  intros Ht [Hr He Hp Hc]. split; [by destruct Ht as [n ->]|done|done|].
  intros H. destruct (Hc H) as [?|[w0 H0]]; [by left|right]. exists w0. by eapply rendered_ticked.
Qed.

(** Every action but a receipt leaves the loop alone. *)
Lemma sys_step_looped a s s' :
  (forall n key, put_error n key = None) -> own a -> sys_step a s = Goes s' ->
  looped (s_received s) (s_flags s) (s_world s) -> looped (s_received s') (s_flags s') (s_world s').
Proof.
  intros Hno Hown Hs Hl. destruct a as [|r|m| |op v|key|i]; try done; cbn [sys_step] in Hs.
  - destruct (s_main s) as [|msg rest]; [done|]. destruct (busy FromMain s); [done|]. by injection Hs as <-.
  - pose proof (request_reads r (s_world s)) as Hr. unfold wpp in Hr.
    destruct (handle_request r (s_world s)) as [[resp omsg] w'|]; [|by injection Hs as <-].
    apply (looped_ticked _ _ _ _ Hr) in Hl. by destruct omsg; injection Hs as <-.
  - destruct (busy (FromWatcher m) s); [done|]. destruct (take_event m (s_events s)) as [[e rest]|]; [|done].
    by destruct (InitAndRunWatcher m e); injection Hs as <-.
  - by destruct (2 <=? pending FromTicker s)%nat; injection Hs as <-.
  - destruct (s_blocked s !! i) as [[from msg]|]; [|done].
    pose proof (process_msg_wlp (s_received s) msg (s_flags s) (s_world s) Hno Hl) as Hw. unfold wpp in Hw.
    destruct (process_msg (s_flags s) msg (s_world s)) as [f w'|]; [|done]. by injection Hs as <-.
Qed.

Lemma sys_reached_looped w s :
  (forall n key, put_error n key = None) -> ready w -> sys_reached w s ->
  looped (s_received s) (s_flags s) (s_world s).
Proof.
  intros Hno Hr. induction 1 as [|a s s' _ IH Hown Hs]; [by split|]. by eapply sys_step_looped.
Qed.


(** ** A deletion that is heard of late *)

Lemma deletion_processed m name f w :
  (forall n key, put_error n key = None) -> ready w -> m <> MgrSysParms -> cached m name w ->
  wlp (process_msg f (mkMsg (model_name m) OperationalMsgOpCodeDelete (MsgName name))) (fun _ w' =>
    (isRenderingEnabled f = false -> gone m name w') /\ (m = MgrNode \/ m = MgrService -> ~ cached m name w')) w.
Proof.
  intros Hno Hr Hm Hc. unfold process_msg. wpw. apply handle_D.
  eapply wp_conseq; [apply wlp_and; [by apply D_gone|eapply wlp_keeps; [apply (keeps_mgr_D m)|exact Hr|]; intros r w1 H; exact H]|].
  intros r w1 [[_ Hg] [Hmut Hwf]]. cbn [isRenderingEnabled isRenderingPending]. rewrite andb_true_r.
  destruct (isRenderingEnabled f); wpw; [|split; [done|]; intros _; by destruct Hg].
  eapply wp_conseq; [by apply render_transaction_wlp|]. intros r2 w2 [_ Hrd]. wpw. split; [done|].
  destruct Hg as [Hg _]. intros [-> | ->]; cbn in *; apply eq_None_not_Some in Hg; apply eq_None_not_Some.
  - by apply (rd_no_node _ _ Hrd).
  - by apply (rd_no_service _ _ Hrd).
Qed.

(** C12: the echo of a deletion deletes what was created since.  When a watcher has the
    deletion of a name to tell of and an object of that name is there, because it was created
    again after the deletion, the watcher can tell of it now and the loop can receive the
    message next.  Unless that ends the process, the object created is then gone though
    nobody asked to delete it: a node or a service from the cache, so that no rendering
    knows it any more; and with the renderer disabled, any object from the cache and from etcd. *)
Theorem late_echo_deletes w s m name rest :
  (forall n key, put_error n key = None) -> ready w -> sys_reached w s ->
  m <> MgrSysParms -> cached m name (s_world s) -> busy (FromWatcher m) s = false ->
  take_event m (s_events s) = Some (WDelete name, rest) ->
  match sys_run [Watch m; Receive (length (s_blocked s))] s with
  | Goes s' => s_blocked s' = s_blocked s /\ s_answers s' = s_answers s /\
      (isRenderingEnabled (s_flags s) = false -> gone m name (s_world s')) /\
      (m = MgrNode \/ m = MgrService -> ~ cached m name (s_world s'))
  | NotEnabled => False
  | Exits => True
  end.
Proof.
  intros Hno Hr Hs Hm Hc Hb Ht. cbn [sys_run sys_step]. rewrite Hb, Ht.
  destruct (deletion_handled m name (s_flags s) (s_world s) Hm Hc) as (_ & HW & _). rewrite HW.
  unfold with_s_events at 1, block at 1. cbn [s_blocked s_flags s_world s_events s_main s_received s_answers].
  rewrite lookup_app_r by done. rewrite Nat.sub_diag. cbn [lookup list_lookup].
  pose proof (deletion_processed m name (s_flags s) (s_world s) Hno
    (lp_ready _ _ _ (sys_reached_looped w s Hno Hr Hs)) Hm Hc) as H. unfold wpp in H.
  cbn [s_flags s_world block with_s_events].
  destruct (process_msg _ _ _) as [f' w'|]; [|done]. cbn [s_blocked s_answers s_flags s_world block with_s_events].
  destruct H as [H1 H2]. split_and!; [|done|exact H1|exact H2].
  rewrite delete_middle. by rewrite app_nil_r.
Qed.


Lemma sys_run_reached w acts s s' :
  Forall own acts -> sys_reached w s -> sys_run acts s = Goes s' -> sys_reached w s'.
Proof.
  intros Ho. revert s. induction Ho as [|a acts Ha _ IH]; intros s Hs Hr; cbn in Hr; [by injection Hr as <-|].
  destruct (sys_step a s) as [| |s1] eqn:E1; try done. eapply IH; [|exact Hr]. by eapply sr_step.
Qed.
End env.

(** ** Witness: a node is posted, deleted and posted again before the watcher hears of the deletion *)
Definition post_node : action := Http (ReqNode POST "n1" (inr NetworkNode.demo_node)).

Definition demo_actions : list action :=
  [Start; Receive 0; Start; Receive 0; Start; Receive 0;
   post_node; Receive 0; Http (ReqNode DELETE "n1" (inl "")); Receive 0; post_node; Receive 0].

Definition demo_system : system :=
  match @sys_run quiet_env demo_actions (started initial_world) with Goes s => s | _ => started initial_world end.

Lemma demo_system_reached : @sys_reached quiet_env initial_world demo_system.
Proof.
  assert (@sys_run quiet_env demo_actions (started initial_world) = Goes demo_system) as R by (vm_compute; reflexivity).
  eapply sys_run_reached; [|apply sr_started|exact R].
  unfold demo_actions. repeat (apply Forall_cons_2; [exact I|]). apply Forall_nil_2.
Qed.

Lemma initial_ready : ready initial_world.
Proof. split; [done|]. intros k kv Hk. by apply (lookup_empty_Some (M := gmap string) k kv) in Hk. Qed.

(** All three requests were answered with OK, and the node was rendered. *)
Lemma demo_system_state :
  s_answers demo_system = [RespOK; RespOK; RespOK] /\ s_blocked demo_system = [] /\
  s_events demo_system = [(MgrNode, WDelete "n1")] /\ isRenderingEnabled (s_flags demo_system) = true /\
  size (VppEntries (s_world demo_system)) = 2%nat.
Proof. vm_compute. split_and!; reflexivity. Qed.


(** The watcher hears of the deletion: the node that was posted last is gone. *)
Lemma late_echo_deletes_witness :
  exists s', @sys_run quiet_env [Watch MgrNode; Receive 0] demo_system = Goes s' /\
    s_answers s' = [RespOK; RespOK; RespOK] /\ ~ cached MgrNode "n1" (s_world s').
Proof.
  pose proof (@late_echo_deletes quiet_env initial_world demo_system MgrNode "n1" []) as H.
  destruct (@sys_run quiet_env [Watch MgrNode; Receive (length (s_blocked demo_system))] demo_system) as [| |s'] eqn:R;
    [vm_compute in R; discriminate|vm_compute in R; discriminate|].
  exists s'. split; [exact R|]. destruct H as (_ & Ha & _ & Hn).
  - done.
  - apply initial_ready.
  - apply demo_system_reached.
  - discriminate.
  - eexists. vm_compute. reflexivity.
  - vm_compute. reflexivity.
  - vm_compute. reflexivity.
  - split; [rewrite Ha; apply demo_system_state|apply Hn; by left].
Defined.
End System.
