(* ===== verification/Restart.v ===== *)
(** * Restarting the controller

    Module Restart: processes that follow each other, each started on what the one before left in etcd: the
    configuration is there again, what was rendered is known, and the cases in which something is forgotten. *)

From S2P Require Import Prelude GoStd IdAlloc Ipam Model VppAgent State RenderTxn SysParms IpamPool PodNodeMap.
From S2P Require Import Interfaces EntityTxn NetworkNode Overlay ServiceIf ServiceL3 NetworkService Controller Frontend MessageLoop.
From S2P Require Import Mirror Stored Loaded System.

Module Restart.
Import VppAgent RenderTxn Interfaces EntityTxn Controller Mirror Stored Loaded.

Section env.
Context {E : Env}.

(** The start-up without a clean-up and without a file. *)
Definition start_up : M World unit := Init false None.

(** ** Any number of processes, one after the other *)

(** Nobody else deletes an object of the configuration. *)
Definition spares (a : System.action) : Prop :=
  match a with System.EtcdDelete key => foreign key | _ => True end.

(** What becomes of the controller: a process is started on an etcd, works, and when it ends,
    between two messages, another one is started on what is then in etcd. *)
Inductive lived : System.system -> Prop :=
| lv_first clean y w w' : coherent (etcd w) -> Init clean y (restarted w) = Done tt w' -> lived (System.started w')
| lv_step a s s' : lived s -> spares a -> System.sys_step a s = System.Goes s' -> lived s'
| lv_restart clean y s w : lived s -> Init clean y (restarted (System.s_world s)) = Done tt w -> lived (System.started w).

Lemma lived_first w w' : coherent (etcd w) -> start_up (restarted w) = Done tt w' -> lived (System.started w').
Proof. apply lv_first. Qed.

Lemma lived_again s w' : lived s -> start_up (restarted (System.s_world s)) = Done tt w' -> lived (System.started w').
Proof. apply lv_restart. Qed.

Section properties.
Context (Hget : forall n key, get_error n key = None) (Hput : forall n key, put_error n key = None).

Lemma sys_step_stored a s s' :
  spares a -> System.sys_step a s = System.Goes s' -> stored (System.s_world s) -> stored (System.s_world s').
Proof using Hput.
  intros Hown Hs Hl. destruct a as [|r|m| |op v|key|i]; cbn [System.sys_step] in Hs.
  - destruct (System.s_main s) as [|msg rest]; [done|]. destruct (System.busy _ s); [done|]. by injection Hs as <-.
  - pose proof (System.request_reads r (System.s_world s)) as Hr. unfold wpp in Hr.
    destruct (System.handle_request r (System.s_world s)) as [[resp omsg] w'|]; [|by injection Hs as <-].
    destruct Hr as [n ->]. by destruct omsg; injection Hs as <-; apply held_clock.
  - destruct (System.busy _ s); [done|]. destruct (System.take_event m _) as [[e rest]|]; [|done].
    by destruct (Frontend.InitAndRunWatcher m e); injection Hs as <-.
  - by destruct (2 <=? _)%nat; injection Hs as <-.
  - injection Hs as <-. destruct Hl as [HR Hh]. cbn. destruct op as [key|key].
    + split; [by apply (co_put _ v)|]. by apply (harmless_put_foreign _ v (System.s_world s)).
    + split; [by apply co_delete|]. by apply (harmless_delete _ (System.s_world s)).
  - injection Hs as <-. destruct Hl as [HR Hh]. cbn. split; [by apply co_delete|]. by apply (harmless_delete _ (System.s_world s)).
  - destruct (System.s_blocked s !! i) as [[from msg]|]; [|done].
    pose proof (stored_process_msg Hput (System.s_flags s) msg (System.s_world s) Hl) as Hw.
    destruct (process_msg _ _ _) as [f w'|]; [|done]. by injection Hs as <-.
Qed.

Lemma lived_stored s : lived s -> stored (System.s_world s).
Proof using Hget Hput.
  assert (forall clean y w w', coherent (etcd w) -> Init clean y (restarted w) = Done tt w' -> stored w') as Hi.
  { intros clean y w w' Hc R. pose proof (Init_stored Hget Hput clean y w Hc) as H. unfold wpp in H. by rewrite R in H. }
  induction 1 as [clean y w w' Hc R|a s s' _ IH Ha Hs|clean y s w _ IH R].
  - by eapply Hi.
  - by eapply sys_step_stored.
  - eapply Hi; [|exact R]. by apply stored_coherent.
Qed.


(** ** The rendered entries of the process before *)

Lemma restart_knows w :
  stored w ->
  wlp start_up (fun _ w1 => etcd w1 = etcd w /\ MessageLoop.ready w1 /\
    forall key, key ∈ dom (VppEntries w1) <->
      lists (networkNodeCache w) (networkServiceCache w) key /\ is_Some (etcd w !! key)) (restarted w).
Proof using Hget.
  intros Hw. eapply wp_conseq; [apply (Init_knows (config w)); [done|apply Hw|done]|].
  intros _ w1 (He & Hc & Hr & Hk). split_and!; [done|done|]. intros key. rewrite Hk.
  apply and_iff_compat_r. split; by apply lists_config.
Qed.

(** What a rendering leaves is listed in the form in which a start-up reads it. *)
Lemma listed_lists w key : harmless w -> listed w key -> lists (networkNodeCache w) (networkServiceCache w) key.
Proof.
  intros Hh [(k & s & Hk & st & r & -> & Hr & Hin)|(k & s & Hk & st & r & -> & Hr & Hin)];
    rewrite lookup_fmap in Hk; apply fmap_Some in Hk as (x & Hk & Hst); apply elem_of_dom in Hin as [e He].
  - assert (default ∅ (nn_Status x ≫= nnt_Rendered) !! key = Some e) as Hx by (rewrite <- Hst; cbn; by rewrite Hr).
    eapply lists_node; [exact Hk|exact Hx|]. by destruct (ha_nodes _ Hh _ _ Hk _ _ Hx).
  - assert (default ∅ (ns_Status x ≫= nst_Rendered) !! key = Some e) as Hx by (rewrite <- Hst; cbn; by rewrite Hr).
    eapply lists_service; [exact Hk|exact Hx|]. by destruct (ha_services _ Hh _ _ Hk _ _ Hx).
Qed.


Lemma service_CU_forgets md ns w :
  ns_Metadata ns = Some md ->
  wlp (NetworkService.HandleCRUDOperationCU ns) (fun _ w' =>
    (forall key, lists (networkNodeCache w') (networkServiceCache w') key ->
       lists (networkNodeCache w) (delete (md_Name md) (networkServiceCache w)) key) /\
    forall key, foreign key -> etcd w' !! key = etcd w !! key) w.
Proof using Hput.
  intros Hmd. unfold NetworkService.HandleCRUDOperationCU, NetworkService.writeToDatastore, ServiceIf.put_service, ServiceIf.service_name. wpw.
  apply (wlp_keeps (eq w)); [apply NetworkService.keeps_validate|done|]. intros [e|] ? <-; [done|]. wpw. cbn [ns_Metadata with_ns_Status].
  rewrite Hmd. wpw. apply (wp_written Hput). lazy beta iota delta [Ok].
  match goal with |- wpp _ _ _ ?x => set (w1 := x) end.
  apply wp_bnd, (wlp_keeps (fun w' => networkNodeCache w' = networkNodeCache w1 /\ networkServiceCache w' = networkServiceCache w1 /\ etcd w' = etcd w1)).
  { apply IpamPool.keeps_EntityCreate. by split. }
  { done. }
  intros _ w' (En & Es & Ee). wpw. rewrite En, Es. setoid_rewrite Ee. split.
  - intros key [k nn x e Hk Hx He|k x0 x e Hk Hx He]; [by eapply lists_node|]. unfold w1 in Hk. cbn in Hk.
    apply lookup_insert_Some in Hk as [[<- <-]|[Hne Hk]]; [cbn in Hx; by rewrite lookup_empty in Hx|].
    eapply lists_service; [|exact Hx|exact He]. by rewrite lookup_delete_ne.
  - intros key Hf. unfold w1. cbn. apply lookup_insert_ne. intros <-. by apply (not_foreign "network-service/" (md_Name md)).
Qed.

(** C40: an update that is not rendered any more.  A service is created or updated, and the process ends before the
    rendering that follows.  The update has dropped the list of what was rendered for the service, in the cache
    and in etcd, so the next process does not know the entries that only this service listed:
    they stay in etcd. *)
Theorem update_then_restart_forgets md ns s key :
  lived s -> ns_Metadata ns = Some md -> foreign key ->
  let w := System.s_world s in
  ~ lists (networkNodeCache w) (delete (md_Name md) (networkServiceCache w)) key ->
  wlp (NetworkService.HandleCRUDOperationCU ns) (fun _ w' =>
    wlp start_up (fun _ w1 => ~ (key ∈ dom (VppEntries w1)) /\ etcd w1 !! key = etcd w !! key) (restarted w')) w.
Proof.
  intros Hs%lived_stored Hmd Hf. cbv zeta. intros Hno.
  eapply wp_conseq; [apply wlp_and; [by apply (service_CU_forgets md)|]|].
  { apply (wlp_keeps stored); [by apply stored_service_CU|exact Hs|]. intros r w' H. exact H. }
  intros r w' [[Hl He] Hw']. eapply wp_conseq; [by apply restart_knows|]. intros _ w1 (He1 & _ & Hk).
  split; [by intros [?%Hl _]%Hk|]. by rewrite He1, He.
Qed.
End properties.

(** C39: which identifiers a restart keeps apart.  After a start-up the counters of MAC
    addresses and memif identifiers are not below any identifier of an interface that a loaded
    node or service has, so that until they wrap around the next ones are different from all of them.  The
    vrf counter starts again at 10 whatever vrfs the loaded connections have: the first L3 connection
    that is given one gets 10. *)
Theorem restart_skips_used_ids w :
  wlp start_up (fun _ w' =>
    (forall l s, in_use w' l -> cells (if_heap w') !! l = Some s ->
       (MacAddr.MacAddrID (MacAddrAllocator w') < u32_mod - 1 ->
          wp (zoom MacAddrAllocator with_MacAddrAllocator MacAddr.Allocate) (fun p _ => is_MacAddrID s < snd p) w') /\
       (Memif.MemifID (MemifIDAllocator w') < u32_mod - 1 ->
          wp (zoom MemifIDAllocator with_MemifIDAllocator Memif.Allocate) (fun id _ => is_MemifID s < id) w')) /\
    wp ServiceL3.allocate_vrf (fun vrf _ => vrf = 10) w') w.
Proof.
  apply Init_wlp. eapply wp_conseq; [apply fresh_initMgrs|]. intros [] w1 (Hv & Hma & Hme & _).
  eapply wp_conseq; [apply PostProcess_passes|]. intros r w2 [Hc Hp] Hr. pose proof (co_vrf _ _ Hc) as Ev. pose proof (co_mac _ _ Hc) as Ema. pose proof (co_memif _ _ Hc) as Eme. split.
  - intros l s Hl Hs. destruct (Hp Hr l Hl s Hs) as [H1 H2]. rewrite Hma in Ema. rewrite Hme in Eme. cbn in Ema, Eme.
    split; intros Hlt; unfold wpp, zoom, mbnd, modify, get; cbn; unfold u32; rewrite Z.mod_small by lia; lia.
  - unfold wpp, ServiceL3.allocate_vrf, zoom. cbn. by rewrite Ev, Hv.
Qed.
End env.

(** What a run without a panic gives. *)
Lemma wp_returns {A} (m : M World A) Q w : wp m Q w -> exists a w', m w = Done a w' /\ Q a w'.
Proof. unfold wpp. destruct (m w) as [a w'|]; [by exists a, w'|done]. Qed.

(** What holds of a computation holds of its run. *)
Lemma wp_done {A} pan (m : M World A) Q w a w' : wpp pan m Q w -> m w = Done a w' -> Q a w'.
Proof. intros H R. unfold wpp in H. by rewrite R in H. Qed.

(** ** Witness: a configuration that is posted and rendered, a restart, a deletion *)
Definition post (r : System.request) : list System.action := [System.Http r; System.Receive 0].

Definition demo_life : list System.action :=
  [System.Start; System.Receive 0; System.Start; System.Receive 0; System.Start; System.Receive 0]
  ++ post (System.ReqIPAMPool Frontend.POST "a" (inr (IpamPool.demo_pool "a")))
  ++ post (System.ReqIPAMPool Frontend.POST "b" (inr (IpamPool.demo_pool "b")))
  ++ post (System.ReqNode Frontend.POST "n1" (inr NetworkNode.demo_node))
  ++ post (System.ReqPodToNode Frontend.POST "vnf1" (inr (mkPodToNode "vnf1" "n1")))
  ++ post (System.ReqPodToNode Frontend.POST "vnf2" (inr (mkPodToNode "vnf2" "n1")))
  ++ post (System.ReqService Frontend.POST "s1" (inr NetworkService.demo_service)).

Definition start_on (w : World) : System.system :=
  match @start_up quiet_env (restarted w) with Done _ w' => System.started w' | Panic => System.started w end.

Definition live (acts : list System.action) (s : System.system) : System.system :=
  match @System.sys_run quiet_env acts s with System.Goes s' => s' | _ => s end.

Definition demo_first : System.system := live demo_life (start_on initial_world).

Definition demo_second : System.system :=
  live (post (System.ReqIPAMPool Frontend.DELETE "a" (inl ""))) (start_on (System.s_world demo_first)).

Lemma sys_run_lived acts s : Forall spares acts -> @lived quiet_env s -> @lived quiet_env (live acts s).
Proof.
  intros Ha Hs. unfold live. destruct (@System.sys_run quiet_env acts s) as [| |s'] eqn:R; [done|done|].
  revert s Hs R. induction Ha as [|a acts Ha _ IH]; intros s Hs R; cbn in R; [by injection R as <-|].
  destruct (@System.sys_step quiet_env a s) as [| |s1] eqn:E1; [done|done|]. eapply IH; [by eapply lv_step|exact R].
Qed.

Lemma demo_spares acts : forallb (fun a => match a with System.EtcdDelete _ => false | _ => true end) acts = true -> Forall spares acts.
Proof.
  intros H. apply Forall_forall. intros a Ha. rewrite forallb_forall in H. apply list_elem_of_In, H in Ha. by destruct a.
Qed.

Lemma demo_starts :
  match @start_up quiet_env (restarted initial_world), @start_up quiet_env (restarted (System.s_world demo_first)) with
  | Done _ _, Done _ _ => True
  | _, _ => False
  end.
Proof. vm_compute. exact I. Qed.

Lemma initial_coherent : coherent (etcd initial_world).
Proof.
  split; [|intros k v _ H; cbn in H; by rewrite lookup_empty in H]. exists (config initial_world).
  split; [by right|..]; intros name; cbn; by rewrite ?fmap_empty, !lookup_empty.
Qed.

Lemma demo_first_lived : @lived quiet_env demo_first.
Proof.
  pose proof demo_starts as D. apply sys_run_lived; [by apply demo_spares|]. unfold start_on.
  destruct (@start_up quiet_env (restarted initial_world)) as [[] w1|] eqn:R1; [|destruct D].
  eapply (@lived_first quiet_env); [apply initial_coherent|exact R1].
Qed.

Lemma demo_lived : @lived quiet_env demo_second.
Proof.
  pose proof demo_starts as D. unfold demo_second.
  apply sys_run_lived; [by apply demo_spares|]. unfold start_on.
  destruct (@start_up quiet_env (restarted (System.s_world demo_first))) as [[] w2|] eqn:R2; [|exfalso; clear -D; destruct (start_up _); exact D].
  eapply (@lived_again quiet_env); [apply demo_first_lived|exact R2].
Qed.

(** The last message of the first process was followed by a rendering. *)
Lemma demo_first_rendered : exists w0, @rendered quiet_env w0 (System.s_world demo_first).
Proof.
  assert (MessageLoop.ready (System.s_world (start_on initial_world))) as Hr.
  { split; [vm_compute; reflexivity|]. replace (VppEntries _) with (∅ : gmap string KVType) by (vm_compute; reflexivity).
    intros k kv H. by rewrite lookup_empty in H. }
  assert (@System.sys_reached quiet_env (System.s_world (start_on initial_world)) demo_first) as Hs.
  { assert (@System.sys_run quiet_env demo_life (start_on initial_world) = System.Goes demo_first) as R by (vm_compute; reflexivity).
    assert (Forall System.own demo_life) as Ho by (unfold demo_life; cbn [app post]; repeat (apply Forall_cons_2; [exact I|]); apply Forall_nil_2).
    eapply (System.sys_run_reached _ _ _ _ Ho); [|exact R].
    replace (start_on initial_world) with (System.started (System.s_world (start_on initial_world))) at 2 by (vm_compute; reflexivity).
    apply System.sr_started. }
  destruct (MessageLoop.lp_rendered _ _ _ (@System.sys_reached_looped quiet_env _ _ (fun _ _ => eq_refl) Hr Hs)) as [H|H];
    [vm_compute; reflexivity|vm_compute in H; discriminate|exact H].
Qed.

Definition demo_key : string := "/vnf-agent/vnf1/vpp/config/v1/interface/p1".

Lemma demo_key_rendered :
  demo_key ∈ dom (VppEntries (System.s_world demo_first)) /\ is_Some (etcd (System.s_world demo_first) !! demo_key).
Proof. rewrite elem_of_dom. split; (eexists; vm_compute; reflexivity). Qed.

Lemma demo_second_starts :
  match @start_up quiet_env (restarted (System.s_world demo_first)) with
  | Done _ w1 => match @render_transaction quiet_env w1 with
                 | Done (inr _) w2 => bool_decide (demo_key ∈ dom (VppEntries w2)) = true
                 | _ => False
                 end
  | Panic => False
  end.
Proof. vm_compute. reflexivity. Qed.


(** The service without its connection is posted, and the process ends before the rendering. *)
Definition demo_idle : NetworkService loc :=
  mkNetworkService (Some (mkMeta "s1" ∅)) (Some (mkNetworkServiceSpec [] [])) None.

(** A check that nothing lists a key. *)
Definition lists_none {X} (rendered : X -> option Rendered) (key : string) (m : gmap string X) : bool :=
  forallb (fun p => forallb (fun q => negb (String.eqb (re_VppAgentKey (snd q)) key)) (map_to_list (default ∅ (rendered (snd p)))))
    (map_to_list m).

Lemma lists_none_spec {X} (rendered : X -> option Rendered) key m k x i e :
  lists_none rendered key m = true -> m !! k = Some x -> default ∅ (rendered x) !! i = Some e -> re_VppAgentKey e <> key.
Proof.
  unfold lists_none. intros H Hk Hi. rewrite forallb_forall in H.
  specialize (H (k, x)). rewrite <- list_elem_of_In, elem_of_map_to_list in H. specialize (H Hk). rewrite forallb_forall in H.
  specialize (H (i, e)). rewrite <- list_elem_of_In, elem_of_map_to_list in H. by apply negb_true_iff, String.eqb_neq in H.
Qed.

Lemma demo_update_lost :
  match @NetworkService.HandleCRUDOperationCU quiet_env demo_idle (System.s_world demo_first) with
  | Done (inl _) _ => False
  | Done _ w => match @start_up quiet_env (restarted w) with
    | Done _ w1 => match @render_transaction quiet_env w1 with
                   | Done _ w2 => etcd w2 !! demo_key = etcd (System.s_world demo_first) !! demo_key
                   | Panic => False
                   end
    | Panic => False
    end
  | Panic => False
  end.
Proof. vm_compute. reflexivity. Qed.

(** The interface is not known after the restart, and the next rendering leaves it in etcd too. *)
Lemma update_then_restart_forgets_witness :
  exists w w1 r w2, @NetworkService.HandleCRUDOperationCU quiet_env demo_idle (System.s_world demo_first) = Done (Ok tt) w /\
    @start_up quiet_env (restarted w) = Done tt w1 /\
    ~ (demo_key ∈ dom (VppEntries w1)) /\ is_Some (etcd w1 !! demo_key) /\
    @render_transaction quiet_env w1 = Done r w2 /\ is_Some (etcd w2 !! demo_key).
Proof.
  pose proof demo_update_lost as D. destruct demo_key_rendered as [_ He].
  assert (foreign demo_key) as Hf by reflexivity.
  assert (~ lists (networkNodeCache (System.s_world demo_first)) (delete "s1" (networkServiceCache (System.s_world demo_first))) demo_key) as Hno.
  { intros [k nn x e Hk Hx Hkey|k ns x e Hk Hx Hkey]; revert Hkey.
    - eapply (lists_none_spec (fun nn => nn_Status nn ≫= nnt_Rendered)); [|exact Hk|exact Hx]. vm_compute. reflexivity.
    - eapply (lists_none_spec (fun ns => ns_Status ns ≫= nst_Rendered)); [|exact Hk|exact Hx]. vm_compute. reflexivity. }
  pose proof (@update_then_restart_forgets quiet_env (fun _ _ => eq_refl) (fun _ _ => eq_refl) (mkMeta "s1" ∅) demo_idle demo_first
    demo_key demo_first_lived eq_refl Hf Hno) as H.
  destruct (@NetworkService.HandleCRUDOperationCU quiet_env demo_idle (System.s_world demo_first)) as [[e|[]] w|] eqn:R; [destruct D| |destruct D].
  pose proof (wp_done True _ _ _ _ _ H R) as H1.
  destruct (@start_up quiet_env (restarted w)) as [[] w1|] eqn:R1; [|destruct D].
  destruct (wp_done True _ _ _ _ _ H1 R1) as [Hk Hsame].
  destruct (@render_transaction quiet_env w1) as [r w2|] eqn:R2; [|destruct D].
  exists w, w1, r, w2. split; [reflexivity|split; [exact R1|split; [exact Hk|split; [by rewrite Hsame|split; [exact R2|by rewrite D]]]]].
Defined.

(** The service was rendered, on the node and before the restart, and pool "a" is gone. *)
Lemma demo_second_config :
  let c := config (System.s_world demo_second) in
  dom (cf_pools c) = {["b"]} /\ dom (cf_nodes c) = {["n1"]} /\ dom (cf_services c) = {["s1"]} /\
  dom (cf_placements c) = {["vnf1"; "vnf2"]} /\ size (VppEntries (System.s_world demo_first)) = 4%nat.
Proof. vm_compute. split_and!; reflexivity. Qed.


(** A service that was rendered before: an L3 connection of vrf 10, an interface with MAC address 5 and memif 3. *)
Definition demo_loaded : World :=
  with_etcd {[NetworkService.NameKey "s1" := VNetworkService (mkNetworkService (Some (mkMeta "s1" ∅))
    (Some (mkNetworkServiceSpec [] [mkConnection "" ConnTypeL3PP "" [] [] [] "" None 10 ""]))
    (Some (mkNetworkServiceStatus "" [] None
       (Some {["p1/if1" := mkInterfaceStatus "p1/if1" "" [] "02:00:00:00:00:05" 5 None [] 3 "n1" "" 0 ""]}))))]} initial_world.

Definition demo_interface : InterfaceStatus :=
  mkInterfaceStatus "p1/if1" "" [] "02:00:00:00:00:05" 5 None [] 3 "n1" "" 0 "".

Lemma demo_loaded_starts :
  match @start_up quiet_env demo_loaded with
  | Done _ w => cells (if_heap w) !! 0 = Some demo_interface /\
      (exists ns m, networkServiceCache w !! "s1" = Some ns /\ ns_Status ns ≫= nst_Interfaces = Some m /\ m !! "p1/if1" = Some 0) /\
      (exists spec, networkServiceCache w !! "s1" ≫= ns_Spec = Some spec /\ map cn_VrfId (nss_Connections spec) = [10]) /\
      MacAddr.MacAddrID (MacAddrAllocator w) = 5
  | Panic => False
  end.
Proof.
  vm_compute. split; [reflexivity|]. split; [eexists _, _; split_and!; reflexivity|].
  split; [eexists; split; reflexivity|reflexivity].
Qed.

(** After the start-up the service has vrf 10, and the next connection gets it too. *)
Lemma restart_skips_used_ids_witness :
  exists w', @start_up quiet_env demo_loaded = Done tt w' /\ in_use w' 0 /\
    (exists spec, networkServiceCache w' !! "s1" ≫= ns_Spec = Some spec /\ map cn_VrfId (nss_Connections spec) = [10]) /\
    wp ServiceL3.allocate_vrf (fun vrf _ => vrf = 10) w' /\
    wp (zoom MacAddrAllocator with_MacAddrAllocator MacAddr.Allocate) (fun p _ => 5 < snd p) w'.
Proof.
  pose proof demo_loaded_starts as D. destruct (@start_up quiet_env demo_loaded) as [[] w'|] eqn:R; [|destruct D].
  pose proof (wp_done True (@start_up quiet_env) _ _ _ _ (@restart_skips_used_ids quiet_env demo_loaded) R) as Hc.
  destruct Hc as [Hu Hv]. destruct D as (Hs & (ns & m & Hn & Hm & Hi) & Hspec & Hmac). exists w'. split; [reflexivity|].
  assert (in_use w' 0) as Hin by (by eapply in_use_service).
  split; [exact Hin|]. split; [exact Hspec|]. split; [exact Hv|].
  apply (Hu 0 demo_interface Hin Hs). by rewrite Hmac.
Defined.
End Restart.
