(* ===== verification/GoHeap.v ===== *)
(** * Messages as objects

    Module GoHeap: structs, slices and maps at locations, pointers to them that may be nil, what the statements of a
    deep copy do with them, and when one object is a deep copy of another. *)

From S2P Require Import Prelude.

Module GoHeap.

(** ** Objects *)
Inductive datum : Type := DBool (b : bool) | DInt (z : Z) | DString (s : string).

(** What a field, an element or an entry holds: a datum, or a pointer, a slice or a map, which may
    be nil. *)
Inductive field : Type := Val (d : datum) | Ref (r : option loc).

Inductive object : Type :=
| Struct (fs : gmap string field)
| Slice (l : list field)
| Dict (m : gmap string field).

Definition Objects : Type := heap object.

(** [&o.f], [&o[i]], [&o[k]] *)
Inductive slot : Type := Fld (f : string) | Idx (i : nat) | Key (k : string).

Definition place : Type := loc * slot.

#[export] Instance slot_eq_dec : EqDecision slot.
Proof. solve_decision. Defined.

Definition at_slot (o : object) (s : slot) : option field :=
  match o, s with
  | Struct fs, Fld f => fs !! f
  | Slice l, Idx i => l !! i
  | Dict m, Key k => m !! k
  | _, _ => None
  end.

Definition put_slot (o : object) (s : slot) (v : field) : option object :=
  match o, s with
  | Struct fs, Fld f => Some (Struct (<[f := v]> fs))
  | Slice l, Idx i => if decide (i < length l)%nat then Some (Slice (<[i := v]> l)) else None
  | Dict m, Key k => Some (Dict (<[k := v]> m))
  | _, _ => None
  end.

Definition load (p : place) : M Objects field :=
  let! o := heap_read p.1 in deref (at_slot o p.2).

Definition store (p : place) (v : field) : M Objects unit :=
  let! o := heap_read p.1 in let! o' := deref (put_slot o p.2 v) in heap_write p.1 o'.

(** The pointer that is held. *)
Definition pointer (v : field) : option (option loc) :=
  match v with Ref r => Some r | Val _ => None end.

Definition fields_of (o : object) : option (gmap string field) :=
  match o with Struct fs => Some fs | _ => None end.

Definition elements_of (o : object) : option (list field) :=
  match o with Slice l => Some l | _ => None end.

Definition entries_of (o : object) : option (gmap string field) :=
  match o with Dict m => Some m | _ => None end.

(** ** The statements *)

(** [*out = *in] on the part of the structs whose fields have the prefix [p]: the whole struct, or one that is
    embedded in it. *)
Definition assign (p : string) (in_ out : loc) : M Objects unit :=
  let! o := heap_read in_ in
  let! fs := deref (fields_of o) in
  let! o' := heap_read out in
  let! gs := deref (fields_of o') in
  heap_write out (Struct (filter (fun kv => String.prefix p kv.1 = true) fs ∪ gs)).

(** [*out = *in] between a field and a field. *)
Definition assign_scalar (in_ out : place) : M Objects unit :=
  let! v := load in_ in store out v.

(** [if *in == nil { *out = nil } else { *out = new(T); in.DeepCopyInto(out) }] *)
Definition copy_pointer (into : loc -> loc -> M Objects unit) (in_ out : place) : M Objects unit :=
  let! v := load in_ in
  let! r := deref (pointer v) in
  match r with
  | None => store out (Ref None)
  | Some l =>
      let! l' := heap_new (Struct ∅) in
      store out (Ref (Some l')) ;;;
      into l l'
  end.

(** A new slice of the same length is stored, then [copy]: [copy] moves as many elements as both have. *)
Definition copy_strings (in_ out : place) : M Objects unit :=
  let! v := load in_ in
  let! r := deref (pointer v) in
  let! l := deref r in
  let! o := heap_read l in
  let! vs := deref (elements_of o) in
  let! l' := heap_new (Slice (replicate (length vs) (Val (DString "")))) in
  store out (Ref (Some l')) ;;;
  let! o' := heap_read l' in
  let! ws := deref (elements_of o') in
  heap_write l' (Slice (take (length ws) vs ++ drop (length vs) ws)).

(** A new slice of the same length is stored, then a loop over the indices *)
Definition copy_slice (element : place -> place -> M Objects unit) (in_ out : place) : M Objects unit :=
  let! v := load in_ in
  let! r := deref (pointer v) in
  let! l := deref r in
  let! o := heap_read l in
  let! vs := deref (elements_of o) in
  let! l' := heap_new (Slice (replicate (length vs) (Ref None))) in
  store out (Ref (Some l')) ;;;
  forM (Idx <$> seq 0 (length vs)) (fun s => element (l, s) (l', s)).

(** A new map is stored, then a loop over the entries; [order] is the order in which the keys
    are visited. *)
Definition copy_map (order : list string -> list string) (entry : place -> place -> M Objects unit) (in_ out : place)
  : M Objects unit :=
  let! v := load in_ in
  let! r := deref (pointer v) in
  let! l := deref r in
  let! o := heap_read l in
  let! m := deref (entries_of o) in
  let! l' := heap_new (Dict ∅) in
  store out (Ref (Some l')) ;;;
  forM (Key <$> order (map_to_list m).*1) (fun s => entry (l, s) (l', s)).

(** [if in.f != nil { in, out := &in.f, &out.f; .. }] *)
Definition copy_field (p f : string) (copy : place -> place -> M Objects unit) (in_ out : loc) : M Objects unit :=
  let! v := load (in_, Fld (p +:+ f)) in
  match v with
  | Ref None => mret tt
  | _ => copy (in_, Fld (p +:+ f)) (out, Fld (p +:+ f))
  end.

(** [out.S = *in]: the struct at [in_] becomes the one that is embedded in [out] under the prefix [q]. *)
Definition assign_embedded (q : string) (in_ out : loc) : M Objects unit :=
  let! o := heap_read in_ in
  let! fs := deref (fields_of o) in
  let! o' := heap_read out in
  let! gs := deref (fields_of o') in
  heap_write out (Struct (kmap (String.append q) fs ∪ gs)).

(** A struct that is passed by value. *)
Definition pass (l : loc) : M Objects loc :=
  let! o := heap_read l in
  let! fs := deref (fields_of o) in
  heap_new (Struct fs).

(** [if in == nil { return nil }; out := new(T); in.DeepCopyInto(out); return out] *)
Definition deep_copy (into : loc -> loc -> M Objects unit) (in_ : option loc) : M Objects (option loc) :=
  match in_ with
  | None => mret None
  | Some l =>
      let! l' := heap_new (Struct ∅) in
      into l l' ;;;
      mret (Some l')
  end.

(** ** The shape of a message

    The fields of a struct that are pointers, slices and maps, and what they lead to; the other
    fields are data.  [Shared s] is a field that leads to [s] and is not copied deeply. *)
#[warnings="-register-all"]
Inductive shape : Type :=
| Plain
| Shared (s : shape)
| Pointer (fs : list (string * shape))
| SliceOf (s : shape)
| DictOf (s : shape).

(** [v] is a value of the shape in the objects [h]. *)
Fixpoint shaped (h : gmap loc object) (s : shape) (v : field) {struct s} : Prop :=
  match s with
  | Plain => exists d, v = Val d
  | Shared s => shaped h s v
  | Pointer fs =>
      v = Ref None \/
      exists l o, v = Ref (Some l) /\ h !! l = Some (Struct o) /\
        (fix fields (fs : list (string * shape)) : Prop :=
           match fs with
           | [] => True
           | (f, s) :: fs => (exists w, o !! f = Some w /\ shaped h s w) /\ fields fs
           end) fs
  | SliceOf s => v = Ref None \/ exists l vs, v = Ref (Some l) /\ h !! l = Some (Slice vs) /\ Forall (shaped h s) vs
  | DictOf s =>
      v = Ref None \/ exists l m, v = Ref (Some l) /\ h !! l = Some (Dict m) /\ map_Forall (fun _ => shaped h s) m
  end.

(** [v'] in the objects [h'] is a deep copy of [v] in [h]: the same data, and every object that it leads to is at
    a location from [n] on, but for the shared ones, which are those of [v]. *)
Fixpoint copied (h : gmap loc object) (n : loc) (h' : gmap loc object) (s : shape) (v v' : field) {struct s} : Prop :=
  match s with
  | Plain | Shared _ => v' = v
  | Pointer fs =>
      (v = Ref None /\ v' = Ref None) \/
      exists l l' o o', v = Ref (Some l) /\ v' = Ref (Some l') /\ n <= l' /\
        h !! l = Some (Struct o) /\ h' !! l' = Some (Struct o') /\
        (fix fields (fs : list (string * shape)) : Prop :=
           match fs with
           | [] => True
           | (f, s) :: fs => (exists w w', o !! f = Some w /\ o' !! f = Some w' /\ copied h n h' s w w') /\ fields fs
           end) fs /\
        forall f, ~ (f ∈ fs.*1) -> o' !! f = o !! f
  | SliceOf s =>
      (v = Ref None /\ v' = Ref None) \/
      exists l l' vs vs', v = Ref (Some l) /\ v' = Ref (Some l') /\ n <= l' /\
        h !! l = Some (Slice vs) /\ h' !! l' = Some (Slice vs') /\ Forall2 (copied h n h' s) vs vs'
  | DictOf s =>
      (v = Ref None /\ v' = Ref None) \/
      exists l l' m m', v = Ref (Some l) /\ v' = Ref (Some l') /\ n <= l' /\
        h !! l = Some (Dict m) /\ h' !! l' = Some (Dict m') /\ map_relation (fun _ => copied h n h' s) (fun _ _ => False) (fun _ _ => False) m m'
  end.

(** Every object that a value leads to. *)
Inductive reaches (h : gmap loc object) : shape -> field -> loc -> Prop :=
| reaches_shared s v x : reaches h s v x -> reaches h (Shared s) v x
| reaches_struct fs l : reaches h (Pointer fs) (Ref (Some l)) l
| reaches_field fs l o f s w x :
    h !! l = Some (Struct o) -> (f, s) ∈ fs -> o !! f = Some w -> reaches h s w x -> reaches h (Pointer fs) (Ref (Some l)) x
| reaches_slice s l : reaches h (SliceOf s) (Ref (Some l)) l
| reaches_element s l vs w x :
    h !! l = Some (Slice vs) -> w ∈ vs -> reaches h s w x -> reaches h (SliceOf s) (Ref (Some l)) x
| reaches_map s l : reaches h (DictOf s) (Ref (Some l)) l
| reaches_entry s l m k w x :
    h !! l = Some (Dict m) -> m !! k = Some w -> reaches h s w x -> reaches h (DictOf s) (Ref (Some l)) x.

(** Nothing is shared. *)
Fixpoint no_sharing (s : shape) : bool :=
  match s with
  | Plain => true
  | Shared _ => false
  | Pointer fs => forallb (fun p => let '(_, s) := p in no_sharing s) fs
  | SliceOf s | DictOf s => no_sharing s
  end.

(** ** Shapes and copies *)

Lemma shape_induction (P : shape -> Prop) :
  P Plain -> (forall s, P s -> P (Shared s)) -> (forall fs, Forall (fun p => P p.2) fs -> P (Pointer fs)) ->
  (forall s, P s -> P (SliceOf s)) -> (forall s, P s -> P (DictOf s)) -> forall s, P s.
Proof.
  intros H1 H2 H3 H4 H5. fix IH 1. intros [|s|fs|s|s]; [exact H1|apply H2, IH| |apply H4, IH|apply H5, IH].
  apply H3. induction fs as [|[f s] fs IHfs]; constructor; [apply IH|exact IHfs].
Qed.

(** The fields of a struct [o], and of its copy [o']. *)
Definition fields_shaped (h : gmap loc object) (p : string) (fs : list (string * shape)) (o : gmap string field) : Prop :=
  Forall (fun f => exists w, o !! (p +:+ f.1) = Some w /\ shaped h f.2 w) fs.

Definition fields_copied h n h' (p : string) (fs : list (string * shape)) (o o' : gmap string field) : Prop :=
  Forall (fun f => exists w w', o !! (p +:+ f.1) = Some w /\ o' !! (p +:+ f.1) = Some w' /\ copied h n h' f.2 w w') fs.

Lemma shaped_pointer h fs v :
  shaped h (Pointer fs) v <->
  v = Ref None \/ exists l o, v = Ref (Some l) /\ h !! l = Some (Struct o) /\ fields_shaped h "" fs o.
Proof.
  cbn. apply or_iff_compat_l. split; intros (l & o & Hv & Hl & H); exists l, o; (split_and!; [done|done|]); clear Hv Hl.
  - induction fs as [|[f s] fs IH]; constructor; [apply H|]. by apply IH, H.
  - induction H as [|[f s] fs Hf _ IH]; [done|]. by split.
Qed.

Lemma copied_pointer h n h' fs v v' :
  copied h n h' (Pointer fs) v v' <->
  (v = Ref None /\ v' = Ref None) \/
  exists l l' o o', v = Ref (Some l) /\ v' = Ref (Some l') /\ n <= l' /\ h !! l = Some (Struct o) /\ h' !! l' = Some (Struct o') /\
    fields_copied h n h' "" fs o o' /\ forall f, ~ (f ∈ fs.*1) -> o' !! f = o !! f.
Proof.
  cbn. apply or_iff_compat_l.
  split; intros (l & l' & o & o' & Hv & Hv' & Hn & Hl & Hl' & H & Hf); exists l, l', o, o'; (split_and!; [done..| |done]); clear Hv Hv' Hl Hl' Hf.
  - induction fs as [|[f s] fs IH]; constructor; [apply H|]. by apply IH, H.
  - induction H as [|[f s] fs Hf _ IH]; [done|]. by split.
Qed.

(** A copy stays one when its objects stay. *)
Lemma copied_mono h n n' h1 h2 s v v' :
  n' <= n -> (forall l o, n <= l -> h1 !! l = Some o -> h2 !! l = Some o) -> copied h n h1 s v v' -> copied h n' h2 s v v'.
Proof.
  intros Hn Hh. revert v v'. induction s as [|s _|fs IH|s IH|s IH] using shape_induction; intros v v'; [done|done|..].
  - rewrite !copied_pointer. intros [?|(l & l' & o & o' & -> & -> & Hle & Ho & Ho' & Hf & Hr)]; [by left|right].
    exists l, l', o, o'. split_and!; [done|done|lia|done|by apply Hh| |done].
    unfold fields_copied in *. rewrite Forall_forall in *. intros f Hin. destruct (Hf f Hin) as (w & w' & ? & ? & Hc).
    exists w, w'. split_and!; [done|done|by apply IH].
  - cbn. intros [?|(l & l' & o & o' & -> & -> & Hle & Ho & Ho' & Hf)]; [by left|right].
    exists l, l', o, o'. split_and!; [done|done|lia|done|by apply Hh|]. eapply Forall2_impl; [exact Hf|]. intros; by apply IH.
  - cbn. intros [?|(l & l' & o & o' & -> & -> & Hle & Ho & Ho' & Hf)]; [by left|right].
    exists l, l', o, o'. split_and!; [done|done|lia|done|by apply Hh|]. intros k. specialize (Hf k).
    destruct (o !! k), (o' !! k); try done. by apply IH.
Qed.

(** Where nothing is shared, a copy leads to new objects only. *)
Lemma copied_new h n h' s v v' x : no_sharing s = true -> copied h n h' s v v' -> reaches h' s v' x -> n <= x.
Proof.
  intros Hs Hc Hr. revert v Hs Hc. induction Hr as [s v' x _ _|fs l|fs l o f s w x Ho Hf Hw _ IH|s l|s l vs w x Ho Hw _ IH|s l|s l m k w x Ho Hw _ IH];
    intros v Hs Hc; [done|..].
  - apply copied_pointer in Hc as [[_ ?]|(? & l' & ? & ? & _ & [= <-] & ? & _)]; done.
  - apply copied_pointer in Hc as [[_ ?]|(? & l' & o1 & o' & _ & [= <-] & _ & _ & Ho' & Hfs & _)]; [done|].
    rewrite Ho in Ho'. injection Ho' as <-. unfold fields_copied in Hfs. rewrite Forall_forall in Hfs.
    destruct (Hfs _ Hf) as (w1 & w' & _ & Hw' & Hc). cbn [fst snd] in Hw', Hc. change ("" +:+ f) with f in Hw'. rewrite Hw in Hw'. injection Hw' as <-. eapply IH; [|exact Hc].
    cbn in Hs. rewrite forallb_forall in Hs. by apply (Hs (f, s)), list_elem_of_In.
  - destruct Hc as [[_ ?]|(? & l' & ? & ? & _ & [= <-] & ? & _)]; done.
  - destruct Hc as [[_ ?]|(? & l' & vs1 & vs' & _ & [= <-] & _ & _ & Ho' & Hvs)]; [done|].
    rewrite Ho in Ho'. injection Ho' as <-. apply list_elem_of_lookup_1 in Hw as [i Hi].
    destruct (Forall2_lookup_r _ _ _ _ _ Hvs Hi) as (w1 & _ & Hc). by eapply IH.
  - destruct Hc as [[_ ?]|(? & l' & ? & ? & _ & [= <-] & ? & _)]; done.
  - destruct Hc as [[_ ?]|(? & l' & m1 & m' & _ & [= <-] & _ & _ & Ho' & Hm)]; [done|].
    rewrite Ho in Ho'. injection Ho' as <-. specialize (Hm k). rewrite Hw in Hm. destruct (m1 !! k) as [w1|]; [|done]. by eapply IH.
Qed.

(** ** What the statements of a deep copy do *)

Definition wf (h : Objects) : Prop := forall l o, cells h !! l = Some o -> l < next_loc h.

(** New objects, and only the object at [l'] was written. *)
Definition grows (l' : loc) (h h' : Objects) : Prop :=
  next_loc h <= next_loc h' /\ forall l o, l <> l' -> cells h !! l = Some o -> cells h' !! l = Some o.

Definition within (h0 : gmap loc object) (h : Objects) : Prop := wf h /\ forall l o, h0 !! l = Some o -> cells h !! l = Some o.

Lemma grows_refl l h : grows l h h.
Proof. by split. Qed.

Lemma grows_trans l h1 h2 h3 : grows l h1 h2 -> grows l h2 h3 -> grows l h1 h3.
Proof. intros [] []. split; [lia|auto]. Qed.

Lemma within_grows h0 l h h' : within h0 h -> h0 !! l = None -> grows l h h' -> wf h' -> within h0 h'.
Proof. intros [_ H] Hl [_ Hg] Hw. split; [done|]. intros x o Hx. apply Hg; [congruence|by apply H]. Qed.

Lemma put_get_slot o k v o' : put_slot o k v = Some o' -> at_slot o' k = Some v.
Proof.
  destruct o, k; cbn; try done; [| |]; try (intros [= <-]; cbn; by rewrite lookup_insert_eq).
  destruct (decide _); [|done]. intros [= <-]. cbn. by rewrite list_lookup_insert_eq.
Qed.

Lemma put_other_slot o k v o' k' : put_slot o k v = Some o' -> k' <> k -> at_slot o' k' = at_slot o k'.
Proof.
  destruct o as [fs|l|m], k as [f|i|k]; cbn; try done; [| |];
    try (destruct (decide _); [|done]); intros [= <-] Hne; destruct k' as [f'|i'|k']; cbn; try done;
    [rewrite lookup_insert_ne|rewrite list_lookup_insert_ne|rewrite lookup_insert_ne]; congruence.
Qed.

Lemma put_again o k v o' k' : put_slot o k v = Some o' -> (forall w, is_Some (put_slot o k' w)) -> forall w, is_Some (put_slot o' k' w).
Proof.
  destruct o as [fs|l|m], k as [f|i|k]; cbn; try done; [| |];
    try (destruct (decide _); [|done]); intros [= <-] H w; specialize (H w); destruct k' as [f'|i'|k']; cbn in *; try done.
  rewrite length_insert. by destruct (decide _).
Qed.

(** [copy] makes a deep copy of the value at a place and stores it at another place, whose object is new. *)
Definition copies (s : shape) (ok : field -> Prop) (copy : place -> place -> M Objects unit) : Prop :=
  forall h0 h lin kin oin v l' k o1,
    within h0 h -> h0 !! lin = Some oin -> at_slot oin kin = Some v -> shaped h0 s v -> ok v ->
    cells h !! l' = Some o1 -> h0 !! l' = None -> (forall w, is_Some (put_slot o1 k w)) ->
    exists h' v' o', copy (lin, kin) (l', k) h = Done tt h' /\ wf h' /\ grows l' h h' /\
      put_slot o1 k v' = Some o' /\ cells h' !! l' = Some o' /\ copied h0 (next_loc h) (cells h') s v v'.

(** A value that may be nil, and one that is not. *)
Class CopiesValue (s : shape) (copy : place -> place -> M Objects unit) : Prop :=
  copies_value : copies s (fun _ => True) copy.

Class CopiesObject (s : shape) (copy : place -> place -> M Objects unit) : Prop :=
  copies_object : copies s (fun v => v <> Ref None) copy.

#[export] Instance copies_value_object s copy : CopiesValue s copy -> CopiesObject s copy.
Proof. intros H ??????????????. by eapply H. Qed.

(** [DeepCopyInto], on the fields with the prefix [p]. *)
Class CopiesInto (p : string) (fs : list (string * shape)) (into : loc -> loc -> M Objects unit) : Prop :=
  copies_into : forall h0 h l l' o o1,
    within h0 h -> h0 !! l = Some (Struct o) -> fields_shaped h0 p fs o ->
    cells h !! l' = Some (Struct o1) -> h0 !! l' = None ->
    (forall k, String.prefix p k = true -> is_Some (o1 !! k) -> is_Some (o !! k)) ->
    exists h' o', into l l' h = Done tt h' /\ wf h' /\ grows l' h h' /\ cells h' !! l' = Some (Struct o') /\
      fields_copied h0 (next_loc h) (cells h') p fs o o' /\
      (forall k, String.prefix p k = true -> ~ (k ∈ (fun f => p +:+ f.1) <$> fs) -> o' !! k = o !! k) /\
      (forall k, String.prefix p k = false -> o' !! k = o1 !! k).

(** The statements of [DeepCopyInto] after the first. *)
Class CopiesFields (p : string) (fs : list (string * shape)) (in_ out : loc) (m : M Objects unit) : Prop :=
  copies_fields : forall h0 h n o o1,
    within h0 h -> h0 !! in_ = Some (Struct o) -> cells h !! out = Some (Struct o1) -> h0 !! out = None ->
    out < n -> n <= next_loc h -> fields_shaped h0 p fs o -> NoDup fs.*1 ->
    Forall (fun f => o1 !! (p +:+ f.1) = o !! (p +:+ f.1)) fs ->
    exists h' o', m h = Done tt h' /\ wf h' /\ grows out h h' /\ cells h' !! out = Some (Struct o') /\
      fields_copied h0 n (cells h') p fs o o' /\ forall k, ~ (k ∈ (fun f => p +:+ f.1) <$> fs) -> o' !! k = o1 !! k.

#[export] Instance copies_fields_nil p in_ out : CopiesFields p [] in_ out (mret tt).
Proof.
  intros h0 h n o o1 [Hwf _] _ Ho1 _ _ _ _ _ _. exists h, o1. split_and!; [done|done|apply grows_refl|done|constructor|done].
Qed.

(** A field without a statement keeps what the assignment of the struct has given it. *)
Lemma copies_fields_skip p f s fs in_ out m :
  (forall h n h' w, copied h n h' s w w) -> CopiesFields p fs in_ out m -> CopiesFields p ((f, s) :: fs) in_ out m.
Proof.
  intros Hs Hm h0 h n o o1 Hin Ho Ho1 Hout Hn Hn' Hsh Hnd Heq. inversion Hsh as [|? ? (w & Hw & _) Hsh']; subst.
  inversion Heq as [|? ? He Heq']; subst. apply NoDup_cons in Hnd as [Hf Hnd].
  destruct (Hm h0 h n o o1) as (h' & o' & R & Hwf & Hg & Ho' & Hc & Hr); try done.
  exists h', o'. split_and!; [done..| |]; cbn in *.
  - constructor; [|exact Hc]. cbn. exists w, w. split_and!; [done| |apply Hs]. rewrite Hr, He; [done|].
    intros (g & Hg' & Hin')%list_elem_of_fmap. apply sapp_inj_l in Hg'. apply Hf. rewrite Hg'. by apply list_elem_of_fmap_2.
  - intros k Hk. apply Hr. intros ?. apply Hk. by right.
Qed.

#[export] Instance copies_fields_shared p f s fs in_ out m :
  CopiesFields p fs in_ out m -> CopiesFields p ((f, Shared s) :: fs) in_ out m.
Proof. by apply copies_fields_skip. Qed.

Lemma load_run (h : Objects) l k o v : cells h !! l = Some o -> at_slot o k = Some v -> load (l, k) h = Done v h.
Proof. intros Ho Hv. unfold load, mbnd, heap_read. cbn. by rewrite Ho, Hv. Qed.

Lemma store_run (h : Objects) l k o v o' :
  cells h !! l = Some o -> put_slot o k v = Some o' -> store (l, k) v h = Done tt (mkHeap (<[l := o']> (cells h)) (next_loc h)).
Proof. intros Ho Hv. unfold store, mbnd, heap_read, heap_write. cbn. rewrite Ho, Hv. cbn. by rewrite Ho. Qed.

Lemma written_wf h l o o' : wf h -> cells h !! l = Some o -> wf (mkHeap (<[l := o']> (cells h)) (next_loc h)).
Proof. intros Hw Ho x y. cbn. intros [[<- _]|[_ H]]%lookup_insert_Some; by eapply Hw. Qed.

Lemma written_grows h l o' : grows l h (mkHeap (<[l := o']> (cells h)) (next_loc h)).
Proof. split; [done|]. intros x y Hne Hx. cbn. by rewrite lookup_insert_ne. Qed.

Lemma new_wf h o : wf h -> wf (mkHeap (<[next_loc h := o]> (cells h)) (next_loc h + 1)).
Proof. intros Hw x y. cbn. intros [[<- _]|[_ H]]%lookup_insert_Some; [lia|]. apply Hw in H. lia. Qed.

Lemma new_grows h l o : wf h -> grows l h (mkHeap (<[next_loc h := o]> (cells h)) (next_loc h + 1)).
Proof.
  intros Hw. split; [cbn; lia|]. intros x y _ Hx. cbn. rewrite lookup_insert_ne; [done|]. apply Hw in Hx. lia.
Qed.

#[export] Instance copies_fields_cons p f s fs in_ out copy m :
  CopiesObject s copy -> CopiesFields p fs in_ out m ->
  CopiesFields p ((f, s) :: fs) in_ out (copy_field p f copy in_ out ;;; m).
Proof.
  intros Hcopy Hm h0 h n o o1 Hin Ho Ho1 Hout Hn Hn' Hsh Hnd Heq. inversion Hsh as [|? ? (w & Hw & Hsw) Hsh']; subst.
  inversion Heq as [|? ? He Heq']; subst. apply NoDup_cons in Hnd as [Hf Hnd]. cbn [fst snd] in *.
  assert (~ (p +:+ f ∈ (fun g => p +:+ g.1) <$> fs)) as Hnf.
  { intros (g & Hg' & Hin')%list_elem_of_fmap. apply sapp_inj_l in Hg'. apply Hf. rewrite Hg'. by apply list_elem_of_fmap_2. }
  assert (load (in_, Fld (p +:+ f)) h = Done w h) as Hload by (eapply load_run; [by apply Hin|done]).
  assert (exists h1 o2, copy_field p f copy in_ out h = Done tt h1 /\ wf h1 /\ grows out h h1 /\ cells h1 !! out = Some (Struct o2) /\
    (forall k, k <> p +:+ f -> o2 !! k = o1 !! k) /\ exists w', o2 !! (p +:+ f) = Some w' /\ copied h0 n (cells h1) s w w')
    as (h1 & o2 & R1 & Hwf1 & Hg1 & Ho2 & Hoth & w' & Hw' & Hc).
  { unfold copy_field. rewrite (mbnd_run _ _ _ _ _ Hload). assert (w = Ref None \/ w <> Ref None) as [->|Hnn] by (destruct w as [|[]]; auto).
    - exists h, o1. split_and!; [done|apply Hin|apply grows_refl|done|done|]. exists (Ref None). split; [by rewrite He|].
      destruct s; cbn; try done; by left.
    - destruct (Hcopy h0 h in_ (Fld (p +:+ f)) (Struct o) w out (Fld (p +:+ f)) (Struct o1)) as (h1 & w' & o' & R & Hwf1 & Hg & Hp & Ho' & Hc); try done.
      cbn in Hp. injection Hp as <-. exists h1, (<[p +:+ f := w']> o1). split_and!; [|done|done|done| |].
      + destruct w as [d|[x|]]; [exact R|exact R|done].
      + intros k Hk. by rewrite lookup_insert_ne.
      + exists w'. split; [apply lookup_insert_eq|]. by eapply copied_mono; [exact Hn'| |exact Hc]. }
  destruct (Hm h0 h1 n o o2) as (h' & o' & R & Hwf & Hg & Ho' & Hcs & Hr); try done.
  { by eapply within_grows. } { destruct Hg1. lia. }
  { apply Forall_forall. intros g Hg. rewrite Forall_forall in Heq'. rewrite Hoth; [by apply Heq'|].
    intros Hx%sapp_inj_l. apply Hf. rewrite <- Hx. by apply list_elem_of_fmap_2. }
  exists h', o'. split_and!.
  - by rewrite (mbnd_run _ _ _ _ _ R1).
  - done.
  - by eapply grows_trans.
  - done.
  - constructor; [|exact Hcs]. cbn. exists w, w'. split_and!; [done|by rewrite Hr|].
    apply (copied_mono _ n n (cells h1)); [reflexivity| |exact Hc]. intros l x Hl Hx. apply Hg; [lia|done].
  - intros k Hk. rewrite Hr, Hoth; [done|intros ->; apply Hk; left|intros ?; apply Hk; by right].
Qed.

#[export] Instance copies_scalar : CopiesValue Plain assign_scalar.
Proof.
  intros h0 h lin kin oin v l' k o1 Hin Hoin Hv _ _ Ho1 _ Hput. destruct (Hput v) as [o' Hp].
  exists (mkHeap (<[l' := o']> (cells h)) (next_loc h)), v, o'. split_and!; [| | |done| |done].
  - unfold assign_scalar. rewrite (mbnd_run _ _ v h h) by (eapply load_run; [by apply Hin|done]). by eapply store_run.
  - eapply written_wf; [apply Hin|done].
  - apply written_grows.
  - cbn. apply lookup_insert_eq.
Qed.

(** *** Pointers *)

(** What is stored at a place while its object is new: a new object, which is then filled. *)
Lemma allocated h0 h l' k o1 o :
  within h0 h -> cells h !! l' = Some o1 -> h0 !! l' = None -> (forall w, is_Some (put_slot o1 k w)) ->
  exists h' o', heap_new o h = Done (next_loc h) (mkHeap (<[next_loc h := o]> (cells h)) (next_loc h + 1)) /\
    store (l', k) (Ref (Some (next_loc h))) (mkHeap (<[next_loc h := o]> (cells h)) (next_loc h + 1)) = Done tt h' /\
    put_slot o1 k (Ref (Some (next_loc h))) = Some o' /\ within h0 h' /\ grows l' h h' /\ next_loc h' = next_loc h + 1 /\
    cells h' !! l' = Some o' /\ cells h' !! next_loc h = Some o /\ h0 !! next_loc h = None /\ l' < next_loc h.
Proof.
  intros Hin Ho1 Hl' Hput. destruct (Hput (Ref (Some (next_loc h)))) as [o' Hp]. pose proof (proj1 Hin _ _ Ho1) as Hlt.
  set (h1 := mkHeap (<[next_loc h := o]> (cells h)) (next_loc h + 1)).
  assert (wf h1) as Hw1 by (apply new_wf, Hin).
  assert (cells h1 !! l' = Some o1) as Ho1' by (cbn; rewrite lookup_insert_ne by lia; done).
  assert (grows l' h (mkHeap (<[l' := o']> (cells h1)) (next_loc h1))) as Hg.
  { eapply grows_trans; [apply new_grows, Hin|apply written_grows]. }
  exists (mkHeap (<[l' := o']> (cells h1)) (next_loc h1)), o'. split_and!; [done|by eapply store_run|done| |exact Hg|done|..].
  - eapply within_grows; [done|exact Hl'|exact Hg|]. by eapply written_wf.
  - cbn. apply lookup_insert_eq.
  - cbn. rewrite lookup_insert_ne by lia. apply lookup_insert_eq.
  - destruct (h0 !! next_loc h) as [x|] eqn:Hx; [|done]. apply Hin, (proj1 Hin) in Hx. lia.
  - done.
Qed.

(** Filling it does not touch the object at the place. *)
Lemma filled r h0 h h1 h2 l' k o1 o' l2 s v :
  r = Done tt h2 -> grows l' h h1 -> grows l2 h1 h2 -> wf h2 -> put_slot o1 k (Ref (Some l2)) = Some o' -> cells h1 !! l' = Some o' -> l' <> l2 ->
  cells h !! l2 = None -> copied h0 (next_loc h) (cells h2) s v (Ref (Some l2)) ->
  exists h' v' o', r = Done tt h' /\ wf h' /\ grows l' h h' /\ put_slot o1 k v' = Some o' /\ cells h' !! l' = Some o' /\
    copied h0 (next_loc h) (cells h') s v v'.
Proof.
  intros -> [Hn1 Hg1] [Hn2 Hg2] Hw Hp Ho Hne Hnew Hc. exists h2, (Ref (Some l2)), o'. split_and!; [done|done| |done|by apply Hg2|done].
  split; [lia|]. intros l x Hl Hx. apply Hg2; [congruence|by apply Hg1].
Qed.

#[export] Instance copies_pointer fs into : CopiesInto "" fs into -> CopiesValue (Pointer fs) (copy_pointer into).
Proof.
  intros Hinto h0 h lin kin oin v l' k o1 Hin Hoin Hv Hsh _ Ho1 Hl' Hput. apply shaped_pointer in Hsh.
  assert (load (lin, kin) h = Done v h) as HL by (eapply load_run; [by apply Hin|done]).
  unfold copy_pointer. runs HL. destruct Hsh as [->|(l & o & -> & Ho & Hfs)].
  - destruct (Hput (Ref None)) as [o' Hp]. exists (mkHeap (<[l' := o']> (cells h)) (next_loc h)), (Ref None), o'.
    split_and!; [by eapply store_run|eapply written_wf; [apply Hin|done]|apply written_grows|done|cbn; apply lookup_insert_eq|by left].
  - rewrite (mbnd_run _ _ (Some l) h h eq_refl). cbv beta iota.
    destruct (allocated h0 h l' k o1 (Struct ∅) Hin Ho1 Hl' Hput) as (h1 & o' & RN & RS & Hp & Hin1 & Hg1 & En & Ho' & Hnew & Hf & Hlt).
    runs RN. runs RS.
    destruct (Hinto h0 h1 l (next_loc h) o ∅) as (h2 & o2 & R & Hwf2 & Hg2 & Ho2 & Hc & Hr & _); try done.
    { intros x _ [y Hy]. by rewrite lookup_empty in Hy. }
    eapply filled; [exact R|exact Hg1|exact Hg2|done|done|done|lia| |].
    + destruct (cells h !! next_loc h) as [x|] eqn:Hx; [|done]. apply (proj1 Hin) in Hx. lia.
    + apply copied_pointer. right. exists l, (next_loc h), o, o2. split_and!; [done|done|lia|done|done| |].
      * eapply Forall_impl; [exact Hc|]. intros g (w & w' & Hw & Hw' & Hcw). exists w, w'. split_and!; [done|done|].
        eapply copied_mono; [|intros; done|exact Hcw]. lia.
      * intros f Hnin. apply (Hr f); [by destruct f|exact Hnin].
Qed.

#[export] Instance copies_assign p : CopiesInto p [] (assign p).
Proof.
  intros h0 h l l' o o1 Hin Ho _ Ho1 Hl' Hk.
  set (o' := filter (fun kv => String.prefix p kv.1 = true) o ∪ o1).
  exists (mkHeap (<[l' := Struct o']> (cells h)) (next_loc h)), o'. split_and!.
  - unfold assign, mbnd, heap_read, heap_write. rewrite (proj2 Hin _ _ Ho). cbn. rewrite Ho1. cbn. by rewrite Ho1.
  - eapply written_wf; [apply Hin|done].
  - apply written_grows.
  - cbn. apply lookup_insert_eq.
  - constructor.
  - intros k Hp _. unfold o'. destruct (o !! k) as [w|] eqn:Hw.
    + apply lookup_union_Some_l, map_lookup_filter_Some. by split.
    + apply lookup_union_None. split; [apply map_lookup_filter_None; by left|].
      destruct (o1 !! k) as [x|] eqn:Hx; [|done]. destruct (Hk k Hp) as [y Hy]; [by eexists|congruence].
  - intros k Hp. unfold o'. rewrite lookup_union_r; [done|]. apply map_lookup_filter_None. right. intros x _. cbn. by rewrite Hp.
Qed.

(** A [DeepCopyInto]: the assignment, then the fields. *)
Lemma copies_statements p fs (m : loc -> loc -> M Objects unit) :
  NoDup fs.*1 -> (forall in_ out, CopiesFields p fs in_ out (m in_ out)) -> CopiesInto p fs (fun in_ out => assign p in_ out ;;; m in_ out).
Proof.
  intros Hnd Hm h0 h l l' o o1 Hin Ho Hfs Ho1 Hl' Hk.
  destruct (copies_assign p h0 h l l' o o1) as (h1 & o2 & R1 & Hwf1 & Hg1 & Ho2 & _ & Heq & Hoth); try done.
  { constructor. }
  pose proof (proj1 Hin _ _ Ho1) as Hlt. pose proof (proj1 Hg1) as Hn.
  destruct (Hm l l' h0 h1 (next_loc h) o o2) as (h' & o' & R & Hwf & Hg & Ho' & Hc & Hr); try done.
  { by eapply within_grows. }
  { apply Forall_forall. intros f _. apply Heq; [apply prefix_app|by apply not_elem_of_nil]. }
  exists h', o'. split_and!; [by rewrite (mbnd_run _ _ _ _ _ R1)|done|by eapply grows_trans|done|done| |].
  - intros k Hp Hnin. rewrite Hr by done. apply Heq; [done|by apply not_elem_of_nil].
  - intros k Hp. rewrite Hr, Hoth; [done|done|]. intros (f & -> & _)%list_elem_of_fmap. by rewrite prefix_app in Hp.
Qed.

(** *** Slices and maps *)

Definition same_kind (o o' : object) : Prop :=
  match o, o' with
  | Struct _, Struct _ | Dict _, Dict _ => True
  | Slice l, Slice l' => length l' = length l
  | _, _ => False
  end.

Lemma same_kind_trans o1 o2 o3 : same_kind o1 o2 -> same_kind o2 o3 -> same_kind o1 o3.
Proof. destruct o1, o2, o3; cbn; try done. congruence. Qed.

Lemma put_same_kind o k v o' : put_slot o k v = Some o' -> same_kind o o'.
Proof.
  destruct o, k; cbn; try done; try (by intros [= <-]). destruct (decide _); [|done]. intros [= <-]. by rewrite length_insert.
Qed.

(** The loop over the slots of a container. *)
Lemma copy_loop s element h0 h lin oin l' o1 n ks :
  CopiesValue s element -> within h0 h -> h0 !! lin = Some oin -> NoDup ks ->
  Forall (fun k => exists v, at_slot oin k = Some v /\ shaped h0 s v) ks ->
  cells h !! l' = Some o1 -> h0 !! l' = None -> l' < n -> n <= next_loc h ->
  Forall (fun k => forall w, is_Some (put_slot o1 k w)) ks ->
  exists h' o', forM ks (fun k => element (lin, k) (l', k)) h = Done tt h' /\ wf h' /\ grows l' h h' /\
    cells h' !! l' = Some o' /\ same_kind o1 o' /\
    Forall (fun k => exists v v', at_slot oin k = Some v /\ at_slot o' k = Some v' /\ copied h0 n (cells h') s v v') ks /\
    forall k, ~ (k ∈ ks) -> at_slot o' k = at_slot o1 k.
Proof.
  intros Hel. revert h o1. induction ks as [|k ks IH]; intros h o1 Hin Hoin Hnd Hsh Ho1 Hl' Hn Hn' Hput.
  { exists h, o1. split_and!; [done|apply Hin|apply grows_refl|done|by destruct o1|constructor|done]. }
  apply NoDup_cons in Hnd as [Hk Hnd]. inversion Hsh as [|? ? (v & Hv & Hsv) Hsh']; subst. inversion Hput as [|? ? Hp Hput']; subst.
  destruct (Hel h0 h lin k oin v l' k o1) as (h1 & v' & o2 & R1 & Hwf1 & Hg1 & Hp1 & Ho2 & Hc1); try done.
  destruct (IH h1 o2) as (h' & o' & R & Hwf & Hg & Ho' & Hkind & Hc & Hr); try done.
  { by eapply within_grows. } { destruct Hg1. lia. }
  { eapply Forall_impl; [exact Hput'|]. intros k' Hk' w. by eapply put_again. }
  exists h', o'. split_and!.
  - cbn. by runs R1.
  - done.
  - by eapply grows_trans.
  - done.
  - eapply same_kind_trans; [by eapply put_same_kind|done].
  - constructor; [|exact Hc]. exists v, v'. split_and!; [done| |].
    + rewrite Hr by done. by eapply put_get_slot.
    + apply (copied_mono _ (next_loc h) n (cells h1)); [done| |exact Hc1]. intros l x Hl Hx. apply Hg; [lia|done].
  - intros k' Hk'. rewrite Hr, (put_other_slot _ _ _ _ _ Hp1); [done|intros ->; apply Hk'; left|intros ?; apply Hk'; by right].
Qed.

(** What the copies of containers begin with. *)
Lemma container_start (get_ : object -> option (list field)) (h : Objects) lin kin v l o oin :
  cells h !! lin = Some oin -> at_slot oin kin = Some v -> v = Ref (Some l) -> cells h !! l = Some o ->
  load (lin, kin) h = Done v h /\ deref (pointer v) h = Done (Some l) h /\ deref (Some l) h = Done l h /\ heap_read l h = Done o h.
Proof.
  intros Hoin Hv -> Ho. split_and!; [by eapply load_run|done|done|]. unfold heap_read. by rewrite Ho.
Qed.

Lemma forall2_slots h0 n h' s vs vs' :
  length vs' = length vs ->
  Forall (fun k => exists v v', at_slot (Slice vs) k = Some v /\ at_slot (Slice vs') k = Some v' /\ copied h0 n h' s v v')
    (Idx <$> seq 0 (length vs)) ->
  Forall2 (copied h0 n h' s) vs vs'.
Proof.
  intros Hlen H. apply Forall2_same_length_lookup_2; [done|]. intros i v v' Hv Hv'. rewrite Forall_forall in H.
  destruct (H (Idx i)) as (w & w' & Hw & Hw' & Hc).
  { apply list_elem_of_fmap_2, elem_of_seq. apply lookup_lt_Some in Hv. lia. }
  cbn in Hw, Hw'. congruence.
Qed.

#[export] Instance copies_slice s element : CopiesValue s element -> CopiesObject (SliceOf s) (copy_slice element).
Proof.
  intros Hel h0 h lin kin oin v l' k o1 Hin Hoin Hv Hsh Hok Ho1 Hl' Hput.
  destruct Hsh as [->|(l & vs & Ev & Hl & Hvs)]; [done|].
  destruct (container_start elements_of h lin kin v l (Slice vs) oin) as (R1 & R2 & R3 & R4); [by apply Hin|done|done|by apply Hin|].
  unfold copy_slice. runs R1. runs R2. runs R3. runs R4. rewrite (mbnd_run _ _ vs h h eq_refl). cbv beta iota.
  destruct (allocated h0 h l' k o1 (Slice (replicate (length vs) (Ref None))) Hin Ho1 Hl' Hput)
    as (h1 & o' & RN & RS & Hp & Hin1 & Hg1 & En & Ho' & Hnew & Hf & Hlt).
  runs RN. runs RS.
  destruct (copy_loop s element h0 h1 l (Slice vs) (next_loc h) (Slice (replicate (length vs) (Ref None))) (next_loc h1) (Idx <$> seq 0 (length vs)))
    as (h2 & o2 & R & Hwf2 & Hg2 & Ho2 & Hkind & Hc & _); try done; [| |lia| |].
  - apply NoDup_fmap_2; [by intros ?? [= ->]|apply NoDup_seq].
  - apply Forall_forall. intros x (i & -> & Hi%elem_of_seq)%list_elem_of_fmap. destruct (lookup_lt_is_Some_2 vs i) as [w Hw]; [lia|].
    exists w. split; [done|]. rewrite Forall_forall in Hvs. apply Hvs. by eapply list_elem_of_lookup_2.
  - apply Forall_forall. intros x (i & -> & Hi%elem_of_seq)%list_elem_of_fmap w. cbn. rewrite length_replicate. rewrite decide_True by lia. by eexists.
  - destruct o2 as [| vs'|]; try done. cbn in Hkind. rewrite length_replicate in Hkind.
    eapply filled; [exact R|exact Hg1|exact Hg2|done|done|done|lia| |].
    + destruct (cells h !! next_loc h) as [x|] eqn:Hx; [|done]. apply (proj1 Hin) in Hx. lia.
    + cbn. right. exists l, (next_loc h), vs, vs'. split_and!; [done|done|lia|done|done|].
      eapply Forall2_impl; [by apply forall2_slots|]. intros w w' Hw. eapply copied_mono; [|intros; done|exact Hw]. lia.
Qed.

#[export] Instance copies_strings : CopiesObject (SliceOf Plain) copy_strings.
Proof.
  intros h0 h lin kin oin v l' k o1 Hin Hoin Hv Hsh Hok Ho1 Hl' Hput.
  destruct Hsh as [->|(l & vs & Ev & Hl & Hvs)]; [done|].
  destruct (container_start elements_of h lin kin v l (Slice vs) oin) as (R1 & R2 & R3 & R4); [by apply Hin|done|done|by apply Hin|].
  unfold copy_strings. runs R1. runs R2. runs R3. runs R4. rewrite (mbnd_run _ _ vs h h eq_refl). cbv beta iota.
  set (ws := replicate (length vs) (Val (DString ""))).
  destruct (allocated h0 h l' k o1 (Slice ws) Hin Ho1 Hl' Hput)
    as (h1 & o' & RN & RS & Hp & Hin1 & Hg1 & En & Ho' & Hnew & Hf & Hlt).
  runs RN. runs RS.
  assert (heap_read (next_loc h) h1 = Done (Slice ws) h1) as RR by (unfold heap_read; by rewrite Hnew). runs RR.
  rewrite (mbnd_run _ _ ws h1 h1 eq_refl). cbv beta iota.
  replace (take (length ws) vs ++ drop (length vs) ws) with vs.
  2:{ unfold ws. rewrite length_replicate, firstn_all, drop_ge, app_nil_r; [done|]. by rewrite length_replicate. }
  eapply (filled _ h0 h h1 (mkHeap (<[next_loc h := Slice vs]> (cells h1)) (next_loc h1))); [|exact Hg1|apply written_grows| |done|done|lia| |].
  - unfold heap_write. by rewrite Hnew.
  - eapply written_wf; [apply Hin1|done].
  - destruct (cells h !! next_loc h) as [x|] eqn:Hx; [|done]. apply (proj1 Hin) in Hx. lia.
  - cbn. right. exists l, (next_loc h), vs, vs. split_and!; [done|done|lia|done|apply lookup_insert_eq|].
    clear. induction vs; by constructor.
Qed.

(** A range over a map visits every key once. *)
Class Visits (order : list string -> list string) : Prop := visits : forall l, order l ≡ₚ l.

#[export] Instance copies_map order s entry :
  Visits order -> CopiesValue s entry -> CopiesObject (DictOf s) (copy_map order entry).
Proof.
  intros Hord Hel h0 h lin kin oin v l' k o1 Hin Hoin Hv Hsh Hok Ho1 Hl' Hput.
  destruct Hsh as [->|(l & m & Ev & Hl & Hm)]; [done|].
  destruct (container_start elements_of h lin kin v l (Dict m) oin) as (R1 & R2 & R3 & R4); [by apply Hin|done|done|by apply Hin|].
  unfold copy_map. runs R1. runs R2. runs R3. runs R4. rewrite (mbnd_run _ _ m h h eq_refl). cbv beta iota.
  destruct (allocated h0 h l' k o1 (Dict ∅) Hin Ho1 Hl' Hput)
    as (h1 & o' & RN & RS & Hp & Hin1 & Hg1 & En & Ho' & Hnew & Hf & Hlt).
  runs RN. runs RS. set (ks := order (map_to_list m).*1).
  assert (forall x, x ∈ ks <-> is_Some (m !! x)) as Hks.
  { intros x. unfold ks. rewrite (Hord _), list_elem_of_fmap. split.
    - intros ([y w] & -> & Hy%elem_of_map_to_list). by exists w.
    - intros [w Hw]. exists (x, w). split; [done|]. by apply elem_of_map_to_list. }
  destruct (copy_loop s entry h0 h1 l (Dict m) (next_loc h) (Dict ∅) (next_loc h1) (Key <$> ks))
    as (h2 & o2 & R & Hwf2 & Hg2 & Ho2 & Hkind & Hc & Hr); try done; [| |lia| |].
  - apply NoDup_fmap_2; [by intros ?? [= ->]|]. unfold ks. rewrite (Hord _). apply NoDup_fst_map_to_list.
  - apply Forall_forall. intros x (i & -> & [w Hw]%Hks)%list_elem_of_fmap. exists w. split; [done|]. by eapply Hm.
  - apply Forall_forall. intros x (i & -> & _)%list_elem_of_fmap w. by eexists.
  - destruct o2 as [| |m']; try done.
    eapply filled; [exact R|exact Hg1|exact Hg2|done|done|done|lia| |].
    + destruct (cells h !! next_loc h) as [x|] eqn:Hx; [|done]. apply (proj1 Hin) in Hx. lia.
    + right. exists l, (next_loc h), m, m'. split_and!; [done|done|lia|done|done|]. intros x.
      destruct (m !! x) as [w|] eqn:Hx.
      * rewrite Forall_forall in Hc. destruct (Hc (Key x)) as (w1 & w' & Hw1 & Hw' & Hcw); [apply list_elem_of_fmap_2, Hks; by eexists|].
        cbn in Hw1, Hw'. rewrite Hw'. rewrite Hx in Hw1. injection Hw1 as <-. cbn.
        apply (copied_mono _ (next_loc h1) _ (cells h2)); [lia|done|exact Hcw].
      * assert (m' !! x = None) as ->; [|done]. apply (Hr (Key x)). intros (y & [= <-] & [w Hw]%Hks)%list_elem_of_fmap. congruence.
Qed.

(** *** Embedded structs *)

(** The fields of a struct that is embedded under the prefix [q]. *)
Definition embed (q : string) (fs : list (string * shape)) : list (string * shape) :=
  (fun f => (q +:+ f.1, f.2)) <$> fs.

(** Copies of embedded structs, one after the other; [parts]: their prefixes and fields. *)
Class CopiesParts (parts : list (string * list (string * shape))) (in_ out : loc) (m : M Objects unit) : Prop :=
  copies_parts : forall h0 h n o o1,
    within h0 h -> h0 !! in_ = Some (Struct o) -> cells h !! out = Some (Struct o1) -> h0 !! out = None ->
    out < n -> n <= next_loc h -> Forall (fun q => fields_shaped h0 q.1 q.2 o) parts ->
    Forall (fun q => forall k, String.prefix q.1 k = true -> o1 !! k = o !! k) parts ->
    ForallOrdPairs (fun q q' => forall k, String.prefix q.1 k = true -> String.prefix q'.1 k = false) parts ->
    exists h' o', m h = Done tt h' /\ wf h' /\ grows out h h' /\ cells h' !! out = Some (Struct o') /\
      Forall (fun q => fields_copied h0 n (cells h') q.1 q.2 o o') parts /\
      forall k, Forall (fun q => ~ (k ∈ (fun f => q.1 +:+ f.1) <$> q.2)) parts -> o' !! k = o1 !! k.

#[export] Instance copies_parts_nil in_ out : CopiesParts [] in_ out (mret tt).
Proof.
  intros h0 h n o o1 [Hwf _] _ Ho1 _ _ _ _ _ _. exists h, o1. split_and!; [done|done|apply grows_refl|done|constructor|done].
Qed.

#[export] Instance copies_parts_cons q fs parts in_ out into m :
  CopiesInto q fs into -> CopiesParts parts in_ out m -> CopiesParts ((q, fs) :: parts) in_ out (into in_ out ;;; m).
Proof.
  intros Hinto Hm h0 h n o o1 Hin Ho Ho1 Hout Hn Hn' Hsh Heq Hpre.
  inversion Hsh as [|? ? Hsq Hsh']; subst. inversion Heq as [|? ? Heq1 Heq']; subst. inversion Hpre as [|? ? Hp1 Hpre']; subst.
  cbn [fst snd] in *.
  destruct (Hinto h0 h in_ out o o1) as (h1 & o2 & R1 & Hwf1 & Hg1 & Ho2 & Hc1 & Hr1 & Hoth1); try done.
  { intros k Hk. by rewrite Heq1. }
  assert (forall k, Forall (fun q' => String.prefix q'.1 k = true -> o2 !! k = o1 !! k) parts) as Hkeep.
  { intros k. eapply Forall_impl; [exact Hp1|]. intros q' H Hk. apply Hoth1. destruct (String.prefix q k) eqn:E; [|done].
    rewrite (H k E) in Hk. done. }
  destruct (Hm h0 h1 n o o2) as (h' & o' & R & Hwf & Hg & Ho' & Hcs & Hr); try done.
  { by eapply within_grows. } { destruct Hg1. lia. }
  { apply Forall_forall. intros q' Hq' k Hk. rewrite Forall_forall in Heq'. rewrite <- (Heq' q' Hq' k Hk).
    specialize (Hkeep k). rewrite Forall_forall in Hkeep. by apply (Hkeep q'). }
  assert (forall k, String.prefix q k = true -> o' !! k = o2 !! k) as Hfirst.
  { intros k Hk. apply Hr. eapply Forall_impl; [exact Hp1|]. intros q' H (f & -> & _)%list_elem_of_fmap. apply H in Hk. by rewrite prefix_app in Hk. }
  exists h', o'. split_and!.
  - by runs R1.
  - done.
  - by eapply grows_trans.
  - done.
  - constructor; [|exact Hcs]. cbn. eapply Forall_impl; [exact Hc1|]. intros f (w & w' & Hw & Hw' & Hc).
    exists w, w'. split_and!; [done|by rewrite Hfirst by apply prefix_app|].
    eapply copied_mono; [exact Hn'| |exact Hc]. intros l x Hl Hx. apply Hg; [lia|done].
  - intros k Hk. inversion Hk as [|? ? Hk1 Hk2]; subst. rewrite Hr by done. cbn in Hk1.
    destruct (String.prefix q k) eqn:E; [|by apply Hoth1]. rewrite Heq1 by done. by apply Hr1.
Qed.

(** A struct that consists of embedded structs and data. *)
Lemma copies_embedded parts (m : loc -> loc -> M Objects unit) :
  ForallOrdPairs (fun q q' => forall k, String.prefix q.1 k = true -> String.prefix q'.1 k = false) parts ->
  (forall in_ out, CopiesParts parts in_ out (m in_ out)) ->
  CopiesInto "" (concat ((fun q => embed q.1 q.2) <$> parts)) (fun in_ out => assign "" in_ out ;;; m in_ out).
Proof.
  intros Hpre Hm h0 h l l' o o1 Hin Ho Hfs Ho1 Hl' Hk.
  destruct (copies_assign "" h0 h l l' o o1) as (h1 & o2 & R1 & Hwf1 & Hg1 & Ho2 & _ & Heq & _); try done.
  { constructor. }
  pose proof (proj1 Hin _ _ Ho1) as Hlt. pose proof (proj1 Hg1) as Hn.
  assert (forall k, o2 !! k = o !! k) as E2 by (intros k; apply Heq; [by destruct k|by apply not_elem_of_nil]).
  destruct (Hm l l' h0 h1 (next_loc h) o o2) as (h' & o' & R & Hwf & Hg & Ho' & Hc & Hr); try done.
  { by eapply within_grows. }
  { apply Forall_forall. intros q Hq. unfold fields_shaped in *. rewrite Forall_forall in Hfs. apply Forall_forall. intros f Hf.
    apply (Hfs (q.1 +:+ f.1, f.2)), list_elem_of_In, in_concat. exists (embed q.1 q.2).
    split; apply list_elem_of_In; [by apply (list_elem_of_fmap_2 (fun q => embed q.1 q.2))|by apply (list_elem_of_fmap_2 (fun f => (q.1 +:+ f.1, f.2)))]. }
  { apply Forall_forall. intros q _ k _. apply E2. }
  assert (forall p, p ∈ concat ((fun q => embed q.1 q.2) <$> parts) -> exists q f, q ∈ parts /\ f ∈ q.2 /\ p = (q.1 +:+ f.1, f.2)) as Hin_.
  { intros p Hp. apply list_elem_of_In, in_concat in Hp as (x & Hx & Hp). apply list_elem_of_In in Hx, Hp.
    apply list_elem_of_fmap in Hx as (q & -> & Hq). apply list_elem_of_fmap in Hp as (f & -> & Hf). by exists q, f. }
  exists h', o'. split_and!; [by runs R1|done|by eapply grows_trans|done| | |].
  - apply Forall_forall. intros p Hp. destruct (Hin_ p Hp) as (q & f & Hq & Hf & ->). cbn.
    rewrite Forall_forall in Hc. specialize (Hc q Hq). unfold fields_copied in Hc. rewrite Forall_forall in Hc. by apply Hc.
  - intros k _ Hnk. rewrite Hr, E2; [done|]. apply Forall_forall. intros q Hq Hin'. apply Hnk. apply list_elem_of_fmap in Hin' as (f & -> & Hf).
    apply (list_elem_of_fmap_2' (fun f => "" +:+ f.1) _ (q.1 +:+ f.1, f.2)); [|done].
    apply list_elem_of_In, in_concat. exists (embed q.1 q.2).
    split; apply list_elem_of_In; [by apply (list_elem_of_fmap_2 (fun q => embed q.1 q.2))|by apply (list_elem_of_fmap_2 (fun f => (q.1 +:+ f.1, f.2)))].
  - intros k Hp. by destruct k.
Qed.

(** ** A deep copy *)

(** Of a struct: its copy is the next object, and those that it leads to come after it. *)
Lemma deep_copy_struct fs into h l o :
  CopiesInto "" fs into -> wf h -> cells h !! l = Some (Struct o) -> fields_shaped (cells h) "" fs o ->
  exists h' o', deep_copy into (Some l) h = Done (Some (next_loc h)) h' /\ wf h' /\
    (forall l o, cells h !! l = Some o -> cells h' !! l = Some o) /\ cells h !! next_loc h = None /\
    cells h' !! next_loc h = Some (Struct o') /\
    fields_copied (cells h) (next_loc h + 1) (cells h') "" fs o o' /\ forall f, ~ (f ∈ fs.*1) -> o' !! f = o !! f.
Proof.
  intros Hinto Hwf Ho Hfs. set (h1 := mkHeap (<[next_loc h := Struct ∅]> (cells h)) (next_loc h + 1)).
  assert (cells h !! next_loc h = None) as Hf.
  { destruct (cells h !! next_loc h) as [x|] eqn:Hx; [|done]. apply Hwf in Hx. lia. }
  destruct (Hinto (cells h) h1 l (next_loc h) o ∅) as (h' & o' & R & Hwf' & Hg & Ho' & Hc & Hr & _); try done.
  { split; [by apply new_wf|]. intros x y Hx. cbn. rewrite lookup_insert_ne; [done|]. congruence. }
  { cbn. apply lookup_insert_eq. }
  { intros k _ [y Hy]. by rewrite lookup_empty in Hy. }
  exists h', o'. split_and!; [|done| |done|done|exact Hc|].
  - unfold deep_copy. rewrite (mbnd_run _ _ (next_loc h) h h1 eq_refl). cbv beta. by rewrite (mbnd_run _ _ _ _ _ R).
  - intros x y Hx. apply Hg; [congruence|]. cbn. rewrite lookup_insert_ne; [done|]. congruence.
  - intros f Hnin. apply (Hr f); [by destruct f|exact Hnin].
Qed.

Lemma deep_copy_copies fs into h r :
  CopiesInto "" fs into -> wf h -> shaped (cells h) (Pointer fs) (Ref r) ->
  exists r' h', deep_copy into r h = Done r' h' /\ wf h' /\
    (forall l o, cells h !! l = Some o -> cells h' !! l = Some o) /\
    copied (cells h) (next_loc h) (cells h') (Pointer fs) (Ref r) (Ref r').
Proof.
  intros Hinto Hwf Hsh. apply shaped_pointer in Hsh as [[= ->]|(l & o & [= ->] & Ho & Hfs)].
  { exists None, h. split_and!; [done|done|done|by left]. }
  destruct (deep_copy_struct fs into h l o Hinto Hwf Ho Hfs) as (h' & o' & R & Hwf' & Hsame & _ & Ho' & Hc & Hr).
  exists (Some (next_loc h)), h'. split_and!; [done|done|done|].
  apply copied_pointer. right. exists l, (next_loc h), o, o'. split_and!; [done|done|lia|done|done| |done].
  eapply Forall_impl; [exact Hc|]. intros g (w & w' & Hw & Hw' & Hcw). exists w, w'. split_and!; [done|done|].
  eapply copied_mono; [|intros; done|exact Hcw]. lia.
Qed.

End GoHeap.
