(* ===== verification/DeepCopy.v ===== *)
(** * Deep copies of the messages

    Module DeepCopy: model/zz_generated.deepcopy.go, on messages as objects ([GoHeap]).  The generated copies are older than
    the messages: four fields of an interface are not copied. *)

From S2P Require Import Prelude GoHeap.

Module DeepCopy.
Import GoHeap.

(** ** The messages

    The fields of the structs of model/controller.pb.go that are pointers, slices or maps, without those of the protobuf
    library.  [Shared]: a field for which [DeepCopyInto] has no statement. *)
Definition L3VRFRoute_fields : list (string * shape) := [].

Definition L3ArpEntry_fields : list (string * shape) := [].

Definition L2FIBEntry_fields : list (string * shape) := [].

Definition BDParms_fields : list (string * shape) := [].

Definition L2BD_fields : list (string * shape) := [("BdParms", Pointer BDParms_fields)].

Definition IPAMPoolStatus_fields : list (string * shape) := [("Addresses", DictOf Plain)].

Definition IPAMPoolSpec_fields : list (string * shape) := [].

Definition MetaDataType_fields : list (string * shape) := [("Labels", DictOf Plain)].

Definition IPAMPool_fields : list (string * shape) :=
  [("Metadata", Pointer MetaDataType_fields); ("Spec", Pointer IPAMPoolSpec_fields);
   ("Status", Pointer IPAMPoolStatus_fields)].

Definition SystemParameters_fields : list (string * shape) := [("L2BdTemplates", SliceOf (Pointer BDParms_fields))].

Definition NetworkPodToNodeMap_fields : list (string * shape) := [].

Definition RenderedVppAgentEntry_fields : list (string * shape) := [].

Definition InterfaceStatus_fields : list (string * shape) :=
  [("Msg", SliceOf Plain); ("IpamPoolNums", DictOf Plain); ("IpAddresses", SliceOf Plain)].

Definition Interface_MemIFParms_fields : list (string * shape) := [].

Definition Interface_TapParms_fields : list (string * shape) := [].

Definition Interface_Forwarding_fields : list (string * shape) :=
  [("L3VrfRoute", SliceOf (Pointer L3VRFRoute_fields)); ("L3Arp", SliceOf (Pointer L3ArpEntry_fields));
   ("L2Fib", SliceOf (Pointer L2FIBEntry_fields))].

Definition Interface_LinuxNamespace_fields : list (string * shape) := [].

Definition Interface_RxPlacementSettings_fields : list (string * shape) := [].

Definition Interface_fields : list (string * shape) :=
  [("IpAddresses", SliceOf Plain); ("IpamPoolNames", SliceOf Plain);
   ("MemifParms", Pointer Interface_MemIFParms_fields); ("TapParms", Shared (Pointer Interface_TapParms_fields));
   ("Labels", SliceOf Plain); ("Fwd", Shared (Pointer Interface_Forwarding_fields));
   ("LinuxNamespace", Shared (Pointer Interface_LinuxNamespace_fields));
   ("RxPlacementSettings", Shared (Pointer Interface_RxPlacementSettings_fields))].

Definition NetworkPodSpec_fields : list (string * shape) :=
  [("Interfaces", SliceOf (Pointer Interface_fields)); ("L2Bds", SliceOf (Pointer L2BD_fields))].

Definition NetworkPod_fields : list (string * shape) :=
  [("Metadata", Pointer MetaDataType_fields); ("Spec", Pointer NetworkPodSpec_fields)].

Definition Connection_fields : list (string * shape) :=
  [("PodInterfaces", SliceOf Plain); ("NodeInterfaces", SliceOf Plain); ("NodeInterfaceLabels", SliceOf Plain);
   ("L2Bd", Pointer L2BD_fields)].

Definition NetworkServiceStatus_fields : list (string * shape) :=
  [("Msg", SliceOf Plain); ("RenderedVppAgentEntries", DictOf (Pointer RenderedVppAgentEntry_fields));
   ("Interfaces", DictOf (Pointer InterfaceStatus_fields))].

Definition NetworkServiceSpec_fields : list (string * shape) :=
  [("NetworkPods", SliceOf (Pointer NetworkPod_fields)); ("Connections", SliceOf (Pointer Connection_fields))].

Definition NetworkService_fields : list (string * shape) :=
  [("Metadata", Pointer MetaDataType_fields); ("Spec", Pointer NetworkServiceSpec_fields);
   ("Status", Pointer NetworkServiceStatus_fields)].

Definition NetworkNodeOverlayStatus_fields : list (string * shape) :=
  [("Msg", SliceOf Plain); ("RenderedVppAgentEntries", DictOf (Pointer RenderedVppAgentEntry_fields))].

Definition NetworkNodeOverlaySpec_VxlanHubAndSpokeParms_fields : list (string * shape) := [].

Definition NetworkNodeOverlaySpec_VxlanMeshParms_fields : list (string * shape) := [].

Definition NetworkNodeOverlaySpec_fields : list (string * shape) :=
  [("VxlanHubAndSpokeParms", Pointer NetworkNodeOverlaySpec_VxlanHubAndSpokeParms_fields);
   ("VxlanMeshParms", Pointer NetworkNodeOverlaySpec_VxlanMeshParms_fields)].

Definition NetworkNodeOverlay_fields : list (string * shape) :=
  [("Metadata", Pointer MetaDataType_fields); ("Spec", Pointer NetworkNodeOverlaySpec_fields);
   ("Status", Pointer NetworkNodeOverlayStatus_fields)].

Definition NetworkNodeSpec_fields : list (string * shape) :=
  [("Interfaces", SliceOf (Pointer Interface_fields)); ("L2Bds", SliceOf (Pointer L2BD_fields))].

Definition NetworkNodeStatus_fields : list (string * shape) :=
  [("Msg", SliceOf Plain); ("RenderedVppAgentEntries", DictOf (Pointer RenderedVppAgentEntry_fields));
   ("Interfaces", DictOf (Pointer InterfaceStatus_fields))].

Definition NetworkNode_fields : list (string * shape) :=
  [("Metadata", Pointer MetaDataType_fields); ("Spec", Pointer NetworkNodeSpec_fields);
   ("Status", Pointer NetworkNodeStatus_fields)].

Section copies.
Context (order : list string -> list string).

(** ** The copies, [order]: the order in which a map is visited *)
Definition BDParms_DeepCopyInto (p : string) (in_ out : loc) : M Objects unit :=
  assign p in_ out ;;;
  mret tt.

Definition BDParms_DeepCopy : option loc -> M Objects (option loc) :=
  deep_copy (BDParms_DeepCopyInto "").

Definition L2BD_DeepCopyInto (p : string) (in_ out : loc) : M Objects unit :=
  assign p in_ out ;;;
  copy_field p "BdParms" (copy_pointer (assign "")) in_ out ;;;
  mret tt.

Definition L2BD_DeepCopy : option loc -> M Objects (option loc) :=
  deep_copy (L2BD_DeepCopyInto "").

Definition Connection_DeepCopyInto (p : string) (in_ out : loc) : M Objects unit :=
  assign p in_ out ;;;
  copy_field p "PodInterfaces" copy_strings in_ out ;;;
  copy_field p "NodeInterfaces" copy_strings in_ out ;;;
  copy_field p "NodeInterfaceLabels" copy_strings in_ out ;;;
  copy_field p "L2Bd" (copy_pointer (L2BD_DeepCopyInto "")) in_ out ;;;
  mret tt.

Definition Connection_DeepCopy : option loc -> M Objects (option loc) :=
  deep_copy (Connection_DeepCopyInto "").

Definition MetaDataType_DeepCopyInto (p : string) (in_ out : loc) : M Objects unit :=
  assign p in_ out ;;;
  copy_field p "Labels" (copy_map order assign_scalar) in_ out ;;;
  mret tt.

Definition MetaDataType_DeepCopy : option loc -> M Objects (option loc) :=
  deep_copy (MetaDataType_DeepCopyInto "").

Definition IPAMPoolSpec_DeepCopyInto (p : string) (in_ out : loc) : M Objects unit :=
  assign p in_ out ;;;
  mret tt.

Definition IPAMPoolSpec_DeepCopy : option loc -> M Objects (option loc) :=
  deep_copy (IPAMPoolSpec_DeepCopyInto "").

Definition IPAMPoolStatus_DeepCopyInto (p : string) (in_ out : loc) : M Objects unit :=
  assign p in_ out ;;;
  copy_field p "Addresses" (copy_map order assign_scalar) in_ out ;;;
  mret tt.

Definition IPAMPoolStatus_DeepCopy : option loc -> M Objects (option loc) :=
  deep_copy (IPAMPoolStatus_DeepCopyInto "").

Definition IPAMPool_DeepCopyInto (p : string) (in_ out : loc) : M Objects unit :=
  assign p in_ out ;;;
  copy_field p "Metadata" (copy_pointer (MetaDataType_DeepCopyInto "")) in_ out ;;;
  copy_field p "Spec" (copy_pointer (assign "")) in_ out ;;;
  copy_field p "Status" (copy_pointer (IPAMPoolStatus_DeepCopyInto "")) in_ out ;;;
  mret tt.

Definition IPAMPool_DeepCopy : option loc -> M Objects (option loc) :=
  deep_copy (IPAMPool_DeepCopyInto "").

Definition Interface_MemIFParms_DeepCopyInto (p : string) (in_ out : loc) : M Objects unit :=
  assign p in_ out ;;;
  mret tt.

Definition Interface_MemIFParms_DeepCopy : option loc -> M Objects (option loc) :=
  deep_copy (Interface_MemIFParms_DeepCopyInto "").

Definition Interface_DeepCopyInto (p : string) (in_ out : loc) : M Objects unit :=
  assign p in_ out ;;;
  copy_field p "IpAddresses" copy_strings in_ out ;;;
  copy_field p "IpamPoolNames" copy_strings in_ out ;;;
  copy_field p "MemifParms" (copy_pointer (assign "")) in_ out ;;;
  copy_field p "Labels" copy_strings in_ out ;;;
  mret tt.

Definition Interface_DeepCopy : option loc -> M Objects (option loc) :=
  deep_copy (Interface_DeepCopyInto "").

Definition InterfaceStatus_DeepCopyInto (p : string) (in_ out : loc) : M Objects unit :=
  assign p in_ out ;;;
  copy_field p "Msg" copy_strings in_ out ;;;
  copy_field p "IpamPoolNums" (copy_map order assign_scalar) in_ out ;;;
  copy_field p "IpAddresses" copy_strings in_ out ;;;
  mret tt.

Definition InterfaceStatus_DeepCopy : option loc -> M Objects (option loc) :=
  deep_copy (InterfaceStatus_DeepCopyInto "").

Definition L2FIBEntry_DeepCopyInto (p : string) (in_ out : loc) : M Objects unit :=
  assign p in_ out ;;;
  mret tt.

Definition L2FIBEntry_DeepCopy : option loc -> M Objects (option loc) :=
  deep_copy (L2FIBEntry_DeepCopyInto "").

Definition L3ArpEntry_DeepCopyInto (p : string) (in_ out : loc) : M Objects unit :=
  assign p in_ out ;;;
  mret tt.

Definition L3ArpEntry_DeepCopy : option loc -> M Objects (option loc) :=
  deep_copy (L3ArpEntry_DeepCopyInto "").

Definition L3VRFRoute_DeepCopyInto (p : string) (in_ out : loc) : M Objects unit :=
  assign p in_ out ;;;
  mret tt.

Definition L3VRFRoute_DeepCopy : option loc -> M Objects (option loc) :=
  deep_copy (L3VRFRoute_DeepCopyInto "").

Definition NetworkNodeSpec_DeepCopyInto (p : string) (in_ out : loc) : M Objects unit :=
  assign p in_ out ;;;
  copy_field p "Interfaces" (copy_slice (copy_pointer (Interface_DeepCopyInto ""))) in_ out ;;;
  copy_field p "L2Bds" (copy_slice (copy_pointer (L2BD_DeepCopyInto ""))) in_ out ;;;
  mret tt.

Definition NetworkNodeSpec_DeepCopy : option loc -> M Objects (option loc) :=
  deep_copy (NetworkNodeSpec_DeepCopyInto "").

Definition RenderedVppAgentEntry_DeepCopyInto (p : string) (in_ out : loc) : M Objects unit :=
  assign p in_ out ;;;
  mret tt.

Definition RenderedVppAgentEntry_DeepCopy : option loc -> M Objects (option loc) :=
  deep_copy (RenderedVppAgentEntry_DeepCopyInto "").

Definition NetworkNodeStatus_DeepCopyInto (p : string) (in_ out : loc) : M Objects unit :=
  assign p in_ out ;;;
  copy_field p "Msg" copy_strings in_ out ;;;
  copy_field p "RenderedVppAgentEntries" (copy_map order (copy_pointer (RenderedVppAgentEntry_DeepCopyInto ""))) in_ out ;;;
  copy_field p "Interfaces" (copy_map order (copy_pointer (InterfaceStatus_DeepCopyInto ""))) in_ out ;;;
  mret tt.

Definition NetworkNodeStatus_DeepCopy : option loc -> M Objects (option loc) :=
  deep_copy (NetworkNodeStatus_DeepCopyInto "").

Definition NetworkNode_DeepCopyInto (p : string) (in_ out : loc) : M Objects unit :=
  assign p in_ out ;;;
  copy_field p "Metadata" (copy_pointer (MetaDataType_DeepCopyInto "")) in_ out ;;;
  copy_field p "Spec" (copy_pointer (NetworkNodeSpec_DeepCopyInto "")) in_ out ;;;
  copy_field p "Status" (copy_pointer (NetworkNodeStatus_DeepCopyInto "")) in_ out ;;;
  mret tt.

Definition NetworkNode_DeepCopy : option loc -> M Objects (option loc) :=
  deep_copy (NetworkNode_DeepCopyInto "").

Definition NetworkNodeOverlaySpec_VxlanHubAndSpokeParms_DeepCopyInto (p : string) (in_ out : loc) : M Objects unit :=
  assign p in_ out ;;;
  mret tt.

Definition NetworkNodeOverlaySpec_VxlanHubAndSpokeParms_DeepCopy : option loc -> M Objects (option loc) :=
  deep_copy (NetworkNodeOverlaySpec_VxlanHubAndSpokeParms_DeepCopyInto "").

Definition NetworkNodeOverlaySpec_VxlanMeshParms_DeepCopyInto (p : string) (in_ out : loc) : M Objects unit :=
  assign p in_ out ;;;
  mret tt.

Definition NetworkNodeOverlaySpec_VxlanMeshParms_DeepCopy : option loc -> M Objects (option loc) :=
  deep_copy (NetworkNodeOverlaySpec_VxlanMeshParms_DeepCopyInto "").

Definition NetworkNodeOverlaySpec_DeepCopyInto (p : string) (in_ out : loc) : M Objects unit :=
  assign p in_ out ;;;
  copy_field p "VxlanHubAndSpokeParms" (copy_pointer (assign "")) in_ out ;;;
  copy_field p "VxlanMeshParms" (copy_pointer (assign "")) in_ out ;;;
  mret tt.

Definition NetworkNodeOverlaySpec_DeepCopy : option loc -> M Objects (option loc) :=
  deep_copy (NetworkNodeOverlaySpec_DeepCopyInto "").

Definition NetworkNodeOverlayStatus_DeepCopyInto (p : string) (in_ out : loc) : M Objects unit :=
  assign p in_ out ;;;
  copy_field p "Msg" copy_strings in_ out ;;;
  copy_field p "RenderedVppAgentEntries" (copy_map order (copy_pointer (RenderedVppAgentEntry_DeepCopyInto ""))) in_ out ;;;
  mret tt.

Definition NetworkNodeOverlayStatus_DeepCopy : option loc -> M Objects (option loc) :=
  deep_copy (NetworkNodeOverlayStatus_DeepCopyInto "").

Definition NetworkNodeOverlay_DeepCopyInto (p : string) (in_ out : loc) : M Objects unit :=
  assign p in_ out ;;;
  copy_field p "Metadata" (copy_pointer (MetaDataType_DeepCopyInto "")) in_ out ;;;
  copy_field p "Spec" (copy_pointer (NetworkNodeOverlaySpec_DeepCopyInto "")) in_ out ;;;
  copy_field p "Status" (copy_pointer (NetworkNodeOverlayStatus_DeepCopyInto "")) in_ out ;;;
  mret tt.

Definition NetworkNodeOverlay_DeepCopy : option loc -> M Objects (option loc) :=
  deep_copy (NetworkNodeOverlay_DeepCopyInto "").

Definition NetworkPodSpec_DeepCopyInto (p : string) (in_ out : loc) : M Objects unit :=
  assign p in_ out ;;;
  copy_field p "Interfaces" (copy_slice (copy_pointer (Interface_DeepCopyInto ""))) in_ out ;;;
  copy_field p "L2Bds" (copy_slice (copy_pointer (L2BD_DeepCopyInto ""))) in_ out ;;;
  mret tt.

Definition NetworkPodSpec_DeepCopy : option loc -> M Objects (option loc) :=
  deep_copy (NetworkPodSpec_DeepCopyInto "").

Definition NetworkPod_DeepCopyInto (p : string) (in_ out : loc) : M Objects unit :=
  assign p in_ out ;;;
  copy_field p "Metadata" (copy_pointer (MetaDataType_DeepCopyInto "")) in_ out ;;;
  copy_field p "Spec" (copy_pointer (NetworkPodSpec_DeepCopyInto "")) in_ out ;;;
  mret tt.

Definition NetworkPod_DeepCopy : option loc -> M Objects (option loc) :=
  deep_copy (NetworkPod_DeepCopyInto "").

Definition NetworkPodToNodeMap_DeepCopyInto (p : string) (in_ out : loc) : M Objects unit :=
  assign p in_ out ;;;
  mret tt.

Definition NetworkPodToNodeMap_DeepCopy : option loc -> M Objects (option loc) :=
  deep_copy (NetworkPodToNodeMap_DeepCopyInto "").

Definition NetworkServiceSpec_DeepCopyInto (p : string) (in_ out : loc) : M Objects unit :=
  assign p in_ out ;;;
  copy_field p "NetworkPods" (copy_slice (copy_pointer (NetworkPod_DeepCopyInto ""))) in_ out ;;;
  copy_field p "Connections" (copy_slice (copy_pointer (Connection_DeepCopyInto ""))) in_ out ;;;
  mret tt.

Definition NetworkServiceSpec_DeepCopy : option loc -> M Objects (option loc) :=
  deep_copy (NetworkServiceSpec_DeepCopyInto "").

Definition NetworkServiceStatus_DeepCopyInto (p : string) (in_ out : loc) : M Objects unit :=
  assign p in_ out ;;;
  copy_field p "Msg" copy_strings in_ out ;;;
  copy_field p "RenderedVppAgentEntries" (copy_map order (copy_pointer (RenderedVppAgentEntry_DeepCopyInto ""))) in_ out ;;;
  copy_field p "Interfaces" (copy_map order (copy_pointer (InterfaceStatus_DeepCopyInto ""))) in_ out ;;;
  mret tt.

Definition NetworkServiceStatus_DeepCopy : option loc -> M Objects (option loc) :=
  deep_copy (NetworkServiceStatus_DeepCopyInto "").

Definition NetworkService_DeepCopyInto (p : string) (in_ out : loc) : M Objects unit :=
  assign p in_ out ;;;
  copy_field p "Metadata" (copy_pointer (MetaDataType_DeepCopyInto "")) in_ out ;;;
  copy_field p "Spec" (copy_pointer (NetworkServiceSpec_DeepCopyInto "")) in_ out ;;;
  copy_field p "Status" (copy_pointer (NetworkServiceStatus_DeepCopyInto "")) in_ out ;;;
  mret tt.

Definition NetworkService_DeepCopy : option loc -> M Objects (option loc) :=
  deep_copy (NetworkService_DeepCopyInto "").

Definition SystemParameters_DeepCopyInto (p : string) (in_ out : loc) : M Objects unit :=
  assign p in_ out ;;;
  copy_field p "L2BdTemplates" (copy_slice (copy_pointer (BDParms_DeepCopyInto ""))) in_ out ;;;
  mret tt.

Definition SystemParameters_DeepCopy : option loc -> M Objects (option loc) :=
  deep_copy (SystemParameters_DeepCopyInto "").

(** All of them, with the messages that they copy. *)
Definition deep_copies : list (string * list (string * shape) * (option loc -> M Objects (option loc))) :=
  [("BDParms", BDParms_fields, BDParms_DeepCopy);
   ("L2BD", L2BD_fields, L2BD_DeepCopy);
   ("Connection", Connection_fields, Connection_DeepCopy);
   ("MetaDataType", MetaDataType_fields, MetaDataType_DeepCopy);
   ("IPAMPoolSpec", IPAMPoolSpec_fields, IPAMPoolSpec_DeepCopy);
   ("IPAMPoolStatus", IPAMPoolStatus_fields, IPAMPoolStatus_DeepCopy);
   ("IPAMPool", IPAMPool_fields, IPAMPool_DeepCopy);
   ("Interface_MemIFParms", Interface_MemIFParms_fields, Interface_MemIFParms_DeepCopy);
   ("Interface", Interface_fields, Interface_DeepCopy);
   ("InterfaceStatus", InterfaceStatus_fields, InterfaceStatus_DeepCopy);
   ("L2FIBEntry", L2FIBEntry_fields, L2FIBEntry_DeepCopy);
   ("L3ArpEntry", L3ArpEntry_fields, L3ArpEntry_DeepCopy);
   ("L3VRFRoute", L3VRFRoute_fields, L3VRFRoute_DeepCopy);
   ("NetworkNodeSpec", NetworkNodeSpec_fields, NetworkNodeSpec_DeepCopy);
   ("RenderedVppAgentEntry", RenderedVppAgentEntry_fields, RenderedVppAgentEntry_DeepCopy);
   ("NetworkNodeStatus", NetworkNodeStatus_fields, NetworkNodeStatus_DeepCopy);
   ("NetworkNode", NetworkNode_fields, NetworkNode_DeepCopy);
   ("NetworkNodeOverlaySpec_VxlanHubAndSpokeParms", NetworkNodeOverlaySpec_VxlanHubAndSpokeParms_fields, NetworkNodeOverlaySpec_VxlanHubAndSpokeParms_DeepCopy);
   ("NetworkNodeOverlaySpec_VxlanMeshParms", NetworkNodeOverlaySpec_VxlanMeshParms_fields, NetworkNodeOverlaySpec_VxlanMeshParms_DeepCopy);
   ("NetworkNodeOverlaySpec", NetworkNodeOverlaySpec_fields, NetworkNodeOverlaySpec_DeepCopy);
   ("NetworkNodeOverlayStatus", NetworkNodeOverlayStatus_fields, NetworkNodeOverlayStatus_DeepCopy);
   ("NetworkNodeOverlay", NetworkNodeOverlay_fields, NetworkNodeOverlay_DeepCopy);
   ("NetworkPodSpec", NetworkPodSpec_fields, NetworkPodSpec_DeepCopy);
   ("NetworkPod", NetworkPod_fields, NetworkPod_DeepCopy);
   ("NetworkPodToNodeMap", NetworkPodToNodeMap_fields, NetworkPodToNodeMap_DeepCopy);
   ("NetworkServiceSpec", NetworkServiceSpec_fields, NetworkServiceSpec_DeepCopy);
   ("NetworkServiceStatus", NetworkServiceStatus_fields, NetworkServiceStatus_DeepCopy);
   ("NetworkService", NetworkService_fields, NetworkService_DeepCopy);
   ("SystemParameters", SystemParameters_fields, SystemParameters_DeepCopy)].

(** ** They are deep copies, but for the fields that are shared *)
Context `{!Visits order}.

Ltac statements :=
  apply copies_statements; [apply (bool_decide_unpack (NoDup _)); vm_compute; exact I|intros; typeclasses eauto].

#[export] Instance BDParms_copies p : CopiesInto p BDParms_fields (BDParms_DeepCopyInto p).
Proof. unfold BDParms_DeepCopyInto. statements. Qed.

#[export] Instance L2BD_copies p : CopiesInto p L2BD_fields (L2BD_DeepCopyInto p).
Proof. unfold L2BD_DeepCopyInto. statements. Qed.

#[export] Instance Connection_copies p : CopiesInto p Connection_fields (Connection_DeepCopyInto p).
Proof. unfold Connection_DeepCopyInto. statements. Qed.

#[export] Instance MetaDataType_copies p : CopiesInto p MetaDataType_fields (MetaDataType_DeepCopyInto p).
Proof. unfold MetaDataType_DeepCopyInto. statements. Qed.

#[export] Instance IPAMPoolSpec_copies p : CopiesInto p IPAMPoolSpec_fields (IPAMPoolSpec_DeepCopyInto p).
Proof. unfold IPAMPoolSpec_DeepCopyInto. statements. Qed.

#[export] Instance IPAMPoolStatus_copies p : CopiesInto p IPAMPoolStatus_fields (IPAMPoolStatus_DeepCopyInto p).
Proof. unfold IPAMPoolStatus_DeepCopyInto. statements. Qed.

#[export] Instance IPAMPool_copies p : CopiesInto p IPAMPool_fields (IPAMPool_DeepCopyInto p).
Proof. unfold IPAMPool_DeepCopyInto. statements. Qed.

#[export] Instance Interface_MemIFParms_copies p : CopiesInto p Interface_MemIFParms_fields (Interface_MemIFParms_DeepCopyInto p).
Proof. unfold Interface_MemIFParms_DeepCopyInto. statements. Qed.

#[export] Instance Interface_copies p : CopiesInto p Interface_fields (Interface_DeepCopyInto p).
Proof. unfold Interface_DeepCopyInto. statements. Qed.

#[export] Instance InterfaceStatus_copies p : CopiesInto p InterfaceStatus_fields (InterfaceStatus_DeepCopyInto p).
Proof. unfold InterfaceStatus_DeepCopyInto. statements. Qed.

#[export] Instance L2FIBEntry_copies p : CopiesInto p L2FIBEntry_fields (L2FIBEntry_DeepCopyInto p).
Proof. unfold L2FIBEntry_DeepCopyInto. statements. Qed.

#[export] Instance L3ArpEntry_copies p : CopiesInto p L3ArpEntry_fields (L3ArpEntry_DeepCopyInto p).
Proof. unfold L3ArpEntry_DeepCopyInto. statements. Qed.

#[export] Instance L3VRFRoute_copies p : CopiesInto p L3VRFRoute_fields (L3VRFRoute_DeepCopyInto p).
Proof. unfold L3VRFRoute_DeepCopyInto. statements. Qed.

#[export] Instance NetworkNodeSpec_copies p : CopiesInto p NetworkNodeSpec_fields (NetworkNodeSpec_DeepCopyInto p).
Proof. unfold NetworkNodeSpec_DeepCopyInto. statements. Qed.

#[export] Instance RenderedVppAgentEntry_copies p : CopiesInto p RenderedVppAgentEntry_fields (RenderedVppAgentEntry_DeepCopyInto p).
Proof. unfold RenderedVppAgentEntry_DeepCopyInto. statements. Qed.

#[export] Instance NetworkNodeStatus_copies p : CopiesInto p NetworkNodeStatus_fields (NetworkNodeStatus_DeepCopyInto p).
Proof. unfold NetworkNodeStatus_DeepCopyInto. statements. Qed.

#[export] Instance NetworkNode_copies p : CopiesInto p NetworkNode_fields (NetworkNode_DeepCopyInto p).
Proof. unfold NetworkNode_DeepCopyInto. statements. Qed.

#[export] Instance NetworkNodeOverlaySpec_VxlanHubAndSpokeParms_copies p : CopiesInto p NetworkNodeOverlaySpec_VxlanHubAndSpokeParms_fields (NetworkNodeOverlaySpec_VxlanHubAndSpokeParms_DeepCopyInto p).
Proof. unfold NetworkNodeOverlaySpec_VxlanHubAndSpokeParms_DeepCopyInto. statements. Qed.

#[export] Instance NetworkNodeOverlaySpec_VxlanMeshParms_copies p : CopiesInto p NetworkNodeOverlaySpec_VxlanMeshParms_fields (NetworkNodeOverlaySpec_VxlanMeshParms_DeepCopyInto p).
Proof. unfold NetworkNodeOverlaySpec_VxlanMeshParms_DeepCopyInto. statements. Qed.

#[export] Instance NetworkNodeOverlaySpec_copies p : CopiesInto p NetworkNodeOverlaySpec_fields (NetworkNodeOverlaySpec_DeepCopyInto p).
Proof. unfold NetworkNodeOverlaySpec_DeepCopyInto. statements. Qed.

#[export] Instance NetworkNodeOverlayStatus_copies p : CopiesInto p NetworkNodeOverlayStatus_fields (NetworkNodeOverlayStatus_DeepCopyInto p).
Proof. unfold NetworkNodeOverlayStatus_DeepCopyInto. statements. Qed.

#[export] Instance NetworkNodeOverlay_copies p : CopiesInto p NetworkNodeOverlay_fields (NetworkNodeOverlay_DeepCopyInto p).
Proof. unfold NetworkNodeOverlay_DeepCopyInto. statements. Qed.

#[export] Instance NetworkPodSpec_copies p : CopiesInto p NetworkPodSpec_fields (NetworkPodSpec_DeepCopyInto p).
Proof. unfold NetworkPodSpec_DeepCopyInto. statements. Qed.

#[export] Instance NetworkPod_copies p : CopiesInto p NetworkPod_fields (NetworkPod_DeepCopyInto p).
Proof. unfold NetworkPod_DeepCopyInto. statements. Qed.

#[export] Instance NetworkPodToNodeMap_copies p : CopiesInto p NetworkPodToNodeMap_fields (NetworkPodToNodeMap_DeepCopyInto p).
Proof. unfold NetworkPodToNodeMap_DeepCopyInto. statements. Qed.

#[export] Instance NetworkServiceSpec_copies p : CopiesInto p NetworkServiceSpec_fields (NetworkServiceSpec_DeepCopyInto p).
Proof. unfold NetworkServiceSpec_DeepCopyInto. statements. Qed.

#[export] Instance NetworkServiceStatus_copies p : CopiesInto p NetworkServiceStatus_fields (NetworkServiceStatus_DeepCopyInto p).
Proof. unfold NetworkServiceStatus_DeepCopyInto. statements. Qed.

#[export] Instance NetworkService_copies p : CopiesInto p NetworkService_fields (NetworkService_DeepCopyInto p).
Proof. unfold NetworkService_DeepCopyInto. statements. Qed.

#[export] Instance SystemParameters_copies p : CopiesInto p SystemParameters_fields (SystemParameters_DeepCopyInto p).
Proof. unfold SystemParameters_DeepCopyInto. statements. Qed.

Lemma deep_copies_copy : Forall (fun c => exists into, c.2 = deep_copy into /\ CopiesInto "" c.1.2 into) deep_copies.
Proof. unfold deep_copies. repeat (apply Forall_cons_2; [eexists; split; [reflexivity|typeclasses eauto]|]). apply Forall_nil_2. Qed.

End copies.

(** ** The fields that are shared *)
(** The field [g] of what the field [f] of an interface points to is written through a copy of the interface, then it is
    read through the interface itself. *)
Definition write_through_copy (l : loc) (f g : string) (v : field) : M Objects field :=
  let! r := Interface_DeepCopy (Some l) in
  let! l' := deref r in
  let! w := load (l', Fld f) in
  let! p := deref (pointer w) in
  let! t := deref p in
  store (t, Fld g) v ;;;
  let! w := load (l, Fld f) in
  let! p := deref (pointer w) in
  let! t := deref p in
  load (t, Fld g).

(** C21: what is shared.  The tap parameters, the forwarding, the Linux namespace and the placement of the receive queues
    came to interfaces after the deep copies were generated: a copy of an interface points to those
    of the interface itself, and what is written to them through the copy is read through the original. *)
Theorem Interface_DeepCopy_shares h l o f g t x v :
  f ∈ ["TapParms"; "Fwd"; "LinuxNamespace"; "RxPlacementSettings"] ->
  wf h -> cells h !! l = Some (Struct o) -> shaped (cells h) (Pointer Interface_fields) (Ref (Some l)) ->
  o !! f = Some (Ref (Some t)) -> cells h !! t = Some (Struct x) -> t <> l ->
  wp (write_through_copy l f g v) (fun w _ => w = v) h.
Proof.
  intros Hf Hwf Ho Hsh Ht Hx Hne.
  destruct (deep_copy_copies Interface_fields (Interface_DeepCopyInto "") h (Some l) _ Hwf Hsh) as (r' & h' & R & _ & Hsame & Hc).
  apply copied_pointer in Hc as [[[=] _]|(? & l' & o1 & o' & [= <-] & [= ->] & Hn & Ho1 & Ho' & Hfs & _)].
  rewrite Ho in Ho1. injection Ho1 as <-.
  assert (o' !! f = Some (Ref (Some t))) as Ht'.
  { unfold fields_copied in Hfs. rewrite Forall_forall in Hfs.
    assert (exists s, (f, Shared s) ∈ Interface_fields) as [s Hin].
    { unfold Interface_fields. repeat (apply elem_of_cons in Hf as [->|Hf]; [eexists; member|]). by apply not_elem_of_nil in Hf. }
    destruct (Hfs _ Hin) as (w & w' & Hw & Hw' & Hcw). cbn [fst snd] in Hw, Hw', Hcw. change ("" +:+ f) with f in Hw, Hw'. cbn in Hcw. congruence. }
  apply (wp_run _ _ v (mkHeap (<[t := Struct (<[g := v]> x)]> (cells h')) (next_loc h'))); [|done].
  unfold write_through_copy, Interface_DeepCopy. runs R.
  rewrite (mbnd_run _ _ l' h' h' eq_refl), (mbnd_run _ _ (Ref (Some t)) h' h') by (by eapply load_run). cbv beta.
  rewrite (mbnd_run _ _ (Some t) h' h' eq_refl), (mbnd_run _ _ t h' h' eq_refl).
  rewrite (mbnd_run _ _ tt h' (mkHeap (<[t := Struct (<[g := v]> x)]> (cells h')) (next_loc h'))) by (eapply store_run; [by apply Hsame|done]).
  set (h2 := mkHeap _ _). rewrite (mbnd_run _ _ (Ref (Some t)) h2 h2).
  2:{ apply (load_run _ _ _ (Struct o)); [|exact Ht]. cbn. rewrite lookup_insert_ne by done. by apply Hsame. }
  cbv beta. rewrite (mbnd_run _ _ (Some t) h2 h2 eq_refl), (mbnd_run _ _ t h2 h2 eq_refl).
  eapply load_run; [cbn; apply lookup_insert_eq|]. cbn. apply lookup_insert_eq.
Qed.

(** ** Witnesses: a node with an interface that has an address and tap parameters *)
Definition str (s : string) : field := Val (DString s).

Definition demo_interface : gmap string field :=
  <["Name" := str "eth0"]> (<["IfType" := str "ethernet"]> (<["Parent" := str ""]> (<["IpAddresses" := Ref (Some 5)]>
  (<["IpamPoolNames" := Ref None]> (<["MemifParms" := Ref None]> (<["TapParms" := Ref (Some 6)]> (<["Labels" := Ref None]>
  (<["Fwd" := Ref None]> (<["LinuxNamespace" := Ref None]> {["RxPlacementSettings" := Ref None]}))))))))).

Definition demo_objects : Objects :=
  mkHeap (list_to_map
    [(0, Struct (<["Metadata" := Ref (Some 1)]> (<["Spec" := Ref (Some 2)]> {["Status" := Ref None]})));
     (1, Struct (<["Name" := str "n1"]> {["Labels" := Ref None]}));
     (2, Struct (<["NodeType" := str "host"]> (<["Interfaces" := Ref (Some 3)]> {["L2Bds" := Ref None]})));
     (3, Slice [Ref (Some 4)]);
     (4, Struct demo_interface);
     (5, Slice [str "10.0.0.1/24"]);
     (6, Struct {["RxRingSize" := str ""]})]) 7.

#[export] Instance visits_id : Visits (fun l => l).
Proof. intros l. reflexivity. Qed.

Lemma demo_objects_wf : wf demo_objects.
Proof.
  intros l o H. apply elem_of_list_to_map_2 in H. cbn. unfold demo_objects in H.
  repeat (apply elem_of_cons in H as [H|H]; [injection H as -> _; lia|]). by apply not_elem_of_nil in H.
Qed.

Ltac shape :=
  repeat first
    [ left; reflexivity
    | right; eexists _, _; split; [reflexivity|split; [reflexivity|]]
    | match goal with
      | |- _ /\ _ => split
      | |- Forall _ (_ :: _) => constructor
      | |- Forall _ [] => constructor
      | |- exists w, _ = Some w /\ _ => eexists; split; [reflexivity|]
      | |- exists d, str _ = Val d => eexists; reflexivity
      | |- True => exact I
      end ].

Lemma demo_interface_shaped : shaped (cells demo_objects) (Pointer Interface_fields) (Ref (Some 4)).
Proof. cbn -[lookup demo_objects]. shape. Qed.

Lemma demo_node_shaped : shaped (cells demo_objects) (Pointer NetworkNode_fields) (Ref (Some 0)).
Proof. cbn -[lookup demo_objects]. shape. Qed.


Lemma Interface_DeepCopy_shares_witness :
  wp (write_through_copy 4 "TapParms" "RxRingSize" (str "1024")) (fun w _ => w = str "1024") demo_objects.
Proof.
  apply (Interface_DeepCopy_shares demo_objects 4 demo_interface "TapParms" "RxRingSize" 6 {["RxRingSize" := str ""]});
    [set_solver|apply demo_objects_wf|reflexivity|apply demo_interface_shaped|reflexivity|reflexivity|done].
Defined.
End DeepCopy.
