(* ===== verification/K8sObjects.v ===== *)
(** * The custom resources as objects

    Module K8sObjects: the deep copies of the custom resources
    (k8scrd/pkg/apis/sfccontroller/v1alpha1/zz_generated.deepcopy.go), and what the updates of their status and the syncs
    do to the objects in the informer's store, on messages as objects ([GoHeap]). *)

From S2P Require Import Prelude GoStd GoNet Model VppAgent State NetworkNode GoHeap DeepCopy.

Module K8sObjects.
Import GoHeap DeepCopy.

Section resources.
Context (order : list string -> list string) `{!Visits order}.

(** The metadata of Kubernetes, a library: its fields and its deep copy. *)
Context (ObjectMeta_fields : list (string * shape)) (ObjectMeta_DeepCopyInto : string -> loc -> loc -> M Objects unit).

(** ** The custom resources: types and metadata of Kubernetes, a specification and a status, all embedded *)
Definition crd_parts (spec : string) (spec_fields : list (string * shape)) (status : string) (status_fields : list (string * shape))
  : list (string * list (string * shape)) :=
  [("TypeMeta.", []); ("ObjectMeta.", ObjectMeta_fields); (spec, spec_fields); (status, status_fields)].

Definition crd_fields spec spec_fields status status_fields : list (string * shape) :=
  concat ((fun q => embed q.1 q.2) <$> crd_parts spec spec_fields status status_fields).

Definition crd_IpamPool_fields := crd_fields "IPAMPoolSpec." IPAMPoolSpec_fields "IPAMPoolStatus." IPAMPoolStatus_fields.

Definition crd_NetworkNode_fields := crd_fields "NetworkNodeSpec." NetworkNodeSpec_fields "NetworkNodeStatus." NetworkNodeStatus_fields.

Definition crd_NetworkNodeOverlay_fields :=
  crd_fields "NetworkNodeOverlaySpec." NetworkNodeOverlaySpec_fields "NetworkNodeOverlayStatus." NetworkNodeOverlayStatus_fields.

Definition crd_NetworkService_fields :=
  crd_fields "NetworkServiceSpec." NetworkServiceSpec_fields "NetworkServiceStatus." NetworkServiceStatus_fields.

(** ** Their deep copies *)
Definition crd_IpamPool_DeepCopyInto (in_ out : loc) : M Objects unit :=
  assign "" in_ out ;;;
  assign "TypeMeta." in_ out ;;;
  ObjectMeta_DeepCopyInto "ObjectMeta." in_ out ;;;
  assign "IPAMPoolSpec." in_ out ;;;
  IPAMPoolStatus_DeepCopyInto order "IPAMPoolStatus." in_ out ;;;
  mret tt.

Definition crd_IpamPool_DeepCopy : option loc -> M Objects (option loc) := deep_copy crd_IpamPool_DeepCopyInto.

Definition crd_NetworkNode_DeepCopyInto (in_ out : loc) : M Objects unit :=
  assign "" in_ out ;;;
  assign "TypeMeta." in_ out ;;;
  ObjectMeta_DeepCopyInto "ObjectMeta." in_ out ;;;
  NetworkNodeSpec_DeepCopyInto "NetworkNodeSpec." in_ out ;;;
  NetworkNodeStatus_DeepCopyInto order "NetworkNodeStatus." in_ out ;;;
  mret tt.

Definition crd_NetworkNode_DeepCopy : option loc -> M Objects (option loc) := deep_copy crd_NetworkNode_DeepCopyInto.

Definition crd_NetworkNodeOverlay_DeepCopyInto (in_ out : loc) : M Objects unit :=
  assign "" in_ out ;;;
  assign "TypeMeta." in_ out ;;;
  ObjectMeta_DeepCopyInto "ObjectMeta." in_ out ;;;
  NetworkNodeOverlaySpec_DeepCopyInto "NetworkNodeOverlaySpec." in_ out ;;;
  NetworkNodeOverlayStatus_DeepCopyInto order "NetworkNodeOverlayStatus." in_ out ;;;
  mret tt.

Definition crd_NetworkNodeOverlay_DeepCopy : option loc -> M Objects (option loc) := deep_copy crd_NetworkNodeOverlay_DeepCopyInto.

Definition crd_NetworkService_DeepCopyInto (in_ out : loc) : M Objects unit :=
  assign "" in_ out ;;;
  assign "TypeMeta." in_ out ;;;
  ObjectMeta_DeepCopyInto "ObjectMeta." in_ out ;;;
  NetworkServiceSpec_DeepCopyInto order "NetworkServiceSpec." in_ out ;;;
  NetworkServiceStatus_DeepCopyInto order "NetworkServiceStatus." in_ out ;;;
  mret tt.

Definition crd_NetworkService_DeepCopy : option loc -> M Objects (option loc) := deep_copy crd_NetworkService_DeepCopyInto.

(** [DeepCopyObject]: the same as an object of the Kubernetes runtime. *)
Definition DeepCopyObject (DeepCopy : option loc -> M Objects (option loc)) (in_ : option loc) : M Objects (option loc) :=
  let! c := DeepCopy in_ in
  match c with Some c => mret (Some c) | None => mret None end.

Definition crd_IpamPool_DeepCopyObject := DeepCopyObject crd_IpamPool_DeepCopy.

Definition crd_NetworkNode_DeepCopyObject := DeepCopyObject crd_NetworkNode_DeepCopy.

Definition crd_NetworkNodeOverlay_DeepCopyObject := DeepCopyObject crd_NetworkNodeOverlay_DeepCopy.

Definition crd_NetworkService_DeepCopyObject := DeepCopyObject crd_NetworkService_DeepCopy.

(** ** The update of a status: the object that is sent to Kubernetes, made from the resource of the store and the
    status of the controller *)
Definition updated (DeepCopy : option loc -> M Objects (option loc)) (q : string) (crd : loc) (status : loc) : M Objects loc :=
  let! c := DeepCopy (Some crd) in
  let! crd' := deref c in
  assign_embedded q status crd' ;;;
  mret crd'.

Definition status_updates : list (string * list (string * shape) * (loc -> loc -> M Objects loc)) :=
  [("IPAMPoolStatus.", crd_IpamPool_fields, updated crd_IpamPool_DeepCopy "IPAMPoolStatus.");
   ("NetworkNodeStatus.", crd_NetworkNode_fields, updated crd_NetworkNode_DeepCopy "NetworkNodeStatus.");
   ("NetworkNodeOverlayStatus.", crd_NetworkNodeOverlay_fields, updated crd_NetworkNodeOverlay_DeepCopy "NetworkNodeOverlayStatus.");
   ("NetworkServiceStatus.", crd_NetworkService_fields, updated crd_NetworkService_DeepCopy "NetworkServiceStatus.")].

(** The deep copy of the library: it copies its fields. *)
Context {HObjectMeta : forall p, CopiesInto p ObjectMeta_fields (ObjectMeta_DeepCopyInto p)}.

(** No field has both prefixes. *)
Lemma prefix_either a b k : String.prefix a k = true -> String.prefix b k = true -> String.prefix a b || String.prefix b a = true.
Proof.
  revert b k. induction a as [|x a IH]; intros b k; [by intros; destruct b|]. destruct b as [|y b]; [done|]. destruct k as [|z k]; [done|]. cbn.
  destruct (Ascii.ascii_dec x z) as [->|]; [|intros [=]]. destruct (Ascii.ascii_dec y z) as [->|]; [|intros _ [=]].
  destruct (Ascii.ascii_dec z z); [|done]. apply IH.
Qed.

Lemma prefixes_differ (parts : list (string * list (string * shape))) :
  ForallOrdPairs (fun q q' => String.prefix q.1 q'.1 || String.prefix q'.1 q.1 = false) parts ->
  ForallOrdPairs (fun q q' => forall k, String.prefix q.1 k = true -> String.prefix q'.1 k = false) parts.
Proof.
  induction 1 as [|q parts H _ IH]; constructor; [|done]. eapply Forall_impl; [exact H|]. cbn. intros q' Hq k Hk.
  destruct (String.prefix q'.1 k) eqn:E; [|done]. by rewrite (prefix_either _ _ _ Hk E) in Hq.
Qed.

Ltac parts :=
  apply (copies_embedded (crd_parts _ _ _ _)); [apply prefixes_differ; repeat constructor|intros; unfold crd_parts; typeclasses eauto].

#[export] Instance crd_IpamPool_copies : CopiesInto "" crd_IpamPool_fields crd_IpamPool_DeepCopyInto.
Proof. unfold crd_IpamPool_DeepCopyInto. parts. Qed.

#[export] Instance crd_NetworkNode_copies : CopiesInto "" crd_NetworkNode_fields crd_NetworkNode_DeepCopyInto.
Proof. unfold crd_NetworkNode_DeepCopyInto. parts. Qed.

#[export] Instance crd_NetworkNodeOverlay_copies : CopiesInto "" crd_NetworkNodeOverlay_fields crd_NetworkNodeOverlay_DeepCopyInto.
Proof. unfold crd_NetworkNodeOverlay_DeepCopyInto. parts. Qed.

#[export] Instance crd_NetworkService_copies : CopiesInto "" crd_NetworkService_fields crd_NetworkService_DeepCopyInto.
Proof. unfold crd_NetworkService_DeepCopyInto. parts. Qed.

Lemma status_updates_copy : Forall (fun u => exists into, u.2 = updated (deep_copy into) u.1.1 /\ CopiesInto "" u.1.2 into) status_updates.
Proof. unfold status_updates. repeat (apply Forall_cons_2; [eexists; split; [reflexivity|typeclasses eauto]|]). apply Forall_nil_2. Qed.

End resources.

(** ** The sync of a node *)

Definition text (v : field) : option string := match v with Val (DString s) => Some s | _ => None end.

Definition read_string (l : loc) (f : string) : M Objects string :=
  let! v := load (l, Fld f) in deref (text v).

(** A slice of strings; nil has no elements. *)
Definition read_strings (l : loc) (f : string) : M Objects (list string) :=
  let! v := load (l, Fld f) in
  let! r := deref (pointer v) in
  match r with
  | None => mret []
  | Some l => let! o := heap_read l in let! vs := deref (elements_of o) in deref (mapM text vs)
  end.

(** The slice of pointers in the field [f]. *)
Definition read_pointers (l : loc) (f : string) : M Objects (list field) :=
  let! v := load (l, Fld f) in
  let! r := deref (pointer v) in
  match r with
  | None => mret []
  | Some l => let! o := heap_read l in deref (elements_of o)
  end.

(** [nodeValidateInterfaces] of networknode.go: the parent is written to the object that the message points to. *)
Definition check_address (nodeName ifName ipAddress : string) : M Objects (result unit) :=
  match Net.ParseCIDR ipAddress with
  | inl err => mfail ("node/if: " +:+ nodeName +:+ "/" +:+ ifName +:+ " '" +:+ err +:+
                      "', expected format i.p.v.4/xx, or ip::v6/xx")
  | inr _ => mok tt
  end.

Definition nodeValidateInterface (name nodeName : string) (iFace : field) : M Objects (result unit) :=
  let! r := deref (pointer iFace) in
  let! l := deref r in
  let! ifType := read_string l "IfType" in
  let! ifName := read_string l "Name" in
  if String.eqb ifType IfTypeEthernet || String.eqb ifType IfTypeVxlanTunnel then
    store (l, Fld "Parent") (Val (DString name)) ;;;
    let! ipAddresses := read_strings l "IpAddresses" in
    forR ipAddresses (check_address nodeName ifName)
  else mfail ("node/if: " +:+ nodeName +:+ "/" +:+ ifName +:+ " has invalid if type '" +:+ ifType +:+ "'").

Definition nodeValidateInterfaces (name nodeName : string) (iFaces : list field) : M Objects (result unit) :=
  forR iFaces (nodeValidateInterface name nodeName).

(** The message that a node of the store becomes: the arguments of [HandleCRDSync] and [CrdToSfcNetworkNode] are
    passed by value, and the specification of the message is that of the second argument. *)
Definition CrdToSfcNetworkNode (crd : loc) : M Objects (string * loc) :=
  let! crdNN := pass crd in
  let! crdNN := pass crdNN in
  mret ("NetworkNodeSpec.", crdNN).

(** What the controller does with the interfaces of the message. *)
Definition sync_and_validate (name : string) (crd : loc) : M Objects (result unit) :=
  let! spec := CrdToSfcNetworkNode crd in
  let! iFaces := read_pointers (snd spec) (fst spec +:+ "Interfaces") in
  nodeValidateInterfaces name name iFaces.

(** The object that [v] points to is the interface [i], as far as its validation reads and writes it. *)
Definition is_interface (h : gmap loc object) (v : field) (i : Interface) : Prop :=
  exists l o, v = Ref (Some l) /\ h !! l = Some (Struct o) /\
    o !! "Name" = Some (Val (DString (if_Name i))) /\ o !! "IfType" = Some (Val (DString (if_IfType i))) /\
    o !! "Parent" = Some (Val (DString (if_Parent i))) /\
    ((o !! "IpAddresses" = Some (Ref None) /\ if_IpAddresses i = []) \/
     exists la, o !! "IpAddresses" = Some (Ref (Some la)) /\ h !! la = Some (Slice (Val <$> (DString <$> if_IpAddresses i)))).

Lemma mapM_text l : mapM text (Val <$> (DString <$> l)) = Some l.
Proof. induction l as [|x l IH]; [done|]. cbn in *. by rewrite IH. Qed.

Lemma is_interface_other h l o o2 v i :
  h !! l = Some (Struct o) -> v <> Ref (Some l) -> is_interface h v i -> is_interface (<[l := Struct o2]> h) v i.
Proof.
  intros Hl Hne (l1 & o1 & -> & Ho1 & Hn & Ht & Hp & Ha). exists l1, o1. split_and!; try done.
  - rewrite lookup_insert_ne; [done|congruence].
  - destruct Ha as [?|(la & Ha & Hs)]; [by left|right]. exists la. split; [done|]. rewrite lookup_insert_ne; [done|congruence].
Qed.

Lemma is_interface_parent h l o name i :
  h !! l = Some (Struct o) -> is_interface h (Ref (Some l)) i ->
  is_interface (<[l := Struct (<["Parent" := Val (DString name)]> o)]> h) (Ref (Some l)) (with_if_Parent name i).
Proof.
  intros Hl (l1 & o1 & [= <-] & Ho1 & Hn & Ht & Hp & Ha). rewrite Hl in Ho1. injection Ho1 as <-.
  eexists l, _. split_and!; [done|apply lookup_insert_eq|by rewrite lookup_insert_ne|by rewrite lookup_insert_ne|by rewrite lookup_insert_eq|].
  rewrite !lookup_insert_ne by done. destruct Ha as [?|(la & Ha & Hs)]; [by left|right]. exists la. split; [done|].
  rewrite lookup_insert_ne; [done|congruence].
Qed.

(** Other interfaces than those of [vs] stay when only the objects of [vs] are written. *)
Lemma is_interface_frame h h' vs ifs v i :
  (forall x, ~ (Ref (Some x) ∈ vs) -> h' !! x = h !! x) -> Forall2 (is_interface h) vs ifs -> ~ (v ∈ vs) ->
  is_interface h v i -> is_interface h' v i.
Proof.
  intros Hsame Hvs Hv (l & o & -> & Ho & Hn & Ht & Hp & Ha). exists l, o. split_and!; try done; [by rewrite Hsame|].
  destruct Ha as [?|(la & Ha & Hs)]; [by left|right]. exists la. split; [done|]. rewrite Hsame; [done|].
  intros (k & Hk)%list_elem_of_lookup_1. destruct (Forall2_lookup_l _ _ _ _ _ Hvs Hk) as (j & _ & l1 & o1 & [= <-] & Ho1 & _). congruence.
Qed.

(** The addresses of an interface, and their check. *)
Lemma addresses_read h l i :
  is_interface (cells h) (Ref (Some l)) i -> read_strings l "IpAddresses" h = Done (if_IpAddresses i) h.
Proof.
  intros (l1 & o & [= <-] & Ho & _ & _ & _ & [[Ha ->]|(la & Ha & Hs)]); unfold read_strings.
  - rewrite (mbnd_run _ _ (Ref None) h h) by (by eapply load_run). done.
  - rewrite (mbnd_run _ _ (Ref (Some la)) h h) by (by eapply load_run). rewrite (mbnd_run _ _ (Some la) h h eq_refl).
    unfold mbnd, heap_read. rewrite Hs. cbn. by rewrite mapM_text.
Qed.

Lemma addresses_check (h : Objects) nodeName ifName l :
  forR l (check_address nodeName ifName) h =
  Done (match omap (fun a => match Net.ParseCIDR a with inl e => Some e | inr _ => None end) l with
        | e :: _ => Err ("node/if: " +:+ nodeName +:+ "/" +:+ ifName +:+ " '" +:+ e +:+ "', expected format i.p.v.4/xx, or ip::v6/xx")
        | [] => Ok tt
        end) h.
Proof.
  induction l as [|a l IH]; [done|]. cbn. unfold check_address at 1. unfold rbnd, mbnd in *. destruct (Net.ParseCIDR a) as [e|x]; [done|]. cbn. apply IH.
Qed.

(** The object with its parent set. *)
Definition parented (name : string) (l : loc) (o : gmap string field) (h : Objects) : Objects :=
  mkHeap (<[l := Struct (<["Parent" := Val (DString name)]> o)]> (cells h)) (next_loc h).

Lemma validate_one name nodeName l o i h :
  cells h !! l = Some (Struct o) -> is_interface (cells h) (Ref (Some l)) i ->
  nodeValidateInterface name nodeName (Ref (Some l)) h =
    if String.eqb (if_IfType i) IfTypeEthernet || String.eqb (if_IfType i) IfTypeVxlanTunnel then
      Done (match omap (fun a => match Net.ParseCIDR a with inl e => Some e | inr _ => None end) (if_IpAddresses i) with
            | e :: _ => Err ("node/if: " +:+ nodeName +:+ "/" +:+ if_Name i +:+ " '" +:+ e +:+
                             "', expected format i.p.v.4/xx, or ip::v6/xx")
            | [] => Ok tt
            end) (parented name l o h)
    else Done (Err ("node/if: " +:+ nodeName +:+ "/" +:+ if_Name i +:+ " has invalid if type '" +:+ if_IfType i +:+ "'")) h.
Proof.
  intros Ho Hi. pose proof (is_interface_parent _ _ _ name _ Ho Hi) as Hi1.
  destruct Hi as (l1 & o1 & [= <-] & Ho1 & Hn & Ht & _). rewrite Ho in Ho1. injection Ho1 as <-.
  assert (read_string l "IfType" h = Done (if_IfType i) h) as RT.
  { unfold read_string. by rewrite (mbnd_run _ _ (Val (DString (if_IfType i))) h h) by (by eapply load_run). }
  assert (read_string l "Name" h = Done (if_Name i) h) as RN.
  { unfold read_string. by rewrite (mbnd_run _ _ (Val (DString (if_Name i))) h h) by (by eapply load_run). }
  unfold nodeValidateInterface. rewrite (mbnd_run _ _ (Some l) h h eq_refl), (mbnd_run _ _ l h h eq_refl). runs RT. runs RN.
  destruct (_ || _); [|done].
  assert (store (l, Fld "Parent") (Val (DString name)) h = Done tt (parented name l o h)) as RS by (by eapply store_run). runs RS.
  pose proof (addresses_read (parented name l o h) l _ Hi1) as RA. runs RA. apply addresses_check.
Qed.

(** The validation of the objects is that of the values: the same verdict, and afterwards the objects are the
    interfaces with the parents that it has set; nothing else is written. *)
Lemma validation_writes_through name nodeName vs ifs h :
  Forall2 (is_interface (cells h)) vs ifs -> NoDup vs ->
  exists h', nodeValidateInterfaces name nodeName vs h =
      Done (match snd (NetworkNode.nodeValidateInterfaces name nodeName ifs) with Some e => Err e | None => Ok tt end) h' /\
    Forall2 (is_interface (cells h')) vs (fst (NetworkNode.nodeValidateInterfaces name nodeName ifs)) /\
    forall l, ~ (Ref (Some l) ∈ vs) -> cells h' !! l = cells h !! l.
Proof.
  intros Hvs Hnd. revert ifs h Hvs. induction vs as [|v vs IH]; intros ifs h Hvs.
  { apply Forall2_nil_inv_l in Hvs as ->. exists h. by split_and!; [|constructor|]. }
  apply Forall2_cons_inv_l in Hvs as (i & ifs' & Hi & Hvs & ->). apply NoDup_cons in Hnd as [Hv Hnd].
  pose proof Hi as (l & o & -> & Ho & _). pose proof (validate_one name nodeName l o i h Ho Hi) as R1.
  set (h1 := parented name l o h) in *.
  assert (is_interface (cells h1) (Ref (Some l)) (with_if_Parent name i)) as Hi1 by by apply is_interface_parent.
  assert (Forall2 (is_interface (cells h1)) vs ifs') as Hvs1.
  { apply Forall2_same_length_lookup_2; [by eapply Forall2_length|]. intros k v' i' Hv' Hi'.
    eapply is_interface_other; [done| |by eapply Forall2_lookup_lr]. intros ->. apply Hv. by eapply list_elem_of_lookup_2. }
  assert (forall x, ~ (Ref (Some x) ∈ Ref (Some l) :: vs) -> cells h1 !! x = cells h !! x) as Hoth1.
  { intros x Hx. cbn. apply lookup_insert_ne. intros ->. apply Hx. left. }
  unfold nodeValidateInterfaces. cbn [forR NetworkNode.nodeValidateInterfaces]. unfold rbnd. unfold mbnd. rewrite R1. clear R1.
  destruct (_ || _); [|exists h; split_and!; [done|by constructor|done]].
  cbn [if_IpAddresses if_Name with_if_Parent]. destruct (omap _ _) as [|e bad]; [|exists h1; split_and!; [done|by constructor|done]].
  destruct (IH Hnd ifs' h1 Hvs1) as (h' & R & Hvs' & Hoth). exists h'.
  destruct (NetworkNode.nodeValidateInterfaces name nodeName ifs') as [rest err]. cbn [fst snd] in *. split_and!; [exact R| |].
  - constructor; [|done]. by eapply is_interface_frame.
  - intros x Hx. rewrite Hoth by (intros ?; apply Hx; by right). by apply Hoth1.
Qed.

(** C20: the sync of a node writes to the informer's store.  The message shares the interfaces with the resource in the store, and
    the validation of the node sets their parents: after the sync the resource of the store, which was to be
    read only, has the interfaces that the validation has made of it; the rest of the store is unchanged. *)
Theorem sync_writes_store name h crd o ls vs ifs :
  wf h -> cells h !! crd = Some (Struct o) -> o !! "NetworkNodeSpec.Interfaces" = Some (Ref (Some ls)) ->
  cells h !! ls = Some (Slice vs) -> Forall2 (is_interface (cells h)) vs ifs -> NoDup vs ->
  wp (sync_and_validate name crd) (fun r h' =>
    r = match snd (NetworkNode.nodeValidateInterfaces name name ifs) with Some e => Err e | None => Ok tt end /\
    Forall2 (is_interface (cells h')) vs (fst (NetworkNode.nodeValidateInterfaces name name ifs)) /\
    forall l y, cells h !! l = Some y -> ~ (Ref (Some l) ∈ vs) -> cells h' !! l = Some y) h.
Proof.
  intros Hwf Ho Hif Hls Hvs Hnd.
  set (h1 := mkHeap (<[next_loc h := Struct o]> (cells h)) (next_loc h + 1)).
  set (h2 := mkHeap (<[next_loc h1 := Struct o]> (cells h1)) (next_loc h1 + 1)).
  assert (forall l y, cells h !! l = Some y -> cells h2 !! l = Some y) as Hsame.
  { intros l y Hl. apply Hwf in Hl as Hlt. cbn. rewrite !lookup_insert_ne by lia. done. }
  assert (CrdToSfcNetworkNode crd h = Done ("NetworkNodeSpec.", next_loc h1) h2) as R1.
  { unfold CrdToSfcNetworkNode, pass, mbnd, heap_read. rewrite Ho. cbn. by rewrite lookup_insert_eq. }
  assert (read_pointers (next_loc h1) ("NetworkNodeSpec." +:+ "Interfaces") h2 = Done vs h2) as R2.
  { unfold read_pointers. rewrite (mbnd_run _ _ (Ref (Some ls)) h2 h2).
    2:{ apply (load_run _ _ _ (Struct o)); [cbn; apply lookup_insert_eq|exact Hif]. }
    cbv beta. rewrite (mbnd_run _ _ (Some ls) h2 h2 eq_refl). unfold mbnd, heap_read. by rewrite (Hsame _ _ Hls). }
  assert (Forall2 (is_interface (cells h2)) vs ifs) as Hvs2.
  { eapply Forall2_impl; [exact Hvs|]. intros v i (l & y & -> & Hy & Hn & Ht & Hp & Ha). exists l, y. split_and!; auto.
    destruct Ha as [?|(la & Ha & Hs)]; [by left|right]. exists la. auto. }
  destruct (validation_writes_through name name vs ifs h2 Hvs2 Hnd) as (h' & R & Hvs' & Hoth).
  eapply wp_run.
  { unfold sync_and_validate. runs R1. cbn [fst snd]. runs R2. exact R. }
  split_and!; [done|done|]. intros l y Hl Hn. rewrite Hoth by done. by apply Hsame.
Qed.

(** ** Witnesses: a node with one interface in the store, and a status that the controller has for it *)
Definition demo_crd : gmap string field :=
  <["TypeMeta.Kind" := str "NetworkNode"]> (<["ObjectMeta.Name" := str "n1"]> (<["ObjectMeta.Labels" := Ref None]>
  (<["NetworkNodeSpec.NodeType" := str "host"]> (<["NetworkNodeSpec.Interfaces" := Ref (Some 3)]> (<["NetworkNodeSpec.L2Bds" := Ref None]>
  (<["NetworkNodeStatus.Status" := str ""]> (<["NetworkNodeStatus.Msg" := Ref None]>
  (<["NetworkNodeStatus.RenderedVppAgentEntries" := Ref None]> {["NetworkNodeStatus.Interfaces" := Ref None]}))))))))
  .

Definition demo_status : gmap string field :=
  <["Status" := str "up"]> (<["Msg" := Ref None]> (<["RenderedVppAgentEntries" := Ref None]> {["Interfaces" := Ref None]})).

Definition demo_store : Objects :=
  mkHeap (list_to_map
    [(0, Struct demo_crd); (3, Slice [Ref (Some 4)]); (4, Struct demo_interface); (5, Slice [str "10.0.0.1/24"]);
     (6, Struct {["RxRingSize" := str ""]}); (7, Struct demo_status)]) 8.

Definition demo_value : Interface := mkInterface "eth0" false "ethernet" "" 0 "" ["10.0.0.1/24"] [] "" None None [] "" "" None None None.

Lemma demo_store_wf : wf demo_store.
Proof.
  intros l o H. apply elem_of_list_to_map_2 in H. cbn. unfold demo_store in H.
  repeat (apply elem_of_cons in H as [H|H]; [injection H as -> _; lia|]). by apply not_elem_of_nil in H.
Qed.

Lemma demo_crd_shaped : shaped (cells demo_store) (Pointer (crd_NetworkNode_fields MetaDataType_fields)) (Ref (Some 0)).
Proof. cbn -[lookup demo_store]. shape. Qed.


(** The interface of the store gets the name of the node as its parent. *)
Lemma sync_writes_store_witness :
  wp (sync_and_validate "n1" 0) (fun r h' => r = Ok tt /\
    Forall2 (is_interface (cells h')) [Ref (Some 4)] [with_if_Parent "n1" demo_value]) demo_store.
Proof.
  eapply wp_conseq.
  - apply (sync_writes_store "n1" demo_store 0 demo_crd 3 [Ref (Some 4)] [demo_value]);
      [apply demo_store_wf|reflexivity|reflexivity|reflexivity| |apply NoDup_singleton].
    constructor; [|constructor]. exists 4, demo_interface. split_and!; [reflexivity..|]. right. exists 5. split; reflexivity.
  - intros r h' (Hr & Hi & _). split; [exact Hr|exact Hi].
Defined.
End K8sObjects.
