(* ===== verification/Workqueue.v ===== *)
(** * The work queue of the Kubernetes controller

    Module Workqueue: the queue of package workqueue (queue.go, delaying_queue.go,
    rate_limitting_queue.go) and of the default rate limiter what counts: how often a key was
    put off.  Keys wait out their delay in [waiting], the channel and the priority queue of
    the delaying queue together; the order and the time of their release are
    left open. *)

From stdpp Require Import gmultiset.
From S2P Require Import Prelude GoStd.

Module Workqueue.

Record Queue : Type := mkQueue {
  queue : list string;
  dirty : gset string;
  processing : gset string;
  shuttingDown : bool;
  waiting : gmultiset string;
  failures : gmap string nat
}.

Definition NewNamedRateLimitingQueue : Queue := mkQueue [] ∅ ∅ false ∅ ∅.

(** [Add] *)
Definition Add (item : string) (q : Queue) : Queue :=
  if shuttingDown q then q
  else if bool_decide (item ∈ dirty q) then q
  else if bool_decide (item ∈ processing q) then
    mkQueue (queue q) ({[item]} ∪ dirty q) (processing q) (shuttingDown q) (waiting q) (failures q)
  else
    mkQueue (queue q ++ [item]) ({[item]} ∪ dirty q) (processing q) (shuttingDown q) (waiting q) (failures q).

(** What a call of [Get] comes back with: it blocks, or gives an item, or says that the
    queue is shut down. *)
Inductive got : Type :=
| Blocks
| Item (item : string) (q : Queue)
| Shutdown.

Definition Get (q : Queue) : got :=
  match queue q with
  | [] => if shuttingDown q then Shutdown else Blocks
  | item :: rest =>
      Item item (mkQueue rest (dirty q ∖ {[item]}) ({[item]} ∪ processing q) (shuttingDown q) (waiting q) (failures q))
  end.

(** [Done] *)
Definition Done_ (item : string) (q : Queue) : Queue :=
  mkQueue (if bool_decide (item ∈ dirty q) then queue q ++ [item] else queue q) (dirty q)
    (processing q ∖ {[item]}) (shuttingDown q) (waiting q) (failures q).

Definition ShutDown (q : Queue) : Queue :=
  mkQueue (queue q) (dirty q) (processing q) true (waiting q) (failures q).

(** [AddRateLimited]: the item is put off; the delay is never 0. *)
Definition AddRateLimited (item : string) (q : Queue) : Queue :=
  if shuttingDown q then
    mkQueue (queue q) (dirty q) (processing q) (shuttingDown q) (waiting q)
      (<[item := S (default 0%nat (failures q !! item))]> (failures q))
  else
    mkQueue (queue q) (dirty q) (processing q) (shuttingDown q) ({[+ item +]} ⊎ waiting q)
      (<[item := S (default 0%nat (failures q !! item))]> (failures q)).

(** [Forget] *)
Definition Forget (item : string) (q : Queue) : Queue :=
  mkQueue (queue q) (dirty q) (processing q) (shuttingDown q) (waiting q) (delete item (failures q)).

Definition NumRequeues (item : string) (q : Queue) : nat := default 0%nat (failures q !! item).

(** The waiting loop releases an item whose delay is over. *)
Definition release (item : string) (q : Queue) : Queue :=
  Add item (mkQueue (queue q) (dirty q) (processing q) (shuttingDown q) (waiting q ∖ {[+ item +]}) (failures q)).

(** [insert]: an item that waits already waits once. *)
Definition insert_waiting (item : string) (q : Queue) : Queue :=
  if bool_decide (item ∈ waiting q ∖ {[+ item +]}) then
    mkQueue (queue q) (dirty q) (processing q) (shuttingDown q) (waiting q ∖ {[+ item +]}) (failures q)
  else q.

(** ** The invariant of the queue

    As the comments of its fields say: what is queued is dirty and not being processed. *)
Record wf_queue (q : Queue) : Prop := {
  wq_once : NoDup (queue q);
  wq_queued : forall k, k ∈ queue q <-> k ∈ dirty q /\ ~ (k ∈ processing q)
}.

Lemma wf_empty : wf_queue NewNamedRateLimitingQueue.
Proof. split; [constructor|]. intros k. cbn. set_solver. Qed.

Lemma wf_same q q' :
  queue q' = queue q -> dirty q' = dirty q -> processing q' = processing q -> wf_queue q -> wf_queue q'.
Proof. intros E1 E2 E3 []. split; by rewrite E1, ?E2, ?E3. Qed.

Lemma wf_Add k q : wf_queue q -> wf_queue (Add k q).
Proof.
  intros Hq. pose proof Hq as [Hn Hk]. unfold Add. destruct (shuttingDown q); [done|].
  case_bool_decide as Hd; [done|]. case_bool_decide as Hp.
  - split; cbn; [done|]. intros k'. rewrite Hk. set_solver.
  - split; cbn.
    + apply NoDup_app. split_and!; [done| |apply NoDup_singleton].
      intros k' [Hk' _]%Hk ->%list_elem_of_singleton. done.
    + intros k'. rewrite elem_of_app, list_elem_of_singleton, Hk. set_solver.
Qed.

Lemma wf_Get k q q' : wf_queue q -> Get q = Item k q' -> wf_queue q' /\ ~ (k ∈ processing q).
Proof.
  intros [Hn Hk] HG. unfold Get in HG. destruct (queue q) as [|k0 rest] eqn:Eq; [by destruct (shuttingDown q)|].
  injection HG as -> <-. apply NoDup_cons in Hn as [Hk0 Hn].
  assert (k ∈ dirty q /\ ~ (k ∈ processing q)) as [Hd Hp] by (apply Hk; left).
  split; [|done]. split; cbn; [done|]. intros k'. specialize (Hk k'). rewrite elem_of_cons in Hk.
  destruct (decide (k' = k)) as [->|Hne]; [set_solver|]. set_solver.
Qed.

Lemma wf_Done k q : k ∈ processing q -> wf_queue q -> wf_queue (Done_ k q).
Proof.
  intros Hp [Hn Hk]. unfold Done_. split; cbn.
  - case_bool_decide; [|done]. apply NoDup_app. split_and!; [done| |apply NoDup_singleton].
    intros k' [_ Hk']%Hk ->%list_elem_of_singleton. done.
  - intros k'. case_bool_decide as Hd.
    + rewrite elem_of_app, list_elem_of_singleton, Hk. destruct (decide (k' = k)) as [->|]; set_solver.
    + rewrite Hk. destruct (decide (k' = k)) as [->|]; set_solver.
Qed.

Lemma wf_release k q : wf_queue q -> wf_queue (release k q).
Proof. intros Hq. apply wf_Add. by eapply wf_same; [..|exact Hq]. Qed.

Lemma wf_insert_waiting k q : wf_queue q -> wf_queue (insert_waiting k q).
Proof. intros Hq. unfold insert_waiting. case_bool_decide; [|done]. by eapply wf_same; [..|exact Hq]. Qed.

Lemma wf_AddRateLimited k q : wf_queue q -> wf_queue (AddRateLimited k q).
Proof. intros Hq. unfold AddRateLimited. destruct (shuttingDown q); by eapply wf_same; [..|exact Hq]. Qed.

Lemma wf_Forget k q : wf_queue q -> wf_queue (Forget k q).
Proof. intros Hq. by eapply wf_same; [..|exact Hq]. Qed.

(** ** What is still to be done for a key *)

Definition due (k : string) (q : Queue) : Prop := k ∈ waiting q \/ k ∈ dirty q.

Lemma due_AddRateLimited k q : shuttingDown q = false -> due k (AddRateLimited k q).
Proof. intros Hs. unfold AddRateLimited. rewrite Hs. left. cbn [waiting]. multiset_solver. Qed.

Lemma due_AddRateLimited_other k k' q : due k q -> due k (AddRateLimited k' q).
Proof.
  intros [H|H]; unfold AddRateLimited; destruct (shuttingDown q); [left|left|right|right]; cbn [waiting dirty]; try done. multiset_solver.
Qed.

Lemma due_Add k k' q : due k q -> due k (Add k' q).
Proof.
  intros H. unfold Add. destruct (shuttingDown q); [done|]. repeat case_bool_decide; try done;
    (destruct H; [by left|right; cbn; set_solver]).
Qed.

Lemma due_release k k' q : shuttingDown q = false -> due k q -> due k (release k' q).
Proof.
  intros Hs Hd. unfold release. destruct (decide (k = k')) as [->|Hne].
  - right. unfold Add. cbn. rewrite Hs. repeat case_bool_decide; cbn; set_solver.
  - apply due_Add. destruct Hd as [H|H]; [left|by right]. cbn [waiting]. multiset_solver.
Qed.

Lemma due_insert_waiting k k' q : due k q -> due k (insert_waiting k' q).
Proof.
  unfold insert_waiting. case_bool_decide as Hin; [|done]. intros [H|H]; [left|by right]. cbn.
  destruct (decide (k = k')) as [->|]; [done|]. multiset_solver.
Qed.

Lemma due_Get k k' q q' : Get q = Item k' q' -> due k q -> k = k' \/ due k q'.
Proof.
  intros HG H. unfold Get in HG. destruct (queue q) as [|k0 rest]; [by destruct (shuttingDown q)|].
  injection HG as -> <-. destruct (decide (k = k')) as [->|]; [by left|right].
  destruct H; [by left|right; cbn; set_solver].
Qed.

Lemma due_Done k k' q : due k q -> due k (Done_ k' q).
Proof. done. Qed.

Lemma due_Forget k k' q : due k q -> due k (Forget k' q).
Proof. done. Qed.

Lemma shuttingDown_Add k q : shuttingDown (Add k q) = shuttingDown q.
Proof. unfold Add. destruct (shuttingDown q) eqn:E; [done|]. repeat case_bool_decide; done. Qed.

Lemma processing_Add k q : processing (Add k q) = processing q.
Proof. unfold Add. destruct (shuttingDown q) eqn:E; [done|]. repeat case_bool_decide; done. Qed.

Lemma processing_insert_waiting k q : processing (insert_waiting k q) = processing q.
Proof. unfold insert_waiting. by case_bool_decide. Qed.

Lemma shuttingDown_insert_waiting k q : shuttingDown (insert_waiting k q) = shuttingDown q.
Proof. unfold insert_waiting. by case_bool_decide. Qed.

End Workqueue.
