(* ===== verification/K8sCrd.v ===== *)
(** * Kubernetes custom resources: plugins/k8scrd

    Module K8sCrd: the conversion of custom resources (ipampool.go, networknode.go,
    networknodeoverlay.go, networkservice.go), the messages they become, the status that is
    written back, and the controller with its informer store, its queues and its
    workers (crd_controller.go) as a step relation.  The four kinds of resources share the
    code of the controller; the step relation is of one kind, whatever it is.

    The API server answers [api_Update]; what it does with an update comes back through the
    informer, as an event. *)

From stdpp Require Import gmultiset.
From S2P Require Import Prelude GoStd Model State IpamPool Overlay NetworkNode ServiceIf NetworkService.
From S2P Require Import Controller Workqueue.

Module K8sCrd.
Import Controller Workqueue.

(** ** types.go: the resources *)
Record ObjectMeta : Type := mkObjectMeta {
  om_Name : string;
  om_Namespace : string;
  om_Labels : gmap string string
}.

Record CrdIpamPool : Type := mkCrdIpamPool {
  cip_Meta : ObjectMeta;
  cip_Spec : IPAMPoolSpec;
  cip_Status : option (gmap string string)
}.

Record CrdNetworkNode : Type := mkCrdNetworkNode {
  cnn_Meta : ObjectMeta;
  cnn_Spec : NetworkNodeSpec;
  cnn_Status : NetworkNodeStatus loc
}.

Record CrdNetworkNodeOverlay : Type := mkCrdNetworkNodeOverlay {
  cno_Meta : ObjectMeta;
  cno_Spec : NetworkNodeOverlaySpec;
  cno_Status : NetworkNodeOverlayStatus
}.

Record CrdNetworkService : Type := mkCrdNetworkService {
  cns_Meta : ObjectMeta;
  cns_Spec : NetworkServiceSpec;
  cns_Status : NetworkServiceStatus loc
}.

(** The metadata of the object the controller gets: the name without the namespace. *)
Definition crd_metadata (m : ObjectMeta) : MetaDataType := mkMeta (om_Name m) (om_Labels m).

(** ** The conversions *)
Definition CrdToSfcIpamPool (crdIP : CrdIpamPool) : IPAMPool :=
  mkIPAMPool (Some (crd_metadata (cip_Meta crdIP))) (Some (cip_Spec crdIP)) (Some (cip_Status crdIP)).

Definition CrdToSfcNetworkNode (crdNN : CrdNetworkNode) : NetworkNode loc :=
  mkNetworkNode (Some (crd_metadata (cnn_Meta crdNN))) (Some (cnn_Spec crdNN)) (Some (cnn_Status crdNN)).

Definition CrdToSfcNetworkNodeOverlay (crdNNO : CrdNetworkNodeOverlay) : NetworkNodeOverlay :=
  mkOverlay (Some (crd_metadata (cno_Meta crdNNO))) (Some (cno_Spec crdNNO)) (Some (cno_Status crdNNO)).

Definition CrdToSfcNetworkService (crdNS : CrdNetworkService) : NetworkService loc :=
  mkNetworkService (Some (crd_metadata (cns_Meta crdNS))) (Some (cns_Spec crdNS)) (Some (cns_Status crdNS)).

(** ** HandleCRDSync: the message that is queued for the controller, if any *)
Definition sync_msg (model : string) (unchanged : bool) (data : MsgData) : option OperationalMsg :=
  if unchanged then None else Some (mkMsg model OperationalMsgOpCodeCreateUpdate data).

Definition HandleCRDSync_IpamPool (crdIP : CrdIpamPool) : M World (option OperationalMsg) :=
  let ip := CrdToSfcIpamPool crdIP in
  let! existing := IpamPool.HandleCRUDOperationR (om_Name (cip_Meta crdIP)) in
  mret (sync_msg ModelTypeIPAMPool
          (match existing with Some e => IpamPool.ConfigEqual e ip | None => false end) (MsgIPAMPool ip)).

Definition HandleCRDSync_NetworkNode (crdNN : CrdNetworkNode) : M World (option OperationalMsg) :=
  let nn := CrdToSfcNetworkNode crdNN in
  let! existing := NetworkNode.HandleCRUDOperationR (om_Name (cnn_Meta crdNN)) in
  mret (sync_msg ModelTypeNetworkNode
          (match existing with Some e => NetworkNode.ConfigEqual e nn | None => false end) (MsgNode nn)).

Definition HandleCRDSync_NetworkNodeOverlay (crdNNO : CrdNetworkNodeOverlay) : M World (option OperationalMsg) :=
  let nno := CrdToSfcNetworkNodeOverlay crdNNO in
  let! existing := Overlay.HandleCRUDOperationR (om_Name (cno_Meta crdNNO)) in
  mret (sync_msg ModelTypeNetworkNodeOverlay
          (match existing with Some e => Overlay.ConfigEqual e nno | None => false end) (MsgOverlay nno)).

Definition HandleCRDSync_NetworkService (crdNS : CrdNetworkService) : M World (option OperationalMsg) :=
  let ns := CrdToSfcNetworkService crdNS in
  let! existing := NetworkService.HandleCRUDOperationR (om_Name (cns_Meta crdNS)) in
  mret (sync_msg ModelTypeNetworkService
          (match existing with Some e => NetworkService.ConfigEqual e ns | None => false end) (MsgService ns)).

(** ** Keys and listers *)

Definition slash : ascii := "/"%char.

(** [cache.MetaNamespaceKeyFunc] *)
Definition MetaNamespaceKeyFunc (m : ObjectMeta) : string :=
  if String.eqb (om_Namespace m) "" then om_Name m else om_Namespace m +:+ "/" +:+ om_Name m.

(** [cache.SplitMetaNamespaceKey]: the namespace and the name; [None] is the error. *)
Definition SplitMetaNamespaceKey (key : string) : option (string * string) :=
  match Split key slash with
  | [name] => Some ("", name)
  | [namespace; name] => Some (namespace, name)
  | _ => None
  end.

(** The errors of the API that the code looks at. *)
Inductive ApiError : Type :=
| NotFound (resource name : string)
| OtherError (e : error).

Definition IsNotFound (e : ApiError) : bool := match e with NotFound _ _ => true | OtherError _ => false end.

(** [Get] of the lister of a namespace. *)
Definition lister_Get {C} (resource : string) (indexer : gmap string C) (namespace name : string) : ApiError + C :=
  match indexer !! (namespace +:+ "/" +:+ name) with
  | None => inl (NotFound resource name)
  | Some obj => inr obj
  end.

(** ** updateStatus: the status of the controller is written to the resource

    What is sent to the API server, and the error that is returned. *)
Record status_update (C : Type) : Type := mkStatusUpdate {
  su_request : option (string * C);
  su_error : option ApiError
}.

Arguments mkStatusUpdate {C}.
Arguments su_request {C} _.
Arguments su_error {C} _.

(** The resource a status is for: the name is split, and the namespace defaulted. *)
Definition status_target (key : string) : option (string * string) :=
  match SplitMetaNamespaceKey key with
  | None => None
  | Some (namespace, name) => Some (if String.eqb namespace "" then "default" else namespace, name)
  end.

Section update.
Context {C : Type} (meta : C -> ObjectMeta) (resource : string) (api_Update : string -> C -> option ApiError).

(** [with_status]: the copy with its status replaced; none when there is no status.
    [ctl] is the store of the controller, nil when the plugin has no kubeconfig. *)
Definition update_status (ctl : option (gmap string C)) (key : string) (with_status : option (C -> C))
  : M World (status_update C) :=
  match status_target key with
  | None => mret (mkStatusUpdate None None)
  | Some (namespace, name) =>
      let! indexer := deref ctl in
      match lister_Get resource indexer namespace name with
      | inl errGet => mret (mkStatusUpdate None (Some errGet))
      | inr crd =>
          match with_status with
          | None => mret (mkStatusUpdate None None)
          | Some f => let copy := f crd in
              mret (mkStatusUpdate (Some (om_Namespace (meta copy), copy)) (api_Update (om_Namespace (meta copy)) copy))
          end
      end
  end.
End update.

Definition updateStatus_IpamPool api ctl (sfc : IPAMPool) : M World (status_update CrdIpamPool) :=
  let! md := deref (ip_Metadata sfc) in
  update_status cip_Meta "ipampool" api ctl (md_Name md)
    ((fun s c => mkCrdIpamPool (cip_Meta c) (cip_Spec c) s) <$> ip_Status sfc).

Definition updateStatus_NetworkNode api ctl (sfc : NetworkNode loc) : M World (status_update CrdNetworkNode) :=
  let! md := deref (nn_Metadata sfc) in
  update_status cnn_Meta "networknode" api ctl (md_Name md)
    ((fun s c => mkCrdNetworkNode (cnn_Meta c) (cnn_Spec c) s) <$> nn_Status sfc).

Definition updateStatus_NetworkNodeOverlay api ctl (sfc : NetworkNodeOverlay)
  : M World (status_update CrdNetworkNodeOverlay) :=
  let! md := deref (nno_Metadata sfc) in
  update_status cno_Meta "networknodeoverlay" api ctl (md_Name md)
    ((fun s c => mkCrdNetworkNodeOverlay (cno_Meta c) (cno_Spec c) s) <$> nno_Status sfc).

Definition updateStatus_NetworkService api ctl (sfc : NetworkService loc)
  : M World (status_update CrdNetworkService) :=
  let! md := deref (ns_Metadata sfc) in
  update_status cns_Meta "networkservice" api ctl (md_Name md)
    ((fun s c => mkCrdNetworkService (cns_Meta c) (cns_Spec c) s) <$> ns_Status sfc).

(** The watchers: one event of the prefix of a kind.  The error of the update is dropped. *)
Inductive watch_event (A : Type) : Type :=
| WatchPut (value : option A) (* [None]: the value does not unmarshal *)
| WatchDelete (key : string).

Arguments WatchPut {A}.
Arguments WatchDelete {A}.

Definition crd_watch {A C} (updateStatus : A -> M World (status_update C)) (ev : watch_event A)
  : M World (option (string * C)) :=
  match ev with
  | WatchPut (Some dbEntry) => let! u := updateStatus dbEntry in mret (su_request u)
  | WatchPut None => mret None
  | WatchDelete _ => mret None
  end.

Definition InitAndRunWatcher_IpamPool api ctl := crd_watch (updateStatus_IpamPool api ctl).

Definition InitAndRunWatcher_NetworkNode api ctl := crd_watch (updateStatus_NetworkNode api ctl).

Definition InitAndRunWatcher_NetworkNodeOverlay api ctl := crd_watch (updateStatus_NetworkNodeOverlay api ctl).

Definition InitAndRunWatcher_NetworkService api ctl := crd_watch (updateStatus_NetworkService api ctl).

(** The registered managers, whose watchers [AfterInit] starts. *)
Definition crd_RegisteredManagers : list string :=
  [ModelTypeIPAMPool; ModelTypeNetworkNodeOverlay; ModelTypeNetworkNode; ModelTypeNetworkService].

(** ** createCRD *)
Record CustomResourceDefinition : Type := mkCRD {
  crd_Name : string;
  crd_Group : string;
  crd_Version : string;
  crd_Kind : string;
  crd_Plural : string
}.

Definition CRDGroupName : string := "sfccontroller.ligato.github.com".

Definition createCRD (kind plural : string) : CustomResourceDefinition :=
  mkCRD (plural +:+ "." +:+ CRDGroupName) CRDGroupName "v1alpha1" kind plural.

(** The definitions [NewController] creates. *)
Definition created_CRDs : list CustomResourceDefinition :=
  [createCRD "IpamPool" "ipampools"; createCRD "NetworkNode" "networknodes";
   createCRD "NetworkNodeOverlay" "networknodeoverlays"; createCRD "NetworkService" "networkservices"].

(** ** The sync handlers *)
Section handler.
Context {C : Type} (resource : string) (HandleCRDSync : C -> M World (option OperationalMsg)).

(** The error that is returned, or the resource that was synced, for which an event is
    recorded, and the message it became. *)
Definition syncHandler (indexer : gmap string C) (key : string)
  : M World (ApiError + option (C * option OperationalMsg)) :=
  match SplitMetaNamespaceKey key with
  | None => mret (inr None)
  | Some (namespace, name) =>
      match lister_Get resource indexer namespace name with
      | inl err => if IsNotFound err then mret (inr None) else mret (inl err)
      | inr crd => let! msg := HandleCRDSync crd in mret (inr (Some (crd, msg)))
      end
  end.
End handler.

Definition syncHandlerIpamPool := syncHandler "ipampool" HandleCRDSync_IpamPool.

Definition syncHandlerNetworkNode := syncHandler "networknode" HandleCRDSync_NetworkNode.

Definition syncHandlerNetworkNodeOverlay := syncHandler "networknodeoverlay" HandleCRDSync_NetworkNodeOverlay.

Definition syncHandlerNetworkService := syncHandler "networkservice" HandleCRDSync_NetworkService.

(** ** The controller of a kind as a state machine

    [Applied]: the informer stores a new version of a resource and notes it for the
    handlers, which [Notified] calls in order; [Deleted]: a resource leaves the store, and no
    handler is registered for that.  The workers run [processNextWorkItem]: they take
    a key ([WorkerGets]), sync what the store then holds ([WorkerSyncs]), and
    are done with the key ([WorkerDone]). *)
Section machine.
Context {C : Type} (meta : C -> ObjectMeta) (resource : string).

Definition key_of (c : C) : string := MetaNamespaceKeyFunc (meta c).

Inductive worker : Type :=
| Idle
| Working (key : string)
| Finished (key : string) (ok : bool)
| Stopped.

Record machine : Type := mkMachine {
  indexer : gmap string C;
  notifications : list C;
  wq : Queue;
  workers : list worker;
  handled : list C (* the calls of HandleCRDSync, the last one first *)
}.

Inductive event : Type :=
| Applied (c : C)
| Deleted (key : string)
| Notified
| Released (key : string)
| Merged (key : string)
| WorkerGets (i : nat)
| WorkerSyncs (i : nat)
| WorkerDone (i : nat)
| ShutsDown.

(** Before anything happened: the worker threads of [Run] are idle. *)
Definition NewController (threadiness : nat) : machine :=
  mkMachine ∅ [] NewNamedRateLimitingQueue (replicate threadiness Idle) [].

(** [Init]: there is a controller, with two workers, only with a kubeconfig. *)
Definition crd_Init (kubeconfig : string) : option machine :=
  if String.eqb kubeconfig "" then None else Some (NewController 2).

(** [enqueueIpamPool] and the others. *)
Definition enqueue (c : C) (q : Queue) : Queue := AddRateLimited (key_of c) q.

(** What [syncHandler] does with a key: whether it returns no error, and the resource it
    hands to the manager. *)
Definition sync_key (store : gmap string C) (key : string) : bool * option C :=
  match SplitMetaNamespaceKey key with
  | None => (true, None)
  | Some (namespace, name) =>
      match lister_Get resource store namespace name with
      | inl err => (IsNotFound err, None)
      | inr c => (true, Some c)
      end
  end.

Definition with_queue (q : Queue) (m : machine) : machine :=
  mkMachine (indexer m) (notifications m) q (workers m) (handled m).

Definition with_worker (i : nat) (s : worker) (m : machine) : machine :=
  mkMachine (indexer m) (notifications m) (wq m) (<[i := s]> (workers m)) (handled m).

(** [None]: the event cannot happen. *)
Definition crd_step (ev : event) (m : machine) : option machine :=
  match ev with
  | Applied c =>
      Some (mkMachine (<[key_of c := c]> (indexer m)) (notifications m ++ [c]) (wq m) (workers m) (handled m))
  | Deleted key => Some (mkMachine (delete key (indexer m)) (notifications m) (wq m) (workers m) (handled m))
  | Notified =>
      match notifications m with
      | [] => None
      | c :: rest => Some (mkMachine (indexer m) rest (enqueue c (wq m)) (workers m) (handled m))
      end
  | Released key => if bool_decide (key ∈ waiting (wq m)) then Some (with_queue (release key (wq m)) m) else None
  | Merged key => Some (with_queue (insert_waiting key (wq m)) m)
  | WorkerGets i =>
      match workers m !! i with
      | Some Idle =>
          match Get (wq m) with
          | Blocks => None
          | Item key q => Some (with_worker i (Working key) (with_queue q m))
          | Shutdown => Some (with_worker i Stopped m)
          end
      | _ => None
      end
  | WorkerSyncs i =>
      match workers m !! i with
      | Some (Working key) =>
          let '(ok, c) := sync_key (indexer m) key in
          Some (with_worker i (Finished key ok)
                  (mkMachine (indexer m) (notifications m) (wq m) (workers m) (option_list c ++ handled m)))
      | _ => None
      end
  | WorkerDone i =>
      match workers m !! i with
      | Some (Finished key ok) =>
          Some (with_worker i Idle (with_queue (Done_ key (if ok then Forget key (wq m) else wq m)) m))
      | _ => None
      end
  | ShutsDown => Some (with_queue (ShutDown (wq m)) m)
  end.

(** The names that Kubernetes admits: a namespace, and no slashes. *)
Definition named (c : C) : Prop :=
  om_Namespace (meta c) <> "" /\ lacks slash (om_Namespace (meta c)) /\ lacks slash (om_Name (meta c)).

(** The states that are reached when the resources are properly named. *)
Inductive reached (n : nat) : machine -> Prop :=
| reached_init : reached n (NewController n)
| reached_step ev m m' :
    reached n m -> (forall c, ev = Applied c -> named c) -> crd_step ev m = Some m' -> reached n m'.
End machine.

Arguments Applied {C}.
Arguments Deleted {C}.
Arguments Notified {C}.
Arguments Released {C}.
Arguments Merged {C}.
Arguments WorkerGets {C}.
Arguments WorkerSyncs {C}.
Arguments WorkerDone {C}.
Arguments ShutsDown {C}.

(** ** Keys *)

Lemma key_roundtrip m :
  om_Namespace m <> "" -> lacks slash (om_Namespace m) -> lacks slash (om_Name m) ->
  SplitMetaNamespaceKey (MetaNamespaceKeyFunc m) = Some (om_Namespace m, om_Name m).
Proof.
  intros Hns Hl1 Hl2. unfold MetaNamespaceKeyFunc, SplitMetaNamespaceKey.
  rewrite (proj2 (String.eqb_neq _ _)) by done.
  change ("/" +:+ om_Name m) with (String.String slash (om_Name m)).
  by rewrite Split_lacks_app, Split_lacks.
Qed.

Section machine_thms.
Context {C : Type} (meta : C -> ObjectMeta) (resource : string).

Abbreviation key_of := (key_of meta).
Abbreviation reached := (reached meta resource).

Lemma sync_key_named store c :
  named meta c -> store !! key_of c = Some c -> sync_key resource store (key_of c) = (true, Some c).
Proof.
  intros (H1 & H2 & H3) Hs. unfold sync_key, key_of. rewrite key_roundtrip by done.
  unfold lister_Get. unfold key_of, MetaNamespaceKeyFunc in Hs. rewrite (proj2 (String.eqb_neq _ _)) in Hs by done.
  by rewrite Hs.
Qed.

(** The lister fails only with "not found", so no sync ever returns an error. *)
Lemma sync_key_ok (store : gmap string C) key : (sync_key resource store key).1 = true.
Proof.
  unfold sync_key. destruct (SplitMetaNamespaceKey key) as [[ns n]|]; [|done].
  unfold lister_Get. by destruct (store !! _).
Qed.

(** The key a worker holds. *)
Definition holds (s : worker) (key : string) : Prop := s = Working key \/ exists ok, s = Finished key ok.

(** The last version handed over for a key. *)
Definition latest (l : list C) (key : string) : option C := head (filter (fun c => key_of c = key) l).

Definition last_handled (m : machine (C := C)) (key : string) : option C := latest (handled m) key.

Definition pending (m : machine (C := C)) (k : string) : Prop :=
  (exists c, c ∈ notifications m /\ key_of c = k) \/ due k (wq m) \/ exists i, workers m !! i = Some (Working k).

Record crd_inv (m : machine (C := C)) : Prop := {
  ci_queue : wf_queue (wq m);
  ci_store : forall k c, indexer m !! k = Some c -> key_of c = k /\ named meta c;
  ci_processing : forall k, k ∈ processing (wq m) <-> exists i s, workers m !! i = Some s /\ holds s k;
  ci_alone : forall i j s t k, workers m !! i = Some s -> workers m !! j = Some t -> holds s k -> holds t k -> i = j;
  ci_due : shuttingDown (wq m) = false ->
    forall k c, indexer m !! k = Some c -> last_handled m k = Some c \/ pending m k
}.

Lemma holds_inj s k k' : holds s k -> holds s k' -> k = k'.
Proof. intros [->|[ok ->]] [H|[ok' H]]; congruence. Qed.

Lemma crd_inv_init n : crd_inv (NewController n).
Proof.
  split; cbn; [apply wf_empty| | | |].
  - intros k c H. by rewrite lookup_empty in H.
  - intros k. split; [by intros ?%elem_of_empty|]. intros (i & s & [-> _]%lookup_replicate & [H|[? H]]); done.
  - intros i j s t k [-> _]%lookup_replicate _ [H|[? H]]; done.
  - intros _ k c H. by rewrite lookup_empty in H.
Qed.

(** The events that touch the queue only, and forget nothing of it. *)
Lemma crd_inv_queue m q :
  crd_inv m -> wf_queue q -> processing q = processing (wq m) ->
  (shuttingDown q = false -> shuttingDown (wq m) = false /\ forall k, due k (wq m) -> due k q) ->
  crd_inv (with_queue q m).
Proof.
  intros [Hq Hs Hp Ha Hd] Hq' Ep Hdue. split; cbn; [done|done|by intros; rewrite Ep|done|].
  intros Hsh k c Hk. destruct (Hdue Hsh) as [Hsh' Hdue']. destruct (Hd Hsh' k c Hk) as [H|[H|[H|H]]]; [by left|right..].
  - by left.
  - right; left. by apply Hdue'.
  - by do 2 right.
Qed.

Lemma crd_inv_applied m c :
  crd_inv m -> named meta c ->
  crd_inv (mkMachine (<[key_of c := c]> (indexer m)) (notifications m ++ [c]) (wq m) (workers m) (handled m)).
Proof.
  intros [Hq Hs Hp Ha Hd] Hn. split; cbn; [done| |done|done|].
  - intros k c' [[<- <-]|[_ Hk]]%lookup_insert_Some; [done|by apply Hs].
  - intros Hsh k c' Hk. destruct (decide (k = key_of c)) as [->|Hne].
    + right; left. exists c. split; [|done]. apply elem_of_app. right; left.
    + rewrite lookup_insert_ne in Hk by done. destruct (Hd Hsh k c' Hk) as [H|[(c2 & Hin & E)|H]]; [by left|right..].
      * left. exists c2. split; [|done]. apply elem_of_app. by left.
      * by right.
Qed.

Lemma crd_inv_deleted m k :
  crd_inv m -> crd_inv (mkMachine (delete k (indexer m)) (notifications m) (wq m) (workers m) (handled m)).
Proof.
  intros [Hq Hs Hp Ha Hd]. split; cbn; [done| |done|done|].
  - intros k' c [_ Hk]%lookup_delete_Some. by apply Hs.
  - intros Hsh k' c [_ Hk]%lookup_delete_Some. by apply Hd.
Qed.

Lemma crd_inv_notified m c rest :
  notifications m = c :: rest -> crd_inv m ->
  crd_inv (mkMachine (indexer m) rest (enqueue meta c (wq m)) (workers m) (handled m)).
Proof.
  intros En [Hq Hs Hp Ha Hd]. unfold enqueue.
  assert (processing (AddRateLimited (key_of c) (wq m)) = processing (wq m)) as Ep.
  { unfold AddRateLimited. by destruct (shuttingDown (wq m)). }
  assert (shuttingDown (AddRateLimited (key_of c) (wq m)) = shuttingDown (wq m)) as Es.
  { unfold AddRateLimited. by destruct (shuttingDown (wq m)) eqn:E. }
  split; cbn; [by apply wf_AddRateLimited|done|by intros; rewrite Ep|done|].
  rewrite Es. intros Hsh k c' Hk. destruct (Hd Hsh k c' Hk) as [H|[(c2 & Hin & E)|[H|H]]]; [by left|right..].
  - rewrite En in Hin. apply elem_of_cons in Hin as [->|Hin]; [|left; by exists c2].
    right; left. rewrite <- E. by apply due_AddRateLimited.
  - right; left. by apply due_AddRateLimited_other.
  - by do 2 right.
Qed.

(** A worker that held nothing takes a key that no one holds. *)
Lemma crd_inv_gets m i key q :
  workers m !! i = Some Idle -> Get (wq m) = Item key q -> crd_inv m ->
  crd_inv (with_worker i (Working key) (with_queue q m)).
Proof.
  intros Hi HG [Hq Hs Hp Ha Hd]. destruct (wf_Get _ _ _ Hq HG) as [Hq' Hnp].
  assert (processing q = {[key]} ∪ processing (wq m) /\ shuttingDown q = shuttingDown (wq m)) as [Ep Es].
  { unfold Get in HG. destruct (queue (wq m)); [by destruct (shuttingDown (wq m))|]. by injection HG as -> <-. }
  assert (forall j s k, workers m !! j = Some s -> holds s k -> k ∈ processing (wq m)) as Hh.
  { intros j s k Hj Hh. apply Hp. by exists j, s. }
  assert (forall j s k, <[i := Working key]> (workers m) !! j = Some s -> holds s k ->
            (j = i /\ k = key) \/ (j <> i /\ workers m !! j = Some s /\ k <> key)) as Hw.
  { intros j s k Hj Hk. destruct (decide (j = i)) as [->|Hne].
    - left. rewrite list_lookup_insert_eq in Hj by (by eapply lookup_lt_Some). injection Hj as <-.
      split; [done|]. destruct Hk as [[= ->]|[? [=]]]. done.
    - right. rewrite list_lookup_insert_ne in Hj by done. split_and!; [done|done|]. intros ->. by apply Hnp, (Hh j s). }
  split; cbn; [done|done| | |].
  - intros k. rewrite Ep, elem_of_union, elem_of_singleton, Hp. split.
    + intros [->|(j & s & Hj & Hk)].
      * exists i, (Working key). split; [|by left]. apply list_lookup_insert_eq. by eapply lookup_lt_Some.
      * exists j, s. split; [|done]. rewrite list_lookup_insert_ne; [done|]. intros ->.
        rewrite Hi in Hj. injection Hj as <-. by destruct Hk as [?|[??]].
    + intros (j & s & Hj & Hk). destruct (Hw j s k Hj Hk) as [[_ ->]|(_ & Hj' & _)]; [by left|right; by exists j, s].
  - intros j j' s t k Hj Hj' Hk Hk'.
    destruct (Hw j s k Hj Hk) as [[-> ->]|(_ & Hj1 & Hk1)], (Hw j' t _ Hj' Hk') as [[-> ?]|(_ & Hj2 & Hk2)]; try done.
    by eapply Ha.
  - rewrite Es. intros Hsh k c Hk. destruct (Hd Hsh k c Hk) as [H|[H|[H|[j H]]]]; [by left|right..].
    + by left.
    + destruct (due_Get _ _ _ _ HG H) as [->|H']; [|by right; left].
      do 2 right. exists i. apply list_lookup_insert_eq. by eapply lookup_lt_Some.
    + do 2 right. exists j. cbn. rewrite list_lookup_insert_ne; [done|]. intros ->. congruence.
Qed.

(** A worker goes on with the key it holds, or holds none before and after. *)
Lemma workers_same (m : machine (C := C)) i s s' :
  workers m !! i = Some s -> (forall k, holds s' k <-> holds s k) ->
  (forall k, (exists j t, <[i := s']> (workers m) !! j = Some t /\ holds t k) <->
             (exists j t, workers m !! j = Some t /\ holds t k)) /\
  ((forall i j s t k, workers m !! i = Some s -> workers m !! j = Some t -> holds s k -> holds t k -> i = j) ->
   forall i0 j s0 t k, <[i := s']> (workers m) !! i0 = Some s0 -> <[i := s']> (workers m) !! j = Some t ->
     holds s0 k -> holds t k -> i0 = j).
Proof.
  intros Hi Hsame.
  assert (forall j t k, <[i := s']> (workers m) !! j = Some t -> holds t k -> exists t', workers m !! j = Some t' /\ holds t' k)
    as Hback.
  { intros j t k Hj Hk. destruct (decide (j = i)) as [->|Hne].
    - rewrite list_lookup_insert_eq in Hj by (by eapply lookup_lt_Some). injection Hj as <-. exists s. by rewrite <- Hsame.
    - rewrite list_lookup_insert_ne in Hj by done. by exists t. }
  split.
  - intros k. split; [intros (j & t & Hj & Hk); destruct (Hback j t k Hj Hk) as (t' & ? & ?); by exists j, t'|].
    intros (j & t & Hj & Hk). destruct (decide (j = i)) as [->|Hne].
    + exists i, s'. split; [apply list_lookup_insert_eq; by eapply lookup_lt_Some|]. apply Hsame. congruence.
    + exists j, t. by rewrite list_lookup_insert_ne.
  - intros Ha i0 j s0 t k H0 Hj Hk0 Hk. destruct (Hback _ _ _ H0 Hk0) as (s1 & H1 & Hk1).
    destruct (Hback _ _ _ Hj Hk) as (t1 & Ht1 & Hkt). by eapply Ha.
Qed.

Lemma latest_cons c l k : latest (c :: l) k = if decide (key_of c = k) then Some c else latest l k.
Proof. unfold latest. rewrite filter_cons. by case_decide. Qed.

(** A sync hands over the version that the store holds. *)
Lemma crd_inv_syncs m i key :
  workers m !! i = Some (Working key) -> crd_inv m ->
  let '(ok, c) := sync_key resource (indexer m) key in
  crd_inv (with_worker i (Finished key ok)
             (mkMachine (indexer m) (notifications m) (wq m) (workers m) (option_list c ++ handled m))).
Proof.
  intros Hi [Hq Hs Hp Ha Hd]. destruct (sync_key resource (indexer m) key) as [ok o] eqn:Esync.
  destruct (workers_same m i (Working key) (Finished key ok) Hi) as [Hw1 Hw2].
  { intros k. split; intros [H|[? H]]; try done.
    - injection H as <- <-. by left.
    - injection H as <-. right. by exists ok. }
  split; cbn; [done|done|intros k; by rewrite Hw1|by apply Hw2|].
  intros Hsh k c Hk. destruct (Hs k c Hk) as [<- Hn].
  assert (forall c', o = Some c' -> key_of c' = key_of c -> c' = c) as Hsame.
  { intros c' -> Hk'. unfold sync_key, lister_Get in Esync.
    destruct (SplitMetaNamespaceKey key) as [[ns n]|]; [|done].
    destruct (indexer m !! (ns +:+ "/" +:+ n)) as [c2|] eqn:E2; [|done]. injection Esync as _ ->.
    destruct (Hs _ _ E2) as [E3 _]. rewrite <- E3, Hk' in E2. congruence. }
  destruct (decide (key_of c = key)) as [<-|Hne].
  - left. rewrite (sync_key_named _ _ Hn Hk) in Esync. injection Esync as <- <-. cbn.
    unfold last_handled. cbn [handled with_worker option_list app]. rewrite latest_cons. by rewrite decide_True.
  - assert (last_handled m (key_of c) = Some c -> last_handled
      (mkMachine (indexer m) (notifications m) (wq m) (<[i := Finished key ok]> (workers m)) (option_list o ++ handled m))
      (key_of c) = Some c) as Hkeep.
    { intros Hl. destruct o as [c'|]; [|done]. change (latest (c' :: handled m) (key_of c) = Some c). rewrite latest_cons. case_decide as Hc; [|done].
      by rewrite (Hsame c' eq_refl Hc). }
    destruct (Hd Hsh _ c Hk) as [H|[H|[H|[j H]]]]; [left; by apply Hkeep|right..].
    + by left.
    + by right; left.
    + do 2 right. exists j. cbn. rewrite list_lookup_insert_ne; [done|]. intros ->. congruence.
Qed.

(** A worker is done with its key. *)
Lemma crd_inv_done m i key ok :
  workers m !! i = Some (Finished key ok) -> crd_inv m ->
  crd_inv (with_worker i Idle (with_queue (Done_ key (if ok then Forget key (wq m) else wq m)) m)).
Proof.
  intros Hi Hm. pose proof Hm as [Hq Hs Hp Ha Hd].
  set (q := if ok then Forget key (wq m) else wq m).
  assert (processing q = processing (wq m) /\ shuttingDown q = shuttingDown (wq m) /\ wf_queue q /\
          forall k, due k (wq m) -> due k q) as (Ep & Es & Hq' & Hdue).
  { unfold q. destruct ok; [|done]. split_and!; [done|done|by apply wf_Forget|done]. }
  assert (key ∈ processing q) as Hkey.
  { rewrite Ep. apply Hp. exists i, (Finished key ok). split; [done|]. right. by exists ok. }
  assert (forall j s k, <[i := Idle]> (workers m) !! j = Some s -> holds s k ->
            j <> i /\ workers m !! j = Some s /\ k <> key) as Hw.
  { intros j s k Hj Hk. destruct (decide (j = i)) as [->|Hne].
    - rewrite list_lookup_insert_eq in Hj by (by eapply lookup_lt_Some). injection Hj as <-. by destruct Hk as [?|[??]].
    - rewrite list_lookup_insert_ne in Hj by done. split_and!; [done|done|]. intros ->. apply Hne.
      eapply Ha; [exact Hj|exact Hi|exact Hk|]. right. by exists ok. }
  split; cbn; [by apply wf_Done|done| | |].
  - intros k. rewrite Ep, elem_of_difference, elem_of_singleton, Hp. split.
    + intros [(j & s & Hj & Hk) Hne]. exists j, s. split; [|done]. rewrite list_lookup_insert_ne; [done|].
      intros ->. apply Hne. rewrite Hi in Hj. injection Hj as <-. destruct Hk as [[=]|[? [= ->]]]. done.
    + intros (j & s & Hj & Hk). destruct (Hw j s k Hj Hk) as (_ & ? & ?). split; [by exists j, s|done].
  - intros j j' s t k Hj Hj' Hk Hk'. destruct (Hw j s k Hj Hk) as (_ & H1 & _), (Hw j' t k Hj' Hk') as (_ & H2 & _).
    by eapply Ha.
  - rewrite Es. intros Hsh k c Hk. destruct (Hd Hsh k c Hk) as [H|[H|[H|[j H]]]]; [by left|right..].
    + by left.
    + right; left. by apply due_Done, Hdue.
    + do 2 right. exists j. cbn. rewrite list_lookup_insert_ne; [done|]. intros ->. congruence.
Qed.

Lemma crd_inv_stops m i :
  workers m !! i = Some Idle -> crd_inv m -> crd_inv (with_worker i Stopped m).
Proof.
  intros Hi [Hq Hs Hp Ha Hd]. destruct (workers_same m i Idle Stopped Hi) as [Hw1 Hw2].
  { intros k. split; intros [H|[? H]]; done. }
  split; cbn; [done|done|intros k; by rewrite Hw1|by apply Hw2|].
  intros Hsh k c Hk. destruct (Hd Hsh k c Hk) as [H|[H|[H|[j H]]]]; [by left|right..].
  - by left.
  - by right; left.
  - do 2 right. exists j. cbn. rewrite list_lookup_insert_ne; [done|]. intros ->. congruence.
Qed.

Lemma crd_inv_step ev m m' :
  crd_inv m -> (forall c, ev = Applied c -> named meta c) -> crd_step meta resource ev m = Some m' -> crd_inv m'.
Proof.
  intros Hm Hn Hs. destruct ev as [c|key| |key|key|i|i|i|]; cbn in Hs.
  - injection Hs as <-. by apply crd_inv_applied; [|apply Hn].
  - injection Hs as <-. by apply crd_inv_deleted.
  - destruct (notifications m) as [|c rest] eqn:E; [done|]. injection Hs as <-. by apply crd_inv_notified.
  - case_bool_decide; [|done]. injection Hs as <-. apply crd_inv_queue; [done|by apply wf_release, ci_queue| |].
    + unfold release. by rewrite processing_Add.
    + unfold release at 1. rewrite shuttingDown_Add. intros Hsh. split; [done|]. intros k. by apply due_release.
  - injection Hs as <-. apply crd_inv_queue; [done|by apply wf_insert_waiting, ci_queue| |].
    + apply processing_insert_waiting.
    + rewrite shuttingDown_insert_waiting. intros Hsh. split; [done|]. intros k. by apply due_insert_waiting.
  - destruct (workers m !! i) as [[]|] eqn:Hi; try done. destruct (Get (wq m)) as [|key q|] eqn:HG; [done| |].
    + injection Hs as <-. by apply crd_inv_gets.
    + injection Hs as <-. by apply crd_inv_stops.
  - destruct (workers m !! i) as [[|key| |]|] eqn:Hi; try done. pose proof (crd_inv_syncs m i key Hi Hm) as H.
    destruct (sync_key resource (indexer m) key) as [ok c]. by injection Hs as <-.
  - destruct (workers m !! i) as [[| |key ok|]|] eqn:Hi; try done. injection Hs as <-. by apply crd_inv_done.
  - injection Hs as <-. apply crd_inv_queue; [done| |done|done]. by eapply wf_same; [..|apply ci_queue].
Qed.

Lemma reached_inv n m : reached n m -> crd_inv m.
Proof. induction 1 as [|ev m m' _ IH Hn Hs]; [apply crd_inv_init|by eapply crd_inv_step]. Qed.

(** A sequence of events. *)
Fixpoint crd_run (evs : list (event (C := C))) (m : machine (C := C)) : option (machine (C := C)) :=
  match evs with
  | [] => Some m
  | ev :: evs => m' ← crd_step meta resource ev m; crd_run evs m'
  end.

Lemma reached_run n evs m m' :
  reached n m -> Forall (fun ev => forall c, ev = Applied c -> named meta c) evs ->
  crd_run evs m = Some m' -> reached n m'.
Proof.
  intros Hm Hn. revert m Hm. induction Hn as [|ev evs Hev _ IH]; intros m Hm Hr; cbn in Hr.
  - by injection Hr as <-.
  - apply bind_Some in Hr as (m1 & H1 & Hr). eapply IH; [|exact Hr]. by eapply reached_step.
Qed.

(** C17: however the events of the informer, the delays and the workers interleave, two
    workers never hold the same key, so no resource is synced by two of them at a time. *)
Theorem one_worker_per_key n m i j s t key :
  reached n m -> workers m !! i = Some s -> workers m !! j = Some t -> holds s key -> holds t key -> i = j.
Proof. intros Hr. apply (ci_alone _ (reached_inv n m Hr)). Qed.

(** Nothing is left to do, and the queue was not shut down. *)
Definition quiescent (m : machine (C := C)) : Prop :=
  notifications m = [] /\ waiting (wq m) = ∅ /\ queue (wq m) = [] /\ shuttingDown (wq m) = false /\
  Forall (fun s => s = Idle) (workers m).

Lemma due_until_read n m k c :
  reached n m -> shuttingDown (wq m) = false -> indexer m !! k = Some c -> last_handled m k = Some c \/ pending m k.
Proof. intros Hr Hsh Hk. exact (ci_due _ (reached_inv n m Hr) Hsh k c Hk). Qed.

Lemma quiescent_synced n m k c :
  reached n m -> shuttingDown (wq m) = false -> indexer m !! k = Some c -> quiescent m -> last_handled m k = Some c.
Proof.
  intros Hr Hsh Hk. pose proof (reached_inv n m Hr) as Hm.
  pose proof (ci_due _ Hm Hsh k c Hk) as Hdue.
  intros (Hn & Hw & Hq & _ & Hidle). rewrite Forall_lookup in Hidle.
  destruct Hdue as [H|[(c' & H & _)|[[H|H]|[i H]]]]; [done| | | |].
  - rewrite Hn in H. by apply not_elem_of_nil in H.
  - rewrite Hw in H. multiset_solver.
  - destruct (decide (k ∈ processing (wq m))) as [Hp|Hnp].
    + apply (ci_processing _ Hm) in Hp as (i & s & Hi & Hh). rewrite (Hidle i s Hi) in Hh. by destruct Hh as [?|[??]].
    + assert (k ∈ queue (wq m)) as Hin by by apply (ci_queue _ Hm).
      rewrite Hq in Hin. by apply not_elem_of_nil in Hin.
  - by apply Hidle in H.
Qed.
(** C15: no version of a resource is lost.  Until the shut-down, a resource whose version in
    the store was not the last one handed to its manager is noted, waits in the queue,
    or is held by a worker that is about to read it; so when nothing is left to do the
    managers have been handed every resource as it is in the store. *)
Theorem no_version_lost n m k c :
  reached n m -> shuttingDown (wq m) = false -> indexer m !! k = Some c ->
  (last_handled m k = Some c \/ pending m k) /\ (quiescent m -> last_handled m k = Some c).
Proof.
  intros Hr Hsh Hk. split; [by eapply due_until_read|by eapply quiescent_synced].
Qed.
End machine_thms.

(** ** The sync handlers and the state machine *)

(** What [syncHandler] does is what the state machine takes it to do; in particular it
    returns no error. *)
Lemma syncHandler_sync_key {C} resource (H : C -> M World (option OperationalMsg)) store key :
  syncHandler resource H store key =
  match snd (sync_key resource store key) with
  | Some c => let! msg := H c in mret (inr (Some (c, msg)))
  | None => mret (inr None)
  end.
Proof.
  unfold syncHandler, sync_key. destruct (SplitMetaNamespaceKey key) as [[ns n]|]; [|done].
  unfold lister_Get. by destruct (store !! _).
Qed.

(** ** A resource becomes one message *)
Section sync.
Context {E : Env}.

(** The message a resource becomes, if any, is handled; then the resource is synced again. *)
Definition sync_twice {C} (sync : C -> M World (option OperationalMsg)) (m : manager) (c : C)
  : M World (option OperationalMsg) :=
  let! msg := sync c in
  match msg with
  | Some msg => mgr_CU m (msg_data msg) ;;; sync c
  | None => sync c
  end.

(** A node of the store after its message was handled: the validation of the node has written the parents of the
    interfaces to it, since the message shares them with the resource ([K8sObjects.sync_writes_store]). *)
Definition written_through (crdNN : CrdNetworkNode) : M World CrdNetworkNode :=
  let! r := NetworkNode.validate (with_nn_Status None (CrdToSfcNetworkNode crdNN)) in
  mret (mkCrdNetworkNode (cnn_Meta crdNN) (default (cnn_Spec crdNN) (nn_Spec (fst r))) (cnn_Status crdNN)).

Definition sync_node_twice (crdNN : CrdNetworkNode) : M World (option OperationalMsg) :=
  let! msg := HandleCRDSync_NetworkNode crdNN in
  match msg with
  | Some msg =>
      let! crdNN' := written_through crdNN in
      mgr_CU MgrNode (msg_data msg) ;;;
      HandleCRDSync_NetworkNode crdNN'
  | None => HandleCRDSync_NetworkNode crdNN
  end.

Lemma validate_node_parts nn w :
  wlp (NetworkNode.validate nn) (fun v _ => nn_Metadata (fst v) = nn_Metadata nn /\ is_Some (nn_Spec (fst v))) w.
Proof.
  unfold NetworkNode.validate, NetworkNode.node_name. wpw. destruct (nn_Spec nn) as [spec|]; [|done]. wpw.
  destruct (nn_Metadata nn) as [md|] eqn:Hmd; [|done]. wpw.
  destruct (NetworkNode.nodeValidateInterfaces _ _ _) as [ifs [e|]]; wpw; [done|].
  apply wlp_any. intros r w'. by wpw.
Qed.

End sync.

(** ** The status goes to the namespace "default" *)

Lemma default_target name : lacks slash name -> status_target name = Some ("default", name).
Proof. intros Hl. unfold status_target, SplitMetaNamespaceKey. by rewrite Split_lacks. Qed.

(** Without a kubeconfig the watchers run all the same, and the first put that they see of
    an object with a name without slashes ends the process. *)
Lemma watcher_without_kubeconfig {C} (meta : C -> ObjectMeta) resource api name ws w :
  lacks slash name ->
  update_status meta resource api (indexer <$> crd_Init (C := C) "") name ws w = Panic.
Proof. intros Hl. unfold update_status. by rewrite default_target. Qed.

(** The status of an object is written to the resource of its name in the namespace
    "default", because the object does not carry the namespace of the resource it comes
    from.  A resource of that namespace gets its status; for a resource [c] of another
    namespace either nothing is written and the error is that nothing was found, or the
    status is written to a different resource, which has the same name. *)
Theorem status_goes_to_default {C} (meta : C -> ObjectMeta) resource api (store : gmap string C) (c : C) (f : C -> C) w :
  (forall k c', store !! k = Some c' -> key_of meta c' = k /\ named meta c') ->
  store !! key_of meta c = Some c -> (forall c', meta (f c') = meta c') ->
  exists u, update_status meta resource api (Some store) (md_Name (crd_metadata (meta c))) (Some f) w = Done u w /\
    if decide (om_Namespace (meta c) = "default") then u = mkStatusUpdate (Some ("default", f c)) (api "default" (f c))
    else u = mkStatusUpdate None (Some (NotFound resource (om_Name (meta c)))) \/
         exists c', c' <> c /\ om_Name (meta c') = om_Name (meta c) /\ om_Namespace (meta c') = "default" /\
           u = mkStatusUpdate (Some ("default", f c')) (api "default" (f c')).
Proof.
  intros Hst Hc Hf. destruct (Hst _ _ Hc) as [_ (Hne & Hl1 & Hl2)]. cbn [crd_metadata md_Name].
  unfold update_status. rewrite default_target by done. unfold mbnd, deref, mret, lister_Get.
  destruct (store !! ("default" +:+ "/" +:+ om_Name (meta c))) as [c'|] eqn:Ec; eexists; (split; [reflexivity|]); case_decide as Hd.
  - unfold key_of, MetaNamespaceKeyFunc in Hc. rewrite (proj2 (String.eqb_neq _ _)), Hd, Ec in Hc by done.
    injection Hc as ->. by rewrite Hf, Hd.
  - destruct (Hst _ _ Ec) as [Ek (Hne' & Hl1' & Hl2')].
    assert (Some (om_Namespace (meta c'), om_Name (meta c')) = Some ("default", om_Name (meta c))) as [= En Em].
    { rewrite <- (key_roundtrip (meta c')) by done. change (MetaNamespaceKeyFunc (meta c')) with (key_of meta c').
      rewrite Ek. by apply (key_roundtrip (mkObjectMeta (om_Name (meta c)) "default" ∅)). }
    right. exists c'. rewrite Hf, En, Em. split_and!; [|done..]. intros ->. done.
  - unfold key_of, MetaNamespaceKeyFunc in Hc. rewrite (proj2 (String.eqb_neq _ _)), Hd, Ec in Hc by done. done.
  - by left.
Qed.

(** ** Witness: a pool changes while a worker is busy with its key *)
Definition demo_pool (ns range : string) : CrdIpamPool :=
  mkCrdIpamPool (mkObjectMeta "p" ns ∅) (mkIPAMPoolSpec IPAMPoolScopeNode range 0 0) None.

Definition demo_events : list (event (C := CrdIpamPool)) :=
  [Applied (demo_pool "ns1" "10.1.0.0/24"); Notified; Released "ns1/p"; WorkerGets 0;
   Applied (demo_pool "ns1" "10.2.0.0/24"); Notified; Released "ns1/p"].

Definition demo_rest : list (event (C := CrdIpamPool)) :=
  [WorkerSyncs 0; WorkerDone 0; WorkerGets 1; WorkerSyncs 1; WorkerDone 1].

Definition demo_machine (evs : list (event (C := CrdIpamPool))) : machine (C := CrdIpamPool) :=
  default (NewController 2) (crd_run cip_Meta "ipampool" evs (NewController 2)).

Lemma demo_reached evs :
  Forall (fun ev => forall c, ev = Applied c -> named cip_Meta c) evs ->
  reached cip_Meta "ipampool" 2 (demo_machine evs).
Proof.
  intros Hn. unfold demo_machine. destruct (crd_run _ _ _ _) as [m|] eqn:E; cbn; [|apply reached_init].
  eapply reached_run; [apply reached_init|exact Hn|exact E].
Qed.

Lemma demo_named : Forall (fun ev => forall c, ev = Applied c -> named cip_Meta c) (demo_events ++ demo_rest).
Proof.
  unfold demo_events, demo_rest. cbn [app].
  repeat (apply Forall_cons_2; [intros c Hc; try discriminate Hc; injection Hc as <-; by repeat split|]).
  apply Forall_nil_2.
Qed.

(** The second worker cannot take the key that the first one holds. *)
Lemma one_worker_per_key_witness :
  workers (demo_machine demo_events) !! 0%nat = Some (Working "ns1/p") /\
  forall j, workers (demo_machine demo_events) !! j = Some (Working "ns1/p") -> 0%nat = j.
Proof.
  split; [vm_compute; reflexivity|]. intros j Hj.
  eapply (one_worker_per_key cip_Meta "ipampool" 2 (demo_machine demo_events) 0 j).
  - apply demo_reached. exact (proj1 (proj1 (Forall_app _ _ _) demo_named)).
  - vm_compute. reflexivity.
  - exact Hj.
  - by left.
  - by left.
Defined.

Lemma no_version_lost_witness :
  last_handled cip_Meta (demo_machine (demo_events ++ demo_rest)) "ns1/p" = Some (demo_pool "ns1" "10.2.0.0/24") /\
  quiescent (demo_machine (demo_events ++ demo_rest)).
Proof.
  assert (quiescent (demo_machine (demo_events ++ demo_rest))) as Hq.
  { unfold quiescent. split_and!; try (vm_compute; reflexivity). vm_compute. repeat constructor. }
  split; [|exact Hq].
  apply (no_version_lost cip_Meta "ipampool" 2 (demo_machine (demo_events ++ demo_rest)) "ns1/p"); [| | |exact Hq].
  - apply demo_reached, demo_named.
  - vm_compute. reflexivity.
  - vm_compute. reflexivity.
Defined.

Definition demo_store : gmap string CrdIpamPool :=
  {["ns1/p" := demo_pool "ns1" "10.1.0.0/24"; "default/p" := demo_pool "default" "10.2.0.0/24"]}.

Lemma status_goes_to_default_witness :
  exists u c', update_status cip_Meta "ipampool" (fun _ _ => None) (Some demo_store) "p" (Some id) initial_world = Done u initial_world /\
    c' <> demo_pool "ns1" "10.1.0.0/24" /\ su_request u = Some ("default", c').
Proof.
  destruct (status_goes_to_default cip_Meta "ipampool" (fun _ _ => None) demo_store
    (demo_pool "ns1" "10.1.0.0/24") id initial_world) as (u & Hu & H).
  - intros k c'. unfold demo_store. rewrite lookup_insert_Some, lookup_singleton_Some.
    intros [[<- <-]|[_ [<- <-]]]; (split; [reflexivity|]); split_and!; try discriminate; reflexivity.
  - reflexivity.
  - done.
  - rewrite decide_False in H by discriminate. exists u. destruct H as [H|(c' & Hne & _ & _ & H)].
    + rewrite H in Hu. vm_compute in Hu. discriminate.
    + exists c'. split; [exact Hu|]. split; [exact Hne|]. by rewrite H.
Defined.
End K8sCrd.
