(* ===== verification/K8sLive.v ===== *)
(** * The Kubernetes controller comes to rest

    Module K8sLive: the events that the controller makes by itself, as opposed to those of
    the API server, use up its work; when none of them is left, nothing is left to do.
    With [K8sCrd.no_version_lost] this makes the managers know every resource once the API
    server leaves them alone. *)

From stdpp Require Import gmultiset.
From S2P Require Import Prelude GoStd Workqueue K8sCrd.

Module K8sLive.
Import Workqueue K8sCrd.

Section live.
Context {C : Type} (meta : C -> ObjectMeta) (resource : string).

Abbreviation machine := (machine (C := C)).
Abbreviation step := (crd_step meta resource).
Abbreviation reached := (reached meta resource).

(** What the controller does by itself; merging an item that waits once only is no event. *)
Definition internal (m : machine) (ev : event (C := C)) : Prop :=
  match ev with
  | Applied _ | Deleted _ | ShutsDown => False
  | Merged key => key ∈ waiting (wq m) ∖ {[+ key +]}
  | _ => True
  end.

Definition weight (s : worker) : nat :=
  match s with Working _ => 3 | Finished _ _ => 2 | Idle => 1 | Stopped => 0 end.

Definition total (l : list worker) : nat := sum_list_with weight l.

(** The work that is left. *)
Definition work (m : machine) : nat :=
  (5 * length (notifications m) + 4 * size (waiting (wq m)) + 3 * size (dirty (wq m)) + total (workers m))%nat.

Lemma total_insert l i s s' :
  l !! i = Some s -> (total (<[i := s']> l) + weight s = total l + weight s')%nat.
Proof.
  revert i. induction l as [|t l IH]; intros [|i] Hi; try done.
  - injection Hi as ->. change (weight s' + total l + weight s = weight s + total l + weight s')%nat. lia.
  - specialize (IH i Hi). change (weight t + total (<[i := s']> l) + weight s = weight t + total l + weight s')%nat. lia.
Qed.

Lemma size_waiting_out k (W : gmultiset string) : k ∈ W -> size W = S (size (W ∖ {[+ k +]})).
Proof.
  intros Hk. apply gmultiset_disj_union_difference' in Hk. rewrite Hk at 1.
  by rewrite gmultiset_size_disj_union, gmultiset_size_singleton.
Qed.

Lemma Add_work k q :
  waiting (Add k q) = waiting q /\ (size (dirty (Add k q)) <= S (size (dirty q)))%nat.
Proof.
  unfold Add. destruct (shuttingDown q); [split; [done|lia]|].
  repeat case_bool_decide; cbn [dirty waiting]; (split; [done|]); [lia| |]; rewrite size_union by set_solver;
    rewrite size_singleton; lia.
Qed.

Lemma AddRateLimited_work k q :
  dirty (AddRateLimited k q) = dirty q /\ (size (waiting (AddRateLimited k q)) <= S (size (waiting q)))%nat.
Proof.
  unfold AddRateLimited. destruct (shuttingDown q); cbn [dirty waiting]; (split; [done|]); [lia|].
  rewrite gmultiset_size_disj_union, gmultiset_size_singleton. lia.
Qed.

Lemma Get_work k q q' :
  wf_queue q -> Get q = Item k q' -> waiting q' = waiting q /\ S (size (dirty q')) = size (dirty q).
Proof.
  intros [_ Hk] HG. unfold Get in HG. destruct (queue q) as [|k0 rest] eqn:Eq; [by destruct (shuttingDown q)|].
  injection HG as -> <-. cbn [dirty waiting]. split; [done|].
  assert (k ∈ dirty q) as Hd by (apply Hk; left).
  rewrite (size_difference (dirty q) {[k]}) by set_solver. rewrite size_singleton.
  assert (size ({[k]} : gset string) <= size (dirty q))%nat by (apply subseteq_size; set_solver).
  rewrite size_singleton in *. lia.
Qed.

Ltac flds := cbn [with_queue with_worker indexer notifications wq workers handled waiting dirty].

(** Every event of its own brings the controller closer to rest. *)
Lemma internal_work n m ev m' :
  reached n m -> internal m ev -> step ev m = Some m' -> (work m' < work m)%nat.
Proof.
  intros Hr Hin Hs. destruct ev as [c|key| |key|key|i|i|i|]; try done; cbn in Hs.
  - destruct (notifications m) as [|c rest] eqn:En; [done|]. injection Hs as <-. unfold work, enqueue. flds. rewrite En.
    destruct (AddRateLimited_work (key_of meta c) (wq m)) as [-> H]. cbn [length]. lia.
  - case_bool_decide as Hk; [|done]. injection Hs as <-. unfold work, release. flds.
    match goal with |- context [Add key ?q] => destruct (Add_work key q) as [-> H] end. cbn [waiting dirty] in H |- *.
    rewrite (size_waiting_out _ _ Hk). lia.
  - injection Hs as <-. unfold work, insert_waiting. cbn [internal] in Hin. flds. rewrite bool_decide_true by done. flds.
    assert (key ∈ waiting (wq m)) as Hk by multiset_solver. rewrite (size_waiting_out _ _ Hk). lia.
  - destruct (workers m !! i) as [[]|] eqn:Hi; try done. destruct (Get (wq m)) as [|key q|] eqn:HG; [done| |].
    + injection Hs as <-. unfold work. flds. destruct (Get_work _ _ _ (ci_queue _ _ (reached_inv _ _ _ _ Hr)) HG) as [-> H].
      pose proof (total_insert _ _ _ (Working key) Hi) as Ht. cbn [weight] in Ht. lia.
    + injection Hs as <-. unfold work. flds. pose proof (total_insert _ _ _ Stopped Hi) as Ht. cbn [weight] in Ht. lia.
  - destruct (workers m !! i) as [[|key| |]|] eqn:Hi; try done.
    destruct (sync_key resource (indexer m) key) as [ok c]. injection Hs as <-. unfold work. flds.
    pose proof (total_insert _ _ _ (Finished key ok) Hi) as Ht. cbn [weight] in Ht. lia.
  - destruct (workers m !! i) as [[| |key ok|]|] eqn:Hi; try done. injection Hs as <-. unfold work. flds.
    pose proof (total_insert _ _ _ Idle Hi) as Ht. cbn [weight] in Ht. destruct ok; cbn [Done_ Forget waiting dirty]; lia.
Qed.

(** Events of its own, one after the other. *)
Inductive internal_run : nat -> machine -> machine -> Prop :=
| run_nil m : internal_run 0 m m
| run_cons l ev m m1 m' :
    internal m ev -> step ev m = Some m1 -> internal_run l m1 m' -> internal_run (S l) m m'.

Lemma internal_not_applied m ev c : internal m ev -> ev = Applied c -> named meta c.
Proof. by intros H ->. Qed.

Lemma internal_run_work n l m m' :
  reached n m -> internal_run l m m' -> (l + work m' <= work m)%nat /\ reached n m'.
Proof.
  intros Hr Hrun. induction Hrun as [m|l ev m m1 m' Hin Hs _ IH]; [done|].
  pose proof (internal_work _ _ _ _ Hr Hin Hs) as Hlt.
  destruct IH as [Hle Hr']; [|split; [lia|done]].
  eapply reached_step; [exact Hr| |exact Hs]. intros c. by apply internal_not_applied with m.
Qed.

(** Until the shut-down all of the [n] workers are at work. *)
Lemma reached_workers n m :
  reached n m -> length (workers m) = n /\ (shuttingDown (wq m) = false -> Forall (fun s => s <> Stopped) (workers m)).
Proof.
  induction 1 as [|ev m m' Hr [Hlen Hst] Hn Hs].
  { cbn. rewrite length_replicate. split; [done|]. intros _. by apply Forall_replicate. }
  destruct ev as [c|key| |key|key|i|i|i|]; cbn in Hs.
  - by injection Hs as <-.
  - by injection Hs as <-.
  - destruct (notifications m); [done|]. injection Hs as <-. cbn. split; [done|]. unfold enqueue, AddRateLimited.
    by destruct (shuttingDown (wq m)).
  - case_bool_decide; [|done]. injection Hs as <-. cbn. unfold release. by rewrite shuttingDown_Add.
  - injection Hs as <-. cbn. by rewrite shuttingDown_insert_waiting.
  - destruct (workers m !! i) as [[]|] eqn:Hi; try done. destruct (Get (wq m)) as [|key q|] eqn:HG; [done| |].
    + injection Hs as <-. cbn. rewrite length_insert. split; [done|]. intros Hsh.
      apply Forall_insert; [|done]. apply Hst. unfold Get in HG.
      destruct (queue (wq m)); [by destruct (shuttingDown (wq m))|]. by injection HG as <- <-.
    + injection Hs as <-. cbn. rewrite length_insert. split; [done|]. intros Hsh. unfold Get in HG.
      rewrite Hsh in HG. by destruct (queue (wq m)).
  - destruct (workers m !! i) as [[|key| |]|] eqn:Hi; try done.
    destruct (sync_key resource (indexer m) key) as [ok c]. injection Hs as <-. cbn. rewrite length_insert.
    split; [done|]. intros Hsh. apply Forall_insert; [|done]. by apply Hst.
  - destruct (workers m !! i) as [[| |key ok|]|] eqn:Hi; try done. injection Hs as <-. cbn. rewrite length_insert.
    split; [done|]. intros Hsh. apply Forall_insert; [|done]. apply Hst. by destruct ok.
  - injection Hs as <-. by split.
Qed.

#[export] Instance idle_dec (s : worker) : Decision (s = Idle).
Proof. destruct s; (by left) || (by right). Defined.

(** What is not idle yet can go on by itself. *)
Lemma worker_progress n m i s :
  reached n m -> shuttingDown (wq m) = false -> workers m !! i = Some s -> s <> Idle ->
  exists ev m', internal m ev /\ step ev m = Some m'.
Proof.
  intros Hr Hsh Hi Hs. destruct (reached_workers _ _ Hr) as [_ Hst]. specialize (Hst Hsh).
  destruct s as [|key|key ok|]; [done| | |by rewrite Forall_lookup in Hst; destruct (Hst i Stopped Hi)].
  - exists (WorkerSyncs i). cbn. rewrite Hi. destruct (sync_key resource (indexer m) key). by eexists.
  - exists (WorkerDone i). cbn. rewrite Hi. by eexists.
Qed.

Lemma progress n m :
  reached (S n) m -> shuttingDown (wq m) = false ->
  quiescent m \/ exists ev m', internal m ev /\ step ev m = Some m'.
Proof.
  intros Hr Hsh. destruct (reached_workers _ _ Hr) as [Hlen _].
  destruct (decide (Forall (fun s => s = Idle) (workers m))) as [Hall|Hbusy].
  2: { right. apply not_Forall_Exists in Hbusy; [|apply _]. apply Exists_exists in Hbusy as (s & Hin & Hs).
    apply list_elem_of_lookup_1 in Hin as [i Hi]. by eapply worker_progress. }
  destruct (notifications m) as [|c rest] eqn:En; [|right; exists Notified; cbn; rewrite En; by eexists].
  destruct (decide (waiting (wq m) = ∅)) as [Ew|Hne].
  - destruct (queue (wq m)) as [|k q] eqn:Eq; [by left; split_and!|right].
    exists (WorkerGets 0). cbn. destruct (workers m) as [|s ws] eqn:Ew'; [done|]. apply Forall_cons in Hall as [-> _].
    cbn. unfold Get. rewrite Eq. by eexists.
  - right. apply gmultiset_choose in Hne as [k Hk]. exists (Released k). cbn. rewrite bool_decide_true by done. by eexists.
Qed.

(** C16: left alone by the API server, the controller comes to rest.  From any state it
    reaches, with at least one worker, it makes at most [work m] steps of its own,
    however they interleave; and before the shut-down, as long as some resource was not
    handed to its manager as it is in the store, it can make another one.  It stops, then,
    and it stops where the managers were handed every resource. *)
Theorem controller_comes_to_rest n m l m' :
  reached (S n) m -> internal_run l m m' ->
  (l <= work m)%nat /\
  (shuttingDown (wq m') = false ->
     (exists ev m'', internal m' ev /\ step ev m' = Some m'') \/
     forall k c, indexer m' !! k = Some c -> last_handled meta m' k = Some c).
Proof.
  intros Hr Hrun. destruct (internal_run_work _ _ _ _ Hr Hrun) as [Hle Hr']. split; [lia|].
  intros Hsh. destruct (progress _ _ Hr' Hsh) as [Hq|Hp]; [right|by left].
  intros k c Hk. by eapply quiescent_synced.
Qed.
End live.

(** ** Witness: a pool changes while a worker is busy with its key *)
Ltac demo_step k :=
  refine (run_cons _ _ _ (default Notified (demo_rest !! k)) _
    (demo_machine (demo_events ++ firstn (S k) demo_rest)) _ _ _ _);
  [exact I|vm_compute; reflexivity|].

Lemma controller_comes_to_rest_witness :
  internal_run cip_Meta "ipampool" 5 (demo_machine demo_events) (demo_machine (demo_events ++ demo_rest)) /\
  (5 <= work (demo_machine demo_events))%nat.
Proof.
  assert (internal_run cip_Meta "ipampool" 5 (demo_machine demo_events) (demo_machine (demo_events ++ demo_rest))) as Hrun.
  { demo_step 0%nat. demo_step 1%nat. demo_step 2%nat. demo_step 3%nat. demo_step 4%nat. apply run_nil. }
  split; [exact Hrun|].
  apply (controller_comes_to_rest cip_Meta "ipampool" 1 _ 5 _ (demo_reached demo_events (proj1 (proj1 (Forall_app _ _ _) demo_named))) Hrun).
Defined.
End K8sLive.
