(* ===== verification/Clients.v ===== *)
(** * The clients and listers of the custom resources: plugins/k8scrd/pkg/client

    Module Clients: the requests that the typed clients make (clientset/versioned/typed/sfccontroller/v1alpha1), with the builder of
    client-go they use (vendor/k8s.io/client-go/rest/request.go), and the listers on the informer's store
    (listers/sfccontroller/v1alpha1).  The server, the encoding of objects and of options are parameters. *)

From stdpp Require Import gmap.
From S2P Require Import Prelude GoStd Model K8sCrd.

Module Clients.
Import K8sCrd.

(** ** package path *)

(** A component on the stack of the components so far, the last one first. *)
Definition clean_step (rooted : bool) (out : list string) (c : string) : list string :=
  if String.eqb c "" || String.eqb c "." then out
  else if String.eqb c ".." then
    match out with
    | x :: out' => if String.eqb x ".." then c :: out else out'
    | [] => if rooted then [] else [c]
    end
  else c :: out.

Definition Clean (p : string) : string :=
  if String.eqb p "" then "."
  else
    let rooted := String.prefix "/" p in
    let out := rev (foldl (clean_step rooted) [] (Split p slash)) in
    if rooted then "/" +:+ String.concat "/" out
    else match out with [] => "." | _ => String.concat "/" out end.

Fixpoint Join (elem : list string) : string :=
  match elem with
  | [] => ""
  | e :: rest => if String.eqb e "" then Join rest else Clean (String.concat "/" elem)
  end.

(** ** rest/request.go *)

(** The errors, with what their texts are made of. *)
Inductive request_error : Type :=
| AlreadySet (what old new : string)
| Invalid (what name : string) (msgs : list string)
| EmptyName
| EmptyNamespace
| EmptyNamespaceCreation
| NotEncoded (e : error).

Definition Values : Type := gmap string (list string).

Record Request : Type := mkRequest {
  verb : string;
  pathPrefix : string;
  params : Values;
  headers : Values;
  namespace : string;
  namespaceSet : bool;
  resource : string;
  resourceName : string;
  subresource : string;
  body : option string;
  err : option request_error
}.

Definition with_params v r := mkRequest (verb r) (pathPrefix r) v (headers r) (namespace r) (namespaceSet r) (resource r) (resourceName r) (subresource r) (body r) (err r).

Definition with_headers v r := mkRequest (verb r) (pathPrefix r) (params r) v (namespace r) (namespaceSet r) (resource r) (resourceName r) (subresource r) (body r) (err r).

Definition with_namespace v r := mkRequest (verb r) (pathPrefix r) (params r) (headers r) v true (resource r) (resourceName r) (subresource r) (body r) (err r).

Definition with_resource v r := mkRequest (verb r) (pathPrefix r) (params r) (headers r) (namespace r) (namespaceSet r) v (resourceName r) (subresource r) (body r) (err r).

Definition with_resourceName v r := mkRequest (verb r) (pathPrefix r) (params r) (headers r) (namespace r) (namespaceSet r) (resource r) v (subresource r) (body r) (err r).

Definition with_subresource v r := mkRequest (verb r) (pathPrefix r) (params r) (headers r) (namespace r) (namespaceSet r) (resource r) (resourceName r) v (body r) (err r).

Definition with_body v r := mkRequest (verb r) (pathPrefix r) (params r) (headers r) (namespace r) (namespaceSet r) (resource r) (resourceName r) (subresource r) (Some v) (err r).

Definition with_err e r := mkRequest (verb r) (pathPrefix r) (params r) (headers r) (namespace r) (namespaceSet r) (resource r) (resourceName r) (subresource r) (body r) (Some e).

(** [if r.err != nil { return r }] *)
Definition unless_err (k : Request -> Request) (r : Request) : Request :=
  match err r with Some _ => r | None => k r end.

Definition NameMayNotBe : list string := ["."; ".."].

Definition NameMayNotContain : list ascii := ["/"%char; "%"%char].

Definition IsValidPathSegmentName (name : string) : list string :=
  match filter (fun illegal => name = illegal) NameMayNotBe with
  | illegal :: _ => ["may not be '" +:+ illegal +:+ "'"]
  | [] => (fun c => "may not contain '" +:+ String.String c "" +:+ "'") <$> filter (fun c => Is_true (ContainsByte name c)) NameMayNotContain
  end.

Definition SetHeader (key : string) (values : list string) (r : Request) : Request :=
  with_headers (match values with [] => delete key (headers r) | _ => <[key := values]> (headers r) end) r.

Definition Namespace (ns : string) : Request -> Request :=
  unless_err (fun r =>
    if namespaceSet r then with_err (AlreadySet "namespace" (namespace r) ns) r
    else match IsValidPathSegmentName ns with
         | [] => with_namespace ns r
         | msgs => with_err (Invalid "namespace" ns msgs) r
         end).

Definition Resource (res : string) : Request -> Request :=
  unless_err (fun r =>
    if negb (String.eqb (resource r) "") then with_err (AlreadySet "resource" (resource r) res) r
    else match IsValidPathSegmentName res with
         | [] => with_resource res r
         | msgs => with_err (Invalid "resource" res msgs) r
         end).

Definition Name (name : string) : Request -> Request :=
  unless_err (fun r =>
    if String.eqb name "" then with_err EmptyName r
    else if negb (String.eqb (resourceName r) "") then with_err (AlreadySet "resource name" (resourceName r) name) r
    else match IsValidPathSegmentName name with
         | [] => with_resourceName name r
         | msgs => with_err (Invalid "resource name" name msgs) r
         end).

Definition SubResource (subresources : list string) : Request -> Request :=
  unless_err (fun r =>
    let sub := Join subresources in
    if negb (String.eqb (subresource r) "") then with_err (AlreadySet "subresource" (resource r) sub) r
    else match filter (fun s => IsValidPathSegmentName s <> []) subresources with
         | s :: _ => with_err (Invalid "subresource" s (IsValidPathSegmentName s)) r
         | [] => with_subresource sub r
         end).

(** [encoded]: the options as parameters of the query. *)
Definition VersionedParams (encoded : error + Values) : Request -> Request :=
  unless_err (fun r =>
    match encoded with
    | inl e => with_err (NotEncoded e) r
    | inr ps => with_params (union_with (fun old new => Some (old ++ new)) (params r) ps) r
    end).

(** The arguments of [Body] that are used: an object, encoded, or nil; and bytes. *)
Inductive body_arg : Type :=
| BodyObject (encoded : option (error + string))
| BodyBytes (data : string).

Definition Body (ContentType : string) (obj : body_arg) : Request -> Request :=
  unless_err (fun r =>
    match obj with
    | BodyBytes data => with_body data r
    | BodyObject None => r
    | BodyObject (Some (inl e)) => with_err (NotEncoded e) r
    | BodyObject (Some (inr data)) => SetHeader "Content-Type" [ContentType] (with_body data r)
    end).

Definition lower_byte (c : ascii) : ascii :=
  let n := nat_of_ascii c in if (65 <=? n)%nat && (n <=? 90)%nat then ascii_of_nat (n + 32) else c.

(** [strings.ToLower] of a string of ASCII bytes. *)
Definition ToLower (s : string) : string := of_bytes (lower_byte <$> bytes_of s).

(** The path of [URL]. *)
Definition URL (r : Request) : string :=
  let p := pathPrefix r in
  let p := if namespaceSet r && negb (String.eqb (namespace r) "") then Join [p; "namespaces"; namespace r] else p in
  let p := if String.eqb (resource r) "" then p else Join [p; ToLower (resource r)] in
  if String.eqb (resourceName r) "" && String.eqb (subresource r) "" then p
  else Join [p; resourceName r; subresource r; ""].

(** What goes to the server. *)
Record sent : Type := mkSent {
  st_verb : string;
  st_path : string;
  st_query : Values;
  st_headers : Values;
  st_body : option string
}.

Definition request (r : Request) : request_error + sent :=
  match err r with
  | Some e => inl e
  | None =>
      if (String.eqb (verb r) "GET" || String.eqb (verb r) "PUT" || String.eqb (verb r) "DELETE") &&
         namespaceSet r && negb (String.eqb (resourceName r) "") && String.eqb (namespace r) "" then inl EmptyNamespace
      else if String.eqb (verb r) "POST" && namespaceSet r && String.eqb (namespace r) "" then inl EmptyNamespaceCreation
      else inr (mkSent (verb r) (URL r) (params r) (headers r) (body r))
  end.

(** ** rest/client.go *)
Record RESTClient : Type := mkRESTClient {
  base_Path : string;
  versionedAPIPath : string;
  AcceptContentTypes : string;
  ContentType : string
}.

Definition NewRESTClient (basePath apiPath acceptContentTypes contentType : string) : RESTClient :=
  mkRESTClient (if bool_decide (last (bytes_of basePath) = Some slash) then basePath else basePath +:+ "/") apiPath acceptContentTypes
    (if String.eqb contentType "" then "application/json" else contentType).

Definition NewRequest (c : RESTClient) (verb : string) : Request :=
  let pathPrefix := Join ["/"; base_Path c] in
  let r := mkRequest verb (Join [pathPrefix; versionedAPIPath c]) ∅ ∅ "" false "" "" "" None None in
  if negb (String.eqb (AcceptContentTypes c) "") then SetHeader "Accept" [AcceptContentTypes c] r
  else if negb (String.eqb (ContentType c) "") then SetHeader "Accept" [ContentType c +:+ ", */*"] r
  else r.

(** [DefaultVersionedAPIPath] of rest/url_utils.go. *)
Definition DefaultVersionedAPIPath (apiPath group version : string) : string :=
  let p := Join ["/"; apiPath] in
  if negb (String.eqb group "") then Join [p; group; version] else Join [p; version].

(** ** sfccontroller_client.go *)

(** The part of the configuration that requests depend on; [cf_Path] is the path of the host. *)
Record Config : Type := mkConfig {
  cf_Path : string;
  cf_APIPath : string;
  cf_GroupVersion : option (string * string);
  cf_UserAgent : string;
  cf_AcceptContentTypes : string;
  cf_ContentType : string
}.

(** register.go: [SchemeGroupVersion] *)
Definition SchemeGroupVersion : string * string := ("sfccontroller.ligato.github.com", "v1alpha1").

Definition setConfigDefaults (DefaultKubernetesUserAgent : string) (config : Config) : Config :=
  mkConfig (cf_Path config) "/apis" (Some SchemeGroupVersion)
    (if String.eqb (cf_UserAgent config) "" then DefaultKubernetesUserAgent else cf_UserAgent config)
    (cf_AcceptContentTypes config) (cf_ContentType config).

(** [rest.RESTClientFor]; [transport]: the error of what it makes of the rest of the configuration. *)
Definition RESTClientFor (transport : Config -> option error) (config : Config) : error + RESTClient :=
  match cf_GroupVersion config with
  | None => inl "GroupVersion is required when initializing a RESTClient"
  | Some (group, version) =>
      match transport config with
      | Some e => inl e
      | None => inr (NewRESTClient (cf_Path config) (DefaultVersionedAPIPath (cf_APIPath config) group version)
                       (cf_AcceptContentTypes config) (cf_ContentType config))
      end
  end.

Definition NewForConfig (userAgent : string) (transport : Config -> option error) (c : Config) : error + RESTClient :=
  RESTClientFor transport (setConfigDefaults userAgent c).

(** ** The typed clients *)
Record ListOptions : Type := mkListOptions {
  LabelSelector : string;
  FieldSelector : string;
  IncludeUninitialized : bool;
  Watch_ : bool;
  ResourceVersion : string;
  TimeoutSeconds : option Z;
  Limit : Z;
  Continue : string
}.

Definition with_Watch (o : ListOptions) : ListOptions :=
  mkListOptions (LabelSelector o) (FieldSelector o) (IncludeUninitialized o) true (ResourceVersion o) (TimeoutSeconds o) (Limit o) (Continue o).

(** [IpamPools], [NetworkNodes], [NetworkNodeOverlays], [NetworkServices]: the client of a kind in a namespace. *)
Record TypedClient : Type := mkTypedClient {
  tc_plural : string;
  tc_client : RESTClient;
  tc_ns : string
}.

Definition IpamPools (c : RESTClient) (ns : string) : TypedClient := mkTypedClient "ipampools" c ns.

Definition NetworkNodes (c : RESTClient) (ns : string) : TypedClient := mkTypedClient "networknodes" c ns.

Definition NetworkNodeOverlays (c : RESTClient) (ns : string) : TypedClient := mkTypedClient "networknodeoverlays" c ns.

Definition NetworkServices (c : RESTClient) (ns : string) : TypedClient := mkTypedClient "networkservices" c ns.

(** Their methods: the requests that they make. *)
Section methods.
Context (t : TypedClient).

(** [c.client.Get().Namespace(c.ns).Resource("..")] *)
Definition start (r : Request) : Request := Resource (tc_plural t) (Namespace (tc_ns t) r).

Definition content (obj : body_arg) : Request -> Request := Body (ContentType (tc_client t)) obj.

Definition Get (name : string) (options : error + Values) : Request :=
  VersionedParams options (Name name (start (NewRequest (tc_client t) "GET"))).

Definition List (encode : ListOptions -> error + Values) (opts : ListOptions) : Request :=
  VersionedParams (encode opts) (start (NewRequest (tc_client t) "GET")).

Definition Watch (encode : ListOptions -> error + Values) (opts : ListOptions) : Request :=
  let opts := with_Watch opts in
  VersionedParams (encode opts) (start (NewRequest (tc_client t) "GET")).

Definition Create (obj : option (error + string)) : Request :=
  content (BodyObject obj) (start (NewRequest (tc_client t) "POST")).

(** [obj]: the name of the object, and the object, encoded; nil has no name. *)
Definition Update (obj : option (string * (error + string))) : option Request :=
  match obj with
  | None => None
  | Some (name, encoded) => Some (content (BodyObject (Some encoded)) (Name name (start (NewRequest (tc_client t) "PUT"))))
  end.

Definition Delete (name : string) (options : option (error + string)) : Request :=
  content (BodyObject options) (Name name (start (NewRequest (tc_client t) "DELETE"))).

Definition DeleteCollection (encode : ListOptions -> error + Values) (options : option (error + string)) (listOptions : ListOptions) : Request :=
  content (BodyObject options) (VersionedParams (encode listOptions) (start (NewRequest (tc_client t) "DELETE"))).

Definition Patch (name pt data : string) (subresources : list string) : Request :=
  content (BodyBytes data) (Name name (SubResource subresources (start
    (SetHeader "Content-Type" [pt] (NewRequest (tc_client t) "PATCH"))))).
End methods.

(** What a client is used through. *)
Record ClientInterface : Type := mkClientInterface {
  i_Get : string -> error + Values -> Request;
  i_List : (ListOptions -> error + Values) -> ListOptions -> Request;
  i_Watch : (ListOptions -> error + Values) -> ListOptions -> Request;
  i_Create : option (error + string) -> Request;
  i_Update : option (string * (error + string)) -> option Request;
  i_Delete : string -> option (error + string) -> Request;
  i_DeleteCollection : (ListOptions -> error + Values) -> option (error + string) -> ListOptions -> Request;
  i_Patch : string -> string -> string -> list string -> Request
}.

Definition interface_of (t : TypedClient) : ClientInterface :=
  mkClientInterface (Get t) (List t) (Watch t) (Create t) (Update t) (Delete t) (DeleteCollection t) (Patch t).

Definition IpamPoolInterface (c : RESTClient) (ns : string) : ClientInterface := interface_of (IpamPools c ns).

Definition NetworkNodeInterface (c : RESTClient) (ns : string) : ClientInterface := interface_of (NetworkNodes c ns).

Definition NetworkNodeOverlayInterface (c : RESTClient) (ns : string) : ClientInterface := interface_of (NetworkNodeOverlays c ns).

Definition NetworkServiceInterface (c : RESTClient) (ns : string) : ClientInterface := interface_of (NetworkServices c ns).

(** ** The listers *)
Section listers.
Context {C : Type} (meta : C -> ObjectMeta).

(** The order in which a store lists its objects. *)
Context (order : list C -> list C).

(** The objects of a store, and those that its index knows for a namespace; [None]: it has no such index. *)
Definition store_List (indexer : gmap string C) : list C := order (map_to_list indexer).*2.

Definition store_Index (has_index : bool) (indexer : gmap string C) (ns : string) : option (list C) :=
  if has_index then Some (order (filter (fun c => om_Namespace (meta c) = ns) (map_to_list indexer).*2)) else None.

(** [ListAll] and [ListAllByNamespace] of client-go; [selector]: the labels that are asked for. *)
Definition ListAll (selector : gmap string string -> bool) (indexer : gmap string C) : list C :=
  filter (fun c => Is_true (selector (om_Labels (meta c)))) (store_List indexer).

Definition ListAllByNamespace (has_index : bool) (selector : gmap string string -> bool) (indexer : gmap string C) (ns : string) : list C :=
  if String.eqb ns "" then ListAll selector indexer
  else
    match store_Index has_index indexer ns with
    | None => filter (fun c => om_Namespace (meta c) = ns /\ Is_true (selector (om_Labels (meta c)))) (store_List indexer)
    | Some items => filter (fun c => Is_true (selector (om_Labels (meta c)))) items
    end.

(** [List] of the lister of all namespaces, and of the one of a namespace. *)
Definition lister_List : (gmap string string -> bool) -> gmap string C -> list C := ListAll.

Definition namespace_lister_List : bool -> (gmap string string -> bool) -> gmap string C -> string -> list C := ListAllByNamespace.

(** A lister with those of the namespaces: [List], and [List] and [Get] of a namespace. *)
Record Lister : Type := mkLister {
  l_List : (gmap string string -> bool) -> list C;
  l_namespace_List : string -> (gmap string string -> bool) -> list C;
  l_namespace_Get : string -> string -> ApiError + C
}.

Definition NewLister (res : string) (has_index : bool) (indexer : gmap string C) : Lister :=
  mkLister (fun selector => lister_List selector indexer) (fun ns selector => namespace_lister_List has_index selector indexer ns)
    (lister_Get res indexer).
End listers.

Definition NewIpamPoolLister order := NewLister cip_Meta order "ipampool".

Definition NewNetworkNodeLister order := NewLister cnn_Meta order "networknode".

Definition NewNetworkNodeOverlayLister order := NewLister cno_Meta order "networknodeoverlay".

Definition NewNetworkServiceLister order := NewLister cns_Meta order "networkservice".

(** ** Paths *)

(** The components of a path, and the path of components. *)
Definition comps (p : string) : list string := filter (fun c => c <> "") (Split p slash).

Definition abs (l : list string) : string := "/" +:+ String.concat "/" l.

Definition plain (s : string) : Prop := s <> "" /\ IsValidPathSegmentName s = [].

Lemma plain_name s : plain s -> s <> "" /\ lacks slash s /\ s <> "." /\ s <> "..".
Proof.
  unfold plain, IsValidPathSegmentName, NameMayNotBe, NameMayNotContain. intros [Hs H]. split; [done|].
  destruct (decide (s = ".")) as [->|H1]; [discriminate H|]. destruct (decide (s = "..")) as [->|H2]; [discriminate H|].
  rewrite !filter_cons_False, filter_nil in H by done. split; [|done]. apply fmap_nil_inv in H.
  destruct (decide (Is_true (ContainsByte s "/"%char))) as [Hc|Hc]; [rewrite filter_cons_True in H by exact Hc; discriminate H|].
  unfold lacks, slash. unfold ContainsByte in Hc. destruct (byte_index _ s); [|done]. by destruct Hc.
Qed.

Lemma split_bytes_app l l' cur : split_bytes slash (l ++ slash :: l') cur = split_bytes slash l cur ++ split_bytes slash l' [].
Proof. revert cur. induction l as [|c l IH]; intros cur; [done|]. cbn [app split_bytes]. destruct (Ascii.eqb c slash); cbn; by rewrite IH. Qed.

Lemma comps_app a b : comps (a +:+ String.String slash b) = comps a ++ comps b.
Proof. unfold comps, Split. rewrite bytes_of_app. cbn. by rewrite split_bytes_app, filter_app. Qed.

Lemma comps_plain s : plain s -> comps s = [s].
Proof. intros (H & Hl & _)%plain_name. unfold comps. by rewrite Split_lacks, filter_cons_True by done. Qed.

Lemma comps_rooted s : comps ("/" +:+ s) = comps s.
Proof. apply (comps_app ""). Qed.

Lemma comps_concat l : comps (String.concat "/" l) = mjoin (comps <$> l).
Proof.
  induction l as [|x l IH]; [done|]. destruct l as [|y l]; [cbn; by rewrite app_nil_r|].
  change (String.concat "/" (x :: y :: l)) with (x +:+ String.String slash (String.concat "/" (y :: l))).
  rewrite comps_app, IH. done.
Qed.

Lemma comps_plains l : Forall plain l -> mjoin (comps <$> l) = l.
Proof. induction 1 as [|x l Hx _ IH]; [done|]. cbn. rewrite comps_plain by done. cbn. by f_equal. Qed.

Lemma comps_abs l : Forall plain l -> comps (abs l) = l.
Proof. intros H. unfold abs. rewrite comps_rooted, comps_concat. by apply comps_plains. Qed.

Lemma clean_comps out l : Forall plain (filter (fun c => c <> "") l) ->
  foldl (clean_step true) out l = rev (filter (fun c => c <> "") l) ++ out.
Proof.
  revert out. induction l as [|c l IH]; intros out H; [done|]. cbn [foldl]. destruct (decide (c = "")) as [->|Hc].
  - rewrite filter_cons_False in * by (intros H'; by apply H'). by rewrite IH.
  - rewrite filter_cons_True in * by done. apply Forall_cons_1 in H as [(_ & _ & H1 & H2)%plain_name H]. rewrite IH by done.
    unfold clean_step. rewrite !(proj2 (String.eqb_neq _ _)) by done. cbn. by rewrite <- app_assoc.
Qed.

Lemma Clean_rooted p : String.prefix "/" p = true -> Forall plain (comps p) -> Clean p = abs (comps p).
Proof.
  intros Hp H. unfold Clean. rewrite Hp. destruct (String.eqb_spec p "") as [->|_]; [done|].
  rewrite (clean_comps [] _ H), app_nil_r, rev_involutive. done.
Qed.

Lemma slash_first a p : String.prefix "/" (String.String a p) = true -> a = slash.
Proof. cbn -[Ascii.ascii_dec]. by destruct (Ascii.ascii_dec "/" a). Qed.

Lemma Join_rooted p l : String.prefix "/" p = true -> Forall plain (mjoin (comps <$> p :: l)) ->
  Join (p :: l) = abs (mjoin (comps <$> p :: l)).
Proof.
  intros Hp H. rewrite <- comps_concat in *. cbn [Join]. destruct (String.eqb_spec p "") as [->|_]; [done|].
  apply Clean_rooted; [|done]. destruct l as [|y l]; [done|].
  change (String.concat "/" (p :: y :: l)) with (p +:+ ("/" +:+ String.concat "/" (y :: l))).
  destruct p as [|a p]; [done|]. apply slash_first in Hp as ->. apply (prefix_app "/").
Qed.

Lemma abs_rooted l : String.prefix "/" (abs l) = true.
Proof. unfold abs. cbn. by destruct (String.concat "/" l). Qed.

(** Components, or nothing, are joined to a path. *)
Lemma Join_abs l m : Forall plain l -> Forall (fun c => c = "" \/ plain c) m -> Join (abs l :: m) = abs (l ++ filter (fun c => c <> "") m).
Proof.
  intros Hl Hm. assert (mjoin (comps <$> m) = filter (fun c => c <> "") m /\ Forall plain (filter (fun c => c <> "") m)) as [E Hp].
  { induction Hm as [|c m [->|Hc] _ [IH1 IH2]]; [by split; [|constructor]|..].
    - rewrite filter_cons_False by (intros H; by apply H). by split.
    - rewrite filter_cons_True by apply Hc. cbn. rewrite comps_plain by done. cbn. split; [by f_equal|by constructor]. }
  assert (mjoin (comps <$> abs l :: m) = l ++ filter (fun c => c <> "") m) as E'.
  { change (mjoin (comps <$> abs l :: m)) with (comps (abs l) ++ mjoin (comps <$> m)). by rewrite comps_abs, E. }
  rewrite Join_rooted, E'; [done|apply abs_rooted|]. rewrite E'. by apply Forall_app.
Qed.

Lemma abs_inj l m : Forall plain l -> Forall plain m -> abs l = abs m -> l = m.
Proof. intros Hl Hm E. by rewrite <- (comps_abs l), <- (comps_abs m), E. Qed.

(** ** Requests *)
Definition typed_clients : list (string * (RESTClient -> string -> TypedClient)) :=
  [("IpamPool", IpamPools); ("NetworkNode", NetworkNodes); ("NetworkNodeOverlay", NetworkNodeOverlays);
   ("NetworkService", NetworkServices)].

(** The components of the path of the resources that [crd] defines, below the path [bs] of the host. *)
Definition group_path (bs : list string) : list string := bs ++ ["apis"; CRDGroupName; "v1alpha1"].

Definition collection_path (bs : list string) (crd : CustomResourceDefinition) : list string :=
  bs ++ ["apis"; crd_Group crd; crd_Version crd; crd_Plural crd].

Definition object_path (bs : list string) (crd : CustomResourceDefinition) (ns name : string) : list string :=
  bs ++ ["apis"; crd_Group crd; crd_Version crd; "namespaces"; ns; crd_Plural crd; name].

(** Nothing was put into the request. *)
Definition fresh (bs : list string) (r : Request) : Prop :=
  err r = None /\ namespaceSet r = false /\ namespace r = "" /\ resource r = "" /\ resourceName r = "" /\ subresource r = "" /\
  pathPrefix r = abs (group_path bs).

Lemma new_request_fresh ua transport cfg c v :
  NewForConfig ua transport cfg = inr c -> Forall plain (comps (cf_Path cfg)) ->
  fresh (comps (cf_Path cfg)) (NewRequest c v) /\ verb (NewRequest c v) = v /\ params (NewRequest c v) = ∅ /\ body (NewRequest c v) = None.
Proof.
  unfold NewForConfig, RESTClientFor. cbn [setConfigDefaults cf_GroupVersion SchemeGroupVersion cf_Path cf_APIPath].
  destruct (transport _); [done|]. intros [= <-] Hp.
  assert (comps (base_Path (NewRESTClient (cf_Path cfg) (DefaultVersionedAPIPath "/apis" CRDGroupName "v1alpha1")
    (cf_AcceptContentTypes cfg) (cf_ContentType cfg))) = comps (cf_Path cfg)) as E.
  { unfold NewRESTClient. cbn [base_Path]. case_bool_decide; [done|]. rewrite (comps_app _ ""). apply app_nil_r. }
  set (c := NewRESTClient _ _ _ _) in *.
  assert (Join [Join ["/"; base_Path c]; versionedAPIPath c] = abs (group_path (comps (cf_Path cfg)))) as Hpre.
  { assert (Join ["/"; base_Path c] = abs (comps (cf_Path cfg))) as ->.
    { rewrite Join_rooted; [|done|]; change (mjoin (comps <$> ["/"; base_Path c])) with (comps (base_Path c) ++ []); by rewrite app_nil_r, E. }
    rewrite Join_rooted; [|apply abs_rooted|]; change (mjoin (comps <$> [?x; versionedAPIPath c])) with (comps x ++ ["apis"; CRDGroupName; "v1alpha1"]);
      rewrite comps_abs by done; [done|]. apply Forall_app. split; [done|]. repeat constructor; done. }
  unfold NewRequest. rewrite Hpre. destruct (negb _); [|destruct (negb _)]; done.
Qed.

(** The client of a kind is for the resources that the controller has defined for it. *)
Lemma client_of_crd kind client crd c ns :
  (kind, client) ∈ typed_clients -> crd ∈ created_CRDs -> crd_Kind crd = kind ->
  tc_plural (client c ns) = crd_Plural crd /\ tc_client (client c ns) = c /\ tc_ns (client c ns) = ns /\
  crd_Group crd = CRDGroupName /\ crd_Version crd = "v1alpha1" /\ plain (crd_Plural crd) /\ ToLower (crd_Plural crd) = crd_Plural crd.
Proof.
  intros Hc Hcrd Hk. unfold typed_clients in Hc.
  repeat (apply elem_of_cons in Hc as [[= -> ->]|Hc];
    [unfold created_CRDs in Hcrd; repeat (apply elem_of_cons in Hcrd as [->|Hcrd]; [try discriminate Hk; by vm_compute|]); by apply not_elem_of_nil in Hcrd|]).
  by apply not_elem_of_nil in Hc.
Qed.

Lemma crd_parts crd : crd ∈ created_CRDs -> plain (crd_Group crd) /\ plain (crd_Version crd) /\ plain (crd_Plural crd).
Proof. intros Hc. unfold created_CRDs in Hc. repeat (apply elem_of_cons in Hc as [->|Hc]; [by vm_compute|]). by apply not_elem_of_nil in Hc. Qed.

Lemma crd_of_plural crd crd' : crd ∈ created_CRDs -> crd' ∈ created_CRDs -> crd_Plural crd = crd_Plural crd' -> crd = crd'.
Proof.
  intros Hc Hc' E. unfold created_CRDs in Hc, Hc'.
  repeat (apply elem_of_cons in Hc as [->|Hc];
    [repeat (apply elem_of_cons in Hc' as [->|Hc']; [try discriminate E; reflexivity|]); by apply not_elem_of_nil in Hc'|]).
  by apply not_elem_of_nil in Hc.
Qed.

#[export] Instance plain_dec s : Decision (plain s).
Proof. unfold plain. apply _. Defined.

(** A request that is not sent. *)
Definition refused (r : Request) : Prop :=
  is_Some (err r) \/
  (verb r ∈ ["GET"; "PUT"; "DELETE"] /\ namespaceSet r = true /\ resourceName r <> "" /\ namespace r = "").

Lemma refused_request r : refused r -> exists e, request r = inl e.
Proof.
  unfold request. intros [[e ->]|(Hv & -> & Hn & ->)]; [by eexists|]. destruct (err r) as [e|]; [by eexists|].
  rewrite (proj2 (String.eqb_neq _ _) Hn).
  repeat (apply elem_of_cons in Hv as [->|Hv]; [by eexists|]). by apply not_elem_of_nil in Hv.
Qed.

Lemma refused_body ct obj r : refused r -> refused (Body ct obj r).
Proof.
  intros [[e He]|H]; unfold Body, unless_err; [rewrite He; left; by eexists|].
  destruct (err r) eqn:He; [left; by eexists|]. destruct obj as [[[e|d]|]|d]; [by left; eexists|by right..].
Qed.

Lemma refused_params q r : refused r -> refused (VersionedParams q r).
Proof.
  intros [[e He]|H]; unfold VersionedParams, unless_err; [rewrite He; left; by eexists|].
  destruct (err r) eqn:He; [left; by eexists|]. destruct q as [e|d]; [by left; eexists|by right].
Qed.

(** A request with another body, other headers and parameters. *)
Definition same_object (r r' : Request) : Prop :=
  err r' = None /\ verb r' = verb r /\ URL r' = URL r /\ namespace r' = namespace r.

Lemma same_object_sent r r' :
  namespace r <> "" -> same_object r r' -> request r' = inr (mkSent (verb r) (URL r) (params r') (headers r') (body r')).
Proof.
  intros Hns (He & Hv & Hu & Hn). unfold request. by rewrite He, Hn, (proj2 (String.eqb_neq _ _) Hns), !andb_false_r, Hv, Hu.
Qed.

(** A request for a collection. *)
Lemma collection_sent r : err r = None -> verb r = "GET" -> resourceName r = "" ->
  request r = inr (mkSent "GET" (URL r) (params r) (headers r) (body r)).
Proof. unfold request. intros -> -> ->. cbn. by rewrite andb_false_r. Qed.

Lemma URL_params q r : resourceName r = "" -> URL (with_params q r) = URL (with_resourceName "" r).
Proof. unfold URL. cbn. by intros ->. Qed.

(** ** The first calls of the chain *)
Ltac segments := repeat (apply Forall_cons_2; [first [assumption | by split | by left | by right]|]); apply Forall_nil_2.

Section chain.
Context (t : TypedClient) (bs : list string) (r : Request).
Context (Hplural : plain (tc_plural t)) (Hlower : ToLower (tc_plural t) = tc_plural t) (Hbs : Forall plain bs) (Hr : fresh bs r).

Lemma start_run : start t r =
  match IsValidPathSegmentName (tc_ns t) with
  | [] => with_resource (tc_plural t) (with_namespace (tc_ns t) r)
  | msgs => with_err (Invalid "namespace" (tc_ns t) msgs) r
  end.
Proof.
  destruct Hr as (He & Hns & _ & Hres & _), Hplural as [_ Hp].
  unfold start, Namespace, Resource, unless_err. rewrite He, Hns. destruct (IsValidPathSegmentName (tc_ns t)) as [|m msgs]; cbn; [|done].
  by rewrite He, Hres, Hp.
Qed.

Lemma name_run name : Name name (start t r) =
  match IsValidPathSegmentName (tc_ns t) with
  | [] =>
      if String.eqb name "" then with_err EmptyName (start t r)
      else match IsValidPathSegmentName name with
           | [] => with_resourceName name (start t r)
           | msgs => with_err (Invalid "resource name" name msgs) (start t r)
           end
  | _ => start t r
  end.
Proof.
  rewrite start_run. destruct Hr as (He & Hns & _ & Hres & Hnm & _).
  unfold Name, unless_err. destruct (IsValidPathSegmentName (tc_ns t)) as [|m msgs]; cbn; [|done]. by rewrite He, Hnm.
Qed.

Lemma url_run name r' : r' = with_resource (tc_plural t) (with_namespace (tc_ns t) r) -> plain (tc_ns t) \/ tc_ns t = "" -> plain name \/ name = "" ->
  URL (with_resourceName name r') =
  abs (group_path bs ++ (if String.eqb (tc_ns t) "" then [] else ["namespaces"; tc_ns t]) ++ [tc_plural t] ++ filter (fun c => c <> "") [name]).
Proof.
  intros -> Hns Hname. destruct Hr as (_ & _ & _ & _ & _ & Hsub & Hpre), Hplural as [Hpn _].
  assert (Forall plain (group_path bs)) as Hg by (apply Forall_app; split; [done|]; repeat constructor; done).
  unfold URL. cbn -[ToLower Join filter]. rewrite Hsub, Hlower, (proj2 (String.eqb_neq _ _) Hpn), Hpre.
  assert (forall l, Forall plain l -> (if String.eqb name "" && true then Join [abs l; tc_plural t] else Join [Join [abs l; tc_plural t]; name; ""; ""]) =
    abs (l ++ [tc_plural t] ++ filter (fun c => c <> "") [name])) as Hend.
  { intros l Hl. assert (Join [abs l; tc_plural t] = abs (l ++ [tc_plural t])) as ->.
    { rewrite Join_abs by (try done; segments). by rewrite filter_cons_True. }
    destruct (String.eqb_spec name "") as [->|Hne]; cbn [andb].
    - by rewrite filter_cons_False by (intros H; by apply H).
    - destruct Hname as [Hname|]; [|done]. rewrite Join_abs by (try (apply Forall_app; split; [done|]); segments).
      rewrite <- app_assoc. by do 2 f_equal. }
  destruct (String.eqb_spec (tc_ns t) "") as [E|Hne]; cbn [negb]; [by apply Hend|].
  destruct Hns as [Hns|]; [|done]. rewrite (Join_abs _ ["namespaces"; tc_ns t]) by (try done; segments).
  rewrite !filter_cons_True, filter_nil by done. rewrite Hend by (apply Forall_app; split; [done|segments]). by rewrite <- app_assoc.
Qed.

(** The request for an object, without a body and options. *)
Definition addressed (name : string) : Request := with_resourceName name (with_resource (tc_plural t) (with_namespace (tc_ns t) r)).

Lemma object_request name : verb r ∈ ["GET"; "PUT"; "DELETE"] ->
  if decide (plain (tc_ns t) /\ plain name) then
    Name name (start t r) = addressed name /\ URL (addressed name) = abs (group_path bs ++ ["namespaces"; tc_ns t; tc_plural t; name])
  else refused (Name name (start t r)).
Proof.
  intros Hv. rewrite name_run, start_run. pose proof Hr as (He & _). case_decide as Hd.
  - destruct Hd as [[Hne Hns] [Hnn Hnm]]. rewrite Hns, Hnm, (proj2 (String.eqb_neq _ _) Hnn). split; [done|].
    unfold addressed. rewrite (url_run name _ eq_refl) by (left; by split). by rewrite (proj2 (String.eqb_neq _ _) Hne), filter_cons_True.
  - destruct (IsValidPathSegmentName (tc_ns t)) as [|m msgs] eqn:Hns; [|left; by eexists].
    destruct (String.eqb_spec name "") as [|Hnn]; [left; by eexists|].
    destruct (IsValidPathSegmentName name) as [|m msgs] eqn:Hnm; [|left; by eexists].
    right. cbn. split_and!; [done..|]. destruct (decide (tc_ns t = "")); [done|]. exfalso. apply Hd. by split.
Qed.
End chain.

(** What the client of a kind makes of a name. *)
Section addressing.
Context (ua : string) (transport : Config -> option error) (cfg : Config) (c : RESTClient) (kind : string) (client : RESTClient -> string -> TypedClient).
Context (crd : CustomResourceDefinition) (ns name v : string) (Hcfg : NewForConfig ua transport cfg = inr c) (Hbs : Forall plain (comps (cf_Path cfg))).
Context (Hcl : (kind, client) ∈ typed_clients) (Hcrd : crd ∈ created_CRDs) (Hk : crd_Kind crd = kind) (Hv : v ∈ ["GET"; "PUT"; "DELETE"]).

Lemma addressing : if decide (plain ns /\ plain name) then
    Name name (start (client c ns) (NewRequest c v)) = addressed (client c ns) (NewRequest c v) name /\
    URL (addressed (client c ns) (NewRequest c v) name) = abs (object_path (comps (cf_Path cfg)) crd ns name)
  else refused (Name name (start (client c ns) (NewRequest c v))).
Proof.
  destruct (client_of_crd kind client crd c ns Hcl Hcrd Hk) as (Ep & Ec & En & Eg & Ev & Hp & Hlow).
  destruct (new_request_fresh ua transport cfg c v Hcfg Hbs) as (Hf & Hvb & _).
  pose proof (object_request (client c ns) (comps (cf_Path cfg)) (NewRequest c v)) as H. rewrite Ep, En in H. specialize (H Hp Hlow Hbs Hf name).
  rewrite Hvb in H. unfold object_path. rewrite Eg, Ev. unfold group_path in H. rewrite <- app_assoc in H. by apply H.
Qed.

Lemma addressing_refused : ~ (plain ns /\ plain name) -> refused (Name name (start (client c ns) (NewRequest c v))).
Proof. pose proof addressing as H. intros Hn. by rewrite decide_False in H. Qed.

Lemma addressing_sent : plain ns -> plain name ->
  let r := addressed (client c ns) (NewRequest c v) name in
  Name name (start (client c ns) (NewRequest c v)) = r /\ err r = None /\ params r = ∅ /\ body r = None /\
  forall r', same_object r r' -> exists hs, request r' = inr (mkSent v (abs (object_path (comps (cf_Path cfg)) crd ns name)) (params r') hs (body r')).
Proof.
  intros Hns Hname r. destruct (client_of_crd kind client crd c ns Hcl Hcrd Hk) as (_ & _ & En & _).
  destruct (new_request_fresh ua transport cfg c v Hcfg Hbs) as ((He & _) & Hvb & Hps & Hb). pose proof addressing as H.
  rewrite decide_True in H by done. destruct H as [E Hu]. split_and!; [done..|].
  intros r' Hr'. exists (headers r'). assert (namespace r <> "") as Hne by (cbn; rewrite En; by destruct Hns).
  pose proof (same_object_sent r r' Hne Hr') as Hq. unfold r in Hq at 1 2. rewrite Hu in Hq. cbn [addressed verb with_resourceName with_resource with_namespace] in Hq.
  by rewrite Hvb in Hq.
Qed.
End addressing.

Lemma object_path_inj bs crd ns name crd' ns' name' :
  Forall plain bs -> crd ∈ created_CRDs -> crd' ∈ created_CRDs -> plain ns -> plain name -> plain ns' -> plain name' ->
  abs (object_path bs crd ns name) = abs (object_path bs crd' ns' name') -> crd = crd' /\ ns = ns' /\ name = name'.
Proof.
  intros Hbs Hcrd Hcrd' Hns Hname Hns' Hname' E. destruct (crd_parts crd Hcrd) as (Hg1 & Hv1 & Hp1), (crd_parts crd' Hcrd') as (Hg2 & Hv2 & Hp2).
  apply abs_inj in E; [|apply Forall_app; split; [done|segments]..].
  unfold object_path in E. apply app_inv_head in E as [= _ _ <- Epl <-]. by rewrite (crd_of_plural crd crd').
Qed.

Lemma collection_request ua transport cfg c kind client crd encode opts query :
  NewForConfig ua transport cfg = inr c -> Forall plain (comps (cf_Path cfg)) ->
  (kind, client) ∈ typed_clients -> crd ∈ created_CRDs -> crd_Kind crd = kind -> encode opts = inr query ->
  exists hs, request (List (client c "") encode opts) = inr (mkSent "GET" (abs (collection_path (comps (cf_Path cfg)) crd)) query hs None).
Proof.
  intros Hcfg Hbs Hcl Hcrd Hk Hq. destruct (client_of_crd kind client crd c "" Hcl Hcrd Hk) as (Ep0 & Ec0 & En0 & Eg & Ev & Hp & Hlow).
  destruct (new_request_fresh ua transport cfg c "GET" Hcfg Hbs) as (Hf & Hvb & Hps & Hb). unfold List. rewrite Ec0. set (bs := comps _) in *.
  pose proof (start_run (client c "") bs (NewRequest c "GET")) as Hrun. pose proof (url_run (client c "") bs (NewRequest c "GET")) as Hurl.
  rewrite Ep0, En0 in Hrun, Hurl. specialize (Hrun Hp Hf). specialize (Hurl Hp Hlow Hbs Hf "" _ eq_refl (or_intror eq_refl) (or_intror eq_refl)).
  change (IsValidPathSegmentName "") with (@nil string) in Hrun. cbn [with_resource] in Hrun. destruct Hf as (He & _ & _ & _ & Hnm & _).
  unfold VersionedParams, unless_err. rewrite Hrun, Hq. change (err _) with (err (NewRequest c "GET")) at 1. rewrite He.
  rewrite <- (URL_params query) in Hurl by exact Hnm. exists (headers (NewRequest c "GET")).
  rewrite collection_sent by done. do 2 f_equal; [|cbn [params with_params]; change (params (with_resource _ (with_namespace _ ?r))) with (params r); by rewrite Hps, (left_id_L ∅ _)|exact Hb].
  etransitivity; [exact Hurl|]. unfold collection_path, group_path. by rewrite Eg, Ev, <- app_assoc.
Qed.

(** The request in the goal is sent. *)
Ltac sent :=
  match goal with
  | Hd : plain ?ns /\ plain ?name, Hcfg : NewForConfig _ _ _ = inr _, Hbs : Forall plain _, Hcl : _ ∈ typed_clients, Hcrd : _ ∈ created_CRDs, Hk : crd_Kind _ = _
    |- context [NewRequest ?c ?v] =>
    let He := fresh "He" in let Hs := fresh "Hs" in
    destruct (addressing_sent _ _ _ _ _ _ _ ns name v Hcfg Hbs Hcl Hcrd Hk ltac:(set_solver) (proj1 Hd) (proj2 Hd)) as (-> & He & Hps & Hb & Hs);
    unfold content, Body, VersionedParams, unless_err; rewrite He;
    match goal with |- context [request ?x] => destruct (Hs x) as [hs ->]; [by split_and!|] end
  end.

(** C23: the clients are for the resources that the controller has defined.  A request of the client of a kind in the
    namespace [ns] for the object [name] is sent exactly when both are names that can be in a path; it goes to the path of that object
    among the resources of the definition of this kind, below the path of the host, with the verb of the
    method and the object or the options that it was given.  Objects of different kinds, namespaces or names have
    different paths.  The lists and watches of the informers, which are of all namespaces, ask for the whole
    collection. *)
Theorem clients_address_resources ua transport cfg c kind client crd ns name :
  NewForConfig ua transport cfg = inr c -> Forall plain (comps (cf_Path cfg)) ->
  (kind, client) ∈ typed_clients -> crd ∈ created_CRDs -> crd_Kind crd = kind ->
  let bs := comps (cf_Path cfg) in
  let goes v query payload r := if decide (plain ns /\ plain name)
    then exists hs, request r = inr (mkSent v (abs (object_path bs crd ns name)) query hs payload)
    else exists e, request r = inl e in
  (forall obj r, Update (client c ns) (Some (name, inr obj)) = Some r -> goes "PUT" ∅ (Some obj) r) /\
  (forall query, goes "GET" query None (Get (client c ns) name (inr query))) /\
  goes "DELETE" ∅ None (Delete (client c ns) name None) /\
  (forall crd' ns' name', crd' ∈ created_CRDs -> plain ns -> plain name -> plain ns' -> plain name' ->
     abs (object_path bs crd ns name) = abs (object_path bs crd' ns' name') -> crd = crd' /\ ns = ns' /\ name = name') /\
  forall encode opts query, encode opts = inr query -> exists hs,
    request (List (client c "") encode opts) = inr (mkSent "GET" (abs (collection_path bs crd)) query hs None).
Proof.
  intros Hcfg Hbs Hcl Hcrd Hk bs goes.
  destruct (client_of_crd kind client crd c ns Hcl Hcrd Hk) as (_ & Ec & _).
  split_and!.
  - intros obj r [= <-]. rewrite Ec. unfold goes. case_decide as Hd; [|by apply refused_request, refused_body; eapply addressing_refused; [done..|set_solver|]].
    sent. exists hs. do 2 f_equal. exact Hps.
  - intros query. unfold Get. rewrite Ec. unfold goes. case_decide as Hd; [|by apply refused_request, refused_params; eapply addressing_refused; [done..|set_solver|]].
    sent. exists hs. do 2 f_equal; [|exact Hb]. cbn [params with_params]. by rewrite Hps, (left_id_L ∅ _).
  - unfold goes, Delete. rewrite Ec. case_decide as Hd; [|by apply refused_request, refused_body; eapply addressing_refused; [done..|set_solver|]].
    sent. exists hs. do 2 f_equal; [exact Hps|exact Hb].
  - intros crd' ns' name' Hcrd' Hns Hname Hns' Hname' E. by eapply object_path_inj.
  - intros encode opts query Hq. by eapply collection_request.
Qed.

(** ** The listers list what they get *)
Lemma listers_agree {C} (meta : C -> ObjectMeta) res order has_index selector (store : gmap string C) ns :
  (forall l : list C, order l ≡ₚ l) -> map_Forall (fun k c => k = key_of meta c /\ named meta c) store ->
  namespace_lister_List meta order has_index selector store ns ≡ₚ
    (if String.eqb ns "" then lister_List meta order selector store
     else filter (fun c => om_Namespace (meta c) = ns) (lister_List meta order selector store)) /\
  forall c, c ∈ lister_List meta order selector store <->
    selector (om_Labels (meta c)) = true /\ lister_Get res store (om_Namespace (meta c)) (om_Name (meta c)) = inr c.
Proof.
  intros Ho Hst. unfold namespace_lister_List, lister_List, ListAllByNamespace, ListAll, store_Index, store_List. split.
  - destruct (String.eqb ns ""); [done|]. destruct has_index; rewrite !Ho, list_filter_filter; [rewrite list_filter_filter|];
      (apply reflexive_eq, list_filter_iff; intros c; tauto).
  - intros c. rewrite list_elem_of_filter, Ho, list_elem_of_fmap. unfold lister_Get. rewrite Is_true_true. apply and_iff_compat_l. split.
    + intros ([k c'] & -> & Hk%elem_of_map_to_list). cbn. destruct (Hst _ _ Hk) as [-> (Hne & _)].
      unfold key_of, MetaNamespaceKeyFunc in Hk. rewrite (proj2 (String.eqb_neq _ _) Hne) in Hk. by rewrite Hk.
    + destruct (store !! _) as [c'|] eqn:Hk; [|done]. intros [= ->]. eexists (_, _). split; [done|]. by apply elem_of_map_to_list.
Qed.

(** ** Witness: the status of a node is sent to the server of a host with a proxy *)
Definition demo_config : Config := mkConfig "/proxy/" "" None "" "" "".

Definition demo_client : RESTClient := default (mkRESTClient "" "" "" "") (match NewForConfig "sfc" (fun _ => None) demo_config with inr c => Some c | inl _ => None end).

Lemma clients_address_resources_witness :
  exists hs, request (Get (NetworkNodes demo_client "default") "n1" (inr ∅)) =
    inr (mkSent "GET" "/proxy/apis/sfccontroller.ligato.github.com/v1alpha1/namespaces/default/networknodes/n1" ∅ hs None).
Proof.
  destruct (clients_address_resources "sfc" (fun _ => None) demo_config demo_client "NetworkNode" NetworkNodes
    (createCRD "NetworkNode" "networknodes") "default" "n1") as (_ & Hget & _).
  - vm_compute. reflexivity.
  - vm_compute. repeat constructor; discriminate.
  - unfold typed_clients. member.
  - unfold created_CRDs. member.
  - reflexivity.
  - destruct (Hget ∅) as [hs Hs]. exists hs. rewrite Hs. vm_compute. reflexivity.
Defined.
End Clients.
