(* ===== verification/Wiring.v ===== *)
(** * How the parts are put together

    Module Wiring: the informer factory (k8scrd/pkg/client/informers), the wiring that [NewController] and [Run]
    of crd_controller.go make with it, the start of the k8scrd plugin (plugin_impl_k8scrd.go,
    pkg/signals), the options of both plugins and the main program (sfc_controller.go). *)

From Stdlib Require Import SpecFloat.
From S2P Require Import Prelude GoStd Model Controller K8sCrd Clients.

Module Wiring.
Import Controller.Controller Clients.

(** ** The informer factory

    An informer of client-go, as far as this code sees it: the type of its objects, its requests, its
    indices, the queues its handlers add keys to, and how often it was started. *)
Record SharedIndexInformer : Type := mkInformer {
  objType : string;
  listFunc : ListOptions -> Request;
  watchFunc : ListOptions -> Request;
  resyncPeriod : Z;
  indexers : list string;
  handlers : list string;
  running : nat
}.

Definition TweakListOptionsFunc : Type := option (ListOptions -> ListOptions).

Record sharedInformerFactory : Type := mkFactory {
  client : RESTClient;
  namespace : string;
  tweakListOptions : TweakListOptionsFunc;
  defaultResync : Z;
  informers : gmap string loc;
  startedInformers : gmap string bool;
  informer_heap : heap SharedIndexInformer
}.

Definition with_informers v f := mkFactory (client f) (namespace f) (tweakListOptions f) (defaultResync f) v (startedInformers f) (informer_heap f).

Definition with_startedInformers v f := mkFactory (client f) (namespace f) (tweakListOptions f) (defaultResync f) (informers f) v (informer_heap f).

Definition with_informer_heap v f := mkFactory (client f) (namespace f) (tweakListOptions f) (defaultResync f) (informers f) (startedInformers f) v.

Definition on_heap {A} : M (heap SharedIndexInformer) A -> M sharedInformerFactory A := zoom informer_heap with_informer_heap.

Definition NewFilteredSharedInformerFactory (c : RESTClient) (resync : Z) (ns : string) (tweak : TweakListOptionsFunc) : sharedInformerFactory :=
  mkFactory c ns tweak resync ∅ ∅ empty_heap.

Definition NewSharedInformerFactory (c : RESTClient) (resync : Z) : sharedInformerFactory :=
  NewFilteredSharedInformerFactory c resync "" None.

Definition tweaked (tweak : TweakListOptionsFunc) (o : ListOptions) : ListOptions :=
  match tweak with Some f => f o | None => o end.

(** A kind of resource: its Go type, its resource, and its client. *)
Record kind : Type := mkKind { k_type : string; k_resource : string; k_client : RESTClient -> string -> TypedClient }.

Definition kind_IpamPool : kind := mkKind "IpamPool" "ipampools" IpamPools.

Definition kind_NetworkNode : kind := mkKind "NetworkNode" "networknodes" NetworkNodes.

Definition kind_NetworkNodeOverlay : kind := mkKind "NetworkNodeOverlay" "networknodeoverlays" NetworkNodeOverlays.

Definition kind_NetworkService : kind := mkKind "NetworkService" "networkservices" NetworkServices.

(** The keys of a map in the order in which they are visited, and the encoding of the options of requests. *)
Section factory.
Context (order : list string -> list string) (encode : ListOptions -> error + Values).

Definition InformerFor (objType : string) (newFunc : RESTClient -> Z -> M sharedInformerFactory loc) : M sharedInformerFactory loc :=
  let! m := get informers in
  match m !! objType with
  | Some informer => mret informer
  | None =>
      let! c := get client in
      let! resync := get defaultResync in
      let! informer := newFunc c resync in
      modify (fun f => with_informers (<[objType := informer]> (informers f)) f) ;;;
      mret informer
  end.

Definition NewFilteredInformer (k : kind) (c : RESTClient) (ns : string) (resync : Z) (idx : list string) (tweak : TweakListOptionsFunc)
  : M sharedInformerFactory loc :=
  on_heap (heap_new (mkInformer (k_type k)
    (fun options => List (k_client k c ns) encode (tweaked tweak options))
    (fun options => Watch (k_client k c ns) encode (tweaked tweak options)) resync idx [] 0)).

Definition NewInformer (k : kind) (c : RESTClient) (ns : string) (resync : Z) (idx : list string) : M sharedInformerFactory loc :=
  NewFilteredInformer k c ns resync idx None.

(** [factory.Sfccontroller().V1alpha1().IpamPools()] and the others: the informer of a kind. *)
Definition defaultInformer (k : kind) (ns : string) (tweak : TweakListOptionsFunc) (c : RESTClient) (resync : Z) : M sharedInformerFactory loc :=
  NewFilteredInformer k c ns resync ["namespace"] tweak.

Definition Informer (k : kind) : M sharedInformerFactory loc :=
  let! ns := get namespace in
  let! tweak := get tweakListOptions in
  InformerFor (k_type k) (defaultInformer k ns tweak).

(** A lister is the informer whose store it reads. *)
Definition Lister (k : kind) : M sharedInformerFactory loc :=
  let! informer := Informer k in mret informer.

(** The informers of the four kinds. *)
Definition NewFilteredIpamPoolInformer := NewFilteredInformer kind_IpamPool.

Definition ipamPoolInformer_Informer := Informer kind_IpamPool.

Definition ipamPoolInformer_Lister := Lister kind_IpamPool.

Definition NewFilteredNetworkNodeInformer := NewFilteredInformer kind_NetworkNode.

Definition networkNodeInformer_Informer := Informer kind_NetworkNode.

Definition networkNodeInformer_Lister := Lister kind_NetworkNode.

Definition NewFilteredNetworkNodeOverlayInformer := NewFilteredInformer kind_NetworkNodeOverlay.

Definition networkNodeOverlayInformer_Informer := Informer kind_NetworkNodeOverlay.

Definition networkNodeOverlayInformer_Lister := Lister kind_NetworkNodeOverlay.

Definition NewFilteredNetworkServiceInformer := NewFilteredInformer kind_NetworkService.

Definition networkServiceInformer_Informer := Informer kind_NetworkService.

Definition networkServiceInformer_Lister := Lister kind_NetworkService.

Definition ForResource (group version resource : string) : M sharedInformerFactory (result loc) :=
  if bool_decide ((group, version) = SchemeGroupVersion) && String.eqb resource "ipampools" then let! i := ipamPoolInformer_Informer in mok i
  else if bool_decide ((group, version) = SchemeGroupVersion) && String.eqb resource "networknodes" then let! i := networkNodeInformer_Informer in mok i
  else if bool_decide ((group, version) = SchemeGroupVersion) && String.eqb resource "networknodeoverlays" then let! i := networkNodeOverlayInformer_Informer in mok i
  else if bool_decide ((group, version) = SchemeGroupVersion) && String.eqb resource "networkservices" then let! i := networkServiceInformer_Informer in mok i
  else mfail ("no informer found for {" +:+ group +:+ " " +:+ version +:+ " " +:+ resource +:+ "}").

(** [informer.AddEventHandler], with handlers that add to a queue, and [go informer.Run(stopCh)]. *)
Definition AddEventHandler (informer : loc) (queue : string) : M sharedInformerFactory unit :=
  on_heap (let! i := heap_read informer in
           heap_write informer (mkInformer (objType i) (listFunc i) (watchFunc i) (resyncPeriod i) (indexers i) (handlers i ++ [queue]) (running i))).

Definition go_Run (informer : loc) : M sharedInformerFactory unit :=
  on_heap (let! i := heap_read informer in
           heap_write informer (mkInformer (objType i) (listFunc i) (watchFunc i) (resyncPeriod i) (indexers i) (handlers i) (S (running i)))).

Definition start_informer (informerType : string) : M sharedInformerFactory unit :=
  let! m := get informers in
  let! informer := deref (m !! informerType) in
  let! started := get startedInformers in
  if default false (started !! informerType) then mret tt
  else
    go_Run informer ;;;
    modify (fun f => with_startedInformers (<[informerType := true]> (startedInformers f)) f).

Definition Start : M sharedInformerFactory unit :=
  let! m := get informers in
  forM (order (map_to_list m).*1) start_informer.

(** [synced]: what [HasSynced] of an informer says in the end. *)
Definition WaitForCacheSync (synced : loc -> bool) (f : sharedInformerFactory) : gmap string bool :=
  synced <$> filter (fun kv => default false (startedInformers f !! kv.1) = true) (informers f).
End factory.

(** ** [NewController] *)

(** What the controller has for a kind: the store its lister reads, the informer it waits for, and its queue. *)
Record wired : Type := mkWired { lister : loc; synced : loc; workqueue : string }.

Record Controller : Type := mkController {
  ipamPools : wired;
  networkNodes : wired;
  networkNodeOverlays : wired;
  networkServices : wired
}.

(** The calls in the order of the code; what of the custom resources is defined at the API server is [K8sCrd.created_CRDs]. *)
Definition NewController (encode : ListOptions -> error + Values) : M sharedInformerFactory Controller :=
  let! ipamPoolsLister := ipamPoolInformer_Lister encode in
  let! ipamPoolsSynced := ipamPoolInformer_Informer encode in
  let! networkNodesLister := networkNodeInformer_Lister encode in
  let! networkNodesSynced := networkNodeInformer_Informer encode in
  let! networkNodeOverlaysLister := networkNodeOverlayInformer_Lister encode in
  let! networkNodeOverlaysSynced := networkNodeOverlayInformer_Informer encode in
  let! networkServicesLister := networkServiceInformer_Lister encode in
  let! networkServicesSynced := networkServiceInformer_Informer encode in
  let controller := mkController
    (mkWired ipamPoolsLister ipamPoolsSynced "IpamPools")
    (mkWired networkNodesLister networkNodesSynced "NetworkNodes")
    (mkWired networkNodeOverlaysLister networkNodeOverlaysSynced "NetworkNodeOverlays")
    (mkWired networkServicesLister networkServicesSynced "NetworkServices") in
  let! i := ipamPoolInformer_Informer encode in
  AddEventHandler i (workqueue (ipamPools controller)) ;;;
  let! i := networkNodeInformer_Informer encode in
  AddEventHandler i (workqueue (networkNodes controller)) ;;;
  let! i := networkNodeOverlayInformer_Informer encode in
  AddEventHandler i (workqueue (networkNodeOverlays controller)) ;;;
  let! i := networkServiceInformer_Informer encode in
  AddEventHandler i (workqueue (networkServices controller)) ;;;
  mret controller.

Definition workers_round (c : Controller) : list (string * kind) :=
  [(workqueue (ipamPools c), kind_IpamPool); (workqueue (networkNodes c), kind_NetworkNode);
   (workqueue (networkNodeOverlays c), kind_NetworkNodeOverlay); (workqueue (networkServices c), kind_NetworkService)].

(** [Run]: the goroutines that are started, as the queue that each takes its keys from and the kind whose sync handler it
    calls, and the queues that are shut down in the end.  [all_synced]: whether all stores are filled before the program
    is told to stop. *)
Definition Run {S} (c : Controller) (threadiness : nat) (all_synced : list loc -> bool) : M S (list (string * kind) * list string) :=
  if all_synced [synced (ipamPools c); synced (networkNodes c); synced (networkNodeOverlays c); synced (networkServices c)]
  then mret (concat (replicate threadiness (workers_round c)),
        [workqueue (networkServices c); workqueue (networkNodeOverlays c); workqueue (networkNodes c); workqueue (ipamPools c)])
  else panic.

(** ** What is wired *)
Section wires.
Context (encode : ListOptions -> error + Values) (c : RESTClient) (resync : Z).

(** The informer of a kind as [NewController] leaves it. *)
Definition informer_of (k : kind) (queue : string) (n : nat) : SharedIndexInformer :=
  mkInformer (k_type k) (fun options => List (k_client k c "") encode options) (fun options => Watch (k_client k c "") encode options)
    resync ["namespace"] [queue] n.

Definition wired_controller : Controller :=
  mkController (mkWired 0 0 "IpamPools") (mkWired 1 1 "NetworkNodes") (mkWired 2 2 "NetworkNodeOverlays") (mkWired 3 3 "NetworkServices").

Definition wired_factory : sharedInformerFactory :=
  mkFactory c "" None resync
    (list_to_map [("IpamPool", 0); ("NetworkNode", 1); ("NetworkNodeOverlay", 2); ("NetworkService", 3)]) ∅
    (mkHeap (list_to_map [(0, informer_of kind_IpamPool "IpamPools" 0); (1, informer_of kind_NetworkNode "NetworkNodes" 0);
       (2, informer_of kind_NetworkNodeOverlay "NetworkNodeOverlays" 0); (3, informer_of kind_NetworkService "NetworkServices" 0)]) 4).

Lemma NewController_run : NewController encode (NewSharedInformerFactory c resync) = Done wired_controller wired_factory.
Proof. reflexivity. Qed.

(** The same, after the informers were started. *)
Definition started_factory : sharedInformerFactory :=
  mkFactory c "" None resync
    (list_to_map [("IpamPool", 0); ("NetworkNode", 1); ("NetworkNodeOverlay", 2); ("NetworkService", 3)])
    (list_to_map [("IpamPool", true); ("NetworkNode", true); ("NetworkNodeOverlay", true); ("NetworkService", true)])
    (mkHeap (list_to_map [(0, informer_of kind_IpamPool "IpamPools" 1); (1, informer_of kind_NetworkNode "NetworkNodes" 1);
       (2, informer_of kind_NetworkNodeOverlay "NetworkNodeOverlays" 1); (3, informer_of kind_NetworkService "NetworkServices" 1)]) 4).

Definition types : list string := (map_to_list (informers wired_factory)).*1.

Lemma start_informers_run l : types ≡ₚ l -> forM l start_informer wired_factory = Done tt started_factory.
Proof.
  intros Hl%permutations_Permutation. vm_compute in Hl.
  repeat (apply elem_of_cons in Hl as [->|Hl]; [reflexivity|]). by apply not_elem_of_nil in Hl.
Qed.

Lemma start_again_run l : types ≡ₚ l -> forM l start_informer started_factory = Done tt started_factory.
Proof.
  intros Hl%permutations_Permutation. vm_compute in Hl.
  repeat (apply elem_of_cons in Hl as [->|Hl]; [reflexivity|]). by apply not_elem_of_nil in Hl.
Qed.

Lemma Starts_run orders : Forall (fun order => forall l : list string, l ≡ₚ order l) orders -> orders <> [] ->
  forM orders (fun order => Start order) wired_factory = Done tt started_factory.
Proof.
  intros Ho Hne. destruct Ho as [|order orders Ho Hos]; [done|]. cbn [forM].
  rewrite (mbnd_run _ _ tt wired_factory started_factory) by exact (start_informers_run _ (Ho types)).
  clear Ho Hne. induction Hos as [|order' orders Ho _ IH]; [done|]. cbn [forM].
  by rewrite (mbnd_run (Start order') _ tt started_factory started_factory (start_again_run _ (Ho types))).
Qed.
End wires.

(** What the controller has for each kind. *)
Definition wires (c : Controller) : list (kind * wired) :=
  [(kind_IpamPool, ipamPools c); (kind_NetworkNode, networkNodes c); (kind_NetworkNodeOverlay, networkNodeOverlays c);
   (kind_NetworkService, networkServices c)].

Lemma wires_informers encode c resync t l :
  informers (started_factory encode c resync) !! t = Some l <-> exists k w, (k, w) ∈ wires wired_controller /\ t = k_type k /\ l = lister w.
Proof.
  split.
  - intros H%elem_of_list_to_map_2.
    assert (Forall (fun x : string * loc => exists k w, (k, w) ∈ wires wired_controller /\ x.1 = k_type k /\ x.2 = lister w)
      [("IpamPool", 0); ("NetworkNode", 1); ("NetworkNodeOverlay", 2); ("NetworkService", 3)]) as Hall.
    { unfold wires. repeat apply Forall_cons_2; [exists kind_IpamPool|exists kind_NetworkNode|exists kind_NetworkNodeOverlay|exists kind_NetworkService|apply Forall_nil_2];
      eexists; (split; [member|split; reflexivity]). }
    rewrite Forall_forall in Hall. exact (Hall _ H).
  - intros (k & w & Hin & -> & ->). change (informers (started_factory encode c resync) !! k_type (k, w).1 = Some (lister (k, w).2)).
    revert Hin. generalize (k, w). apply Forall_forall. repeat (apply Forall_cons_2; [reflexivity|]). apply Forall_nil_2.
Qed.

(** The workers of one queue among those of all rounds. *)
Lemma filter_workers q k (round : list (string * kind)) n :
  filter (fun g => g.1 = q) round = [(q, k)] -> filter (fun g => g.1 = q) (concat (replicate n round)) = replicate n (q, k).
Proof. intros H. induction n as [|n IH]; [done|]. cbn [replicate concat]. by rewrite filter_app, H, IH. Qed.

(** C22: the wiring of the controller.  [NewController] on a new factory, and then the start of the
    informers, once or more often and in whatever order: for each kind there is one informer, which
    was started once and lists and watches this kind in all namespaces; its events go into the queue of the kind,
    the lister of the kind reads its store, and the workers of [Run] take the keys of that queue
    to the sync handler of the kind, [threadiness] of them.  Other informers there are none, and different kinds have different
    stores and queues. *)
Theorem NewController_wires encode c resync orders threadiness all_synced :
  orders <> [] -> Forall (fun order => forall l : list string, l ≡ₚ order l) orders -> (forall l, all_synced l = true) ->
  wp (let! ctl := NewController encode in
      forM orders (fun order => Start order) ;;;
      let! run := Run ctl threadiness all_synced in mret (ctl, run)) (fun r f =>
    let '(ctl, (workers, shut)) := r in
    (forall t l, informers f !! t = Some l <-> exists k w, (k, w) ∈ wires ctl /\ t = k_type k /\ l = lister w) /\
    NoDup (lister <$> (wires ctl).*2) /\ NoDup (workqueue <$> (wires ctl).*2) /\ shut ≡ₚ workqueue <$> (wires ctl).*2 /\
    forall k w, (k, w) ∈ wires ctl ->
      synced w = lister w /\ cells (informer_heap f) !! lister w = Some (informer_of encode c resync k (workqueue w) 1) /\
      filter (fun g => g.1 = workqueue w) workers = replicate threadiness (workqueue w, k)) (NewSharedInformerFactory c resync).
Proof.
  intros Hne Ho Hs. eapply wp_run.
  { runs (NewController_run encode c resync). runs (Starts_run encode c resync orders Ho Hne). unfold Run. rewrite Hs. reflexivity. }
  split_and!.
  - apply wires_informers.
  - apply (bool_decide_unpack _). reflexivity.
  - apply (bool_decide_unpack _). reflexivity.
  - apply (bool_decide_unpack _). reflexivity.
  - intros k w Hin.
    assert (Forall (fun kw => synced kw.2 = lister kw.2 /\
        cells (informer_heap (started_factory encode c resync)) !! lister kw.2 = Some (informer_of encode c resync kw.1 (workqueue kw.2) 1) /\
        filter (fun g => g.1 = workqueue kw.2) (concat (replicate threadiness (workers_round wired_controller))) =
          replicate threadiness (workqueue kw.2, kw.1)) (wires wired_controller)) as Hall.
    { repeat (apply Forall_cons_2; [split; [reflexivity|split; [reflexivity|apply filter_workers; reflexivity]]|]). apply Forall_nil_2. }
    rewrite Forall_forall in Hall. exact (Hall _ Hin).
Qed.

(** ** package time: [ParseDuration]

    On bytes; a duration is a number of nanoseconds. *)
Definition max_int64 : Z := 2 ^ 63 - 1.

Definition is_digit (c : ascii) : bool := match digit_val c with Some _ => true | None => false end.

(** [leadingInt]; [None]: overflow. *)
Fixpoint leadingInt (x : Z) (l : list ascii) : option (Z * list ascii) :=
  match l with
  | [] => Some (x, [])
  | c :: l' =>
      match digit_val c with
      | None => Some (x, l)
      | Some d =>
          if max_int64 / 10 <? x then None
          else if max_int64 <? x * 10 + d then None
          else leadingInt (x * 10 + d) l'
      end
  end.

(** A [float64] is a number of the format with 53 bits. *)
Definition float64 (z : Z) : spec_float := binary_normalize 53 1024 z 0 false.

Definition fmul : spec_float -> spec_float -> spec_float := SFmul 53 1024.

Definition fdiv : spec_float -> spec_float -> spec_float := SFdiv 53 1024.

(** [int64(f)] of a number of that size, which is cut. *)
Definition int64_of (f : spec_float) : Z :=
  match f with
  | S754_finite s m e => (if s then Z.opp else id) (if 0 <=? e then Z.shiftl (Zpos m) e else Z.shiftr (Zpos m) (- e))
  | _ => 0
  end.

(** [leadingFraction]: digits that do not fit are skipped. *)
Fixpoint leadingFraction (x : Z) (scale : spec_float) (overflow : bool) (l : list ascii) : Z * spec_float * list ascii :=
  match l with
  | [] => (x, scale, [])
  | c :: l' =>
      match digit_val c with
      | None => (x, scale, l)
      | Some d =>
          if overflow then leadingFraction x scale true l'
          else if max_int64 / 10 <? x then leadingFraction x scale true l'
          else if max_int64 <? x * 10 + d then leadingFraction x scale true l'
          else leadingFraction (x * 10 + d) (fmul scale (float64 10)) false l'
      end
  end.

(** The bytes up to a digit or a period. *)
Fixpoint leadingUnit (l : list ascii) : list ascii * list ascii :=
  match l with
  | [] => ([], [])
  | c :: l' => if Ascii.eqb c "." || is_digit c then ([], l) else let '(u, rest) := leadingUnit l' in (c :: u, rest)
  end.

Definition unitMap : list (string * Z) :=
  [("ns", 1); ("us", 10 ^ 3); (of_bytes (ascii_of_nat <$> [194; 181; 115]%nat), 10 ^ 3); (of_bytes (ascii_of_nat <$> [206; 188; 115]%nat), 10 ^ 3);
   ("ms", 10 ^ 6); ("s", 10 ^ 9); ("m", 60 * 10 ^ 9); ("h", 3600 * 10 ^ 9)].

Definition unit_of (u : string) : option Z := snd <$> head (filter (fun p => p.1 = u) unitMap).

(** One round: a number with a unit, and what is left. *)
Definition duration_part (l : list ascii) : option (Z * list ascii) :=
  match l with
  | [] => None
  | c :: _ =>
      if negb (Ascii.eqb c "." || is_digit c) then None
      else
        match leadingInt 0 l with
        | None => None
        | Some (v, l1) =>
            let pre := negb (Nat.eqb (length l) (length l1)) in
            let '(f, scale, post, l2) :=
              match l1 with
              | "."%char :: l1' => let '(f, scale, l2) := leadingFraction 0 (float64 1) false l1' in (f, scale, negb (Nat.eqb (length l1') (length l2)), l2)
              | _ => (0, float64 1, false, l1)
              end in
            if negb pre && negb post then None
            else
              match leadingUnit l2 with
              | ([], _) => None
              | (u, l3) =>
                  match unit_of (of_bytes u) with
                  | None => None
                  | Some unit =>
                      if max_int64 / unit <? v then None
                      else
                        let v := v * unit in
                        let v := if 0 <? f then v + int64_of (fmul (float64 f) (fdiv (float64 unit) scale)) else v in
                        if max_int64 <? v then None else Some (v, l3)
                  end
              end
        end
  end.

Fixpoint duration_parts (fuel : nat) (d : Z) (l : list ascii) : option Z :=
  match l with
  | [] => Some d
  | _ =>
      match fuel with
      | O => None
      | S fuel =>
          match duration_part l with
          | None => None
          | Some (v, l') => if max_int64 <? d + v then None else duration_parts fuel (d + v) l'
          end
      end
  end.

(** Whether there is a minus, and what follows the sign. *)
Definition duration_sign (l : list ascii) : bool * list ascii :=
  match l with
  | "-"%char :: l' => (true, l')
  | "+"%char :: l' => (false, l')
  | _ => (false, l)
  end.

(** [None] is an error. *)
Definition ParseDuration (s : string) : option Z :=
  let '(neg, l) := duration_sign (bytes_of s) in
  if bool_decide (l = ["0"%char]) then Some 0
  else match l with
       | [] => None
       | _ => (if neg : bool then Z.opp else id) <$> duration_parts (length l) 0 l
       end.

Example durations :
  ParseDuration <$> ["45s"; "1h15m30.918273645s"; "-1.5h"; "0"; ".3s"; "3000000h"; "1"; ""; "1x"; "0.000000000001h"] =
  [Some 45000000000; Some 4530918273645; Some (-5400000000000); Some 0; Some 300000000; None; None; None; None; Some 3].
Proof. vm_compute. reflexivity. Qed.

(** Every round takes at least the unit off, so the length of the text is enough fuel. *)
Lemma leadingInt_shorter x l v l' : leadingInt x l = Some (v, l') -> (length l' <= length l)%nat.
Proof.
  revert x. induction l as [|c l IH]; intros x; cbn; [by intros [= _ <-]|]. destruct (digit_val c); [|by intros [= _ <-]].
  destruct (max_int64 / 10 <? x); [done|]. destruct (max_int64 <? x * 10 + z); [done|]. intros H%IH. lia.
Qed.

Lemma leadingFraction_shorter x scale o l : (length (leadingFraction x scale o l).2 <= length l)%nat.
Proof.
  revert x scale o. induction l as [|c l IH]; intros x scale o; cbn; [done|]. destruct (digit_val c); [|done].
  destruct o; [|destruct (max_int64 / 10 <? x); [|destruct (max_int64 <? x * 10 + z)]]; (etransitivity; [apply IH|lia]).
Qed.

Lemma leadingUnit_shorter l : length l = (length (leadingUnit l).1 + length (leadingUnit l).2)%nat.
Proof. induction l as [|c l IH]; [done|]. cbn. destruct (_ || _); [done|]. destruct (leadingUnit l). cbn in *. lia. Qed.

Lemma duration_part_shorter l v l' : duration_part l = Some (v, l') -> (length l' < length l)%nat.
Proof.
  unfold duration_part. destruct l as [|c l]; [done|]. destruct (negb (_ || _)); [done|].
  destruct (leadingInt 0 (c :: l)) as [[x l1]|] eqn:E1; [|done]. apply leadingInt_shorter in E1.
  set (fr := match l1 with [] => _ | _ => _ end). assert (length fr.2 <= length l1)%nat as Hfr.
  { unfold fr. destruct l1 as [|c1 l1]; [done|]. pose proof (leadingFraction_shorter 0 (float64 1) false l1).
    destruct (leadingFraction _ _ _ l1) as [[f sc] l2]. cbn in H. repeat case_match; cbn; lia. }
  destruct fr as [[[f scale] post] l2]. cbn in Hfr. destruct (_ && _); [done|].
  pose proof (leadingUnit_shorter l2) as Hu. destruct (leadingUnit l2) as [[|u us] l3]; [done|]. destruct (unit_of _); [|done].
  destruct (max_int64 / _ <? x); [done|]. destruct (max_int64 <? _); [done|]. intros [= _ <-]. cbn in *. lia.
Qed.

Lemma duration_parts_fuel n m d l : (length l <= n)%nat -> (length l <= m)%nat -> duration_parts n d l = duration_parts m d l.
Proof.
  revert m d l. induction n as [|n IH]; intros m d [|c l] Hn Hm; [by destruct m|cbn in Hn; lia|by destruct m|].
  destruct m as [|m]; [cbn in Hm; lia|]. cbn [duration_parts].
  destruct (duration_part (c :: l)) as [[v l']|] eqn:E; [|done]. apply duration_part_shorter in E. destruct (_ <? _); [done|]. apply IH; cbn in *; lia.
Qed.

(** ** Options of the plugins: options.go of both

    [Deps] of the plugin [controller] and of the plugin [k8scrd], which has the former among them; [P]: what names a plugin of
    the library. *)
Record Deps (P C : Type) : Type := mkDeps {
  PluginName : string;
  Log : option string;
  Etcd : option P;
  HTTPHandlers : option P;
  StatusCheck : option P;
  Controller_ : C
}.

Arguments mkDeps {P C}.
Arguments PluginName {P C} d.
Arguments Log {P C} d.
Arguments Etcd {P C} d.
Arguments HTTPHandlers {P C} d.
Arguments StatusCheck {P C} d.
Arguments Controller_ {P C} d.

Definition with_Log {P C} v (d : Deps P C) : Deps P C := mkDeps (PluginName d) v (Etcd d) (HTTPHandlers d) (StatusCheck d) (Controller_ d).

(** [UseDeps] makes an option of a function that changes the dependencies of the plugin, of which nothing else is set here. *)
Definition UseDeps {P C} (cb : Deps P C -> Deps P C) : Deps P C -> Deps P C := cb.

(** [NewPlugin] of both: the options in their order, then a logger if none of them gave one. *)
Definition NewPlugin_named {P C} (name : string) (none : C) (opts : list (Deps P C -> Deps P C)) : Deps P C :=
  let p := foldl (fun p o => o p) (mkDeps name None None None None none) opts in
  match Log p with None => with_Log (Some (PluginName p)) p | Some _ => p end.

Definition controller_NewPlugin {P} (opts : list (Deps P unit -> Deps P unit)) : Deps P unit := NewPlugin_named "Controller" tt opts.

Definition k8scrd_NewPlugin {P} (opts : list (Deps P (option (Deps P unit)) -> Deps P (option (Deps P unit)))) : Deps P (option (Deps P unit)) :=
  NewPlugin_named "k8sCRD" None opts.

(** ** sfc_controller.go *)
Inductive library : Type := LogManager | Rest | HealthProbe | EtcdPlugin | StatusCheckPlugin.

Record SfcController : Type := mkSfcController {
  sc_LogManager : library;
  sc_HTTP : library;
  sc_HealthProbe : library;
  sc_ETCD : library;
  sc_Sfc : Deps library unit
}.

Definition getStartupTimeout (env : string -> string) : Z :=
  match ParseDuration (env "STARTUPTIMEOUT") with
  | Some timeout => timeout
  | None => 45 * 10 ^ 9
  end.

(** [agent_Run]: the agent of the library, which starts the plugins, with its error. *)
Definition main {S} (agent_Run : SfcController -> Z -> M S (option error)) (env : string -> string) : M S unit :=
  let sfcPlugin := controller_NewPlugin [UseDeps (fun deps =>
    mkDeps (PluginName deps) (Log deps) (Some EtcdPlugin) (Some Rest) (Some StatusCheckPlugin) (Controller_ deps))] in
  let sfcAgent := mkSfcController LogManager Rest HealthProbe EtcdPlugin sfcPlugin in
  let! err := agent_Run sfcAgent (getStartupTimeout env) in
  match err with
  | Some _ => panic
  | None => mret tt
  end.

(** ** pkg/signals: the handler of the signals of [SetupSignalHandler] *)
Inductive signal_handler : Type := Waiting | StopClosed | Exited.

Definition on_signal (s : signal_handler) : signal_handler :=
  match s with Waiting => StopClosed | StopClosed => Exited | Exited => Exited end.

(** ** plugin_impl_k8scrd.go *)
Inductive goroutine : Type :=
| HandlesSignals
| StartsKubeInformers (* of the library's own factory, which has no informers *)
| StartsInformers
| RunsController (threadiness : nat)
| Watches (modelType : string).

Record K8sPlugin : Type := mkK8sPlugin {
  onlyOneSignalHandler_closed : bool;
  CrdController : option Controller;
  sfcKubeInformerFactory : option sharedInformerFactory;
  RegisteredManagers : list string;
  goroutines : list goroutine
}.

Definition go_ (g : goroutine) : M K8sPlugin unit :=
  modify (fun p => mkK8sPlugin (onlyOneSignalHandler_closed p) (CrdController p) (sfcKubeInformerFactory p) (RegisteredManagers p) (goroutines p ++ [g])).

(** [close] of a channel that is closed panics. *)
Definition SetupSignalHandler : M K8sPlugin unit :=
  let! closed := get onlyOneSignalHandler_closed in
  if closed : bool then panic
  else
    modify (fun p => mkK8sPlugin true (CrdController p) (sfcKubeInformerFactory p) (RegisteredManagers p) (goroutines p)) ;;;
    go_ HandlesSignals.

(** [log.Fatalf] of an error. *)
Definition or_fatal {S A} (r : error + A) : M S A := match r with inl _ => panic | inr a => mret a end.

Section start.
Context (encode : ListOptions -> error + Values).

(** What the library makes of a file and of a configuration: the configuration, the other two clients, the error of the
    transport and of the discovery client. *)
Context (BuildConfigFromFlags : string -> error + Config) (kubernetes_NewForConfig apiext_NewForConfig : Config -> error + unit).
Context (userAgent : string) (transport : Config -> option error) (NewDiscoveryClientForConfig : Config -> option error).

(** clientset.go; the limit of the rate of requests is left out. *)
Definition clientset_NewForConfig (c : Config) : error + RESTClient :=
  match NewForConfig userAgent transport c with
  | inl e => inl e
  | inr cs => match NewDiscoveryClientForConfig c with Some e => inl e | None => inr cs end
  end.

Definition initK8sCRDProcessing (kubeconfig : string) : M K8sPlugin unit :=
  SetupSignalHandler ;;;
  let! cfg := or_fatal (BuildConfigFromFlags kubeconfig) in
  or_fatal (kubernetes_NewForConfig cfg) ;;;
  or_fatal (apiext_NewForConfig cfg) ;;;
  let! sfcKubeClient := or_fatal (clientset_NewForConfig cfg) in
  let factory := NewSharedInformerFactory sfcKubeClient (30 * 10 ^ 9) in
  match NewController encode factory with
  | Panic => panic
  | Done controller factory =>
      modify (fun p => mkK8sPlugin (onlyOneSignalHandler_closed p) (Some controller) (Some factory) (RegisteredManagers p) (goroutines p)) ;;;
      go_ StartsKubeInformers ;;;
      go_ StartsInformers ;;;
      go_ (RunsController 2)
  end.

Definition RegisterModelType (modelTypeName : string) : M K8sPlugin unit :=
  modify (fun p => mkK8sPlugin (onlyOneSignalHandler_closed p) (CrdController p) (sfcKubeInformerFactory p) (RegisteredManagers p ++ [modelTypeName]) (goroutines p)).

Definition RegisterModelTypeManagers : M K8sPlugin unit :=
  RegisterModelType ModelTypeIPAMPool ;;;
  RegisterModelType ModelTypeNetworkNodeOverlay ;;;
  RegisterModelType ModelTypeNetworkNode ;;;
  RegisterModelType ModelTypeNetworkService.

(** [Init] of each manager has no body. *)
Definition initMgrs : M K8sPlugin unit :=
  let! mgrs := get RegisteredManagers in forM mgrs (fun _ => mret tt).

Definition Init (kubeconfig : string) : M K8sPlugin (result unit) :=
  RegisterModelTypeManagers ;;;
  initMgrs ;;;
  (if negb (String.eqb kubeconfig "") then initK8sCRDProcessing kubeconfig else mret tt) ;;;
  mok tt.

(** [AfterInit] of each manager starts its watcher. *)
Definition afterInitMgrs : M K8sPlugin unit :=
  let! mgrs := get RegisteredManagers in forM mgrs (fun m => go_ (Watches m)).

Definition AfterInit : M K8sPlugin (result unit) :=
  afterInitMgrs ;;;
  mok tt.
End start.

(** ** What the programs start *)

(** The dependencies that the plugin uses are all there, and the plugin of Kubernetes is not part of the program. *)
Lemma main_runs {S} agent_Run env (s : S) :
  main agent_Run env s =
  mbnd (agent_Run (mkSfcController LogManager Rest HealthProbe EtcdPlugin
          (mkDeps "Controller" (Some "Controller") (Some EtcdPlugin) (Some Rest) (Some StatusCheckPlugin) tt)) (getStartupTimeout env))
    (fun err => match err with Some _ => panic | None => mret tt end) s.
Proof. done. Qed.

Definition stopped_plugin : K8sPlugin := mkK8sPlugin false None None [] [].

Lemma watchers_run p mgrs : RegisteredManagers p = mgrs ->
  AfterInit p = Done (Ok tt) (mkK8sPlugin (onlyOneSignalHandler_closed p) (CrdController p) (sfcKubeInformerFactory p) mgrs (goroutines p ++ (Watches <$> mgrs))).
Proof.
  intros <-. unfold AfterInit, afterInitMgrs, mbnd, get. destruct p as [closed crd factory mgrs gs]. cbn.
  assert (forall l gs, forM l (fun m => go_ (Watches m)) (mkK8sPlugin closed crd factory mgrs gs) = Done tt (mkK8sPlugin closed crd factory mgrs (gs ++ (Watches <$> l)))) as ->; [|done].
  induction l as [|m l IH]; intros gs'; cbn [forM]; [by rewrite app_nil_r|]. unfold mbnd at 1. unfold go_ at 1, modify at 1. cbn. rewrite IH.
  by rewrite <- app_assoc.
Qed.

(** The start of the plugin with a configuration: it ends the process when the library refuses, and otherwise
    the controller is wired and everything runs. *)
Lemma plugin_starts encode build kube apiext ua transport discovery kubeconfig cfg c :
  kubeconfig <> "" -> build kubeconfig = inr cfg -> kube cfg = inr tt -> apiext cfg = inr tt -> clientset_NewForConfig ua transport discovery cfg = inr c ->
  (let! r := Init encode build kube apiext ua transport discovery kubeconfig in AfterInit) stopped_plugin =
  Done (Ok tt) (mkK8sPlugin true (Some wired_controller) (Some (wired_factory encode c (30 * 10 ^ 9)))
    [ModelTypeIPAMPool; ModelTypeNetworkNodeOverlay; ModelTypeNetworkNode; ModelTypeNetworkService]
    [HandlesSignals; StartsKubeInformers; StartsInformers; RunsController 2; Watches ModelTypeIPAMPool; Watches ModelTypeNetworkNodeOverlay;
     Watches ModelTypeNetworkNode; Watches ModelTypeNetworkService]).
Proof.
  intros Hk Hb Hku Ha Hc. unfold mbnd at 1. unfold Init, initK8sCRDProcessing. rewrite (proj2 (String.eqb_neq _ _) Hk), Hb. cbn [negb or_fatal].
  change (mbnd (mret cfg) ?k) with (k cfg). cbv beta. rewrite Hku, Ha, Hc. reflexivity.
Qed.

(** Without a configuration there is no controller, but the watchers run. *)
Lemma plugin_starts_without encode build kube apiext ua transport discovery :
  (let! r := Init encode build kube apiext ua transport discovery "" in AfterInit) stopped_plugin =
  Done (Ok tt) (mkK8sPlugin false None None
    [ModelTypeIPAMPool; ModelTypeNetworkNodeOverlay; ModelTypeNetworkNode; ModelTypeNetworkService]
    [Watches ModelTypeIPAMPool; Watches ModelTypeNetworkNodeOverlay; Watches ModelTypeNetworkNode; Watches ModelTypeNetworkService]).
Proof. reflexivity. Qed.

(** A number of seconds that fits is the time the program waits, and what is no duration is 45 seconds. *)
Lemma leadingInt_val s n rest : digits_val 0 s = Some n -> n <= max_int64 -> match rest with [] => True | c :: _ => digit_val c = None end ->
  leadingInt 0 (bytes_of s ++ rest) = Some (n, rest).
Proof.
  assert (forall x, 0 <= x -> digits_val x s = Some n -> x <= n /\ (n <= max_int64 -> match rest with [] => True | c :: _ => digit_val c = None end ->
    leadingInt x (bytes_of s ++ rest) = Some (n, rest))) as H.
  { induction s as [|c s IH]; intros x Hx; cbn.
    - intros [= ->]. split; [done|]. intros _ Hr. destruct rest as [|c rest]; [done|]. cbn. by rewrite Hr.
    - destruct (digit_val c) as [d|] eqn:Hd; [|done]. assert (0 <= d) as Hd0.
      { unfold digit_val in Hd. destruct (_ && _) eqn:E; [|done]. injection Hd as <-. apply andb_prop in E as [?%Z.leb_le _]. lia. }
      intros Hn. destruct (IH (x * 10 + d) ltac:(lia) Hn) as [Hle Hrun]. split; [lia|]. intros Hmax Hr.
      rewrite (proj2 (Z.ltb_ge _ _)) by (apply Z.div_le_lower_bound; lia). rewrite (proj2 (Z.ltb_ge _ _)) by lia. by apply Hrun. }
  intros Hn. by apply (H 0).
Qed.

Lemma seconds_part c s n : digits_val 0 (String.String c s) = Some n -> n * 10 ^ 9 <= max_int64 ->
  is_digit c = true /\ duration_part (bytes_of (String.String c s) ++ ["s"%char]) = Some (n * 10 ^ 9, []).
Proof.
  intros Hn Hmax. assert (is_digit c = true) as Hc by (cbn in Hn; unfold is_digit; by destruct (digit_val c)). split; [done|].
  assert (n <= max_int64) as Hle by (unfold max_int64 in *; lia). pose proof (leadingInt_val _ _ ["s"%char] Hn Hle eq_refl) as Hrun.
  cbn [bytes_of String.list_ascii_of_string app] in *. unfold duration_part. rewrite Hc, orb_true_r. cbn [negb]. rewrite Hrun.
  replace (Nat.eqb (length (c :: _)) (length ["s"%char])) with false by (symmetry; apply Nat.eqb_neq; cbn; rewrite length_app; cbn; lia).
  change (0 <? 0) with false. change (leadingUnit ["s"%char]) with (["s"%char], @nil ascii). cbn [negb andb].
  change (unit_of (of_bytes ["s"%char])) with (Some (10 ^ 9)). cbv iota.
  by rewrite (proj2 (Z.ltb_ge (max_int64 / 10 ^ 9) n)), (proj2 (Z.ltb_ge max_int64 (n * 10 ^ 9))) by (try apply Z.div_le_lower_bound; lia).
Qed.

Lemma startup_timeout env s n : env "STARTUPTIMEOUT" = s +:+ "s" -> unsigned_val s = Some n -> n * 10 ^ 9 <= max_int64 ->
  getStartupTimeout env = n * 10 ^ 9.
Proof.
  unfold getStartupTimeout. intros -> Hv Hmax. destruct s as [|c s]; [done|]. destruct (seconds_part c s n Hv Hmax) as [Hc Hpart].
  unfold ParseDuration. rewrite bytes_of_app. change (bytes_of "s") with ["s"%char].
  set (l := bytes_of (String.String c s) ++ ["s"%char]) in *.
  assert (l = c :: (bytes_of s ++ ["s"%char])) as Hl by done. clearbody l.
  assert (duration_parts (length l) 0 l = Some (n * 10 ^ 9)) as Hparts.
  { rewrite Hl in *. cbn [length duration_parts]. rewrite Hpart. rewrite (proj2 (Z.ltb_ge _ _)) by lia. cbn. destruct (length _); done. }
  assert (bool_decide (l = ["0"%char]) = false) as Hz.
  { apply bool_decide_eq_false_2. rewrite Hl. intros [= _ H]. by destruct (bytes_of s). }
  assert (duration_sign l = (false, l)) as ->.
  { rewrite Hl. destruct c as [[] [] [] [] [] [] [] []]; done. }
  rewrite Hz, Hparts. by rewrite Hl.
Qed.

(** ** Witness: two workers for a kind, and the informers started twice *)
Definition demo_encode (o : ListOptions) : error + Values := inr (if Watch_ o then {["watch" := ["true"]]} else ∅).

Lemma NewController_wires_witness :
  wp (let! ctl := NewController demo_encode in
      forM [id; @rev string] (fun order => Start order) ;;;
      let! run := Run ctl 2 (fun _ => true) in mret (ctl, run)) (fun r f =>
    cells (informer_heap f) !! lister (networkNodes r.1) =
      Some (informer_of demo_encode demo_client 30 kind_NetworkNode (workqueue (networkNodes r.1)) 1) /\
    filter (fun g => g.1 = workqueue (networkNodes r.1)) r.2.1 =
      [(workqueue (networkNodes r.1), kind_NetworkNode); (workqueue (networkNodes r.1), kind_NetworkNode)])
    (NewSharedInformerFactory demo_client 30).
Proof.
  eapply wp_conseq.
  - apply (NewController_wires demo_encode demo_client 30 [id; @rev string] 2 (fun _ => true)); [discriminate| |reflexivity].
    repeat apply Forall_cons_2; [done|intros l; by rewrite <- Permutation_rev|apply Forall_nil_2].
  - intros [ctl [workers shut]] f (_ & _ & _ & _ & H).
    destruct (H kind_NetworkNode (networkNodes ctl)) as (_ & Hi & Hw); [unfold wires; member|]. split; [exact Hi|exact Hw].
Defined.
End Wiring.
